(* ===== verification/_CoqProject ===== *)
-Q . S2P
Prelude.v
PyStr.v
Codec.v
Text.v
Digest.v
Json.v
Datetime.v
World.v
Errors.v
Discovery.v
Logging.v
Pkce.v
Envelope.v
IpAddr.v
UrlLib.v
QueryString.v
RedirectUri.v
Cache.v
Uuid.v
Assertion.v
Fetcher.v
CimdService.v
Config.v
Register.v
Authorize.v
Callback.v
Token.v
Flow.v
Correlation.v
PatFormat.v
PatStore.v
Keycloak.v
Pat.v
PatExchange.v
PatCreate.v
PatApi.v
PatFlow.v
Interleave.v
App.v
Agreement.v
Cli.v
CliSpec.v
Receiver.v
CliFlow.v
ArgParse.v
CliArgs.v
RedRuns.v
Jwt.v
Probe.v
ProbeRun.v
