(* ===== verification/Prelude.v ===== *)
(** * cimd-proxy: a verification library

    cimd-proxy is an OAuth 2.1 proxy: outward it accepts clients that are known
    by a metadata document at their [client_id] URL (CIMD) or registered
    dynamically, inward it federates to Keycloak.  It keeps no session: what it
    has to remember travels with the browser and the client, sealed.  The second
    half issues personal access tokens, the only thing it stores.  This library
    translates the program under [src/src/cimd_proxy/] definition by definition
    and proves what makes it correct.  Module names follow the source files.

    ** The parts

    Foundations, the language and its standard library as far as the program uses
    them: [Prelude] (strings, dictionaries, exceptions, results, tactics and hint
    databases), [PyStr] (the methods of [str]), [Codec] (base64url, UTF-8, bytes and
    integers), [Text] (text files), [Digest] (SHA-256, CRC-32), [Json] (the module [json]), [Datetime],
    [World] (clocks, randomness, DNS, HTTP, log and database as effects), [UrlLib]
    and [QueryString] ([urllib.parse]), [IpAddr] ([ipaddress]), [Uuid].

    The interactive flow: [Errors] (errors.py, upstream.py), [Discovery], [Logging]
    (logging_setup.py: sanitising, redaction, the formatter, the handlers), [Pkce] (pkce.py, correlation.py),
    [Envelope] (the four sealed messages and the codec), [RedirectUri], [Cache],
    [Fetcher] and [CimdService] (the metadata document, from its URL to the cache),
    [Assertion] (keys, JWKS, signed assertions), [Config] (config.py), and the
    endpoints [Register], [Authorize], [Callback], [Token]; [Flow] composes the last
    three, and [Correlation] follows the correlation id through them.

    Personal access tokens: [PatFormat] (the string), [PatStore] (pat_store.py, the
    table of the SQL migration and migrations/__init__.py), [Keycloak] (keycloak.py),
    [Pat] (pat.py, all definitions), [PatExchange] and [PatCreate] (its theorems),
    [PatApi] (pat_api.py); [PatFlow] composes creation, store and token endpoint, and
    [Interleave] lets other requests run at the awaits.

    The process: [App] (app.py, __main__.py, the opening and closing of the pool):
    what is built from a configuration, the handler behind each route, the lifespan,
    the state [AppState] and its invariants; [Agreement] looks at histories of
    requests to any number of processes over one key.  The client: [Cli] (pat_cli.py,
    from the parsed options), [CliSpec] (its theorems), [Receiver] (its
    loopback listener with its threads), [CliFlow], where it meets the
    proxy's own [/register] and [/callback], [ArgParse] (the module argparse) and
    [CliArgs] (the parsers and the console scripts).  [RedRuns] is the script under
    measurements/pat-red-runs that checks the gates of personal access tokens; [Jwt],
    [Probe] and [ProbeRun] are the one under measurements/jwt-authorization-grant that
    measures what a Keycloak grants for an assertion: reading a token, the calls, the
    sequence of probes.

    ** How the code is translated

    A Python [str] is the list of its code points, [bytes] the list of its bytes, a
    [dict] an association list in insertion order, a JSON value the type [json], an
    aware [datetime] its instant in microseconds and its offset.  A pure function
    that may raise returns [res]; one exception class is one constructor of [exn],
    and what the code does not catch leaves the handler as [Raise] (a status 500).
    An [async def] with effects is [io X]: from the program state [X] and the trace
    of the effects so far to a result and the next state.  The outside answers
    through the class [Outside], an oracle that may depend on the whole trace, so a
    theorem holds for every peer, clock and failure that its hypotheses do not
    exclude.  The mutable state of the program is the cache of documents ([HasCache])
    and the token table ([HasDb]); both are reached through a class, and everything
    else is proved to leave them alone ([keeps]).

    Third-party code is a parameter with the documented properties a theorem needs
    as named laws: [Fernet] and [FernetLaws] (authenticated encryption), [Rsa] and
    [RsaLaws] (signing keys and PEM), [FS] (the key files), [FloatRepr] (how a float prints),
    [Terminal] (the listener's port and the requests that reached it), [uvicorn_run],
    [Script] (key generation, arithmetic on floats and the fetches of the JWKS in the
    measurement),
    [OutsideLaws] and [ClockLaws] (random bytes have the length asked for, the clock
    fits 64 bits).  Each has a toy instance, which the witnesses evaluate.  What
    FastAPI makes of a request -- parsed query and form parameters, the outcome of
    [request.json()] -- is an argument of the handler.

    Interfaces between the parts: [HasCache]/[HasCacheLaws] (what the document
    service needs of the cache), [ExchangeService] (what [/token] asks of the
    service for personal tokens), [PatStore]/[PatStoreSpec] (what that service is
    promised by the store: an abstract map, call by call).  The clients are proved
    against the interface; [PostgresPatStore] implements it ([postgres_spec]).

    ** What is shown

    - The interactive flow: what a request must have for the browser to be sent on,
      from the document its redirect URI matches to every parameter of the location
      and what its [state] opens to ([authorize_redirects]), what comes back to the client ([callback_hands_on]),
      what redeems a code and a refresh token ([token_redeems_code],
      [token_refreshes], [upstream_reply_handed_on]); that a login which goes right
      ends in a token, with the upstream asked in the form written out in [redeems]
      ([code_flow_completes]); and the errors of each endpoint.
    - What a request that succeeds says of those before it: a redeemed code goes back
      to one callback and one authorization that agree with it ([code_agreement]),
      a refresh token to the reply it came in ([refresh_agreement]), a registered
      client to its registration ([registration_agreement]).
    - Sealing: round trip, separation of the kinds, expiry, forgeries.
    - The metadata document: one request, whose URL names a checked address and no
      host ([fetch_pins_checked_address]), the addresses that pass the check, as ranges
      of numbers ([resolved_ranges]), its rules, the cache as a
      refinement of its log and the invariant of its contents, also when requests
      interleave ([interleaved_documents]).
    - Registration of exactly the conforming bodies ([register_sealed]), redirect
      URIs, PKCE, the configuration and its tables, assertions claim by claim
      ([assertion_says]), logging without secrets.
    - Personal access tokens: the table refines a map ([postgres_implements_map])
      whose tokens never change and stay revoked ([stored_tokens_immutable]); what a
      token buys, down to the words of the scope ([exchange_entitled]), that a revoked one buys nothing, ever
      ([revoked_token_is_dead]), that others at work in between change none of this
      ([interleaved_exchange]), how refusals are ordered; who may manage tokens and
      what a creation makes ([authenticate_caller], [create_spec],
      [management_effects]); that a created token works
      ([created_token_exchanges]).
    - The process: its invariants in every reachable state, with other processes on
      the same table ([app_reachable]); nothing is served on a schema behind the code
      ([lifespan_guards]); which configurations can be built
      ([loaded_config_builds]); the grants announced are the grants served
      ([announced_grants]); one correlation id per flow ([one_correlation_id]).
    - The command line: a sign-in ends in a token only through a redirect that
      answers this sign-in ([sign_in_spec], [check_redirect_spec]), the bearer token
      travels in one header to the management endpoint of its issuer, and nothing
      printed later depends on it but through the reply ([bearer_only_to_proxy]), a created
      token is printed once ([create_prints_once]), and what [/callback] sends is
      what the listener takes ([callback_reaches_cli]); its threads behave like one
      request after the other ([receiver_linearizable]) and always finish
      ([receiver_drains]); every set of options can be
      written on its command line ([create_line_roundtrip]).
    - The red-run script: the sources are restored however a run ends
      ([run_restores]), and exit code 0 means every gate was seen red
      ([main_verdict]).
    - The measurement: an assertion says what was asked for when it is read back
      ([assertion_read_back]), every probe is recorded once and exit code 0 means that
      the outcomes agree ([run_verdict]), the disabled user is enabled again
      ([disabled_restores]), and nobody but the given Keycloak is asked
      ([run_destinations]).

    Theorems numbered C1, C2, ... are the main properties; where one has hypotheses,
    the lemma [<name>_witness] applies it to a concrete run.

    ** Fuel and bounds

    Recursion that is not structural takes fuel.  [loads] gives the parser one unit
    per character and one more ([loads_total]: it never runs out); the loops over
    the environment get one unit more than there are variables
    ([load_resources_total], [load_keys_total], and for the whole configuration
    [load_config_terminates]); [remove_str] the length of the text.
    Integers are Python's, unbounded, but where a width is part of the format:
    SHA-256 and CRC-32 wrap at 32 bits, base 62 and UUIDs have fixed widths, a
    Fernet timestamp 64 bits, [int] of more than 4300 digits is refused, and dates
    end with the year 9999.

    ** What is not modelled, and why

    How FastAPI and Starlette match a path, parse a request and render a response;
    uvicorn; sockets, TLS, DNS and the timeouts of httpx, the driver and the server
    of the database (the oracle answers in their place, and may fail at any call);
    the help texts and the exit status of argparse; the loopback listener's sockets
    (a connection is a thread with its request target), and a terminal that cannot be written to; the recursion limit of
    [json].  The server of the measurement's JWKS answers while the script waits, not at
    any other moment.  A subject that introspection reports is taken to be a
    text, as RFC 7662 defines it: for another value the model stops with a
    [TypeError], and what the driver and the server would make of it is left
    open.  A handler's run is one run; what other requests do to the table and the cache at its awaits
    is [PatStore.step], [App.app_step] and, statement by statement, [Interleave].  A
    revocation that arrives between the lookup and the answer of an exchange does not
    stop that exchange -- in the program as in the model.  That nobody else has the
    key is a hypothesis on the tokens a history presents ([Agreement.genuine]), since
    it is no law of the cipher's function. *)

From stdpp Require Export base tactics option list strings gmap.
From Stdlib Require Export NArith ZArith Lia ZifyNat ZifyN ZifyBool.
From Stdlib Require Import Ascii.

#[global] Open Scope Z_scope.
#[global] Open Scope list_scope.

(** ** Python strings and bytes

    A [str] is the list of its code points, a [bytes] object the list of its
    byte values.  [u "..."] is the literal: an ASCII string read as code
    points. *)
Abbreviation pystr := (list N).
Abbreviation bytes := (list N).

Definition u (s : string) : pystr :=
  N_of_ascii <$> String.list_ascii_of_string s.
Arguments u s%_string_scope : simpl never.

(** The double quote cannot be written inside a literal; it is a code point. *)
Definition dquote : N := 34%N.

(** ** Exceptions

    One constructor per exception class the program raises or lets escape.
    [FetchKind] separates the subclasses of [fetcher.FetchError]. *)
Inductive FetchKind := KFetchError | KSSRFRefused | KDocumentInvalid.

Inductive exn :=
  | OAuthError (error description : pystr) (status_code : Z)
  | ManagementError (status_code : Z) (error description : pystr)
  | RegistrationError (error description : pystr) (status_code : Z)
  | EnvelopeError (msg : pystr)
  | RedirectUriRefused (msg : pystr)
  | FetchError (kind : FetchKind) (msg : pystr)
  | ConfigError (msg : pystr)
  | SigningKeyError (msg : pystr)
  | LinkConflict (msg : pystr)
  | SchemaBehind (msg : pystr)
  | CliError (msg : pystr)
  | HTTPError (name msg : pystr)
  | ValueError (msg : pystr)
  | UnicodeError (msg : pystr)
  | JSONDecodeError (msg : pystr)
  | TypeError (msg : pystr)
  | KeyError (msg : pystr)
  | AttributeError (msg : pystr)
  | OverflowError (msg : pystr)
  | RuntimeError (msg : pystr)
  | IndexError (msg : pystr)
  | DatabaseError (msg : pystr)
  | SystemExit (msg : pystr)
  | FileNotFoundError (path : pystr)
  | AssertionError
  | StopIteration
  | OSError (msg : pystr).

#[export] Instance FetchKind_eq_dec : EqDecision FetchKind.
Proof. solve_decision. Defined.
#[export] Instance exn_eq_dec : EqDecision exn.
Proof. solve_decision. Defined.

(** [except ValueError] also catches the subclasses of [ValueError]. *)
Definition is_ValueError (e : exn) : bool :=
  match e with
  | ValueError _ | UnicodeError _ | JSONDecodeError _ | SigningKeyError _ => true
  | _ => false
  end.

Definition is_OAuthError (e : exn) : bool :=
  match e with OAuthError _ _ _ => true | _ => false end.

Definition is_EnvelopeError (e : exn) : bool :=
  match e with EnvelopeError _ => true | _ => false end.

(** ** The result of a call: a value or a raised exception *)
Inductive res (A : Type) :=
  | Ok (a : A)
  | Raise (e : exn).
Arguments Ok {A} a.
Arguments Raise {A} e.

#[export] Instance res_ret : MRet res := @Ok.
#[export] Instance res_bind : MBind res := λ A B f m,
  match m with Ok a => f a | Raise e => Raise e end.
#[export] Instance res_fmap : FMap res := λ A B f m,
  match m with Ok a => Ok (f a) | Raise e => Raise e end.

#[export] Instance res_eq_dec `{EqDecision A} : EqDecision (res A).
Proof. solve_decision. Defined.

(** [try m except e if caught: h e]. *)
Definition try_except {A} (m : res A) (caught : exn → bool) (h : exn → res A) : res A :=
  match m with
  | Ok a => Ok a
  | Raise e => if caught e then h e else Raise e
  end.

Definition is_Ok {A} (m : res A) : bool :=
  match m with Ok _ => true | Raise _ => false end.

(** Python's [all(f(x) for x in l)] and a [for] loop whose body may raise. *)
Fixpoint for_each {A} (f : A → res unit) (l : list A) : res unit :=
  match l with
  | [] => Ok tt
  | x :: l' => _ ← f x; for_each f l'
  end.

Fixpoint map_res {A B} (f : A → res B) (l : list A) : res (list B) :=
  match l with
  | [] => Ok []
  | x :: l' => y ← f x; ys ← map_res f l'; Ok (y :: ys)
  end.

(** [any(f(x) for x in l)]: stops at the first hit, or at the first exception. *)
Fixpoint any_res {A} (f : A → res bool) (l : list A) : res bool :=
  match l with
  | [] => Ok false
  | x :: l' => b ← f x; if b : bool then Ok true else any_res f l'
  end.

(** ** Dictionaries

    A Python [dict] keeps insertion order, so it is an association list with
    the operations of the language: lookup, assignment (in place, else
    appended), [pop]. *)
Abbreviation dict A := (list (pystr * A)).

Section Dict.
Context {A : Type}.
Implicit Types (d : dict A) (k : pystr).

Fixpoint dict_get d k : option A :=
  match d with
  | [] => None
  | (k', v) :: d' => if decide (k = k') then Some v else dict_get d' k
  end.

Fixpoint dict_set d k (v : A) : dict A :=
  match d with
  | [] => [(k, v)]
  | (k', v') :: d' =>
      if decide (k = k') then (k', v) :: d' else (k', v') :: dict_set d' k v
  end.

Fixpoint dict_pop d k : dict A :=
  match d with
  | [] => []
  | (k', v) :: d' => if decide (k = k') then d' else (k', v) :: dict_pop d' k
  end.

Definition dict_mem d k : bool :=
  match dict_get d k with Some _ => true | None => false end.

Definition dict_get_default d k (v : A) : A := default v (dict_get d k).

(** A dictionary proper: no key twice. *)
Definition dict_wf d : Prop := NoDup d.*1.
End Dict.

(** ** Generic lemmas *)

Create HintDb py discriminated.
Create Rewrite HintDb py.

Section DictLemmas.
Context {A : Type}.
Implicit Types (d : dict A) (k : pystr).

Lemma dict_get_set_eq d k v : dict_get (dict_set d k v) k = Some v.
Proof.
  induction d as [|[k' v'] d IH]; simpl; [by rewrite decide_True|].
  case_decide; simpl; [by rewrite decide_True|by rewrite decide_False].
Qed.

Lemma dict_get_set_ne d k k' v :
  k ≠ k' → dict_get (dict_set d k v) k' = dict_get d k'.
Proof.
  intros Hne. induction d as [|[k1 v1] d IH]; simpl; [by rewrite decide_False|].
  case_decide; subst; simpl; [by rewrite !decide_False by done|].
  by case_decide.
Qed.

Lemma dict_get_pop_ne d k k' :
  k ≠ k' → dict_get (dict_pop d k) k' = dict_get d k'.
Proof.
  intros Hne. induction d as [|[k1 v1] d IH]; simpl; [done|].
  case_decide; subst; simpl; [by rewrite decide_False by done|].
  by case_decide.
Qed.

Lemma dict_get_None d k : dict_get d k = None ↔ k ∉ d.*1.
Proof.
  induction d as [|[k1 v1] d IH]; simpl; [split; [set_solver|done]|].
  case_decide; subst; [split; [done|set_solver]|]. rewrite IH. set_solver.
Qed.

Lemma dict_get_Some_elem d k v : dict_get d k = Some v → (k, v) ∈ d.
Proof.
  induction d as [|[k1 v1] d IH]; simpl; [done|].
  case_decide; intros; simplify_eq; set_solver.
Qed.

Lemma dict_get_elem d k v : dict_wf d → (k, v) ∈ d → dict_get d k = Some v.
Proof.
  unfold dict_wf. induction d as [|[k1 v1] d IH]; simpl; [set_solver|].
  intros [Hni Hnd]%NoDup_cons [Heq|Hin]%elem_of_cons; simplify_eq.
  - by rewrite decide_True.
  - rewrite decide_False; [by apply IH|]. intros ->. apply Hni.
    apply list_elem_of_fmap. by exists (k1, v).
Qed.

Lemma dict_pop_sub d k k' : k' ∈ (dict_pop d k).*1 → k' ∈ d.*1.
Proof.
  induction d as [|[k1 v1] d IH]; simpl; [done|]. case_decide; set_solver.
Qed.

Lemma dict_pop_wf d k : dict_wf d → dict_wf (dict_pop d k).
Proof.
  unfold dict_wf. induction d as [|[k1 v1] d IH]; simpl; [done|].
  intros [Hni Hnd]%NoDup_cons. case_decide; [done|]. simpl.
  apply NoDup_cons; split; [|auto]. by intros ?%dict_pop_sub.
Qed.

Lemma dict_get_pop_eq d k : dict_wf d → dict_get (dict_pop d k) k = None.
Proof.
  intros Hwf. apply dict_get_None. unfold dict_wf in Hwf.
  induction d as [|[k1 v1] d IH]; simpl in *; [set_solver|].
  apply NoDup_cons in Hwf as [??]. case_decide; subst; [done|]. set_solver.
Qed.

Lemma dict_set_keys d k v k' : k' ∈ (dict_set d k v).*1 ↔ k' = k ∨ k' ∈ d.*1.
Proof.
  induction d as [|[k1 v1] d IH]; simpl; [set_solver|].
  case_decide; subst; set_solver.
Qed.

Lemma Forall_dict_set (P : pystr * A → Prop) d k v :
  Forall P d → P (k, v) → Forall P (dict_set d k v).
Proof.
  intros Hd Hk. induction Hd as [|[k' v'] d Hx Hd IH]; simpl; [by apply Forall_singleton|].
  case_decide; subst; by apply Forall_cons.
Qed.

Lemma dict_set_wf d k v : dict_wf d → dict_wf (dict_set d k v).
Proof.
  unfold dict_wf. induction d as [|[k1 v1] d IH]; simpl.
  { intros _. apply NoDup_singleton. }
  intros [Hni Hnd]%NoDup_cons. case_decide; simpl; apply NoDup_cons; [done|].
  split; [|auto]. rewrite dict_set_keys. naive_solver.
Qed.
End DictLemmas.

#[export] Hint Rewrite @dict_get_set_eq : py.
#[export] Hint Rewrite @dict_get_set_ne using done : py.
#[export] Hint Resolve dict_set_wf dict_pop_wf : py.

Lemma for_each_Ok {A} (f : A → res unit) l :
  for_each f l = Ok tt ↔ Forall (λ x, f x = Ok tt) l.
Proof.
  induction l as [|x l IH]; simpl; [by rewrite Forall_nil|].
  rewrite Forall_cons, <-IH. unfold mbind, res_bind.
  destruct (f x) as [[]|]; naive_solver.
Qed.

Lemma Ok_inj {A} (x y : A) : Ok x = Ok y → x = y.
Proof. by intros [= ->]. Qed.

Lemma Raise_inj {A} (e e' : exn) : Raise (A := A) e = Raise e' → e = e'.
Proof. by intros [= ->]. Qed.

Lemma is_Ok_spec {A} (m : res A) : is_Ok m = true ↔ ∃ x, m = Ok x.
Proof. destruct m; naive_solver. Qed.

Lemma bind_Ok {A B} (m : res A) (f : A → res B) y :
  m ≫= f = Ok y ↔ ∃ x, m = Ok x ∧ f x = Ok y.
Proof. destruct m; simpl; naive_solver. Qed.

Lemma map_res_Ok {A B} (f : A → res B) l ys :
  map_res f l = Ok ys ↔ Forall2 (λ x y, f x = Ok y) l ys.
Proof.
  revert ys. induction l as [|x l IH]; intros ys; simpl.
  - split; [by intros [= <-]|]. by intros ->%Forall2_nil_inv_l.
  - rewrite bind_Ok. setoid_rewrite bind_Ok. setoid_rewrite IH. split.
    + intros (y & Hy & ys' & Hl & [= <-]). by constructor.
    + intros (y & ys' & Hy & Hl & ->)%Forall2_cons_inv_l. eauto.
Qed.

Lemma any_res_true {A} (f : A → res bool) l :
  any_res f l = Ok true → ∃ x, x ∈ l ∧ f x = Ok true.
Proof.
  induction l as [|x l IH]; simpl; [done|]. destruct (f x) as [[]|] eqn:E; simpl.
  - intros _. exists x. split; [by left|done].
  - intros (y & ? & ?)%IH. exists y. split; [by right|done].
  - done.
Qed.

Lemma try_except_Ok {A} (m : res A) p h y :
  try_except m p h = Ok y ↔
  m = Ok y ∨ ∃ e, m = Raise e ∧ p e = true ∧ h e = Ok y.
Proof.
  destruct m as [a|e]; simpl; split.
  - by left.
  - by intros [?|(?&?&?)].
  - destruct (p e) eqn:?; intros; [right; eauto|done].
  - intros [?|(e'&?&Hp&?)]; simplify_eq. by rewrite Hp.
Qed.

(** ** What a pure call may raise *)

Definition raises_only {A} (P : exn → Prop) (r : res A) : Prop := ∀ e, r = Raise e → P e.
Definition not_oauth (e : exn) : Prop := is_OAuthError e = false.

Section RaisesOnly.
Context {A B : Type} (P : exn → Prop).

Lemma raises_only_Ok (a : A) : raises_only P (Ok a).
Proof. done. Qed.
Lemma raises_only_Raise e : P e → raises_only P (Raise (A := A) e).
Proof. by intros ? e' [= <-]. Qed.
Lemma raises_only_bind (r : res A) (f : A → res B) :
  raises_only P r → (∀ a, raises_only P (f a)) → raises_only P (r ≫= f).
Proof. intros Hr Hf e. destruct r as [a|e1]; [exact (Hf a e)|].
  intros E. injection E as <-. by apply Hr. Qed.
Lemma raises_only_try (Q : exn → Prop) (r : res A) p h :
  raises_only Q r → (∀ e, Q e → p e = false → P e) →
  (∀ e, Q e → p e = true → raises_only P (h e)) → raises_only P (try_except r p h).
Proof.
  intros Hr Hn Hh e. destruct r as [a|e1]; [done|]. specialize (Hr e1 eq_refl). simpl.
  destruct (p e1) eqn:E; [by apply Hh|]. intros E'. injection E' as <-. by apply Hn.
Qed.
End RaisesOnly.

Section RaisesLoops.
Context {A B : Type} (P : exn → Prop).

Lemma raises_only_for_each (f : A → res unit) l :
  (∀ x, raises_only P (f x)) → raises_only P (for_each f l).
Proof. intros Hf. induction l; [done|]. cbn [for_each]. by apply raises_only_bind. Qed.
Lemma raises_only_map_res (f : A → res B) l :
  (∀ x, raises_only P (f x)) → raises_only P (map_res f l).
Proof.
  intros Hf. induction l; [done|]. cbn [map_res]. apply raises_only_bind; [done|].
  intros b. by apply raises_only_bind.
Qed.
Lemma raises_only_any_res (f : A → res bool) l :
  (∀ x, raises_only P (f x)) → raises_only P (any_res f l).
Proof.
  intros Hf. induction l; [done|]. cbn [any_res]. apply raises_only_bind; [done|].
  by intros [].
Qed.
Lemma raises_only_weaken (Q : exn → Prop) (r : res A) :
  raises_only Q r → (∀ e, Q e → P e) → raises_only P r.
Proof. intros H HQ e He. by apply HQ, H. Qed.
End RaisesLoops.

Create HintDb raises discriminated.
#[export] Hint Resolve raises_only_Ok raises_only_Raise raises_only_for_each raises_only_map_res
  raises_only_any_res : raises.

(** ** Tactics *)

(** Case analysis on whatever the hypotheses or the goal branch on. *)
Ltac res_step :=
  match goal with
  | H : Ok _ = Ok _ |- _ => injection H as H
  | H : Raise _ = Raise _ |- _ => injection H as H
  | H : Ok _ = Raise _ |- _ => discriminate H
  | H : Raise _ = Ok _ |- _ => discriminate H
  | H : mbind _ _ = Ok _ |- _ => apply bind_Ok in H as (? & ? & H)
  | H : (if ?b then _ else _) = Ok _ |- _ => destruct b eqn:?
  | H : match ?m with _ => _ end = Ok _ |- _ => destruct m eqn:?
  end.
Ltac res_inv := repeat (res_step; simplify_eq/=); try done.

(** Split boolean conjunctions and decision tests into propositions. *)
Ltac bool_hyps :=
  repeat match goal with
  | H : andb _ _ = true |- _ => apply andb_true_iff in H as [??]
  | H : orb _ _ = false |- _ => apply orb_false_iff in H as [??]
  | H : negb _ = true |- _ => apply negb_true_iff in H
  | H : negb _ = false |- _ => apply negb_false_iff in H
  | H : bool_decide _ = true |- _ => apply bool_decide_eq_true in H
  | H : bool_decide _ = false |- _ => apply bool_decide_eq_false in H
  | H : (_ <? _)%Z = true |- _ => apply Z.ltb_lt in H
  | H : (_ <? _)%Z = false |- _ => apply Z.ltb_ge in H
  | H : (_ <=? _)%Z = true |- _ => apply Z.leb_le in H
  | H : (_ <=? _)%Z = false |- _ => apply Z.leb_gt in H
  | H : (_ =? _)%Z = true |- _ => apply Z.eqb_eq in H
  | H : (_ =? _)%Z = false |- _ => apply Z.eqb_neq in H
  end.

(** Follow a pure call to the exceptions at its leaves. *)
Ltac raises_pure_step :=
  match goal with
  | |- raises_only _ (_ ≫= _) => apply raises_only_bind
  | |- raises_only _ (Raise _) => apply raises_only_Raise
  | |- raises_only _ (Ok _) => apply raises_only_Ok
  | |- raises_only _ (match ?x with _ => _ end) => destruct x eqn:?
  end.
Ltac raises_pure :=
  repeat first [ progress intros | raises_pure_step | solve [eauto 2 with raises] | reflexivity ].

(** Lexicographic order on code points: Python's order on strings. *)
Fixpoint pystr_leb (s t : pystr) : bool :=
  match s, t with
  | [], _ => true
  | _ :: _, [] => false
  | a :: s', b :: t' => if (a =? b)%N then pystr_leb s' t' else (a <? b)%N
  end.

(** Linear arithmetic with [/] and [mod] by constants. *)
Ltac dlia := zify; Z.to_euclidean_division_equations; lia.
