(* ===== verification/PyStr.v ===== *)
(** * Python's [str]: the methods the program uses

    Strings are lists of code points.  Case mapping is exact on ASCII and
    Latin-1 and on the two other code points whose lower case contains an ASCII
    letter; every other code point is left as it is, so comparing the result
    with an ASCII constant is exact for every input.  White space and decimal
    digits follow the Unicode tables. *)

From S2P Require Import Prelude.

Local Open Scope N_scope.

(** ** Character classes *)

Definition is_ascii_digit (c : N) : bool := (48 <=? c) && (c <=? 57).
Definition is_ascii_upper (c : N) : bool := (65 <=? c) && (c <=? 90).
Definition is_ascii_lower (c : N) : bool := (97 <=? c) && (c <=? 122).
Definition is_ascii_alpha (c : N) : bool := is_ascii_upper c || is_ascii_lower c.
Definition is_hex_digit (c : N) : bool :=
  is_ascii_digit c || ((97 <=? c) && (c <=? 102)) || ((65 <=? c) && (c <=? 70)).
Definition isascii (s : pystr) : bool := forallb (λ c, c <? 128) s.

(** [str.isspace]: the white space that [strip] and [split] remove. *)
Definition isspace (c : N) : bool :=
  ((9 <=? c) && (c <=? 13)) || ((28 <=? c) && (c <=? 32)) || (c =? 0x85)
  || (c =? 0xA0) || (c =? 0x1680) || ((0x2000 <=? c) && (c <=? 0x200A))
  || (c =? 0x2028) || (c =? 0x2029) || (c =? 0x202F) || (c =? 0x205F)
  || (c =? 0x3000).

(** The zeros of the Unicode decimal digit ranges (category Nd); each range
    holds ten code points. *)
Definition decimal_zeros : list N :=
  [0x30; 0x660; 0x6f0; 0x7c0; 0x966; 0x9e6; 0xa66; 0xae6; 0xb66; 0xbe6; 0xc66;
   0xce6; 0xd66; 0xde6; 0xe50; 0xed0; 0xf20; 0x1040; 0x1090; 0x17e0; 0x1810;
   0x1946; 0x19d0; 0x1a80; 0x1a90; 0x1b50; 0x1bb0; 0x1c40; 0x1c50; 0xa620;
   0xa8d0; 0xa900; 0xa9d0; 0xa9f0; 0xaa50; 0xabf0; 0xff10; 0x104a0; 0x10d30;
   0x11066; 0x110f0; 0x11136; 0x111d0; 0x112f0; 0x11450; 0x114d0; 0x11650;
   0x116c0; 0x11730; 0x118e0; 0x11950; 0x11c50; 0x11d50; 0x11da0; 0x11f50;
   0x16a60; 0x16ac0; 0x16b50; 0x1d7ce; 0x1d7d8; 0x1d7e2; 0x1d7ec; 0x1d7f6;
   0x1e140; 0x1e2f0; 0x1e4f0; 0x1e950; 0x1fbf0].

Definition decimal_value (c : N) : option N :=
  (λ z, c - z) <$> find (λ z, (z <=? c) && (c <? z + 10)) decimal_zeros.

(** Digits that are not decimals (superscripts, circled digits, ...): accepted
    by [str.isdigit], refused by [int]. *)
Definition other_digits : list (N * N) :=
  [(0xb2, 0xb3); (0xb9, 0xb9); (0x1369, 0x1371); (0x19da, 0x19da); (0x2070, 0x2070);
   (0x2074, 0x2079); (0x2080, 0x2089); (0x2460, 0x2468); (0x2474, 0x247c);
   (0x2488, 0x2490); (0x24ea, 0x24ea); (0x24f5, 0x24fd); (0x24ff, 0x24ff);
   (0x2776, 0x277e); (0x2780, 0x2788); (0x278a, 0x2792); (0x10a40, 0x10a43);
   (0x10e60, 0x10e68); (0x11052, 0x1105a); (0x1f100, 0x1f10a)].

Definition is_digit_char (c : N) : bool :=
  match decimal_value c with
  | Some _ => true
  | None => existsb (λ '(a, b), (a <=? c) && (c <=? b)) other_digits
  end.

Definition isdigit (s : pystr) : bool :=
  negb (bool_decide (s = [])) && forallb is_digit_char s.

(** ** Case *)

Definition lower_char (c : N) : pystr :=
  if is_ascii_upper c then [c + 32]
  else if (0xC0 <=? c) && (c <=? 0xDE) && negb (c =? 0xD7) then [c + 32]
  else if c =? 0x130 then [0x69; 0x307]
  else if c =? 0x212A then [0x6B]
  else [c].
Definition lower (s : pystr) : pystr := s ≫= lower_char.

Definition upper_char (c : N) : pystr :=
  if is_ascii_lower c then [c - 32]
  else if c =? 0xDF then [83; 83]
  else if (0xE0 <=? c) && (c <=? 0xFE) && negb (c =? 0xF7) then [c - 32]
  else [c].
Definition upper (s : pystr) : pystr := s ≫= upper_char.

(** ** Searching and cutting *)

Fixpoint startswith (s p : pystr) {struct p} : bool :=
  match p, s with
  | [], _ => true
  | _ :: _, [] => false
  | a :: p', b :: s' => (a =? b) && startswith s' p'
  end.

(** [p in s]. *)
Fixpoint contains (s p : pystr) : bool :=
  startswith s p || match s with [] => false | _ :: s' => contains s' p end.

Definition has_char (c : N) (s : pystr) : bool := existsb (N.eqb c) s.

Fixpoint lstrip_by (f : N → bool) (s : pystr) : pystr :=
  match s with
  | c :: s' => if f c then lstrip_by f s' else s
  | [] => []
  end.
Fixpoint rstrip_by (f : N → bool) (s : pystr) : pystr :=
  match s with
  | [] => []
  | c :: s' =>
      match rstrip_by f s' with
      | [] => if f c then [] else [c]
      | t => c :: t
      end
  end.
Definition strip_by (f : N → bool) (s : pystr) : pystr := rstrip_by f (lstrip_by f s).

Definition strip : pystr → pystr := strip_by isspace.
(** [s.rstrip("/")]. *)
Definition rstrip_slash : pystr → pystr := rstrip_by (N.eqb 47).

(** [s.split(c)] for a one-character separator: never empty. *)
Fixpoint split_char (c : N) (s : pystr) : list pystr :=
  match s with
  | [] => [[]]
  | a :: s' =>
      if a =? c then [] :: split_char c s'
      else match split_char c s' with
           | w :: ws => (a :: w) :: ws
           | [] => [[a]]
           end
  end.

(** [s.split()]: the maximal runs of non-space characters. *)
Fixpoint split_words_go (cur : pystr) (s : pystr) : list pystr :=
  match s with
  | [] => if bool_decide (cur = []) then [] else [rev cur]
  | c :: s' =>
      if isspace c
      then (if bool_decide (cur = []) then [] else [rev cur]) ++ split_words_go [] s'
      else split_words_go (c :: cur) s'
  end.
Definition split_words : pystr → list pystr := split_words_go [].

(** [s.partition(c)]: the part before the first [c], whether there is one, and
    the part after it. *)
Fixpoint partition (c : N) (s : pystr) : pystr * bool * pystr :=
  match s with
  | [] => ([], false, [])
  | a :: s' =>
      if a =? c then ([], true, s')
      else let '(b, f, t) := partition c s' in (a :: b, f, t)
  end.

(** [s.rpartition(c)]: cut at the last [c]; without one everything is on the
    right. *)
Fixpoint rpartition (c : N) (s : pystr) : pystr * bool * pystr :=
  match s with
  | [] => ([], false, [])
  | a :: s' =>
      let '(b, f, t) := rpartition c s' in
      if f : bool then (a :: b, true, t)
      else if a =? c then ([], true, s')
      else ([], false, a :: t)
  end.

(** [s.rpartition(p)] for a longer separator. *)
Fixpoint rpartition_str (p s : pystr) : pystr * bool * pystr :=
  match s with
  | [] => ([], false, [])
  | a :: s' =>
      let '(b, f, t) := rpartition_str p s' in
      if f : bool then (a :: b, true, t)
      else if startswith s p then ([], true, drop (length p) s)
      else ([], false, s)
  end.

Fixpoint join (sep : pystr) (l : list pystr) : pystr :=
  match l with
  | [] => []
  | [w] => w
  | w :: l' => w ++ sep ++ join sep l'
  end.

(** [s.replace(c, r)] for a one-character [c]. *)
Definition replace_char (c : N) (r : pystr) (s : pystr) : pystr :=
  s ≫= λ a, if a =? c then r else [a].

(** Truth value of a string. *)
Definition truthy (s : pystr) : bool := match s with [] => false | _ => true end.
(** [a or b] on an optional string. *)
Definition or_str (o : option pystr) (b : pystr) : pystr :=
  match o with Some (c :: s) => c :: s | _ => b end.

(** ** Integers as text *)

(** Decimal digits of [n]; the fuel is the bit length, and [dec_value] below
    shows it is enough. *)
Fixpoint dec_digits (fuel : nat) (n : N) (acc : pystr) : pystr :=
  match fuel with
  | O => acc
  | S f =>
      let acc' := (48 + n mod 10) :: acc in
      if n <? 10 then acc' else dec_digits f (n / 10) acc'
  end.
Definition dec (n : N) : pystr := dec_digits (S (N.to_nat (N.log2 n))) n [].

(** [str(z)]. *)
Definition str_of_Z (z : Z) : pystr :=
  if (z <? 0)%Z then 45 :: dec (Z.to_N (- z)) else dec (Z.to_N z).

Definition digits_value (ds : list N) : N :=
  fold_left (λ a d, a * 10 + d) ds 0.

(** The digits of an integer literal: decimals, single underscores between. *)
Fixpoint int_digits (prev : bool) (s : pystr) : option (list N) :=
  match s with
  | [] => if prev then Some [] else None
  | c :: s' =>
      if c =? 95 then (if prev then int_digits false s' else None)
      else d ← decimal_value c; ds ← int_digits true s'; Some (d :: ds)
  end.

Definition int_error (s : pystr) : exn := ValueError (u "invalid literal for int()").
(** CPython refuses to convert more than 4300 digits. *)
Definition max_str_digits : N := 4300.

(** [int(s)]. *)
Definition py_int (s : pystr) : res Z :=
  let t := strip s in
  let '(neg, ds) :=
    match t with
    | 45 :: r => (true, r)
    | 43 :: r => (false, r)
    | _ => (false, t)
    end in
  match int_digits false ds with
  | Some l =>
      if max_str_digits <? N.of_nat (length l)
      then Raise (ValueError (u "Exceeds the limit (4300 digits) for integer string conversion"))
      else Ok (if neg : bool then - Z.of_N (digits_value l) else Z.of_N (digits_value l))%Z
  | None => Raise (int_error s)
  end.

(** ** [repr] of a string, as the [!r] conversion writes it

    Code points above U+00FF other than surrogates are taken as printable. *)
Definition hex_char (d : N) : N := if d <? 10 then 48 + d else 87 + d.
Fixpoint hex_fixed (width : nat) (n : N) : pystr :=
  match width with
  | O => []
  | S w => hex_fixed w (n / 16) ++ [hex_char (n mod 16)]
  end.

Definition is_unprintable (c : N) : bool :=
  (c <? 32) || ((127 <=? c) && (c <=? 160)) || (c =? 173)
  || ((0xD800 <=? c) && (c <=? 0xDFFF)).

Definition repr_char (q c : N) : pystr :=
  if (c =? q) || (c =? 92) then [92; c]
  else if c =? 9 then u "\t" else if c =? 10 then u "\n" else if c =? 13 then u "\r"
  else if is_unprintable c
  then if c <? 256 then u "\x" ++ hex_fixed 2 c else u "\u" ++ hex_fixed 4 c
  else [c].

Definition repr (s : pystr) : pystr :=
  let q := if has_char 39 s && negb (has_char dquote s) then dquote else 39 in
  [q] ++ (s ≫= repr_char q) ++ [q].

Definition repr_opt (o : option pystr) : pystr := from_option repr (u "None") o.
Definition repr_list (l : list pystr) : pystr :=
  u "[" ++ join (u ", ") (repr <$> l) ++ u "]".

(** ** Lemmas *)

Lemma startswith_spec s p : startswith s p = true ↔ ∃ t, s = p ++ t.
Proof.
  revert s. induction p as [|a p IH]; intros s; simpl; [split; eauto|].
  destruct s as [|b s]; [split; [done|by intros [??]]|].
  rewrite andb_true_iff, N.eqb_eq, IH. split.
  - intros [-> [t ->]]. by eauto.
  - intros [t [= -> ->]]. by eauto.
Qed.

Lemma startswith_app p t : startswith (p ++ t) p = true.
Proof. apply startswith_spec. eauto. Qed.

Lemma has_char_spec c s : has_char c s = true ↔ c ∈ s.
Proof.
  unfold has_char. rewrite existsb_exists. split.
  - intros (x & Hin & ->%N.eqb_eq). by apply list_elem_of_In.
  - intros. exists c. rewrite N.eqb_refl. by rewrite <-list_elem_of_In.
Qed.

Lemma has_char_false c s : has_char c s = false ↔ c ∉ s.
Proof. rewrite <-has_char_spec. destruct (has_char c s); naive_solver. Qed.

Lemma has_char_app c s t : has_char c (s ++ t) = has_char c s || has_char c t.
Proof. apply existsb_app. Qed.

Lemma isascii_app s t : isascii (s ++ t) = isascii s && isascii t.
Proof. apply forallb_app. Qed.

Lemma isascii_spec s : isascii s = true ↔ Forall (λ c, c < 128) s.
Proof.
  unfold isascii. rewrite forallb_forall, Forall_forall.
  setoid_rewrite N.ltb_lt. by setoid_rewrite <-list_elem_of_In.
Qed.

Lemma rstrip_by_fix f s : (∀ c, last s = Some c → f c = false) → rstrip_by f s = s.
Proof.
  induction s as [|a s IH]; intros H; simpl; [done|].
  destruct s as [|b s]; [simpl; by rewrite (H a)|].
  rewrite IH; [done|]. intros c Hc. apply H. by rewrite last_cons, Hc.
Qed.

Lemma rstrip_by_last f s c : last (rstrip_by f s) = Some c → f c = false.
Proof.
  induction s as [|a s IH]; simpl; [done|].
  destruct (rstrip_by f s) as [|b t] eqn:E.
  { destruct (f a) eqn:Hfa; [done|]. by intros [= <-]. }
  rewrite last_cons. destruct (last (b :: t)) eqn:El; [done|].
  by rewrite last_None in El.
Qed.

Lemma rstrip_by_idemp f s : rstrip_by f (rstrip_by f s) = rstrip_by f s.
Proof. apply rstrip_by_fix, rstrip_by_last. Qed.

Lemma rstrip_by_prefix f s : ∃ t, s = rstrip_by f s ++ t ∧ Forall (λ c, f c = true) t.
Proof.
  induction s as [|a s (t & Ht & Hf)]; simpl; [by exists []|].
  destruct (rstrip_by f s) as [|b r] eqn:E.
  - destruct (f a) eqn:Ha.
    + exists (a :: s). split; [done|]. constructor; [done|]. simpl in Ht. by subst.
    + exists s. split; [done|]. simpl in Ht. by subst.
  - exists t. split; [|done]. simpl in *. by rewrite Ht at 1.
Qed.

(** *** Decimal text *)

Lemma fold_digits_app a ds es :
  fold_left (λ a d, a * 10 + d) (ds ++ es) a
  = fold_left (λ a d, a * 10 + d) es (fold_left (λ a d, a * 10 + d) ds a).
Proof. apply fold_left_app. Qed.

Lemma dec_digits_acc fuel n acc :
  dec_digits fuel n acc = dec_digits fuel n [] ++ acc.
Proof.
  revert n acc. induction fuel as [|f IH]; intros n acc; simpl; [done|].
  destruct (n <? 10); [done|]. rewrite IH, (IH _ [_]), <-app_assoc. done.
Qed.

Lemma dec_digits_S f n :
  dec_digits (S f) n [] =
  if n <? 10 then [48 + n mod 10] else dec_digits f (n / 10) [] ++ [48 + n mod 10].
Proof. simpl. destruct (n <? 10); [done|]. by rewrite dec_digits_acc. Qed.

Lemma dec_digits_value f n :
  n < 2 ^ N.of_nat f →
  fold_left (λ a d, a * 10 + d) ((λ c, c - 48) <$> dec_digits f n []) 0 = n.
Proof.
  revert n. induction f as [|f IH]; intros n Hn.
  { simpl. change (2 ^ N.of_nat 0) with 1 in Hn. lia. }
  rewrite dec_digits_S. destruct (N.ltb_spec n 10).
  - cbn -[N.add N.sub N.mul N.modulo]. rewrite N.mod_small by done. lia.
  - rewrite fmap_app, fold_digits_app, IH.
    + cbn -[N.add N.sub N.mul N.modulo N.div]. pose proof (N.div_mod n 10 ltac:(lia)).
      pose proof (N.mod_lt n 10 ltac:(lia)). generalize dependent (n mod 10); generalize (n / 10). lia.
    + rewrite Nat2N.inj_succ, N.pow_succ_r' in Hn.
      apply N.Div0.div_lt_upper_bound; lia.
Qed.

Lemma dec_fuel n : n < 2 ^ N.of_nat (S (N.to_nat (N.log2 n))).
Proof.
  rewrite Nat2N.inj_succ, N2Nat.id. destruct (decide (n = 0)) as [->|]; [done|].
  apply N.log2_spec. lia.
Qed.

Lemma dec_value n : digits_value ((λ c, c - 48) <$> dec n) = n.
Proof. apply dec_digits_value, dec_fuel. Qed.

Lemma dec_digits_all f n : Forall (λ c, is_ascii_digit c = true) (dec_digits f n []).
Proof.
  revert n. induction f as [|f IH]; intros n; [constructor|].
  assert (is_ascii_digit (48 + n mod 10) = true) as Hd.
  { pose proof (N.mod_lt n 10 ltac:(lia)). unfold is_ascii_digit.
    apply andb_true_iff; rewrite !N.leb_le. generalize dependent (n mod 10). lia. }
  rewrite dec_digits_S. destruct (n <? 10); [by constructor|].
  apply Forall_app; split; [done|by constructor].
Qed.

Lemma dec_all n : Forall (λ c, is_ascii_digit c = true) (dec n).
Proof. apply dec_digits_all. Qed.

Lemma dec_digits_head f n :
  n ≠ 0 → n < 2 ^ N.of_nat f → ∃ c r, dec_digits f n [] = c :: r ∧ c ≠ 48.
Proof.
  revert n. induction f as [|f IH]; intros n Hn Hlt.
  { change (2 ^ N.of_nat 0) with 1 in Hlt. lia. }
  rewrite dec_digits_S. destruct (N.ltb_spec n 10).
  - eexists _, _. split; [done|]. rewrite N.mod_small by done. lia.
  - destruct (IH (n / 10)) as (c & r & -> & Hc).
    + pose proof (N.div_str_pos n 10 ltac:(lia)). generalize dependent (n / 10). lia.
    + rewrite Nat2N.inj_succ, N.pow_succ_r' in Hlt. apply N.Div0.div_lt_upper_bound; lia.
    + eexists _, _. split; [done|done].
Qed.

(** A decimal numeral is "0" or starts with a non-zero digit. *)
Lemma dec_shape n : dec n = [48] ∧ n = 0 ∨ ∃ c r, dec n = c :: r ∧ c ≠ 48.
Proof.
  destruct (decide (n = 0)) as [->|Hn]; [by left|right].
  apply dec_digits_head; [done|apply dec_fuel].
Qed.

Lemma is_ascii_digit_bounds c : is_ascii_digit c = true ↔ 48 <= c <= 57.
Proof. unfold is_ascii_digit. by rewrite andb_true_iff, !N.leb_le. Qed.

(** ** Tests on all characters *)

Lemma forallb_impl {A} (f g : A → bool) l :
  (∀ x, f x = true → g x = true) → forallb f l = true → forallb g l = true.
Proof. intros Hfg. rewrite !forallb_forall. auto. Qed.

Lemma lstrip_by_none f s : forallb (λ c, negb (f c)) s = true → lstrip_by f s = s.
Proof. destruct s as [|c s]; [done|]. cbn. by intros [->%negb_true_iff _]%andb_true_iff. Qed.

Lemma strip_by_none f s : forallb (λ c, negb (f c)) s = true → strip_by f s = s.
Proof.
  intros H. unfold strip_by. rewrite lstrip_by_none by done. apply rstrip_by_fix.
  intros c Hc. rewrite forallb_forall in H. apply negb_true_iff, H, list_elem_of_In.
  by apply last_Some_elem_of in Hc.
Qed.

Lemma forallb_take_drop (f : N → bool) n s :
  forallb f s = true → forallb f (take n s) = true ∧ forallb f (drop n s) = true.
Proof. rewrite <-(take_drop n s) at 1. rewrite forallb_app. apply andb_true_iff. Qed.

Lemma forallb_take (f : N → bool) n s : forallb f s = true → forallb f (take n s) = true.
Proof. by intros [? _]%(forallb_take_drop f n). Qed.

Lemma forallb_drop (f : N → bool) n s : forallb f s = true → forallb f (drop n s) = true.
Proof. by intros [_ ?]%(forallb_take_drop f n). Qed.

(** ** [partition] *)

Lemma partition_notin c s : c ∉ s → partition c s = (s, false, []).
Proof.
  induction s as [|a s IH]; [done|]. cbn [partition]. intros H.
  destruct (N.eqb_spec a c); [set_solver|]. rewrite IH by set_solver. done.
Qed.

Lemma partition_app c s t : c ∉ s → partition c (s ++ c :: t) = (s, true, t).
Proof.
  induction s as [|a s IH]; cbn [app partition]; [by rewrite N.eqb_refl|]. intros H.
  destruct (N.eqb_spec a c); [set_solver|]. rewrite IH by set_solver. done.
Qed.

Lemma rpartition_notin c s : c ∉ s → rpartition c s = ([], false, s).
Proof.
  induction s as [|a s IH]; [done|]. cbn [rpartition]. intros H.
  rewrite IH by set_solver. destruct (N.eqb_spec a c); [set_solver|done].
Qed.

Lemma rpartition_app c s t : c ∉ t → rpartition c (s ++ c :: t) = (s, true, t).
Proof.
  intros Ht. induction s as [|a s IH]; cbn [app rpartition]; [|by rewrite IH].
  by rewrite rpartition_notin, N.eqb_refl.
Qed.

(** The longer separator is found exactly when the text contains it. *)
Lemma rpartition_str_spec p s b f t :
  p ≠ [] → rpartition_str p s = (b, f, t) →
  if f then s = b ++ p ++ t else ∀ x y, s ≠ x ++ p ++ y.
Proof.
  intros Hp. revert b f t. induction s as [|a s IH]; intros b f t; cbn [rpartition_str].
  { intros [= <- <- <-] x y H. by destruct x, p. }
  destruct (rpartition_str p s) as [[b' f'] t']. specialize (IH b' f' t' eq_refl).
  destruct f'; [intros [= <- <- <-]; by rewrite IH|].
  destruct (startswith (a :: s) p) eqn:E; intros [= <- <- <-].
  - apply startswith_spec in E as [z E]. by rewrite E, drop_app_length.
  - intros [|c x] y H; [|injection H as _ H; by apply IH in H].
    rewrite H in E. cbn [app] in E. by rewrite startswith_app in E.
Qed.

(** ** [int] reads what [str] writes *)

Lemma decimal_value_ascii c : is_ascii_digit c = true → decimal_value c = Some (c - 48).
Proof.
  intros H. unfold decimal_value, decimal_zeros. cbn [find].
  change ((0x30 <=? c) && (c <? 0x30 + 10)) with ((48 <=? c) && (c <? 58)).
  replace ((48 <=? c) && (c <? 58)) with true; [done|].
  unfold is_ascii_digit in H. symmetry. lia.
Qed.

Lemma int_digits_ascii prev s :
  Forall (λ c, is_ascii_digit c = true) s → s ≠ [] ∨ prev = true →
  int_digits prev s = Some ((λ c, c - 48) <$> s).
Proof.
  intros H. revert prev. induction H as [|c s Hc Hs IH]; intros prev Hp.
  { destruct Hp as [Hp| ->]; [done|reflexivity]. }
  cbn [int_digits]. pose proof (proj1 (is_ascii_digit_bounds c) Hc) as Hb.
  destruct (N.eqb_spec c 95) as [->|]; [lia|].
  rewrite (decimal_value_ascii c Hc). cbn [mbind option_bind]. rewrite IH by by right. reflexivity.
Qed.

Lemma dec_digits_length f n : (length (dec_digits f n []) <= f)%nat.
Proof.
  revert n. induction f as [|f IH]; intros n; [done|]. rewrite dec_digits_S.
  destruct (n <? 10); [simpl; lia|]. rewrite length_app. specialize (IH (n / 10)). simpl. lia.
Qed.

Lemma dec_not_nil n : dec n ≠ [].
Proof. destruct (dec_shape n) as [[-> _]|(c & r & -> & _)]; done. Qed.

Lemma digit_not_space c : is_ascii_digit c = true → isspace c = false.
Proof. rewrite is_ascii_digit_bounds. unfold isspace. lia. Qed.

(** The numbers whose text is not too long to be read back. *)
Definition short_int (z : Z) : Prop := (Z.log2 (Z.abs z) < 4300)%Z.

Lemma int_digits_dec n : int_digits false (dec n) = Some ((λ c, c - 48) <$> dec n).
Proof. apply int_digits_ascii; [apply dec_all|left; apply dec_not_nil]. Qed.

Lemma dec_short z n : short_int z → n = Z.to_N (Z.abs z) → (max_str_digits <? N.of_nat (length (dec n))) = false.
Proof.
  intros Hz ->. unfold short_int in Hz. pose proof (dec_digits_length (S (N.to_nat (N.log2 (Z.to_N (Z.abs z))))) (Z.to_N (Z.abs z))) as H.
  fold (dec (Z.to_N (Z.abs z))) in H. apply N.ltb_ge. unfold max_str_digits.
  assert (Z.of_N (N.log2 (Z.to_N (Z.abs z))) = Z.log2 (Z.abs z)) as E
    by (destruct z as [|[]|[]]; reflexivity). lia.
Qed.

Lemma py_int_str z : short_int z → py_int (str_of_Z z) = Ok z.
Proof.
  intros Hz. unfold py_int, str_of_Z.
  assert (Hd : ∀ n, forallb (λ c, negb (isspace c)) (dec n) = true).
  { intros n. rewrite forallb_forall. intros c Hc%list_elem_of_In. pose proof (dec_all n) as H.
    rewrite Forall_forall in H. by rewrite (digit_not_space c) by auto. }
  destruct (Z.ltb_spec z 0) as [Hneg|Hpos].
  - unfold strip. rewrite strip_by_none by (cbn [forallb]; by rewrite Hd).
    rewrite int_digits_dec, length_fmap, (dec_short z) by (done || lia).
    rewrite dec_value. f_equal. lia.
  - unfold strip. rewrite strip_by_none by done.
    assert (E : match dec (Z.to_N z) with 45 :: r => (true, r) | 43 :: r => (false, r) | _ => (false, dec (Z.to_N z)) end
                = (false, dec (Z.to_N z))).
    { pose proof (dec_all (Z.to_N z)) as H. destruct (dec (Z.to_N z)) as [|c r]; [done|].
      apply Forall_inv in H. apply is_ascii_digit_bounds in H.
      repeat first [done | lia | case_match]. }
    rewrite E, int_digits_dec, length_fmap, (dec_short z) by (done || lia).
    rewrite dec_value. f_equal. lia.
Qed.
