(* ===== verification/Codec.v ===== *)
(** * Byte codecs: ASCII, UTF-8, base64url, big-endian integers

    [str.encode], [bytes.decode], [base64.urlsafe_b64encode(..).rstrip(b"=")],
    [int.from_bytes] and [int.to_bytes], with their inverse and bound lemmas. *)

From S2P Require Import Prelude PyStr.

Local Open Scope N_scope.

Definition bytes_ok (bs : bytes) : Prop := Forall (λ b, b < 256) bs.

(** ** ASCII *)

Definition encode_ascii (s : pystr) : res bytes :=
  if isascii s then Ok s else Raise (UnicodeError (u "'ascii' codec can't encode characters")).
Definition decode_ascii (bs : bytes) : res pystr :=
  if isascii bs then Ok bs else Raise (UnicodeError (u "'ascii' codec can't decode bytes")).

(** ** UTF-8, strict *)

Definition is_surrogate (c : N) : bool := (0xD800 <=? c) && (c <=? 0xDFFF).
(** A Unicode scalar value: what UTF-8 can carry. *)
Definition is_scalar (c : N) : bool := (c <=? 0x10FFFF) && negb (is_surrogate c).

Definition utf8_encode_char (c : N) : bytes :=
  if c <? 0x80 then [c]
  else if c <? 0x800 then [0xC0 + c / 64; 0x80 + c mod 64]
  else if c <? 0x10000 then [0xE0 + c / 4096; 0x80 + c / 64 mod 64; 0x80 + c mod 64]
  else [0xF0 + c / 262144; 0x80 + c / 4096 mod 64; 0x80 + c / 64 mod 64; 0x80 + c mod 64].

Definition encode_utf8 (s : pystr) : res bytes :=
  if forallb is_scalar s then Ok (s ≫= utf8_encode_char)
  else Raise (UnicodeError (u "'utf-8' codec can't encode character: surrogates not allowed")).

Definition is_cont (b : N) : bool := (0x80 <=? b) && (b <? 0xC0).
Definition between (lo c hi : N) : bool := (lo <=? c) && (c <=? hi).

Fixpoint utf8_decode (bs : bytes) : option pystr :=
  match bs with
  | [] => Some []
  | b0 :: r0 =>
      if b0 <? 0x80 then cons b0 <$> utf8_decode r0
      else if between 0xC2 b0 0xDF then
        match r0 with
        | b1 :: r1 =>
            if is_cont b1
            then cons ((b0 - 0xC0) * 64 + (b1 - 0x80)) <$> utf8_decode r1
            else None
        | [] => None
        end
      else if between 0xE0 b0 0xEF then
        match r0 with
        | b1 :: b2 :: r2 =>
            let c := (b0 - 0xE0) * 4096 + (b1 - 0x80) * 64 + (b2 - 0x80) in
            if is_cont b1 && is_cont b2 && (0x800 <=? c) && is_scalar c
            then cons c <$> utf8_decode r2 else None
        | _ => None
        end
      else if between 0xF0 b0 0xF4 then
        match r0 with
        | b1 :: b2 :: b3 :: r3 =>
            let c := (b0 - 0xF0) * 262144 + (b1 - 0x80) * 4096
                     + (b2 - 0x80) * 64 + (b3 - 0x80) in
            if is_cont b1 && is_cont b2 && is_cont b3 && (0x10000 <=? c) && is_scalar c
            then cons c <$> utf8_decode r3 else None
        | _ => None
        end
      else None
  end.

Definition decode_utf8 (bs : bytes) : res pystr :=
  match utf8_decode bs with
  | Some s => Ok s
  | None => Raise (UnicodeError (u "'utf-8' codec can't decode bytes"))
  end.

(** ** base64url without padding *)

Definition b64_alphabet : pystr :=
  u "ABCDEFGHIJKLMNOPQRSTUVWXYZabcdefghijklmnopqrstuvwxyz0123456789-_".
Definition b64_char (i : N) : N := nth (N.to_nat i) b64_alphabet 0.

Fixpoint b64url (bs : bytes) : pystr :=
  match bs with
  | [] => []
  | [a] => [b64_char (a / 4); b64_char (a mod 4 * 16)]
  | [a; b] => [b64_char (a / 4); b64_char (a mod 4 * 16 + b / 16); b64_char (b mod 16 * 4)]
  | a :: b :: c :: r =>
      b64_char (a / 4) :: b64_char (a mod 4 * 16 + b / 16)
      :: b64_char (b mod 16 * 4 + c / 64) :: b64_char (c mod 64) :: b64url r
  end.

(** ** Big-endian integers *)

(** [int.from_bytes(bs, "big")]. *)
Definition from_bytes_be (bs : bytes) : N := fold_left (λ a b, a * 256 + b) bs 0.

(** [n.to_bytes(len, "big")] for an [n] that fits. *)
Fixpoint to_bytes_be (len : nat) (n : N) : bytes :=
  match len with
  | O => []
  | S l => to_bytes_be l (n / 256) ++ [n mod 256]
  end.

(** ** Lemmas *)

Lemma encode_ascii_Ok s bs : encode_ascii s = Ok bs ↔ isascii s = true ∧ bs = s.
Proof. unfold encode_ascii. destruct (isascii s); naive_solver. Qed.

Lemma from_bytes_be_app bs cs :
  from_bytes_be (bs ++ cs) = from_bytes_be bs * 256 ^ N.of_nat (length cs) + from_bytes_be cs.
Proof.
  unfold from_bytes_be. rewrite fold_left_app. generalize (fold_left (λ a b, a * 256 + b) bs 0).
  induction cs as [|c cs IH] using rev_ind; intros a; cbn [fold_left length].
  { rewrite N.pow_0_r. lia. }
  rewrite !fold_left_app, length_app, Nat.add_1_r, Nat2N.inj_succ, N.pow_succ_r'.
  cbn [fold_left]. rewrite IH. lia.
Qed.

Lemma from_bytes_be_bound bs : bytes_ok bs → from_bytes_be bs < 256 ^ N.of_nat (length bs).
Proof.
  unfold bytes_ok. induction bs as [|b bs IH] using rev_ind; [done|].
  rewrite Forall_app, Forall_singleton. intros [Hbs Hb].
  rewrite from_bytes_be_app, length_app, Nat.add_1_r, Nat2N.inj_succ, N.pow_succ_r'.
  specialize (IH Hbs). cbn -[N.mul N.add N.pow]. change (256 ^ 1) with 256. lia.
Qed.

Lemma to_bytes_be_length len n : length (to_bytes_be len n) = len.
Proof.
  revert n. induction len as [|l IH]; intros n; simpl; [done|].
  rewrite length_app, IH. simpl. lia.
Qed.

Lemma to_bytes_be_ok len n : bytes_ok (to_bytes_be len n).
Proof.
  revert n. induction len as [|l IH]; intros n; simpl; [constructor|].
  apply Forall_app; split; [apply IH|]. constructor; [|constructor].
  apply N.mod_lt. lia.
Qed.

Lemma from_to_bytes_be len n :
  n < 256 ^ N.of_nat len → from_bytes_be (to_bytes_be len n) = n.
Proof.
  revert n. induction len as [|l IH]; intros n Hn; simpl.
  { change (256 ^ N.of_nat 0) with 1 in Hn. unfold from_bytes_be. simpl. lia. }
  rewrite from_bytes_be_app. rewrite IH.
  - cbn -[N.mul N.add N.pow N.modulo N.div]. change (256 ^ 1) with 256.
    unfold from_bytes_be. cbn -[N.mul N.add N.modulo N.div].
    pose proof (N.div_mod n 256 ltac:(lia)). dlia.
  - rewrite Nat2N.inj_succ, N.pow_succ_r' in Hn. apply N.Div0.div_lt_upper_bound. lia.
Qed.

Lemma utf8_encode_char_ok c : c <= 0x10FFFF → bytes_ok (utf8_encode_char c).
Proof.
  intros Hc. unfold utf8_encode_char, bytes_ok.
  repeat case_match; bool_hyps; repeat constructor;
    repeat match goal with H : (_ <? _) = _ |- _ =>
      first [apply N.ltb_lt in H|apply N.ltb_ge in H] end; dlia.
Qed.

(** *** UTF-8 round trip *)

(** Turn boolean comparisons on [N] into propositions. *)
Ltac nbool :=
  unfold is_scalar, is_surrogate, is_cont, between in *;
  repeat match goal with
  | H : andb _ _ = true |- _ => apply andb_true_iff in H as [??]
  | H : negb _ = true |- _ => apply negb_true_iff in H
  | H : (_ <? _) = true |- _ => apply N.ltb_lt in H
  | H : (_ <? _) = false |- _ => apply N.ltb_ge in H
  | H : (_ <=? _) = true |- _ => apply N.leb_le in H
  | H : (_ <=? _) = false |- _ => apply N.leb_gt in H
  | H : andb _ _ = false |- _ => apply andb_false_iff in H as [?|?]
  end.

Ltac ndecide b v :=
  replace b with v;
  [|symmetry; unfold is_scalar, is_surrogate, is_cont, between;
    rewrite ?andb_true_iff, ?andb_false_iff, ?negb_true_iff, ?andb_false_iff,
      ?N.ltb_lt, ?N.ltb_ge, ?N.leb_le, ?N.leb_gt].

Lemma utf8_decode_char c r :
  is_scalar c = true →
  utf8_decode (utf8_encode_char c ++ r) = cons c <$> utf8_decode r.
Proof.
  intros Hs. unfold utf8_encode_char. nbool;
  (destruct (c <? 0x80) eqn:G1;
   [|destruct (c <? 0x800) eqn:G2; [|destruct (c <? 0x10000) eqn:G3]];
   nbool; cbn [app utf8_decode]).
  all: try lia.
  all: try (ndecide (c <? 128) true; [done|lia]).
  all: try (ndecide (0xC0 + c / 64 <? 0x80) false; [|dlia];
    ndecide (between 0xC2 (0xC0 + c / 64) 0xDF) true; [|dlia];
    ndecide (is_cont (0x80 + c mod 64)) true; [|dlia];
    replace ((0xC0 + c / 64 - 0xC0) * 64 + (0x80 + c mod 64 - 0x80)) with c by dlia; done).
  all: try (ndecide (0xE0 + c / 4096 <? 0x80) false; [|dlia];
    ndecide (between 0xC2 (0xE0 + c / 4096) 0xDF) false; [|dlia];
    ndecide (between 0xE0 (0xE0 + c / 4096) 0xEF) true; [|dlia];
    replace ((0xE0 + c / 4096 - 0xE0) * 4096 + (0x80 + c / 64 mod 64 - 0x80) * 64
      + (0x80 + c mod 64 - 0x80)) with c by dlia; cbv zeta;
    ndecide (is_scalar c) true; [|lia]; ndecide (0x800 <=? c) true; [|lia];
    ndecide (is_cont (0x80 + c mod 64)) true; [|dlia];
    ndecide (is_cont (0x80 + c / 64 mod 64)) true; [|dlia]; done).
  all: ndecide (0xF0 + c / 262144 <? 0x80) false; [|dlia];
    ndecide (between 0xC2 (0xF0 + c / 262144) 0xDF) false; [|dlia];
    ndecide (between 0xE0 (0xF0 + c / 262144) 0xEF) false; [|dlia];
    ndecide (between 0xF0 (0xF0 + c / 262144) 0xF4) true; [|dlia];
    replace ((0xF0 + c / 262144 - 0xF0) * 262144 + (0x80 + c / 4096 mod 64 - 0x80) * 4096
      + (0x80 + c / 64 mod 64 - 0x80) * 64 + (0x80 + c mod 64 - 0x80)) with c by dlia;
    cbv zeta; ndecide (is_scalar c) true; [|lia]; ndecide (0x10000 <=? c) true; [|lia];
    ndecide (is_cont (0x80 + c mod 64)) true; [|dlia];
    ndecide (is_cont (0x80 + c / 64 mod 64)) true; [|dlia];
    ndecide (is_cont (0x80 + c / 4096 mod 64)) true; [|dlia]; done.
Qed.

Lemma utf8_roundtrip s :
  forallb is_scalar s = true → utf8_decode (s ≫= utf8_encode_char) = Some s.
Proof.
  induction s as [|c s IH]; [done|]. rewrite bind_cons. cbn [forallb].
  intros [Hc Hs]%andb_true_iff. by rewrite utf8_decode_char, IH.
Qed.

Lemma decode_encode_utf8 s bs : encode_utf8 s = Ok bs → decode_utf8 bs = Ok s.
Proof.
  unfold encode_utf8, decode_utf8. destruct (forallb is_scalar s) eqn:E; [|done].
  intros [= <-]. by rewrite utf8_roundtrip.
Qed.

(** ASCII text is its own UTF-8. *)
Lemma utf8_decode_ascii bs : isascii bs = true → utf8_decode bs = Some bs.
Proof.
  induction bs as [|b bs IH]; simpl; [done|].
  intros [-> H]%andb_true_iff. by rewrite IH.
Qed.

Lemma encode_utf8_ascii s : isascii s = true → encode_utf8 s = Ok s.
Proof.
  intros H. unfold encode_utf8. assert (forallb is_scalar s = true) as ->.
  { rewrite forallb_forall. intros c Hc%list_elem_of_In. apply isascii_spec in H.
    rewrite Forall_forall in H. specialize (H c Hc).
    unfold is_scalar, is_surrogate. rewrite andb_true_iff, negb_true_iff,
      andb_false_iff, N.leb_le, N.leb_gt. lia. }
  f_equal. induction s as [|c s IH]; [done|]. rewrite bind_cons.
  apply andb_true_iff in H as [Hc H]. unfold utf8_encode_char at 1. rewrite Hc.
  simpl. by rewrite IH.
Qed.

(** *** base64url: alphabet, length, injectivity *)

Lemma b64_char_inj_dec :
  forallb (λ i, forallb (λ j, implb (b64_char i =? b64_char j) (i =? j))
    (N.of_nat <$> seq 0 64)) (N.of_nat <$> seq 0 64) = true.
Proof. vm_compute. reflexivity. Qed.

Lemma elem_of_range i n : i < N.of_nat n → In i (N.of_nat <$> seq 0 n).
Proof.
  intros Hi. apply list_elem_of_In, list_elem_of_fmap. exists (N.to_nat i).
  split; [lia|]. apply elem_of_seq. lia.
Qed.

Lemma b64_char_inj i j : i < 64 → j < 64 → b64_char i = b64_char j → i = j.
Proof.
  intros Hi Hj Heq. pose proof b64_char_inj_dec as H.
  rewrite forallb_forall in H. specialize (H i (elem_of_range i 64 Hi)).
  rewrite forallb_forall in H. specialize (H j (elem_of_range j 64 Hj)).
  rewrite Heq, N.eqb_refl in H. by apply N.eqb_eq.
Qed.

(** Induction three bytes at a time, the way the encoder consumes them. *)
Lemma list_ind3 {A} (P : list A → Prop) :
  P [] → (∀ a, P [a]) → (∀ a b, P [a; b]) →
  (∀ a b c l, P l → P (a :: b :: c :: l)) → ∀ l, P l.
Proof.
  intros H0 H1 H2 H3. fix IH 1. intros [|a [|b [|c l]]]; [done|done|done|].
  apply H3, IH.
Qed.

Lemma b64url_length bs : length (b64url bs) = ((4 * length bs + 2) / 3)%nat.
Proof.
  induction bs as [| | |a b c l IH] using list_ind3; [done|done|done|].
  cbn [b64url length]. rewrite IH.
  replace (4 * S (S (S (length l))) + 2)%nat with (4 * length l + 2 + 4 * 3)%nat by lia.
  rewrite Nat.div_add by done. lia.
Qed.

(** A bound goal needs the byte bounds in the context and none of the equations. *)
Ltac byte_bound := repeat match goal with H : _ = _ |- _ => clear H end; dlia.

Ltac b64_inj_step :=
  match goal with
  | H : b64_char ?i = b64_char ?j |- _ => apply b64_char_inj in H; [|byte_bound..]
  end.

(** A byte cut in two at [k] is recovered from the two pieces, even when the
    low piece shares a digit with the next byte. *)
Lemma cut_inj k a a' h h' m :
  0 < k → h < m → h' < m →
  a / k = a' / k → a mod k * m + h = a' mod k * m + h' → a = a' ∧ h = h'.
Proof.
  intros Hk Hh Hh' Hd Hm.
  assert (a mod k = a' mod k ∧ h = h') as [Ha ->].
  { apply (N.div_mod_unique m); [done..|]. lia. }
  split; [|done]. rewrite (N.div_mod a k), (N.div_mod a' k) by lia. by rewrite Hd, Ha.
Qed.

Lemma b64url_inj bs cs : bytes_ok bs → bytes_ok cs → b64url bs = b64url cs → bs = cs.
Proof.
  intros Hb Hc Heq.
  assert (Hlen : length bs = length cs).
  { apply (f_equal length) in Heq. rewrite !b64url_length in Heq. dlia. }
  revert cs Hb Hc Heq Hlen. unfold bytes_ok.
  induction bs as [|a|a b|a b c l IH] using list_ind3;
    intros [|a' [|b' [|c' l']]]; try (simpl; lia);
    rewrite ?Forall_cons; intros Hb Hc; destruct_and?; cbn [b64url]; intros Heq Hlen.
  - done.
  - injection Heq as E1 E2. repeat b64_inj_step. f_equal.
    destruct (cut_inj 4 a a' 0 0 16) as [-> _]; [lia..|done].
  - injection Heq as E1 E2 E3. repeat b64_inj_step.
    destruct (cut_inj 4 a a' (b / 16) (b' / 16) 16) as [-> Eb]; [done||byte_bound..|].
    destruct (cut_inj 16 b b' 0 0 4) as [-> _]; [lia..|done].
  - injection Heq as E1 E2 E3 E4 E5. repeat b64_inj_step.
    destruct (cut_inj 4 a a' (b / 16) (b' / 16) 16) as [-> Eb]; [done||byte_bound..|].
    destruct (cut_inj 16 b b' (c / 64) (c' / 64) 4) as [-> Ec]; [done||byte_bound..|].
    destruct (cut_inj 64 c c' 0 0 1) as [-> _]; [lia..|].
    rewrite (IH l') by (done || (simpl in Hlen; lia)). done.
Qed.

Lemma b64_char_elem i : i < 64 → b64_char i ∈ b64_alphabet.
Proof.
  intros Hi. unfold b64_char. apply list_elem_of_In, nth_In.
  change (length b64_alphabet) with 64%nat. lia.
Qed.

Lemma b64url_alphabet bs : bytes_ok bs → Forall (λ c, c ∈ b64_alphabet) (b64url bs).
Proof.
  unfold bytes_ok. induction bs as [|a|a b|a b c l IH] using list_ind3;
    intros H; rewrite ?Forall_cons in H; destruct_and?; cbn [b64url];
    repeat apply Forall_cons_2; try apply Forall_nil_2; auto;
    apply b64_char_elem; byte_bound.
Qed.

Lemma b64_alphabet_ascii : isascii b64_alphabet = true.
Proof. reflexivity. Qed.

Lemma b64url_ascii bs : bytes_ok bs → isascii (b64url bs) = true.
Proof.
  intros H%b64url_alphabet. apply isascii_spec.
  pose proof (proj1 (isascii_spec _) b64_alphabet_ascii) as Ha. rewrite Forall_forall in Ha.
  eapply Forall_impl; [exact H|]. auto.
Qed.
