(* ===== verification/Text.v ===== *)
(** * Text files and substrings

    [str.count], [str.replace], [str.splitlines], padding, and what
    [Path.read_text] and [Path.write_text] make of bytes (UTF-8, universal
    newlines).  [count_one]: where a text occurs once, replacing it changes that
    place alone.  [text_roundtrip]: text without carriage returns that was read
    is written back byte for byte. *)

From S2P Require Import Prelude PyStr Codec.

Local Open Scope N_scope.

(** ** Substrings *)

Section Occurrences.
Context (old : pystr).

(** The occurrences from the left that do not overlap; [skip] characters still
    belong to the last one. *)
Fixpoint count_go (skip : nat) (s : pystr) : nat :=
  match s, skip with
  | [], _ => 0
  | _ :: s', S k => count_go k s'
  | _ :: s', O => if startswith s old then S (count_go (length old - 1) s') else count_go 0 s'
  end.

Fixpoint replace_go (new : pystr) (skip : nat) (s : pystr) : pystr :=
  match s, skip with
  | [], _ => []
  | _ :: s', S k => replace_go new k s'
  | c :: s', O =>
      if startswith s old then new ++ replace_go new (length old - 1) s'
      else c :: replace_go new 0 s'
  end.

(** [s.count(old)] and [s.replace(old, new)]; the empty text occurs around every
    character. *)
Definition count (s : pystr) : nat :=
  match old with [] => S (length s) | _ => count_go 0 s end.
Definition replace (new s : pystr) : pystr :=
  match old with [] => new ++ (s ≫= λ c, c :: new) | _ => replace_go new 0 s end.

Lemma count_skip k s : count_go k s = count_go 0 (drop k s).
Proof.
  revert k. induction s as [|c s IH]; intros k; [by destruct k|].
  destruct k as [|k]; [done|]. cbn [count_go drop]. apply IH.
Qed.

Lemma replace_skip new k s : replace_go new k s = replace_go new 0 (drop k s).
Proof.
  revert k. induction s as [|c s IH]; intros k; [by destruct k|].
  destruct k as [|k]; [done|]. cbn [replace_go drop]. apply IH.
Qed.

Lemma count_zero new s : count_go 0 s = 0%nat → replace_go new 0 s = s.
Proof.
  induction s as [|c s IH]; [done|]. cbn [count_go replace_go].
  destruct (startswith (c :: s) old); [done|]. intros H. by rewrite IH.
Qed.

(** A text that occurs once: replacing it changes that place and nothing else. *)
Lemma count_one new s :
  old ≠ [] → count s = 1%nat → ∃ a b, s = a ++ old ++ b ∧ replace new s = a ++ new ++ b.
Proof.
  intros Hne Hc. assert (Hgo : count_go 0 s = 1%nat) by (unfold count in Hc; by destruct old).
  assert (Hr : replace new s = replace_go new 0 s) by (unfold replace; by destruct old).
  rewrite Hr. clear Hc Hr. induction s as [|c s IH]; [done|]. cbn [count_go replace_go] in *.
  destruct (startswith (c :: s) old) eqn:E.
  - injection Hgo as Hgo. apply startswith_spec in E as [b E]. rewrite count_skip in Hgo.
    rewrite replace_skip. destruct old as [|o os] eqn:Eo; [done|]. injection E as -> ->.
    replace (length (o :: os) - 1)%nat with (length os) in * by (simpl; lia).
    rewrite drop_app_length in *. rewrite count_zero by done. by exists [], b.
  - destruct (IH Hgo) as (a & b & -> & ->). by exists (c :: a), b.
Qed.
End Occurrences.

(** ** Lines *)

Definition is_line_break (c : N) : bool :=
  between 10 c 13 || between 28 c 30 || (c =? 0x85) || between 0x2028 c 0x2029.

(** [s.splitlines()]; [cur] is the line so far, backwards, if there is one. *)
Fixpoint splitlines_go (cur : option pystr) (s : pystr) : list pystr :=
  match s with
  | [] => match cur with Some l => [rev l] | None => [] end
  | c :: s' =>
      if is_line_break c then
        rev (default [] cur) ::
          match s' with
          | 10 :: s'' => if c =? 13 then splitlines_go None s'' else splitlines_go None s'
          | _ => splitlines_go None s'
          end
      else splitlines_go (Some (c :: default [] cur)) s'
  end.
Definition splitlines : pystr → list pystr := splitlines_go None.

(** [f"{s:<width}"]. *)
Definition ljust (width : nat) (s : pystr) : pystr := s ++ replicate (width - length s) 32.

(** ** Files *)

(** The newlines of a file opened in text mode. *)
Fixpoint universal_newlines (s : pystr) : pystr :=
  match s with
  | [] => []
  | 13 :: 10 :: s' => 10 :: universal_newlines s'
  | 13 :: s' => 10 :: universal_newlines s'
  | c :: s' => c :: universal_newlines s'
  end.

Definition read_bytes (bs : bytes) : res pystr := s ← decode_utf8 bs; Ok (universal_newlines s).

Lemma universal_newlines_id s : 13 ∉ s → universal_newlines s = s.
Proof.
  induction s as [|c s IH]; [done|]. intros [Hc Hs]%not_elem_of_cons.
  cbn [universal_newlines]. rewrite IH by done.
  destruct c as [|p]; [done|]. repeat (destruct p as [p|p|]; try done).
Qed.

Ltac split_bools :=
  unfold is_scalar, is_surrogate, is_cont, between in *;
  rewrite ?andb_true_iff, ?negb_true_iff, ?andb_false_iff, ?N.ltb_lt, ?N.ltb_ge, ?N.leb_le, ?N.leb_gt in *.

Lemma utf8_reencode bs s :
  utf8_decode bs = Some s → s ≫= utf8_encode_char = bs ∧ forallb is_scalar s = true.
Proof.
  remember (length bs) as n eqn:Hn. revert bs s Hn.
  induction n as [n IH] using lt_wf_ind. intros bs s ->.
  assert (Hcons : ∀ c r (pre : bytes), bs = pre ++ r → (0 < length pre)%nat → is_scalar c = true →
    utf8_encode_char c = pre → cons c <$> utf8_decode r = Some s →
    s ≫= utf8_encode_char = bs ∧ forallb is_scalar s = true).
  { intros c r pre -> Hp Hc Hpre H. destruct (utf8_decode r) as [s2|] eqn:E; [|done]. injection H as <-.
    destruct (IH (length r)) with (bs := r) (s := s2) as [IH1 IH2]; [|done|done|].
    { rewrite length_app. lia. }
    rewrite bind_cons, IH1, Hpre. cbn [forallb]. by rewrite Hc, IH2. }
  destruct bs as [|b0 r0]; [by intros [= <-]|]. cbn [utf8_decode].
  destruct (b0 <? 0x80) eqn:E0.
  { apply (Hcons b0 r0 [b0]); [done|simpl; lia| |unfold utf8_encode_char; by rewrite E0].
    split_bools. split; [|left]; lia. }
  destruct (between 0xC2 b0 0xDF) eqn:E1.
  { destruct r0 as [|b1 r1]; [done|]. destruct (is_cont b1) eqn:C1; [|done].
    apply (Hcons _ r1 [b0; b1]); [done|simpl; lia| |].
    - split_bools. split; [lia|]. left. lia.
    - unfold utf8_encode_char. split_bools. 
      ndecide (((b0 - 0xC0) * 64 + (b1 - 0x80)) <? 0x80) false; [|lia].
      ndecide (((b0 - 0xC0) * 64 + (b1 - 0x80)) <? 0x800) true; [|lia].
      repeat f_equal; dlia. }
  destruct (between 0xE0 b0 0xEF) eqn:E2.
  { destruct r0 as [|b1 [|b2 r2]]; [done..|]. cbv zeta.
    set (c := _ + _ + _). destruct (_ && _ && _ && _) eqn:C1; [|done].
    apply andb_true_iff in C1 as [C1 Hsc].
    apply (Hcons c r2 [b0; b1; b2]); [done|simpl; lia|done|].
    unfold utf8_encode_char. assert (c < 0x10000) by (subst c; split_bools; lia).
    ndecide (c <? 0x80) false; [|split_bools; lia]. ndecide (c <? 0x800) false; [|split_bools; lia].
    ndecide (c <? 0x10000) true; [|lia]. split_bools. repeat f_equal; subst c; dlia. }
  destruct (between 0xF0 b0 0xF4) eqn:E3; [|done].
  destruct r0 as [|b1 [|b2 [|b3 r3]]]; [done..|]. cbv zeta.
  set (c := _ + _ + _ + _). destruct (_ && _ && _ && _ && _) eqn:C1; [|done].
  apply andb_true_iff in C1 as [C1 Hsc].
  apply (Hcons c r3 [b0; b1; b2; b3]); [done|simpl; lia|done|].
  unfold utf8_encode_char.
  ndecide (c <? 0x80) false; [|split_bools; lia]. ndecide (c <? 0x800) false; [|split_bools; lia].
  ndecide (c <? 0x10000) false; [|split_bools; lia]. split_bools. repeat f_equal; subst c; dlia.
Qed.

Lemma encode_decode_utf8 bs s : decode_utf8 bs = Ok s → encode_utf8 s = Ok bs.
Proof.
  unfold decode_utf8, encode_utf8. destruct (utf8_decode bs) as [s'|] eqn:E; [|done].
  intros <-%Ok_inj. apply utf8_reencode in E as [-> ->]. done.
Qed.

(** A carriage return is one byte of its own. *)
Lemma utf8_char_13 c : is_scalar c = true → 13 ∈ utf8_encode_char c → c = 13.
Proof.
  unfold utf8_encode_char. intros Hc.
  destruct (c <? 0x80) eqn:E1; [|destruct (c <? 0x800) eqn:E2; [|destruct (c <? 0x10000) eqn:E3]];
    rewrite ?elem_of_cons; split_bools; intros H;
    repeat match type of H with _ ∨ _ => destruct H as [H|H] end; first [dlia|by apply not_elem_of_nil in H].
Qed.

(** Text without carriage returns that was read is written back byte for byte. *)
Lemma text_roundtrip bs s : 13 ∉ bs → read_bytes bs = Ok s → encode_utf8 s = Ok bs.
Proof.
  intros Hcr. unfold read_bytes. intros (s' & Hd & <-%Ok_inj)%bind_Ok.
  pose proof (encode_decode_utf8 _ _ Hd) as He. rewrite universal_newlines_id; [done|].
  unfold encode_utf8 in He. destruct (forallb is_scalar s') eqn:Hs; [|done]. apply Ok_inj in He as <-.
  intros H13. apply Hcr. apply list_elem_of_bind. exists 13. split; [by left|done].
Qed.

Lemma read_encoded bs s : encode_utf8 s = Ok bs → 13 ∉ bs → read_bytes bs = Ok s.
Proof.
  intros He Hcr. unfold read_bytes. rewrite (decode_encode_utf8 _ _ He). cbn [mbind res_bind].
  rewrite universal_newlines_id; [done|]. unfold encode_utf8 in He. destruct (forallb is_scalar s); [|done].
  apply Ok_inj in He as <-. intros H. apply Hcr, list_elem_of_bind. exists 13. split; [by left|done].
Qed.
