(* ===== verification/Digest.v ===== *)
(** * [hashlib.sha256] and [zlib.crc32]

    Both run on 32-bit words, kept as [N] with the truncation written out, and
    evaluate on concrete inputs.  [sha256_bytes_ok] and [crc32_bound] are the
    bounds the components rely on; [crc32_one_byte] is the error detection that
    makes the checksum of a personal access token useful. *)

From S2P Require Import Prelude PyStr Codec.

Local Open Scope N_scope.

Module Sha256.
Definition word (n : N) : N := n mod 0x100000000.
Definition add (x y : N) : N := word (x + y).
Definition rotr (k x : N) : N := N.lor (N.shiftr x k) (word (N.shiftl x (32 - k))).
Definition lnot (x : N) : N := N.lxor x 0xffffffff.
Definition ch (x y z : N) : N := N.lxor (N.land x y) (N.land (lnot x) z).
Definition maj (x y z : N) : N :=
  N.lxor (N.lxor (N.land x y) (N.land x z)) (N.land y z).
Definition xor3 (x y z : N) : N := N.lxor (N.lxor x y) z.
Definition big0 (x : N) : N := xor3 (rotr 2 x) (rotr 13 x) (rotr 22 x).
Definition big1 (x : N) : N := xor3 (rotr 6 x) (rotr 11 x) (rotr 25 x).
Definition small0 (x : N) : N := xor3 (rotr 7 x) (rotr 18 x) (N.shiftr x 3).
Definition small1 (x : N) : N := xor3 (rotr 17 x) (rotr 19 x) (N.shiftr x 10).

(** The constants of FIPS 180-4 (4.2.2 and 5.3.3), computed from their
    definition: the first 32 bits of the fractional parts of the cube roots of
    the first 64 primes, and of the square roots of the first eight. *)
Definition is_prime (n : N) : bool :=
  forallb (λ d, negb (n mod d =? 0)) (N.of_nat <$> seq 2 (N.to_nat n - 2)).
Definition primes : list N :=
  Eval vm_compute in List.filter is_prime (N.of_nat <$> seq 2 310).

(** The largest [r] below [2 ^ bits] with [r ^ 3 <= n]. *)
Fixpoint cube_root (bits : nat) (r n : N) : N :=
  match bits with
  | O => r
  | S b => let r' := r + 2 ^ N.of_nat b in cube_root b (if r' * r' * r' <=? n then r' else r) n
  end.
Definition round_constants : list N :=
  Eval vm_compute in (λ p, word (cube_root 36 0 (p * 2 ^ 96))) <$> primes.
Definition initial_word (i : nat) : N :=
  word (N.sqrt (nth i primes 0 * 2 ^ 64)).

Record state := State { sa : N; sb : N; sc : N; sd : N; se : N; sf : N; sg : N; sh : N }.

Definition initial : state := Eval vm_compute in
  State (initial_word 0) (initial_word 1) (initial_word 2) (initial_word 3)
        (initial_word 4) (initial_word 5) (initial_word 6) (initial_word 7).

(** One round, with its schedule word [w] and constant [k]. *)
Definition round (s : state) (k w : N) : state :=
  let t1 := add (add (add (add (sh s) (big1 (se s))) (ch (se s) (sf s) (sg s))) k) w in
  let t2 := add (big0 (sa s)) (maj (sa s) (sb s) (sc s)) in
  State (add t1 t2) (sa s) (sb s) (sc s) (add (sd s) t1) (se s) (sf s) (sg s).

(** The schedule is a window of sixteen words that slides one word a round. *)
Definition next_word (win : list N) : N :=
  add (add (small1 (nth 14 win 0)) (nth 9 win 0))
      (add (small0 (nth 1 win 0)) (nth 0 win 0)).

Fixpoint rounds (ks : list N) (win : list N) (s : state) : state :=
  match ks with
  | [] => s
  | k :: ks' => rounds ks' (tail win ++ [next_word win]) (round s k (nth 0 win 0))
  end.

Definition add_state (s t : state) : state :=
  State (add (sa s) (sa t)) (add (sb s) (sb t)) (add (sc s) (sc t)) (add (sd s) (sd t))
        (add (se s) (se t)) (add (sf s) (sf t)) (add (sg s) (sg t)) (add (sh s) (sh t)).

Definition block (s : state) (ws : list N) : state :=
  add_state s (rounds round_constants ws s).

(** Padding: 0x80, zeros up to 56 mod 64, the bit length on eight bytes. *)
Definition pad (m : bytes) : bytes :=
  let l := length m in
  m ++ [0x80] ++ replicate ((119 - l mod 64) mod 64)%nat 0
    ++ to_bytes_be 8 (8 * N.of_nat l mod 2 ^ 64).

Fixpoint words (bs : bytes) : list N :=
  match bs with
  | a :: b :: c :: d :: r => from_bytes_be [a; b; c; d] :: words r
  | _ => []
  end.

(** Blocks of sixteen words; the fuel is the number of words. *)
Fixpoint blocks (fuel : nat) (s : state) (ws : list N) : state :=
  match fuel with
  | O => s
  | S f => if bool_decide (ws = []) then s else blocks f (block s (take 16 ws)) (drop 16 ws)
  end.

Definition digest (s : state) : bytes :=
  [sa s; sb s; sc s; sd s; se s; sf s; sg s; sh s] ≫= to_bytes_be 4.
End Sha256.

(** [hashlib.sha256(m).digest()]. *)
Definition sha256 (m : bytes) : bytes :=
  let ws := Sha256.words (Sha256.pad m) in
  Sha256.digest (Sha256.blocks (length ws) Sha256.initial ws).

(** ** CRC-32 (reflected, polynomial 0xEDB88320) *)

Definition crc_bit (x : N) : N :=
  if N.testbit x 0 then N.lxor (N.shiftr x 1) 0xEDB88320 else N.shiftr x 1.
Definition crc_byte (crc b : N) : N := Nat.iter 8 crc_bit (N.lxor crc b).

(** [zlib.crc32(bs)]. *)
Definition crc32 (bs : bytes) : N :=
  N.lxor (fold_left crc_byte bs 0xffffffff) 0xffffffff.

(** ** Bounds *)

Lemma digest_length s : length (Sha256.digest s) = 32%nat.
Proof. reflexivity. Qed.

Lemma sha256_length m : length (sha256 m) = 32%nat.
Proof. reflexivity. Qed.

Lemma sha256_bytes_ok m : bytes_ok (sha256 m).
Proof.
  unfold sha256, Sha256.digest. rewrite !bind_cons. unfold bytes_ok.
  rewrite !Forall_app. repeat split; try apply to_bytes_be_ok. constructor.
Qed.

Example sha256_abc :
  sha256 (u "abc") = to_bytes_be 32 0xba7816bf8f01cfea414140de5dae2223b00361a396177a9cb410ff61f20015ad.
Proof. vm_compute. reflexivity. Qed.

Example crc32_check : crc32 (u "123456789") = 0xCBF43926.
Proof. vm_compute. reflexivity. Qed.

Definition w32 (x : N) : Prop := x < 2 ^ 32.

Lemma w32_testbit x : w32 x ↔ ∀ i, 32 <= i → N.testbit x i = false.
Proof.
  unfold w32. split.
  - intros Hx i Hi. destruct (decide (x = 0)) as [->|Hn]; [apply N.bits_0|].
    apply N.bits_above_log2. apply N.log2_lt_pow2 in Hx; lia.
  - intros H. destruct (decide (x = 0)) as [->|Hn]; [done|].
    apply N.log2_lt_pow2; [lia|]. destruct (decide (N.log2 x < 32)); [done|].
    specialize (H (N.log2 x) ltac:(lia)). by rewrite N.bit_log2 in H.
Qed.

Lemma w32_lxor x y : w32 x → w32 y → w32 (N.lxor x y).
Proof.
  rewrite !w32_testbit. intros Hx Hy i Hi. by rewrite N.lxor_spec, Hx, Hy.
Qed.

Lemma w32_shiftr1 x : w32 x → w32 (N.shiftr x 1).
Proof.
  rewrite !w32_testbit. intros Hx i Hi. rewrite N.shiftr_spec by lia. apply Hx. lia.
Qed.

Lemma crc_bit_w32 x : w32 x → w32 (crc_bit x).
Proof.
  intros Hx. unfold crc_bit. destruct (N.testbit x 0); [|by apply w32_shiftr1].
  apply w32_lxor; [by apply w32_shiftr1|]. unfold w32. lia.
Qed.

Lemma iter_crc_bit_w32 n x : w32 x → w32 (Nat.iter n crc_bit x).
Proof. intros Hx. induction n; simpl; [done|]. by apply crc_bit_w32. Qed.

Lemma crc_byte_w32 x b : w32 x → b < 256 → w32 (crc_byte x b).
Proof.
  intros Hx Hb. apply iter_crc_bit_w32, w32_lxor; [done|]. unfold w32. lia.
Qed.

Lemma crc_bytes_w32 bs x : w32 x → bytes_ok bs → w32 (fold_left crc_byte bs x).
Proof.
  unfold bytes_ok. revert x. induction bs as [|b bs IH]; intros x Hx Hb; simpl; [done|].
  apply Forall_cons in Hb as [??]. apply IH; [|done]. by apply crc_byte_w32.
Qed.

Lemma crc32_bound bs : bytes_ok bs → crc32 bs < 2 ^ 32.
Proof. intros H. apply w32_lxor; [|done]. by apply crc_bytes_w32. Qed.

(** ** Error detection *)

(** A bit step is injective on words: bit 31 of the result is the bit shifted
    out, because the polynomial has that bit and the shift clears it. *)
Lemma crc_bit_inj x y : w32 x → w32 y → crc_bit x = crc_bit y → x = y.
Proof.
  intros Hx Hy Heq. pose proof (proj1 (w32_testbit x) Hx) as Bx.
  pose proof (proj1 (w32_testbit y) Hy) as By.
  assert (Htop : ∀ z, w32 z → N.testbit (crc_bit z) 31 = N.testbit z 0).
  { intros z Hz. pose proof (proj1 (w32_testbit z) Hz 32 ltac:(lia)) as Bz.
    unfold crc_bit. destruct (N.testbit z 0).
    - rewrite N.lxor_spec, N.shiftr_spec by lia. change (31 + 1) with 32. by rewrite Bz.
    - rewrite N.shiftr_spec by lia. change (31 + 1) with 32. by rewrite Bz. }
  assert (H0 : N.testbit x 0 = N.testbit y 0) by (rewrite <-!Htop by done; by rewrite Heq).
  assert (Hsh : N.shiftr x 1 = N.shiftr y 1).
  { unfold crc_bit in Heq. rewrite H0 in Heq. destruct (N.testbit y 0); [|done].
    apply (f_equal (λ z, N.lxor z 0xEDB88320)) in Heq.
    by rewrite !N.lxor_assoc, N.lxor_nilpotent, !N.lxor_0_r in Heq. }
  apply N.bits_inj. intros i. destruct (decide (i = 0)) as [->|Hi]; [done|].
  replace i with ((i - 1) + 1) by lia. rewrite <-!N.shiftr_spec by lia. by rewrite Hsh.
Qed.

Lemma iter_crc_bit_inj n x y :
  w32 x → w32 y → Nat.iter n crc_bit x = Nat.iter n crc_bit y → x = y.
Proof.
  intros Hx Hy. induction n as [|n IH]; simpl; [done|].
  intros ?%crc_bit_inj; auto using iter_crc_bit_w32.
Qed.

Lemma crc_byte_inj_l x y b :
  w32 x → w32 y → b < 256 → crc_byte x b = crc_byte y b → x = y.
Proof.
  intros Hx Hy Hb Heq. assert (w32 b) by (unfold w32; lia).
  apply iter_crc_bit_inj in Heq; [|by apply w32_lxor..].
  apply (f_equal (λ z, N.lxor z b)) in Heq.
  by rewrite !N.lxor_assoc, N.lxor_nilpotent, !N.lxor_0_r in Heq.
Qed.

Lemma crc_byte_inj_r x a b :
  w32 x → a < 256 → b < 256 → crc_byte x a = crc_byte x b → a = b.
Proof.
  intros Hx Ha Hb Heq. assert (w32 a ∧ w32 b) as [??] by (unfold w32; lia).
  apply iter_crc_bit_inj in Heq; [|by apply w32_lxor..].
  apply (f_equal (N.lxor x)) in Heq.
  by rewrite <-!N.lxor_assoc, N.lxor_nilpotent, !N.lxor_0_l in Heq.
Qed.

Lemma crc_bytes_inj bs x y :
  w32 x → w32 y → bytes_ok bs →
  fold_left crc_byte bs x = fold_left crc_byte bs y → x = y.
Proof.
  unfold bytes_ok. revert x y. induction bs as [|b bs IH]; intros x y Hx Hy Hb; simpl; [done|].
  apply Forall_cons in Hb as [Hb ?]. intros Heq.
  eapply crc_byte_inj_l, IH; eauto using crc_byte_w32.
Qed.

(** Replacing one byte by another changes the CRC. *)
Lemma crc32_one_byte pre a b post :
  bytes_ok (pre ++ a :: post) → b < 256 →
  crc32 (pre ++ a :: post) = crc32 (pre ++ b :: post) → a = b.
Proof.
  unfold bytes_ok. rewrite Forall_app, Forall_cons. intros (Hpre & Ha & Hpost) Hb Heq.
  assert (w32 0xffffffff) by done.
  apply (f_equal (λ z, N.lxor z 0xffffffff)) in Heq. unfold crc32 in Heq.
  rewrite !N.lxor_assoc, N.lxor_nilpotent, !N.lxor_0_r, !fold_left_app in Heq. simpl in Heq.
  apply crc_bytes_inj in Heq; auto using crc_byte_w32, crc_bytes_w32.
  by apply crc_byte_inj_r in Heq; auto using crc_bytes_w32.
Qed.
