(* ===== verification/Json.v ===== *)
(** * [json.dumps] and [json.loads]

    JSON values as Python holds them; [dumps] is [json.dumps(v, sort_keys=True,
    separators=(",", ":"))] (ASCII output), [dumps_spaced] is [json.dumps(v)], [loads] is [json.loads] on text.
    A float is carried as its literal, since the program never computes with
    one.  CPython's recursion limit is not modelled.

    [loads_total]: the fuel of the parser is always enough.  [loads_dumps]: what
    was printed parses back to the same value with sorted keys. *)

From S2P Require Import Prelude PyStr Codec.

Local Open Scope N_scope.

Unset Elimination Schemes.
Inductive json :=
  | JNull
  | JBool (b : bool)
  | JInt (z : Z)
  | JFloat (literal : pystr)
  | JStr (s : pystr)
  | JArr (l : list json)
  | JObj (d : list (pystr * json)).
Set Elimination Schemes.

(** Induction with the hypothesis for every element and every member. *)
Definition json_ind (P : json → Prop)
    (Hnull : P JNull) (Hbool : ∀ b, P (JBool b)) (Hint : ∀ z, P (JInt z))
    (Hfloat : ∀ s, P (JFloat s)) (Hstr : ∀ s, P (JStr s))
    (Harr : ∀ l, Forall P l → P (JArr l))
    (Hobj : ∀ d, Forall (λ kv, P kv.2) d → P (JObj d)) : ∀ j, P j :=
  fix rec j :=
    match j with
    | JNull => Hnull
    | JBool b => Hbool b
    | JInt z => Hint z
    | JFloat s => Hfloat s
    | JStr s => Hstr s
    | JArr l => Harr l ((fix go l : Forall P l :=
        match l with
        | [] => Forall_nil_2 _
        | x :: l' => Forall_cons_2 _ _ _ (rec x) (go l')
        end) l)
    | JObj d => Hobj d ((fix go d : Forall (λ kv, P kv.2) d :=
        match d with
        | [] => Forall_nil_2 _
        | kv :: d' => Forall_cons_2 _ _ _ (rec kv.2) (go d')
        end) d)
    end.

(** ** Printing *)

Definition u_escape (n : N) : pystr := 92 :: 117 :: hex_fixed 4 n.

Definition high_surrogate (c : N) : N := 0xD800 + (c - 0x10000) / 1024.
Definition low_surrogate (c : N) : N := 0xDC00 + (c - 0x10000) mod 1024.

Definition escape_char (c : N) : pystr :=
  if c =? 34 then [92; 34]
  else if c =? 92 then [92; 92]
  else if c =? 8 then [92; 98]
  else if c =? 9 then [92; 116]
  else if c =? 10 then [92; 110]
  else if c =? 12 then [92; 102]
  else if c =? 13 then [92; 114]
  else if (32 <=? c) && (c <=? 126) then [c]
  else if c <? 0x10000 then u_escape c
  else u_escape (high_surrogate c) ++ u_escape (low_surrogate c).

Definition quote_json (s : pystr) : pystr := [dquote] ++ (s ≫= escape_char) ++ [dquote].

Fixpoint insert_key {A} (kv : pystr * A) (d : list (pystr * A)) : list (pystr * A) :=
  match d with
  | [] => [kv]
  | kv' :: d' => if pystr_leb kv.1 kv'.1 then kv :: d else kv' :: insert_key kv d'
  end.
Definition sort_keys {A} (d : list (pystr * A)) : list (pystr * A) :=
  foldr insert_key [] d.

(** The printer: members in the order they have, [gap] after commas and colons. *)
Fixpoint dumps_gap (gap : pystr) (j : json) : pystr :=
  match j with
  | JNull => u "null"
  | JBool true => u "true"
  | JBool false => u "false"
  | JInt z => str_of_Z z
  | JFloat s => s
  | JStr s => quote_json s
  | JArr l => u "[" ++ join (44 :: gap) (map (dumps_gap gap) l) ++ u "]"
  | JObj d =>
      u "{" ++ join (44 :: gap) (map (λ '(k, v), quote_json k ++ 58 :: gap ++ dumps_gap gap v) d) ++ u "}"
  end.

(** [json.dumps(v, separators=(",", ":"))] and [json.dumps(v)]. *)
Definition dumps_in_order : json → pystr := dumps_gap [].
Definition dumps_spaced : json → pystr := dumps_gap [32].

(** The value with every object's members in key order. *)
Fixpoint sort_json (j : json) : json :=
  match j with
  | JArr l => JArr (map sort_json l)
  | JObj d => JObj (sort_keys (map (λ '(k, v), (k, sort_json v)) d))
  | _ => j
  end.

(** [json.dumps(v, sort_keys=True, separators=(",", ":"))]. *)
Definition dumps (j : json) : pystr := dumps_in_order (sort_json j).

(** ** Parsing *)

Definition json_error : exn := JSONDecodeError (u "not valid JSON").
Definition fuel_error : exn := RuntimeError (u "fuel").

Definition is_json_space (c : N) : bool :=
  (c =? 32) || (c =? 9) || (c =? 10) || (c =? 13).
Definition skip_space : pystr → pystr := lstrip_by is_json_space.

Definition hex_value (c : N) : option N :=
  if is_ascii_digit c then Some (c - 48)
  else if (97 <=? c) && (c <=? 102) then Some (c - 87)
  else if (65 <=? c) && (c <=? 70) then Some (c - 55)
  else None.
Definition hex4 (a b c d : N) : option N :=
  a ← hex_value a; b ← hex_value b; c ← hex_value c; d ← hex_value d;
  Some (a * 4096 + b * 256 + c * 16 + d).

Definition is_high (c : N) : bool := (0xD800 <=? c) && (c <=? 0xDBFF).
Definition is_low (c : N) : bool := (0xDC00 <=? c) && (c <=? 0xDFFF).
Definition join_surrogates (h l : N) : N := 0x10000 + (h - 0xD800) * 1024 + (l - 0xDC00).

Definition simple_escape (e : N) : option N :=
  if e =? 34 then Some 34 else if e =? 92 then Some 92 else if e =? 47 then Some 47
  else if e =? 98 then Some 8 else if e =? 102 then Some 12 else if e =? 110 then Some 10
  else if e =? 114 then Some 13 else if e =? 116 then Some 9 else None.

Definition cons_fst (c : N) (p : pystr * pystr) : pystr * pystr := (c :: p.1, p.2).

(** The characters of a string literal, after its opening quote. *)
Fixpoint scan_string (s : pystr) : res (pystr * pystr) :=
  match s with
  | [] => Raise json_error
  | c :: s1 =>
      if c =? 34 then Ok ([], s1)
      else if c <? 32 then Raise json_error
      else if c =? 92 then
        match s1 with
        | [] => Raise json_error
        | e :: s2 =>
            if e =? 117 then
              match s2 with
              | h1 :: h2 :: h3 :: h4 :: s3 =>
                  match hex4 h1 h2 h3 h4 with
                  | None => Raise json_error
                  | Some c1 =>
                      match s3 with
                      | b :: v :: g1 :: g2 :: g3 :: g4 :: s4 =>
                          if is_high c1 && (b =? 92) && (v =? 117) then
                            match hex4 g1 g2 g3 g4 with
                            | None => Raise json_error
                            | Some c2 =>
                                if is_low c2
                                then cons_fst (join_surrogates c1 c2) <$> scan_string s4
                                else cons_fst c1 <$> scan_string s3
                            end
                          else cons_fst c1 <$> scan_string s3
                      | _ => cons_fst c1 <$> scan_string s3
                      end
                  end
              | _ => Raise json_error
              end
            else match simple_escape e with
                 | Some c1 => cons_fst c1 <$> scan_string s2
                 | None => Raise json_error
                 end
        end
      else cons_fst c <$> scan_string s1
  end.

Fixpoint span_digits (s : pystr) : pystr * pystr :=
  match s with
  | c :: s' => if is_ascii_digit c then cons_fst c (span_digits s') else ([], s)
  | [] => ([], [])
  end.

(** The fraction and the exponent of a number, when they are there. *)
Definition scan_frac (s : pystr) : pystr * pystr :=
  match s with
  | c :: s' =>
      if c =? 46 then
        match span_digits s' with
        | ([], _) => ([], s)
        | (ds, r) => (c :: ds, r)
        end
      else ([], s)
  | [] => ([], s)
  end.
Definition scan_exp (s : pystr) : pystr * pystr :=
  match s with
  | c :: s' =>
      if (c =? 101) || (c =? 69) then
        let '(sg, s2) :=
          match s' with
          | d :: s3 => if (d =? 43) || (d =? 45) then ([d], s3) else ([], s')
          | [] => ([], s')
          end in
        match span_digits s2 with
        | ([], _) => ([], s)
        | (ds, r) => (c :: sg ++ ds, r)
        end
      else ([], s)
  | [] => ([], s)
  end.

Definition int_value (sign ds : pystr) : res json :=
  if max_str_digits <? N.of_nat (length ds)
  then Raise (ValueError (u "Exceeds the limit (4300 digits) for integer string conversion"))
  else let n := Z.of_N (digits_value ((λ c, c - 48) <$> ds)) in
       Ok (JInt (if bool_decide (sign = []) then n else - n)%Z).

(** A number at the head of the input, if one is there. *)
Definition scan_number (s : pystr) : option (res (json * pystr)) :=
  let '(sign, s1) :=
    match s with
    | c :: r => if c =? 45 then ([45], r) else ([], s)
    | [] => ([], s)
    end in
  let '(ds, s2) :=
    match s1 with
    | c :: r => if c =? 48 then ([48], r) else span_digits s1
    | [] => ([], s1)
    end in
  if bool_decide (ds = []) then None
  else
    let '(frac, s3) := scan_frac s2 in
    let '(ex, s4) := scan_exp s3 in
    if bool_decide (frac ++ ex = [])
    then Some (j ← int_value sign ds; Ok (j, s4))
    else Some (Ok (JFloat (sign ++ ds ++ frac ++ ex), s4)).

(** Words that stand for themselves. *)
Definition json_words : list (pystr * json) :=
  [(u "null", JNull); (u "true", JBool true); (u "false", JBool false);
   (u "NaN", JFloat (u "NaN")); (u "Infinity", JFloat (u "Infinity"));
   (u "-Infinity", JFloat (u "-Infinity"))].
Definition scan_word (s : pystr) : option (json * pystr) :=
  (λ '(w, j), (j, drop (length w) s)) <$> find (λ '(w, _), startswith s w) json_words.

Definition scan_atom (s : pystr) : res (json * pystr) :=
  match scan_number s with
  | Some r => r
  | None => match scan_word s with Some r => Ok r | None => Raise json_error end
  end.

Section Scan.
Context (value : pystr → res (json * pystr)).

(** Elements after the first value of an array. *)
Fixpoint scan_elements (fuel : nat) (s : pystr) : res (list json * pystr) :=
  match fuel with
  | O => Raise fuel_error
  | S f =>
      '(j, s1) ← value s;
      match skip_space s1 with
      | c :: s2 =>
          if c =? 93 then Ok ([j], s2)
          else if c =? 44 then
            '(l, s3) ← scan_elements f (skip_space s2); Ok (j :: l, s3)
          else Raise json_error
      | [] => Raise json_error
      end
  end.

(** Members of an object; a repeated key replaces the earlier value. *)
Fixpoint scan_members (fuel : nat) (acc : dict json) (s : pystr)
    : res (dict json * pystr) :=
  match fuel with
  | O => Raise fuel_error
  | S f =>
      match s with
      | q :: s0 =>
          if q =? 34 then
            '(k, s1) ← scan_string s0;
            match skip_space s1 with
            | c :: s2 =>
                if c =? 58 then
                  '(j, s3) ← value (skip_space s2);
                  match skip_space s3 with
                  | e :: s4 =>
                      if e =? 125 then Ok (dict_set acc k j, s4)
                      else if e =? 44
                      then scan_members f (dict_set acc k j) (skip_space s4)
                      else Raise json_error
                  | [] => Raise json_error
                  end
                else Raise json_error
            | [] => Raise json_error
            end
          else Raise json_error
      | [] => Raise json_error
      end
  end.
End Scan.

Fixpoint scan_value (fuel : nat) (s : pystr) : res (json * pystr) :=
  match fuel with
  | O => Raise fuel_error
  | S f =>
      match s with
      | [] => Raise json_error
      | c :: s1 =>
          if c =? 34 then '(t, r) ← scan_string s1; Ok (JStr t, r)
          else if c =? 123 then
            match skip_space s1 with
            | e :: s2 =>
                if e =? 125 then Ok (JObj [], s2)
                else '(d, r) ← scan_members (scan_value f) f [] (e :: s2); Ok (JObj d, r)
            | [] => Raise json_error
            end
          else if c =? 91 then
            match skip_space s1 with
            | e :: s2 =>
                if e =? 93 then Ok (JArr [], s2)
                else '(l, r) ← scan_elements (scan_value f) f (e :: s2); Ok (JArr l, r)
            | [] => Raise json_error
            end
          else scan_atom s
      end
  end.

(** [json.loads(text)]. *)
Definition loads (s : pystr) : res json :=
  if startswith s [0xFEFF] then Raise json_error
  else
    let t := skip_space s in
    '(j, r) ← scan_value (S (length t)) t;
    if bool_decide (skip_space r = []) then Ok j else Raise json_error.

(** ** The parser never runs out of fuel *)

(** [shrinks n m]: [m] does not fail for fuel, and leaves fewer than [n]
    characters of input. *)
Definition shrinks {A} (n : nat) (m : res (A * pystr)) : Prop :=
  match m with
  | Ok (_, r) => (length r < n)%nat
  | Raise e => e ≠ fuel_error
  end.

Lemma shrinks_fmap {A B} n m (r : res (A * pystr)) (f : A * pystr → B * pystr) :
  shrinks n r → (∀ p, (f p).2 = p.2) → (n ≤ m)%nat → shrinks m (f <$> r).
Proof.
  destruct r as [[a t]|e]; simpl; [|done]. intros Hn Hf Hle.
  specialize (Hf (a, t)). simpl in Hf. unfold fmap, res_fmap, shrinks.
  destruct (f (a, t)) as [b t']. simpl in *. subst. lia.
Qed.

Lemma shrinks_bind {A B} n m (r : res (A * pystr)) (f : A * pystr → res (B * pystr)) :
  shrinks n r → (∀ a t, (length t < n)%nat → shrinks m (f (a, t))) → shrinks m (r ≫= f).
Proof. destruct r as [[a t]|e]; simpl; auto. Qed.

Lemma skip_space_length s : (length (skip_space s) <= length s)%nat.
Proof.
  unfold skip_space. induction s as [|c s IH]; simpl; [lia|].
  destruct (is_json_space c); simpl; lia.
Qed.

Lemma span_digits_length s : (length (span_digits s).2 <= length s)%nat.
Proof. induction s as [|c s IH]; simpl; [lia|]. destruct (is_ascii_digit c); simpl; lia. Qed.

Lemma shrinks_error {A} n : shrinks (A := A) n (Raise json_error).
Proof. done. Qed.
#[local] Hint Resolve shrinks_error : core.

Lemma scan_string_shrinks s : shrinks (length s) (scan_string s).
Proof.
  induction s as [s IH] using (induction_ltof1 _ (@length N)); unfold ltof in IH.
  destruct s as [|c s1]; [done|]. cbn [scan_string].
  assert (step : ∀ x t, (length t < length (c :: s1))%nat →
    shrinks (length (c :: s1)) (cons_fst x <$> scan_string t)).
  { intros x t Ht. eapply shrinks_fmap; [by apply IH|done|lia]. }
  destruct (c =? 34); [simpl; lia|]. destruct (c <? 32); [done|].
  destruct (c =? 92); [|apply step; simpl; lia].
  destruct s1 as [|e s2]; [done|].
  destruct (e =? 117).
  - destruct s2 as [|h1 [|h2 [|h3 [|h4 s3]]]]; try done.
    destruct (hex4 h1 h2 h3 h4) as [c1|]; [|done].
    destruct s3 as [|b [|v [|g1 [|g2 [|g3 [|g4 s4]]]]]];
      try (apply step; simpl; lia).
    destruct (is_high c1 && (b =? 92) && (v =? 117)); [|apply step; simpl; lia].
    destruct (hex4 g1 g2 g3 g4) as [c2|]; [|done].
    destruct (is_low c2); apply step; simpl; lia.
  - destruct (simple_escape e); [|done]. apply step; simpl; lia.
Qed.

Lemma scan_frac_length s : (length (scan_frac s).2 <= length s)%nat.
Proof.
  destruct s as [|c s]; simpl; [lia|]. destruct (c =? 46); [|simpl; lia].
  pose proof (span_digits_length s). destruct (span_digits s) as [[|] ?]; simpl in *; lia.
Qed.

Lemma scan_exp_length s : (length (scan_exp s).2 <= length s)%nat.
Proof.
  destruct s as [|c s]; simpl; [lia|]. destruct ((c =? 101) || (c =? 69)); [|simpl; lia].
  destruct s as [|d s]; [simpl; lia|].
  pose proof (span_digits_length s). pose proof (span_digits_length (d :: s)).
  destruct ((d =? 43) || (d =? 45)); simpl in *; repeat case_match; simpl in *; simplify_eq/=; lia.
Qed.

Lemma int_value_no_fuel sg ds : int_value sg ds ≠ Raise fuel_error.
Proof. unfold int_value. by destruct (_ <? _). Qed.

Lemma span_digits_lt s d ds r :
  span_digits s = (d :: ds, r) → (length r < length s)%nat.
Proof.
  destruct s as [|c s]; simpl; [done|]. destruct (is_ascii_digit c); [|done].
  pose proof (span_digits_length s). unfold cons_fst. intros [= _ _ <-]. lia.
Qed.

Lemma scan_number_shrinks s :
  match scan_number s with Some r => shrinks (length s) r | None => True end.
Proof.
  unfold scan_number.
  destruct (match s with [] => ([], s) | _ => _ end) as [sg s1] eqn:E1.
  assert (L1 : (length s1 <= length s)%nat).
  { destruct s as [|c r]; simplify_eq; [lia|]. destruct (c =? 45); simplify_eq/=; lia. }
  destruct (match s1 with [] => ([], s1) | _ => _ end) as [ds s2] eqn:E2.
  destruct ds as [|d ds]; [done|]. rewrite bool_decide_false by done.
  assert (L2 : (length s2 < length s)%nat).
  { destruct s1 as [|c r]; [done|]. destruct (c =? 48); simplify_eq/=; [lia|].
    change (span_digits (c :: r) = (d :: ds, s2)) in E2.
    apply span_digits_lt in E2. simpl in *. lia. }
  pose proof (scan_frac_length s2) as L3. destruct (scan_frac s2) as [fr s3].
  pose proof (scan_exp_length s3) as L4. destruct (scan_exp s3) as [ex s4]. simpl in *.
  case_bool_decide; [|simpl; lia].
  pose proof (int_value_no_fuel sg (d :: ds)). destruct (int_value sg (d :: ds)) as [j|e]; simpl.
  - lia.
  - congruence.
Qed.

Lemma scan_atom_shrinks s : shrinks (length s) (scan_atom s).
Proof.
  unfold scan_atom. pose proof (scan_number_shrinks s) as H.
  destruct (scan_number s) as [r|]; [done|].
  unfold scan_word. destruct (find _ json_words) as [[w j]|] eqn:E; [|done].
  apply find_some in E as [Hin [t ->]%startswith_spec].
  simpl. rewrite drop_app_length, length_app.
  unfold json_words in Hin. simpl in Hin.
  repeat destruct Hin as [Hin|Hin]; simplify_eq; try done; simpl; lia.
Qed.

Section ScanFuel.
Context (f : nat) (value : pystr → res (json * pystr)).
Hypothesis Hvalue : ∀ s, (length s < f)%nat → shrinks (length s) (value s).

Lemma scan_elements_shrinks g s :
  (length s < f)%nat → (length s < g)%nat → shrinks (length s) (scan_elements value g s).
Proof.
  revert s. induction g as [|g IH]; intros s Hf Hg; simpl; [lia|].
  eapply shrinks_bind; [by apply Hvalue|]. intros j s1 H1. cbv beta iota.
  pose proof (skip_space_length s1). destruct (skip_space s1) as [|c s2]; [done|].
  destruct (c =? 93); [simpl in *; lia|]. destruct (c =? 44); [|done].
  pose proof (skip_space_length s2). simpl in *.
  eapply shrinks_bind; [apply IH; lia|]. intros l s3 H3. simpl. lia.
Qed.

Lemma scan_members_shrinks g acc s :
  (length s < f)%nat → (length s < g)%nat → shrinks (length s) (scan_members value g acc s).
Proof.
  revert acc s. induction g as [|g IH]; intros acc s Hf Hg; simpl; [lia|].
  destruct s as [|q s0]; [done|]. destruct (q =? 34); [|done].
  eapply shrinks_bind; [apply scan_string_shrinks|]. intros k s1 H1. cbv beta iota.
  pose proof (skip_space_length s1). destruct (skip_space s1) as [|c s2]; [done|].
  destruct (c =? 58); [|done]. pose proof (skip_space_length s2). simpl in *.
  eapply shrinks_bind; [apply Hvalue; lia|]. intros j s3 H3. cbv beta iota.
  pose proof (skip_space_length s3). destruct (skip_space s3) as [|e s4]; [done|].
  destruct (e =? 125); [simpl in *; lia|]. destruct (e =? 44); [|done].
  pose proof (skip_space_length s4). simpl in *.
  pose proof (IH (dict_set acc k j) (skip_space s4) ltac:(lia) ltac:(lia)) as HI.
  destruct (scan_members value g (dict_set acc k j) (skip_space s4)) as [[? ?]|?];
    simpl in *; [lia|done].
Qed.
End ScanFuel.

Lemma scan_value_shrinks f s :
  (length s < f)%nat → shrinks (length s) (scan_value f s).
Proof.
  revert s. induction f as [|f IH]; intros s Hs; [lia|].
  destruct s as [|c s1]; [done|]. cbn [scan_value]. simpl in Hs.
  destruct (c =? 34).
  { eapply shrinks_bind; [apply scan_string_shrinks|]. intros; simpl; lia. }
  pose proof (skip_space_length s1).
  destruct (c =? 123); [|destruct (c =? 91); [|apply scan_atom_shrinks]];
    (destruct (skip_space s1) as [|e s2]; [done|]); simpl in *.
  - destruct (e =? 125); [simpl; lia|]. eapply shrinks_bind.
    + eapply (scan_members_shrinks f); [apply IH|simpl; lia..].
    + intros d r Hr. simpl in *. lia.
  - destruct (e =? 93); [simpl; lia|]. eapply shrinks_bind.
    + eapply (scan_elements_shrinks f); [apply IH|simpl; lia..].
    + intros d r Hr. simpl in *. lia.
Qed.

Lemma loads_total s : loads s ≠ Raise fuel_error.
Proof.
  unfold loads. destruct (startswith s _); [done|].
  pose proof (scan_value_shrinks (S (length (skip_space s))) (skip_space s) ltac:(lia)) as H.
  destruct (scan_value _ _) as [[j r]|e]; simpl in *; [|congruence].
  by destruct (bool_decide _).
Qed.

(** ** Strings round trip *)

(** No high surrogate directly followed by a low one: the parser would join
    them.  Every string decoded from UTF-8 has this form. *)
Fixpoint no_pair (s : pystr) : bool :=
  match s with
  | a :: s' =>
      match s' with b :: _ => negb (is_high a && is_low b) | [] => true end && no_pair s'
  | [] => true
  end.
Definition str_ok (s : pystr) : bool := forallb (λ c, c <=? 0x10FFFF) s && no_pair s.

Lemma hex_value_char d : d < 16 → hex_value (hex_char d) = Some d.
Proof.
  intros Hd. unfold hex_char. destruct (N.ltb_spec d 10).
  - unfold hex_value. replace (is_ascii_digit (48 + d)) with true by (unfold is_ascii_digit; lia).
    f_equal. lia.
  - unfold hex_value. replace (is_ascii_digit (87 + d)) with false by (unfold is_ascii_digit; lia).
    replace ((97 <=? 87 + d) && (87 + d <=? 102)) with true by lia. f_equal. lia.
Qed.

Lemma hex4_fixed n :
  n < 65536 →
  ∃ a b c d, hex_fixed 4 n = [a; b; c; d] ∧ hex4 a b c d = Some n.
Proof.
  intros Hn. eexists _, _, _, _. split; [reflexivity|].
  unfold hex4. rewrite !hex_value_char by (apply N.mod_lt; lia).
  unfold mbind, option_bind. f_equal.
  pose proof (N.div_mod n 16 ltac:(lia)).
  pose proof (N.div_mod (n / 16) 16 ltac:(lia)).
  pose proof (N.div_mod (n / 16 / 16) 16 ltac:(lia)).
  rewrite (N.mod_small (n / 16 / 16 / 16)) by dlia. lia.
Qed.

Lemma scan_u_escape c t :
  c < 65536 →
  scan_string (u_escape c ++ t) =
  match t with
  | b :: v :: g1 :: g2 :: g3 :: g4 :: s4 =>
      if is_high c && (b =? 92) && (v =? 117) then
        match hex4 g1 g2 g3 g4 with
        | None => Raise json_error
        | Some c2 =>
            if is_low c2
            then cons_fst (join_surrogates c c2) <$> scan_string s4
            else cons_fst c <$> scan_string t
        end
      else cons_fst c <$> scan_string t
  | _ => cons_fst c <$> scan_string t
  end.
Proof.
  intros Hc. unfold u_escape. destruct (hex4_fixed c Hc) as (h1 & h2 & h3 & h4 & -> & Hh).
  cbn [app scan_string]. change (92 =? 34) with false. change (92 <? 32) with false.
  change (92 =? 92) with true. change (117 =? 117) with true. cbv iota. by rewrite Hh.
Qed.

(** What may follow the escape of a high surrogate without being joined to it. *)
Definition after_high_ok (t : pystr) : Prop :=
  match t with
  | b :: v :: g1 :: g2 :: g3 :: g4 :: _ =>
      (b =? 92) && (v =? 117) = true → ∃ c, hex4 g1 g2 g3 g4 = Some c ∧ is_low c = false
  | _ => True
  end.

Lemma scan_u_escape_single c t :
  c < 65536 → (is_high c = true → after_high_ok t) →
  scan_string (u_escape c ++ t) = cons_fst c <$> scan_string t.
Proof.
  intros Hc Ht. rewrite scan_u_escape by done.
  destruct t as [|b [|v [|g1 [|g2 [|g3 [|g4 s4]]]]]]; try done.
  destruct (is_high c) eqn:Hh; [|done].
  rewrite andb_true_l. destruct ((b =? 92) && (v =? 117)) eqn:Hb; [|done].
  destruct (Ht eq_refl Hb) as (c2 & -> & ->). done.
Qed.

Lemma surrogates_split c :
  0x10000 <= c <= 0x10FFFF →
  is_high (high_surrogate c) = true ∧ is_low (low_surrogate c) = true
  ∧ high_surrogate c < 65536 ∧ low_surrogate c < 65536
  ∧ join_surrogates (high_surrogate c) (low_surrogate c) = c.
Proof.
  intros Hc. unfold is_high, is_low, join_surrogates, high_surrogate, low_surrogate.
  assert (c = 0x10000 + (c - 0x10000)) as Hk by lia.
  pose proof (N.div_mod (c - 0x10000) 1024 ltac:(lia)).
  pose proof (N.mod_lt (c - 0x10000) 1024 ltac:(lia)).
  assert ((c - 0x10000) / 1024 < 1024) by (apply N.Div0.div_lt_upper_bound; lia).
  revert Hk H H0 H1. generalize ((c - 0x10000) / 1024), ((c - 0x10000) mod 1024).
  generalize (c - 0x10000). intros k q r Hk. repeat split; lia.
Qed.

Lemma scan_escape_char c t :
  c <= 0x10FFFF → (is_high c = true → after_high_ok t) →
  scan_string (escape_char c ++ t) = cons_fst c <$> scan_string t.
Proof.
  intros Hc Ht. unfold escape_char.
  destruct (N.eqb_spec c 34) as [->|H34]; [done|].
  destruct (N.eqb_spec c 92) as [->|H92]; [done|].
  destruct (N.eqb_spec c 8) as [->|_]; [done|].
  destruct (N.eqb_spec c 9) as [->|_]; [done|].
  destruct (N.eqb_spec c 10) as [->|_]; [done|].
  destruct (N.eqb_spec c 12) as [->|_]; [done|].
  destruct (N.eqb_spec c 13) as [->|_]; [done|].
  destruct ((32 <=? c) && (c <=? 126)) eqn:Hp.
  { cbn [app scan_string].
    replace (c =? 34) with false by lia. replace (c <? 32) with false by lia.
    by replace (c =? 92) with false by lia. }
  destruct (N.ltb_spec c 0x10000); [by apply scan_u_escape_single|].
  destruct (surrogates_split c ltac:(lia)) as (Hh & Hl & Hh' & Hl' & Hj).
  rewrite <-app_assoc, scan_u_escape by done. unfold u_escape at 1.
  destruct (hex4_fixed _ Hl') as (g1 & g2 & g3 & g4 & -> & Hg). cbn [app].
  by rewrite Hh, Hg, Hl, Hj.
Qed.

Lemma escape_after_high c t :
  c <= 0x10FFFF → is_low c = false → after_high_ok (escape_char c ++ t).
Proof.
  intros Hc Hl. unfold escape_char.
  repeat match goal with
  | |- context [if ?a =? ?b then _ else _] =>
      destruct (N.eqb_spec a b); [destruct t as [|? [|? [|? [|? ?]]]]; done|]
  end.
  destruct ((32 <=? c) && (c <=? 126)) eqn:Hp.
  { destruct t as [|? [|? [|? [|? [|? ?]]]]]; try done. simpl. lia. }
  destruct (N.ltb_spec c 0x10000).
  - unfold u_escape. destruct (hex4_fixed c ltac:(lia)) as (? & ? & ? & ? & -> & Hg).
    simpl. eauto.
  - destruct (surrogates_split c ltac:(lia)) as (Hh & _ & Hh' & _ & _). unfold u_escape.
    destruct (hex4_fixed _ Hh') as (? & ? & ? & ? & -> & Hg).
    simpl. intros _. eexists. split; [done|]. unfold is_high, is_low in *. lia.
Qed.

Lemma scan_string_quoted s rest :
  str_ok s = true →
  scan_string ((s ≫= escape_char) ++ dquote :: rest) = Ok (s, rest).
Proof.
  unfold str_ok. intros [Hr Hp]%andb_true_iff.
  induction s as [|c s IH]; [done|]. rewrite bind_cons, <-app_assoc.
  cbn [forallb no_pair] in *. bool_hyps.
  rewrite scan_escape_char; [by rewrite IH|lia|]. intros Hh.
  destruct s as [|d s]; [destruct rest as [|? [|? [|? [|? [|? ?]]]]]; done|].
  cbn [forallb] in *. bool_hyps. rewrite bind_cons, <-app_assoc.
  apply escape_after_high; [lia|]. rewrite Hh in *. by destruct (is_low d).
Qed.

(** ** Values round trip *)

(** Values [dumps] and [loads] are inverse on: no float, integers short enough
    to be read back, strings without a split pair, no repeated key. *)
Fixpoint json_ok (j : json) : Prop :=
  match j with
  | JFloat _ => False
  | JInt z => N.log2 (Z.abs_N z) < 4300
  | JStr s => str_ok s = true
  | JArr l => foldr (λ x P, json_ok x ∧ P) True l
  | JObj d =>
      NoDup d.*1 ∧ foldr (λ kv P, str_ok kv.1 = true ∧ json_ok kv.2 ∧ P) True d
  | _ => True
  end.

Section SortKeys.
Context {A B : Type}.

Lemma insert_key_perm (kv : pystr * A) d : insert_key kv d ≡ₚ kv :: d.
Proof.
  induction d as [|kv' d IH]; simpl; [done|].
  destruct (pystr_leb kv.1 kv'.1); [done|]. rewrite IH. by rewrite Permutation_swap.
Qed.

Lemma sort_keys_perm (d : dict A) : sort_keys d ≡ₚ d.
Proof. induction d as [|kv d IH]; simpl; [done|]. by rewrite insert_key_perm, IH. Qed.

Lemma insert_key_map (f : A → B) k v d :
  insert_key (k, f v) (map (λ '(k, v), (k, f v)) d)
  = map (λ '(k, v), (k, f v)) (insert_key (k, v) d).
Proof.
  induction d as [|[k' v'] d IH]; simpl; [done|].
  destruct (pystr_leb k k'); simpl; [done|]. by rewrite IH.
Qed.

Lemma sort_keys_map (f : A → B) d :
  sort_keys (map (λ '(k, v), (k, f v)) d) = map (λ '(k, v), (k, f v)) (sort_keys d).
Proof.
  unfold sort_keys. induction d as [|[k v] d IH]; cbn [map foldr]; [done|].
  rewrite IH. apply insert_key_map.
Qed.
End SortKeys.

Lemma keys_map {A B} (f : A → B) (d : dict A) : (map (λ '(k, v), (k, f v)) d).*1 = d.*1.
Proof. induction d as [|[k v] d IH]; [done|]. cbn [map]. rewrite !fmap_cons. by f_equal. Qed.

Lemma dict_set_fresh {A} (d : dict A) k v : k ∉ d.*1 → dict_set d k v = d ++ [(k, v)].
Proof.
  induction d as [|[k' v'] d IH]; simpl; [done|]. intros Hk.
  rewrite decide_False by set_solver. rewrite IH by set_solver. done.
Qed.

Lemma foldl_dict_set {A} (d acc : dict A) :
  NoDup (acc ++ d).*1 → foldl (λ a kv, dict_set a kv.1 kv.2) acc d = acc ++ d.
Proof.
  revert acc. induction d as [|[k v] d IH]; intros acc; simpl; [by rewrite app_nil_r|].
  intros Hnd. rewrite fmap_app in Hnd. simpl in Hnd.
  apply NoDup_app in Hnd as (Ha & Hdisj & Hd). rewrite dict_set_fresh by set_solver.
  rewrite IH; [by rewrite <-app_assoc|].
  rewrite !fmap_app. simpl. rewrite <-app_assoc. apply NoDup_app; set_solver.
Qed.

(** Text after which a number ends. *)
Definition delim (t : pystr) : Prop :=
  match t with
  | c :: _ => is_ascii_digit c = false ∧ c ≠ 46 ∧ c ≠ 101 ∧ c ≠ 69
  | [] => True
  end.

Lemma span_digits_app ds t :
  Forall (λ c, is_ascii_digit c = true) ds → delim t → span_digits (ds ++ t) = (ds, t).
Proof.
  intros Hds Ht. induction Hds as [|c ds Hc Hds IH]; cbn [app].
  - destruct t as [|c t]; [done|]. simpl. by destruct Ht as [-> _].
  - cbn [span_digits]. by rewrite Hc, IH.
Qed.

Lemma scan_frac_delim t : delim t → scan_frac t = ([], t).
Proof.
  destruct t as [|c t]; [done|]. simpl. intros (_ & H & _).
  by replace (c =? 46) with false by lia.
Qed.
Lemma scan_exp_delim t : delim t → scan_exp t = ([], t).
Proof.
  destruct t as [|c t]; [done|]. cbn [delim scan_exp]. intros (_ & _ & H1 & H2).
  by replace ((c =? 101) || (c =? 69)) with false by lia.
Qed.

Lemma int_value_dec sg n :
  N.log2 n < 4300 →
  int_value sg (dec n) = Ok (JInt (if bool_decide (sg = []) then Z.of_N n else - Z.of_N n)%Z).
Proof.
  intros Hn. unfold int_value. pose proof (dec_digits_length (S (N.to_nat (N.log2 n))) n).
  replace (max_str_digits <? N.of_nat (length (dec n))) with false
    by (unfold max_str_digits, dec; lia).
  by rewrite dec_value.
Qed.

Lemma scan_number_dec sg n t :
  sg = [] ∨ sg = [45] → N.log2 n < 4300 → delim t →
  scan_number (sg ++ dec n ++ t)
  = Some (Ok (JInt (if bool_decide (sg = []) then Z.of_N n else - Z.of_N n)%Z, t)).
Proof.
  intros Hsg Hn Ht. unfold scan_number.
  assert (Hd : ∃ c r, dec n = c :: r ∧ is_ascii_digit c = true
     ∧ (if c =? 48 then ([48], r ++ t) else span_digits (c :: r ++ t)) = (dec n, t)).
  { pose proof (dec_all n) as Hall.
    destruct (dec_shape n) as [[E _]|(c & r & E & Hc)]; rewrite E in *.
    - eexists _, _. by split.
    - exists c, r. split; [done|]. apply Forall_cons in Hall as Hall'. destruct Hall' as [Hc' _].
      split; [done|]. replace (c =? 48) with false by lia. by apply (span_digits_app (c :: r)). }
  destruct Hd as (c & r & E & Hdig & Hspan).
  assert (Hne : c ≠ 45) by (apply is_ascii_digit_bounds in Hdig; lia).
  assert (Hsign : (match sg ++ dec n ++ t with
    | c :: r => if c =? 45 then ([45], r) else ([], sg ++ dec n ++ t)
    | [] => ([], sg ++ dec n ++ t) end) = (sg, dec n ++ t)).
  { destruct Hsg as [->| ->]; [|done]. rewrite E. cbn [app].
    by replace (c =? 45) with false by lia. }
  rewrite Hsign. replace (dec n ++ t) with (c :: r ++ t) by (by rewrite E).
  cbv beta iota. rewrite Hspan. rewrite bool_decide_false by (by rewrite E).
  rewrite scan_frac_delim, scan_exp_delim by done.
  rewrite bool_decide_true by done. by rewrite int_value_dec.
Qed.

Lemma scan_number_Z z t :
  N.log2 (Z.abs_N z) < 4300 → delim t →
  scan_number (str_of_Z z ++ t) = Some (Ok (JInt z, t)).
Proof.
  intros Hz Ht. unfold str_of_Z. destruct (Z.ltb_spec z 0).
  - change (45 :: dec (Z.to_N (- z))) with ([45] ++ dec (Z.to_N (- z))).
    rewrite <-app_assoc, scan_number_dec; [|by right|by replace (Z.to_N (- z)) with (Z.abs_N z) by lia|done].
    rewrite bool_decide_false by done. do 3 f_equal. f_equal. lia.
  - change (dec (Z.to_N z) ++ t) with ([] ++ dec (Z.to_N z) ++ t).
    rewrite scan_number_dec; [|by left|by replace (Z.to_N z) with (Z.abs_N z) by lia|done].
    rewrite bool_decide_true by done. do 3 f_equal. f_equal. lia.
Qed.

(** Text that starts a value: not white space, not a closing bracket. *)
Definition value_start (t : pystr) : Prop :=
  ∃ c r, t = c :: r ∧ is_json_space c = false ∧ c ≠ 93 ∧ c ≠ 125.

Lemma str_of_Z_head z : ∃ c r, str_of_Z z = c :: r ∧ (c = 45 ∨ 48 <= c <= 57).
Proof.
  unfold str_of_Z. destruct (z <? 0)%Z; [eauto|].
  pose proof (dec_all (Z.to_N z)) as Hall.
  destruct (dec_shape (Z.to_N z)) as [[E _]|(c & r & E & _)]; rewrite E in *.
  - eexists _, _. split; [done|]. right. lia.
  - exists c, r. split; [done|]. right. apply Forall_cons in Hall as [Hc _].
    by apply is_ascii_digit_bounds.
Qed.

Lemma skip_space_start t r : value_start t → skip_space (t ++ r) = t ++ r.
Proof. intros (c & t' & -> & Hc & _). unfold skip_space. simpl. by rewrite Hc. Qed.

Lemma foldr_and_Forall {A} (P : A → Prop) l : foldr (λ x Q, P x ∧ Q) True l ↔ Forall P l.
Proof. induction l as [|x l IH]; simpl; [by rewrite Forall_nil|]. by rewrite Forall_cons, IH. Qed.

Lemma foldr_and2_Forall {A} (P R : A → Prop) l :
  foldr (λ x Q, P x ∧ R x ∧ Q) True l ↔ Forall (λ x, P x ∧ R x) l.
Proof.
  induction l as [|x l IH]; simpl; [by rewrite Forall_nil|]. rewrite Forall_cons, IH. tauto.
Qed.

Local Abbreviation rbracket := 93%N.
Local Abbreviation rbrace := 125%N.
Local Abbreviation comma gap := (cons 44%N gap).

Section Printed.
(** White space after commas and colons. *)
Context (gap : pystr) (Hgap : forallb is_json_space gap = true).
Local Abbreviation pr := (dumps_gap gap).

Lemma skip_gap t : skip_space (gap ++ t) = skip_space t.
Proof using Hgap.
  unfold skip_space. induction gap as [|c g IH]; [done|]. cbn [forallb] in Hgap.
  apply andb_true_iff in Hgap as [Hc Hg]. cbn [app lstrip_by]. rewrite Hc. by apply IH.
Qed.

Lemma dumps_start j : json_ok j → value_start (pr j).
Proof.
  destruct j as [|[]|z| |s|l|d]; simpl; intros H; try done;
    try (eexists _, _; split; [reflexivity|done]).
  destruct (str_of_Z_head z) as (c & r & -> & Hc). exists c, r.
  unfold is_json_space. repeat split; lia.
Qed.

Definition parses (f : nat) (j : json) : Prop :=
  ∀ r, delim r → (length (pr j ++ r) < f)%nat →
    scan_value f (pr j ++ r) = Ok (j, r).

Lemma scan_elements_dumps f g l r :
  l ≠ [] → Forall (λ j, json_ok j ∧ parses f j) l →
  (length (join (comma gap) (map pr l) ++ rbracket :: r) < f)%nat →
  (length (join (comma gap) (map pr l) ++ rbracket :: r) < g)%nat →
  scan_elements (scan_value f) g (join (comma gap) (map pr l) ++ rbracket :: r)
  = Ok (l, r).
Proof.
  intros Hne Hl. revert g. induction Hl as [|j l [Hok Hj] Hl IH]; [done|].
  intros g Hf Hg. destruct g as [|g]; [lia|]. cbn [map] in *.
  destruct l as [|j' l].
  - cbn [join map] in *. cbn [scan_elements].
    rewrite Hj; [|done|lia]. simpl. done.
  - assert (Hsplit : join (comma gap) (pr j :: map pr (j' :: l)) ++ rbracket :: r
      = pr j ++ 44 :: gap ++ (join (comma gap) (map pr (j' :: l)) ++ rbracket :: r)).
    { cbn [join map]. rewrite <-!app_assoc. done. }
    rewrite Hsplit in *. cbn [scan_elements].
    rewrite Hj; [|done|lia]. cbn [mbind res_bind].
    change (skip_space (44 :: ?x)) with (44 :: x). cbv beta iota.
    rewrite length_app in Hf, Hg. cbn [length] in Hf, Hg. rewrite length_app in Hf, Hg.
    assert (Hst : value_start (join (comma gap) (map pr (j' :: l)))).
    { apply Forall_cons in Hl as [[Hok' _] _]. destruct (dumps_start _ Hok') as (c & t & E & Hc).
      cbn [map join]. destruct (map pr l); rewrite E; by eexists _, _. }
    simpl (44 =? 93). simpl (44 =? 44). cbv iota.
    rewrite skip_gap, skip_space_start by done. rewrite IH; [|done|lia|lia]. done.
Qed.

Definition print_member (kv : pystr * json) : pystr :=
  quote_json kv.1 ++ 58 :: gap ++ pr kv.2.

Lemma print_members_start kv d :
  ∃ t, join (comma gap) (map print_member (kv :: d)) = dquote :: t.
Proof.
  cbn [map join]. unfold quote_json, print_member.
  destruct (map _ d); eexists; reflexivity.
Qed.

Lemma scan_members_dumps f g d acc r :
  d ≠ [] →
  Forall (λ kv, str_ok kv.1 = true ∧ json_ok kv.2 ∧ parses f kv.2) d →
  (length (join (comma gap) (map print_member d) ++ rbrace :: r) < f)%nat →
  (length (join (comma gap) (map print_member d) ++ rbrace :: r) < g)%nat →
  scan_members (scan_value f) g acc (join (comma gap) (map print_member d) ++ rbrace :: r)
  = Ok (foldl (λ a kv, dict_set a kv.1 kv.2) acc d, r).
Proof.
  intros Hne Hd. revert g acc.
  induction Hd as [|[k j] d (Hk & Hok & Hj) Hd IH]; [done|].
  intros g acc Hf Hg. destruct g as [|g]; [lia|]. cbn [map] in *. simpl in Hk, Hok, Hj.
  assert (Hsplit : ∃ t, join (comma gap) (print_member (k, j) :: map print_member d) ++ rbrace :: r
    = dquote :: ((k ≫= escape_char) ++ dquote :: 58 :: gap ++ pr j ++ t)
    ∧ t = (if d is [] then rbrace :: r else 44 :: gap ++ (join (comma gap) (map print_member d) ++ rbrace :: r))).
  { eexists. split; [|done]. unfold print_member at 1, quote_json. cbn [fst snd].
    destruct d as [|kv d]; cbn [map join]; rewrite <-?app_assoc; cbn [app];
      rewrite <-?app_assoc; cbn [app]; rewrite <-?app_assoc; done. }
  destruct Hsplit as (t & Hsplit & Ht). rewrite Hsplit in *.
  cbn [scan_members]. change (dquote =? 34) with true. cbv iota.
  rewrite scan_string_quoted by done. cbn [mbind res_bind].
  change (skip_space (58 :: ?x)) with (58 :: x). cbv beta iota.
  simpl (58 =? 58). cbv iota. rewrite skip_gap, skip_space_start by by apply dumps_start.
  cbn [length] in Hf, Hg. rewrite length_app in Hf, Hg. cbn [length] in Hf, Hg.
  rewrite length_app in Hf, Hg.
  assert (Hdel : delim t) by (subst t; by destruct d).
  rewrite Hj; [|done|lia]. cbn [mbind res_bind]. rewrite length_app in Hf, Hg.
  destruct d as [|[k' j'] d]; subst t; [done|].
  change (skip_space (44 :: ?x)) with (44 :: x). cbv beta iota.
  simpl (44 =? 125). simpl (44 =? 44). cbv iota.
  assert (Hst : ∀ x, skip_space (join (comma gap) (map print_member ((k', j') :: d)) ++ x)
     = join (comma gap) (map print_member ((k', j') :: d)) ++ x).
  { intros x. apply skip_space_start. destruct (print_members_start (k', j') d) as (t & ->).
    exists dquote, t. by repeat split. }
  rewrite skip_gap, Hst. cbn [length] in Hf, Hg. rewrite length_app in Hf, Hg. rewrite IH; [done|done|lia|lia].
Qed.

(** The text of an object is its members, each printed. *)
Lemma dumps_obj d :
  pr (JObj d) = [123] ++ join (comma gap) (map print_member d) ++ [125].
Proof. cbn [dumps_gap]. do 3 f_equal. apply map_ext. by intros [k v]. Qed.

Lemma scan_value_dumps j f : json_ok j → parses f j.
Proof.
  revert f. induction j as [|b|z|s|s|l IH|d IH] using json_ind; intros f Hok r Hr Hf;
    (destruct f as [|f]; [lia|]); try done.
  - by destruct b.
  - cbn [json_ok] in Hok.
    destruct (str_of_Z_head z) as (c & t & E & Hc).
    assert (Hscan : scan_atom (str_of_Z z ++ r) = Ok (JInt z, r))
      by (unfold scan_atom; by rewrite scan_number_Z).
    cbn [dumps_gap]. rewrite E in *. cbn [app scan_value] in *.
    replace (c =? 34) with false by lia. replace (c =? 123) with false by lia.
    by replace (c =? 91) with false by lia.
  - cbn [dumps_gap json_ok] in *. unfold quote_json. rewrite <-!app_assoc. cbn [app scan_value].
    change (dquote =? 34) with true. cbv iota. by rewrite scan_string_quoted.
  - cbn [dumps_gap json_ok] in *. apply foldr_and_Forall in Hok.
    change (u "[") with [91] in *. change (u "]") with [93] in *.
    destruct l as [|j l]; [done|].
    assert (Hl : Forall (λ j, json_ok j ∧ parses f j) (j :: l)).
    { rewrite Forall_forall in IH, Hok. apply Forall_forall. auto. }
    rewrite <-!app_assoc in *. cbn [app length] in Hf. cbn [app scan_value].
    change (91 =? 34) with false. change (91 =? 123) with false. change (91 =? 91) with true.
    cbv iota.
    assert (Hst : value_start (join (comma gap) (map pr (j :: l)))).
    { apply Forall_cons in Hl as [[Hj _] _]. destruct (dumps_start _ Hj) as (c & t & E & Hc).
      cbn [map join]. destruct (map pr l); rewrite E; by eexists _, _. }
    rewrite skip_space_start by done.
    pose proof (scan_elements_dumps f f (j :: l) r ltac:(done) Hl ltac:(lia) ltac:(lia)) as Hs.
    destruct Hst as (c & t & E & _ & H93 & _). rewrite E in *. cbn [app] in *.
    replace (c =? 93) with false by lia. by rewrite Hs.
  - rewrite dumps_obj in *. cbn [json_ok] in *. destruct Hok as [Hnd Hok].
    apply foldr_and2_Forall in Hok. destruct d as [|kv d]; [done|].
    assert (Hl : Forall (λ kv, str_ok kv.1 = true ∧ json_ok kv.2 ∧ parses f kv.2) (kv :: d)).
    { rewrite Forall_forall in IH, Hok. apply Forall_forall. intros x Hx.
      destruct (Hok x Hx). auto. }
    rewrite <-!app_assoc in *. cbn [app length] in Hf. cbn [app scan_value].
    change (123 =? 34) with false. change (123 =? 123) with true. cbv iota.
    pose proof (print_members_start kv d) as Hst.
    pose proof (scan_members_dumps f f (kv :: d) [] r ltac:(done) Hl ltac:(lia) ltac:(lia)) as Hs.
    destruct Hst as (t & E). rewrite E in *. cbn [app] in *.
    change (skip_space (dquote :: ?x)) with (dquote :: x). cbv beta iota.
    change (dquote =? 125) with false. cbv iota. rewrite Hs. cbn [mbind res_bind].
    by rewrite foldl_dict_set.
Qed.

(** Printing and parsing back gives the value. *)
Lemma loads_gap j : json_ok j → loads (pr j) = Ok j.
Proof using Hgap.
  intros Hok. unfold loads.
  destruct (dumps_start j Hok) as (c & t & E & Hc & _).
  assert (Hsp : skip_space (pr j) = pr j).
  { rewrite E. unfold skip_space. simpl. by rewrite Hc. }
  assert (Hbom : startswith (pr j) [0xFEFF] = false).
  { destruct j as [|[]|z| | | |]; try done. cbn [dumps_gap].
    destruct (str_of_Z_head z) as (c' & t' & -> & Hc'). cbn [startswith].
    by replace (0xFEFF =? c') with false by lia. }
  rewrite Hbom, Hsp. pose proof (scan_value_dumps j (S (length (pr j))) Hok [] I) as Hs.
  rewrite app_nil_r in Hs. rewrite Hs by lia. done.
Qed.
End Printed.

Lemma loads_in_order j : json_ok j → loads (dumps_in_order j) = Ok j.
Proof. by apply loads_gap. Qed.
Lemma loads_spaced j : json_ok j → loads (dumps_spaced j) = Ok j.
Proof. by apply loads_gap. Qed.

(** Sorting keeps a value printable. *)
Lemma sort_json_ok j : json_ok j → json_ok (sort_json j).
Proof.
  induction j as [| | | | |l IH|d IH] using json_ind; cbn [sort_json json_ok]; try done.
  - intros Hok%foldr_and_Forall. apply foldr_and_Forall, Forall_map.
    rewrite Forall_forall in *. auto.
  - intros [Hnd Hok%foldr_and2_Forall]. rewrite sort_keys_map.
    pose proof (sort_keys_perm d) as Hp. split.
    + by rewrite keys_map, Hp.
    + apply foldr_and2_Forall, Forall_map. rewrite Hp.
      rewrite Forall_forall in *. intros [k v] Hkv. destruct (Hok _ Hkv). split; [done|].
      by apply (IH (k, v)).
Qed.

(** With sorted keys it gives the value with its members in key order. *)
Lemma loads_dumps j : json_ok j → loads (dumps j) = Ok (sort_json j).
Proof. intros Hok. by apply loads_in_order, sort_json_ok. Qed.

(** The printed text is printable ASCII. *)
Definition printable (s : pystr) : bool := forallb (λ c, (32 <=? c) && (c <=? 126)) s.

Lemma printable_app s t : printable (s ++ t) = printable s && printable t.
Proof. apply forallb_app. Qed.
Lemma printable_spec s : printable s = true ↔ Forall (λ c, 32 <= c <= 126) s.
Proof.
  unfold printable. rewrite forallb_forall, Forall_forall. setoid_rewrite list_elem_of_In.
  split; intros H c Hc; specialize (H c Hc); lia.
Qed.
Lemma printable_ascii s : printable s = true → isascii s = true.
Proof. rewrite printable_spec, isascii_spec. intros H. eapply Forall_impl; [exact H|]. simpl. lia. Qed.

Lemma escape_char_printable c : c <= 0x10FFFF → printable (escape_char c) = true.
Proof.
  intros Hc. assert (Hhex : ∀ n, printable (u_escape n) = true).
  { intros n. assert (Hd : ∀ m, (32 <=? hex_char (m mod 16)) && (hex_char (m mod 16) <=? 126) = true).
    { intros m. pose proof (N.mod_lt m 16 ltac:(lia)). unfold hex_char.
      destruct (N.ltb_spec (m mod 16) 10); generalize dependent (m mod 16); lia. }
    unfold u_escape, hex_fixed. simpl. by rewrite !Hd. }
  unfold escape_char. repeat (destruct (_ =? _); [done|]).
  destruct ((32 <=? c) && (c <=? 126)) eqn:E; [simpl; lia|].
  destruct (c <? 0x10000); [done|]. by rewrite printable_app, !Hhex.
Qed.

Lemma printable_join sep l :
  printable sep = true → Forall (λ s, printable s = true) l → printable (join sep l) = true.
Proof.
  intros Hs Hl. induction Hl as [|x l Hx Hl IH]; [done|]. cbn [join].
  destruct l; [done|]. by rewrite !printable_app, Hx, Hs, IH.
Qed.

Lemma printable_quote s : str_ok s = true → printable (quote_json s) = true.
Proof.
  intros [Hs _]%andb_true_iff. unfold quote_json. rewrite !printable_app.
  apply andb_true_iff; split; [done|]. rewrite andb_true_r.
  apply printable_spec, Forall_forall. intros x (c & Hx & Hc)%list_elem_of_bind.
  rewrite forallb_forall in Hs. apply list_elem_of_In, Hs in Hc.
  pose proof (escape_char_printable c ltac:(lia)) as Ha. rewrite printable_spec, Forall_forall in Ha.
  by apply Ha.
Qed.

Lemma gap_printable gap j : printable gap = true → json_ok j → printable (dumps_gap gap j) = true.
Proof.
  intros Hgap. assert (Hcomma : printable (44 :: gap) = true) by exact Hgap.
  induction j as [|[]|z|s|s|l IH|d IH] using json_ind; intros Hok; try done.
  - cbn [dumps_gap]. unfold str_of_Z.
    assert (Hd : ∀ n, printable (dec n) = true).
    { intros n. apply printable_spec. eapply Forall_impl; [apply dec_all|].
      intros x Hx%is_ascii_digit_bounds. lia. }
    destruct (z <? 0)%Z; [|apply Hd].
    change (printable ([45] ++ dec (Z.to_N (- z))) = true). by rewrite printable_app, Hd.
  - by apply printable_quote.
  - cbn [json_ok dumps_gap] in *. apply foldr_and_Forall in Hok.
    rewrite !printable_app. apply andb_true_iff; split; [done|]. rewrite andb_true_r.
    apply printable_join; [exact Hcomma|]. apply Forall_map. rewrite Forall_forall in *.
    intros x Hx. by apply IH, Hok.
  - cbn [json_ok] in Hok. destruct Hok as [_ Hok]. apply foldr_and2_Forall in Hok.
    rewrite dumps_obj, !printable_app. apply andb_true_iff; split; [done|]. rewrite andb_true_r.
    apply printable_join; [exact Hcomma|]. apply Forall_map.
    rewrite Forall_forall in *. intros [k v] Hkv. destruct (Hok _ Hkv) as [Hk Hv].
    unfold print_member. change (58 :: gap ++ ?x) with ([58] ++ gap ++ x).
    rewrite !printable_app, printable_quote, Hgap by done. by rewrite (IH (k, v)).
Qed.

Lemma in_order_ascii j : json_ok j → isascii (dumps_in_order j) = true.
Proof. intros Hj. by apply printable_ascii, gap_printable. Qed.
Lemma spaced_ascii j : json_ok j → isascii (dumps_spaced j) = true.
Proof. intros Hj. by apply printable_ascii, gap_printable. Qed.

Lemma dumps_ascii j : json_ok j → isascii (dumps j) = true.
Proof. intros Hok. by apply in_order_ascii, sort_json_ok. Qed.

(** A printed object is read back by key, whatever the order of its members. *)
Lemma dict_get_perm {A} (d e : dict A) k :
  dict_wf d → d ≡ₚ e → dict_get d k = dict_get e k.
Proof.
  intros Hd Hp. assert (He : dict_wf e) by (unfold dict_wf in *; by rewrite <-Hp).
  destruct (dict_get d k) as [v|] eqn:E.
  - symmetry. apply dict_get_elem; [done|]. rewrite <-Hp. by apply dict_get_Some_elem.
  - symmetry. apply dict_get_None. rewrite <-Hp. by apply dict_get_None.
Qed.

(** ** Values as Python prints them *)

(** [str] of a float, from the literal it was read from: the interpreter's
    shortest representation, an argument of what formats values. *)
Class FloatRepr := float_repr : pystr → pystr.

Section PyRepr.
Context `{FloatRepr}.

(** [repr] and [str]. *)
Fixpoint py_repr (j : json) : pystr :=
  match j with
  | JNull => u "None"
  | JBool true => u "True"
  | JBool false => u "False"
  | JInt z => str_of_Z z
  | JFloat s => float_repr s
  | JStr s => repr s
  | JArr l => u "[" ++ join (u ", ") (map py_repr l) ++ u "]"
  | JObj d => u "{" ++ join (u ", ") (map (λ '(k, v), repr k ++ u ": " ++ py_repr v) d) ++ u "}"
  end.
Definition py_str (j : json) : pystr := match j with JStr s => s | _ => py_repr j end.
(** [{d.get(k)}] and [{d.get(k)!r}] in a formatted string. *)
Definition format_get (v : option json) : pystr := match v with Some j => py_str j | None => u "None" end.
Definition repr_get (v : option json) : pystr := match v with Some j => py_repr j | None => u "None" end.
End PyRepr.

(** [bool(v)]: a zero float is falsy; its literal has no digit but 0 before the
    exponent (a literal that only underflows to zero counts as non-zero here). *)
Definition zero_float (s : pystr) : bool :=
  forallb (λ c, negb ((49 <=? c) && (c <=? 57)))
    (let '(m, _, _) := partition 101 (lower s) in m)
  && negb (has_char 73 s || has_char 78 s).
Definition py_truthy (j : json) : bool :=
  match j with
  | JNull => false
  | JBool b => b
  | JInt z => negb (z =? 0)%Z
  | JFloat s => negb (zero_float s)
  | JStr s => truthy s
  | JArr l => match l with [] => false | _ => true end
  | JObj d => match d with [] => false | _ => true end
  end.

(** [for x in v]: the elements, the keys, the characters. *)
Definition py_iter (v : json) : res (list json) :=
  match v with
  | JArr l => Ok l
  | JObj d => Ok (JStr <$> d.*1)
  | JStr t => Ok ((λ c, JStr [c]) <$> t)
  | _ => Raise (TypeError (u "object is not iterable"))
  end.

(** [v.get] on what is no dictionary. *)
Definition no_get : exn := AttributeError (u "object has no attribute 'get'").

(** A test for [json_ok]. *)
Fixpoint json_okb (j : json) : bool :=
  match j with
  | JFloat _ => false
  | JInt z => N.log2 (Z.abs_N z) <? 4300
  | JStr s => str_ok s
  | JArr l => forallb json_okb l
  | JObj d => bool_decide (NoDup d.*1) && forallb (λ kv, str_ok kv.1 && json_okb kv.2) d
  | _ => true
  end.

Lemma json_okb_ok j : json_okb j = true → json_ok j.
Proof.
  induction j as [|b|z|s|s|l IH|d IH] using json_ind; cbn [json_okb json_ok]; try done.
  - by intros ?%N.ltb_lt.
  - intros H. apply foldr_and_Forall. induction IH as [|x l Hx _ IHl]; [constructor|].
    cbn in H. apply andb_true_iff in H as [??]. constructor; auto.
  - intros [Hn%bool_decide_eq_true H]%andb_true_iff. split; [done|].
    clear Hn. apply foldr_and2_Forall. induction IH as [|x l Hx _ IHl]; [constructor|].
    cbn in H. apply andb_true_iff in H as [[??]%andb_true_iff ?]. constructor; auto.
Qed.

(** [json.loads(blob.decode("utf-8"))], and the errors the program expects of it. *)
Definition loads_utf8 (blob : bytes) : res json := text ← decode_utf8 blob; loads text.
Definition is_decode_error (e : exn) : bool :=
  match e with JSONDecodeError _ | UnicodeError _ => true | _ => false end.

Lemma loads_utf8_in_order j : json_ok j → loads_utf8 (dumps_in_order j) = Ok j.
Proof.
  intros Hj. unfold loads_utf8, decode_utf8. rewrite utf8_decode_ascii by by apply in_order_ascii.
  by apply loads_in_order.
Qed.

Lemma loads_utf8_dumps j : json_ok j → loads_utf8 (dumps j) = Ok (sort_json j).
Proof.
  intros Hj. unfold loads_utf8, decode_utf8. rewrite utf8_decode_ascii by by apply dumps_ascii.
  by apply loads_dumps.
Qed.

Lemma ascii_str_ok s : isascii s = true → str_ok s = true.
Proof.
  intros Hs. unfold str_ok. apply andb_true_iff. split.
  - unfold isascii in Hs. rewrite forallb_forall in *. intros c Hc%Hs. lia.
  - induction s as [|c s IH]; [done|]. cbn [isascii forallb] in Hs.
    apply andb_true_iff in Hs as [Hc Hs]. cbn [no_pair]. rewrite IH by done.
    assert (is_high c = false) as -> by (unfold is_high; lia). by destruct s.
Qed.

Lemma small_int_ok z : (Z.abs z < 2 ^ 64)%Z → json_ok (JInt z).
Proof.
  intros Hz. cbn [json_ok]. destruct (N.eq_0_gt_0_cases (Z.abs_N z)) as [->|Hp]; [done|].
  apply N.lt_trans with 64; [|done]. apply N.log2_lt_pow2; [done|].
  change (2 ^ 64)%Z with 18446744073709551616%Z in Hz. change (2 ^ 64) with 18446744073709551616. lia.
Qed.
