(* ===== verification/Datetime.v ===== *)
(** * Aware datetimes (the standard library's [datetime])

    An aware [datetime] is its instant and the offset of its zone: comparing
    looks at the instant, printing at both.  The calendar is the proleptic
    Gregorian one; [days_civil] is the check that the date of a day is read
    back to that day. *)

From S2P Require Import Prelude PyStr.

(** Microseconds since 1970 in UTC, and the offset of the zone in seconds. *)
Record datetime := { dt_instant : Z; dt_offset : Z }.

#[export] Instance datetime_eq_dec : EqDecision datetime.
Proof. solve_decision. Defined.

Definition at_utc (instant : Z) : datetime := {| dt_instant := instant; dt_offset := 0 |}.

Definition dt_leb (a b : datetime) : bool := dt_instant a <=? dt_instant b.

(** ** The calendar *)

(** Year, month and day of a number of days since 1970-01-01. *)
Definition civil_from_days (z : Z) : Z * Z * Z :=
  let z := z + 719468 in
  let era := z / 146097 in
  let doe := z mod 146097 in
  let yoe := (doe - doe / 1460 + doe / 36524 - doe / 146096) / 365 in
  let doy := doe - (365 * yoe + yoe / 4 - yoe / 100) in
  let mp := (5 * doy + 2) / 153 in
  let d := doy - (153 * mp + 2) / 5 + 1 in
  let m := if mp <? 10 then mp + 3 else mp - 9 in
  (yoe + era * 400 + (if m <=? 2 then 1 else 0), m, d).

Definition is_leap (y : Z) : bool :=
  (y mod 4 =? 0) && (negb (y mod 100 =? 0) || (y mod 400 =? 0)).
Definition month_length (y m : Z) : Z :=
  if m =? 2 then (if is_leap y then 29 else 28)
  else if (m =? 4) || (m =? 6) || (m =? 9) || (m =? 11) then 30 else 31.

Definition days_from_civil (y m d : Z) : Z :=
  let y := if m <=? 2 then y - 1 else y in
  let era := y / 400 in
  let yoe := y mod 400 in
  let doy := (153 * (if m <=? 2 then m + 9 else m - 3) + 2) / 5 + d - 1 in
  era * 146097 + (yoe * 365 + yoe / 4 - yoe / 100 + doy) - 719468.

(** ** [datetime + timedelta(days=n)] *)

Definition us_per_day : Z := 86400000000.
(** 0001-01-01T00:00:00 and 9999-12-31T23:59:59.999999. *)
Definition min_local : Z := -62135596800000000.
Definition max_local : Z := 253402300799999999.

Definition add_days (t : datetime) (days : Z) : res datetime :=
  if 999999999 <? Z.abs days
  then Raise (OverflowError (u "days=" ++ str_of_Z days ++ u "; must have magnitude <= 999999999"))
  else
    let instant := dt_instant t + days * us_per_day in
    let local := instant + dt_offset t * 1000000 in
    if (min_local <=? local) && (local <=? max_local)
    then Ok {| dt_instant := instant; dt_offset := dt_offset t |}
    else Raise (OverflowError (u "date value out of range")).

(** ** [datetime.isoformat()] *)

(** [n] in decimal, [w] digits wide. *)
Fixpoint pad (w : nat) (n : Z) : pystr :=
  match w with
  | O => []
  | S w' => pad w' (n / 10) ++ [Z.to_N (48 + n mod 10)]
  end.

Definition iso_offset (seconds : Z) : pystr :=
  let a := Z.abs seconds in
  (if seconds <? 0 then u "-" else u "+") ++ pad 2 (a / 3600) ++ u ":" ++ pad 2 (a / 60 mod 60)
    ++ (if a mod 60 =? 0 then [] else u ":" ++ pad 2 (a mod 60)).

Definition isoformat (t : datetime) : pystr :=
  let local := dt_instant t + dt_offset t * 1000000 in
  let '(y, m, d) := civil_from_days (local / us_per_day) in
  let us := local mod us_per_day in
  let s := us / 1000000 in
  pad 4 y ++ u "-" ++ pad 2 m ++ u "-" ++ pad 2 d ++ u "T"
    ++ pad 2 (s / 3600) ++ u ":" ++ pad 2 (s / 60 mod 60) ++ u ":" ++ pad 2 (s mod 60)
    ++ (if us mod 1000000 =? 0 then [] else u "." ++ pad 6 (us mod 1000000))
    ++ iso_offset (dt_offset t).

(** ** The calendar is one *)

(** The year of an era and the day of that year, counted from March. *)
Lemma year_of_era doe :
  0 <= doe < 146097 →
  let yoe := (doe - doe / 1460 + doe / 36524 - doe / 146096) / 365 in
  let doy := doe - (365 * yoe + yoe / 4 - yoe / 100) in
  0 <= yoe < 400 ∧ 0 <= doy <= 365 ∧
  (doy = 365 → (yoe + 1) mod 4 = 0 ∧ ((yoe + 1) mod 100 = 0 → yoe = 399)).
Proof. intros H yoe doy. subst yoe doy. dlia. Qed.

Definition month_check (doy : Z) : bool :=
  let mp := (5 * doy + 2) / 153 in
  let d := doy - (153 * mp + 2) / 5 + 1 in
  (0 <=? mp) && (mp <=? 11) && (1 <=? d) &&
  (d <=? (if mp =? 11 then (if doy =? 365 then 29 else 28)
          else if (mp =? 1) || (mp =? 3) || (mp =? 6) || (mp =? 8) then 30 else 31)).
Lemma months_check : forallb month_check (Z.of_nat <$> seq 0 366) = true.
Proof. vm_compute. reflexivity. Qed.

Lemma month_of_year doy :
  0 <= doy <= 365 →
  let mp := (5 * doy + 2) / 153 in
  let d := doy - (153 * mp + 2) / 5 + 1 in
  0 <= mp <= 11 ∧ 1 <= d ∧
  d <= (if mp =? 11 then (if doy =? 365 then 29 else 28)
        else if (mp =? 1) || (mp =? 3) || (mp =? 6) || (mp =? 8) then 30 else 31).
Proof.
  intros H mp d. pose proof months_check as Hc. rewrite forallb_forall in Hc.
  assert (Hin : In doy (Z.of_nat <$> seq 0 366)).
  { apply list_elem_of_In, list_elem_of_fmap. exists (Z.to_nat doy). split; [lia|].
    apply elem_of_seq. lia. }
  specialize (Hc _ Hin). unfold month_check in Hc. bool_hyps. repeat split; assumption.
Qed.

Lemma leap_shift y k : is_leap (y + k * 400) = is_leap y.
Proof.
  unfold is_leap. rewrite Z.mod_add by done.
  replace (y + k * 400) with (y + k * 100 * 4) at 1 by lia. rewrite Z.mod_add by done.
  replace (y + k * 400) with (y + k * 4 * 100) by lia. by rewrite Z.mod_add by done.
Qed.

Lemma month_index mp :
  0 <= mp <= 11 →
  let m := if mp <? 10 then mp + 3 else mp - 9 in
  1 <= m <= 12 ∧ (if m <=? 2 then m + 9 else m - 3) = mp.
Proof.
  intros H. destruct (Z.ltb_spec mp 10); cbv zeta.
  - replace (mp + 3 <=? 2) with false by lia. lia.
  - replace (mp - 9 <=? 2) with true by lia. lia.
Qed.

(** The date of a day exists, and is the date of no other day. *)
Lemma days_civil z :
  let '(y, m, d) := civil_from_days z in
  days_from_civil y m d = z ∧ 1 <= m <= 12 ∧ 1 <= d <= month_length y m.
Proof.
  unfold civil_from_days. cbv zeta. set (era := (z + 719468) / 146097).
  set (doe := (z + 719468) mod 146097).
  assert (Hz : z + 719468 = era * 146097 + doe) by (unfold era, doe; dlia).
  assert (Hdoe : 0 <= doe < 146097) by (apply Z.mod_pos_bound; lia).
  destruct (year_of_era doe Hdoe) as (Hy & Hdoy & Hleap).
  set (yoe := (doe - _ + _ - _) / 365) in *. set (doy := doe - (_ + _ - _)) in *.
  destruct (month_of_year doy Hdoy) as (Hmp & Hd1 & Hd2).
  set (mp := (5 * doy + 2) / 153) in *. set (d := doy - (153 * mp + 2) / 5 + 1) in *.
  clearbody era doe mp.
  destruct (month_index mp Hmp) as [Hm1 Hm2]. set (m := if mp <? 10 then _ else _) in *.
  split; [|split; [lia|split; [lia|]]].
  - clear Hleap. unfold days_from_civil. rewrite Hm2.
    replace (if m <=? 2 then yoe + era * 400 + (if m <=? 2 then 1 else 0) - 1
             else yoe + era * 400 + (if m <=? 2 then 1 else 0)) with (yoe + era * 400) by (case_match; lia).
    rewrite Z.div_add, Z.mod_add, (Z.div_small yoe), (Z.mod_small yoe) by lia.
    unfold d, doy. lia.
  - eapply Z.le_trans; [exact Hd2|]. unfold month_length, m.
    destruct (Z.eqb_spec mp 11) as [->|].
    2: { assert (mp = 0 ∨ mp = 1 ∨ mp = 2 ∨ mp = 3 ∨ mp = 4 ∨ mp = 5 ∨ mp = 6 ∨ mp = 7 ∨ mp = 8
           ∨ mp = 9 ∨ mp = 10) as Hc by lia.
         clear -Hc. clearbody yoe. repeat destruct Hc as [->|Hc]; [..|rewrite Hc]; reflexivity. }
    cbn -[Z.modulo Z.add Z.mul is_leap].
    destruct (Z.eqb_spec doy 365) as [Hl|]; [|by destruct (is_leap _)].
    destruct (Hleap Hl) as [H4 H100]. clearbody yoe. clear -H4 H100 Hy.
    change (11 - 9 =? 2) with true. change (11 - 9 <=? 2) with true. cbv iota.
    replace (yoe + era * 400 + 1) with (yoe + 1 + era * 400) by lia. rewrite leap_shift.
    unfold is_leap. rewrite H4.
    destruct (Z.eqb_spec ((yoe + 1) mod 100) 0) as [E|]; [|done]. by rewrite (H100 E).
Qed.

Example isoformat_epoch : isoformat (at_utc 0) = u "1970-01-01T00:00:00+00:00".
Proof. vm_compute. reflexivity. Qed.
Example isoformat_zone :
  isoformat {| dt_instant := 951782400000001; dt_offset := 7200 |} = u "2000-02-29T02:00:00.000001+02:00".
Proof. vm_compute. reflexivity. Qed.
