(* ===== verification/World.v ===== *)
(** * The outside world and the effect monad

    The handlers read clocks and randomness, resolve names, send HTTP requests
    and write log records.  A run is a state: the program's own mutable state
    [X] and the history of the effects so far, newest first.  What the outside
    answers is an oracle that may depend on the whole history ([Outside]); an
    exception leaves the state as it was when it was raised.

    [run_bind_Ok], [run_bind_Raise] and the tactic [io_inv] take a run apart. *)

From S2P Require Import Prelude PyStr Codec Json Datetime.

(** ** Requests and replies *)

(** What [httpx.AsyncClient] is asked to send; [sni] is the request extension
    [sni_hostname].  [Request] is [client.request] with what the measurement
    script passes it. *)
Inductive http_request :=
  | PostForm (url : pystr) (form : dict json) (headers : dict pystr)
      (auth : option (pystr * pystr))
  | PostJson (url : pystr) (headers : dict pystr) (body : json)
  | Get (url : pystr) (headers : dict pystr)
  | Delete (url : pystr) (headers : dict pystr)
  | StreamGet (url : pystr) (headers : dict pystr) (sni : pystr)
  | Request (method url : pystr) (params : dict pystr) (headers : dict pystr) (body : option json).

(** A reply that was read whole; [rsp_json] is what [response.json()] returns,
    [None] when that raises [ValueError]. *)
Record http_response := HttpResponse { rsp_status : Z; rsp_json : option json }.

(** A streamed reply: the chunks [aiter_bytes] yields, and the transport error
    that ends them early, if any. *)
Record stream_response := StreamResponse {
  str_status : Z;
  str_cache_control : option pystr;
  str_chunks : list bytes;
  str_broken : option (pystr * pystr)
}.

Definition response_json (r : http_response) : res json :=
  match rsp_json r with Some j => Ok j | None => Raise json_error end.

Inductive level := INFO | WARNING.

(** A personal access token as the store hands it out ([pat_store.PatRecord]). *)
Record PatRecord := {
  pr_id : N;                            (* uuid.UUID *)
  pr_tenant : pystr;
  pr_realm_issuer : pystr;
  pr_owner_sub : pystr;
  pr_name : pystr;
  pr_resources : list pystr;
  pr_scopes : list pystr;
  pr_created_at : datetime;
  pr_expires_at : datetime;
  pr_last_used_at : option datetime;
  pr_revoked_at : option datetime
}.

#[export] Instance PatRecord_eq_dec : EqDecision PatRecord.
Proof. solve_decision. Defined.

(** Statements, with the values bound to them. *)
Inductive store_call :=
  | SInsert (record : PatRecord) (token_hash : bytes)
  | SFindByHash (token_hash : bytes)
  | SListForOwner (realm_issuer owner_sub : pystr)
  | SRevoke (realm_issuer owner_sub : pystr) (token_id : N)
  | STouch (token_id : N) (used_at : datetime).

(** What becomes of a statement: it runs, or the driver or the server raises --
    before it took effect, or after (a connection lost at the commit). *)
Inductive db_outcome := DbRuns | DbFails (applied : bool) (msg : pystr).

Inductive event :=
  | EvTime | EvNow | EvMonotonic
  | EvRandom (n : nat)
  | EvDns (host : pystr)
  | EvHttp (r : http_request)
  | EvBind (cid : pystr)
  | EvLog (l : level) (fields : dict json)
  | EvStore (c : store_call)
  | EvSchema                            (* the query for the schema version *)
  | EvPoolOpen | EvPoolClose            (* the pool of database connections *)
  | EvListen                            (* a listening socket *)
  | EvBrowser (url : pystr)             (* webbrowser.open *)
  | EvWait                              (* the wait for a redirect *)
  | EvStdout (text : pystr)
  | EvStderr (text : pystr)
  | EvSleep (seconds : Z)               (* time.sleep *)
  | EvKeygen.                           (* rsa.generate_private_key *)

Definition trace := list event.

(** [socket.getaddrinfo]: the addresses, or one of the two errors it raises. *)
Inductive dns_reply := Addresses (l : list pystr) | GaiError | LabelError.

(** ** The oracle *)
Class Outside := {
  o_time : trace → Z;                 (* int(time.time()) *)
  o_now : trace → Z;                  (* datetime.now(UTC), microseconds since 1970 *)
  o_monotonic : trace → Z;            (* time.monotonic(), microseconds *)
  o_random : trace → nat → bytes;     (* os.urandom and secrets.token_bytes *)
  o_dns : trace → pystr → dns_reply;
  o_http : trace → http_request → (pystr * pystr) + http_response;
  o_stream : trace → http_request → (pystr * pystr) + stream_response;
  o_db : trace → store_call → db_outcome;
  o_schema : trace → option pystr;    (* an error of the version query *)
  o_pool : trace → option pystr;      (* an error of opening the pool *)
  (* the clock of the database server: now() in a statement *)
  o_db_now : trace → Z;
  (* the time zone of a connection: its offset at an instant, in seconds *)
  o_db_zone : Z → Z
}.

Class OutsideLaws (O : Outside) : Prop := {
  o_random_length t n : length (o_random t n) = n;
  o_random_ok t n : bytes_ok (o_random t n)
}.

(** The clock of the machine fits a 64-bit [time_t]. *)
Class ClockLaws (O : Outside) : Prop := {
  o_time_machine t : Z.abs (o_time t) < 2 ^ 63
}.

(** ** The monad *)

Definition state (X : Type) : Type := X * trace.
Definition io (X A : Type) : Type := state X → res A * state X.

Section Monad.
Context {X : Type}.

#[export] Instance io_ret : MRet (io X) := λ A a s, (Ok a, s).
#[export] Instance io_bind : MBind (io X) := λ A B f m s,
  match m s with (Ok a, s') => f a s' | (Raise e, s') => (Raise e, s') end.
#[export] Instance io_fmap : FMap (io X) := λ A B f m s,
  match m s with (Ok a, s') => (Ok (f a), s') | (Raise e, s') => (Raise e, s') end.

(** A pure call that may raise. *)
Definition lift {A} (r : res A) : io X A := λ s, (r, s).
Definition raise {A} (e : exn) : io X A := λ s, (Raise e, s).
Definition get_state : io X X := λ s, (Ok s.1, s).
Definition put_state (x : X) : io X unit := λ s, (Ok tt, (x, s.2)).
Definition emit (e : event) : io X unit := λ s, (Ok tt, (s.1, e :: s.2)).

(** [try: m except E as e: h e]; what [m] did before it raised stays done. *)
Definition try_io {A} (m : io X A) (caught : exn → bool) (h : exn → io X A) : io X A := λ s,
  match m s with
  | (Raise e, s') => if caught e then h e s' else (Raise e, s')
  | r => r
  end.

Fixpoint for_io {A} (f : A → io X unit) (l : list A) : io X unit :=
  match l with [] => mret tt | x :: l' => f x ;; for_io f l' end.

Context `{O : Outside}.

(** Ask the oracle and record the effect. *)
Definition ask {A} (f : trace → A) (e : event) : io X A := λ s,
  (Ok (f s.2), (s.1, e :: s.2)).

Definition time : io X Z := ask o_time EvTime.
Definition utc_now : io X Z := ask o_now EvNow.
Definition monotonic : io X Z := ask o_monotonic EvMonotonic.
Definition random (n : nat) : io X bytes := ask (λ t, o_random t n) (EvRandom n).
Definition getaddrinfo (host : pystr) : io X dns_reply :=
  ask (λ t, o_dns t host) (EvDns host).
Definition log (l : level) (fields : dict json) : io X unit := emit (EvLog l fields).
Definition bind_correlation_id (cid : pystr) : io X unit := emit (EvBind cid).

(** [client.post] and [client.get]: a reply, or an [httpx.HTTPError]. *)
Definition send (r : http_request) : io X http_response :=
  x ← ask (λ t, o_http t r) (EvHttp r);
  match x with inl (n, m) => raise (HTTPError n m) | inr y => mret y end.
Definition stream (r : http_request) : io X stream_response :=
  x ← ask (λ t, o_stream t r) (EvHttp r);
  match x with inl (n, m) => raise (HTTPError n m) | inr y => mret y end.
End Monad.

Definition is_HTTPError (e : exn) : bool :=
  match e with HTTPError _ _ => true | _ => false end.

(** ** Taking a run apart *)

Section Runs.
Context {X A B : Type}.
Implicit Types (s : state X).

Lemma run_bind_Ok (m : io X A) (f : A → io X B) s b s' :
  (m ≫= f) s = (Ok b, s') ↔ ∃ a s1, m s = (Ok a, s1) ∧ f a s1 = (Ok b, s').
Proof. unfold mbind, io_bind. destruct (m s) as [[a|e] s1]; naive_solver. Qed.

Lemma run_bind_Raise (m : io X A) (f : A → io X B) s e s' :
  (m ≫= f) s = (Raise e, s') ↔
  m s = (Raise e, s') ∨ ∃ a s1, m s = (Ok a, s1) ∧ f a s1 = (Raise e, s').
Proof. unfold mbind, io_bind. destruct (m s) as [[a|e'] s1]; naive_solver. Qed.

(** The first step of a run raised, or the rest goes on from its result. *)
Lemma run_bind_cases (m : io X A) (f : A → io X B) s r s' :
  (m ≫= f) s = (r, s') →
  (∃ e, m s = (Raise e, s') ∧ r = Raise e) ∨ ∃ a s1, m s = (Ok a, s1) ∧ f a s1 = (r, s').
Proof.
  unfold mbind, io_bind. destruct (m s) as [[a|e] s1]; intros H; [right; by exists a, s1|left].
  apply pair_eq in H as [<- <-]. by exists e.
Qed.

Lemma run_lift_bind (r : res A) (f : A → io X B) s :
  (lift r ≫= f) s = match r with Ok a => f a s | Raise e => (Raise e, s) end.
Proof. by destruct r. Qed.

Lemma run_try_Ok (m : io X A) p h s a s' :
  try_io m p h s = (Ok a, s') ↔
  m s = (Ok a, s') ∨ ∃ e s1, m s = (Raise e, s1) ∧ p e = true ∧ h e s1 = (Ok a, s').
Proof.
  unfold try_io. destruct (m s) as [[a'|e] s1].
  - split; [by left|]. by intros [?|(?&?&?&?)].
  - destruct (p e) eqn:Hp; split.
    + intros ?. right. eauto.
    + intros [?|(?&?&?&?&?)]; congruence.
    + done.
    + intros [?|(?&?&?&?&?)]; congruence.
Qed.
End Runs.

Lemma run_try_Raise {X A} (m : io X A) p h (s : state X) e s' :
  try_io m p h s = (Raise e, s') →
  (m s = (Raise e, s') ∧ p e = false) ∨
  ∃ e1 s1, m s = (Raise e1, s1) ∧ p e1 = true ∧ h e1 s1 = (Raise e, s').
Proof.
  unfold try_io. destruct (m s) as [[a'|e1] s1]; [done|].
  destruct (p e1) eqn:?; [eauto 10|]. intros ?. simplify_eq. auto.
Qed.

(** One step of inversion on a run that returned or raised. *)
Ltac io_step :=
  match goal with
  | H : (Ok _, _) = (Ok _, _) |- _ => injection H as H
  | H : (Raise _, _) = (Raise _, _) |- _ => injection H as H
  | H : (Ok _, _) = (Raise _, _) |- _ => discriminate H
  | H : (Raise _, _) = (Ok _, _) |- _ => discriminate H
  | H : mbind _ _ _ = (Ok _, _) |- _ => apply run_bind_Ok in H as (? & ? & ? & H)
  | H : try_io _ _ _ _ = (Ok _, _) |- _ =>
      apply run_try_Ok in H as [H|(? & ? & ? & ? & H)]
  | H : mret _ _ = _ |- _ => unfold mret, io_ret in H
  | H : raise _ _ = _ |- _ => unfold raise in H
  | H : lift _ _ = (_, _) |- _ => unfold lift in H; injection H as H
  | H : ask _ _ _ = (_, _) |- _ => unfold ask in H; injection H as H
  | H : emit _ _ = (_, _) |- _ => unfold emit in H; injection H as H
  | H : log _ _ _ = (_, _) |- _ => unfold log, emit in H; injection H as H
  | H : bind_correlation_id _ _ = (_, _) |- _ =>
      unfold bind_correlation_id, emit in H; injection H as H
  | H : time _ = (_, _) |- _ => unfold time, ask in H; injection H as H
  | H : utc_now _ = (_, _) |- _ => unfold utc_now, ask in H; injection H as H
  | H : monotonic _ = (_, _) |- _ => unfold monotonic, ask in H; injection H as H
  | H : random _ _ = (_, _) |- _ => unfold random, ask in H; injection H as H
  | H : getaddrinfo _ _ = (_, _) |- _ => unfold getaddrinfo, ask in H; injection H as H
  | H : get_state _ = (_, _) |- _ => unfold get_state in H; injection H as H
  | H : put_state _ _ = (_, _) |- _ => unfold put_state in H; injection H as H
  | H : (if ?b then _ else _) _ = (_, _) |- _ => destruct b eqn:?
  | H : match ?m with _ => _ end _ = (_, _) |- _ => destruct m eqn:?
  end.
Ltac io_inv := repeat (io_step; simplify_eq/=); try done.

(** Run a computation whose steps are known: unfold the monad and the effects
    and compute the pairs. *)
Ltac io_run :=
  unfold mbind, io_bind, fmap, io_fmap, mret, io_ret, try_io, lift, raise, get_state, put_state,
    log, bind_correlation_id, time, utc_now, monotonic, random, getaddrinfo, emit, ask;
  cbn [fst snd]; cbv beta iota.

(** ** What a computation leaves alone *)

Create HintDb keeps discriminated.

Section Frames.
Context {X : Type}.

(** Events that talk to a peer: HTTP, DNS and the token table. *)
Definition is_outbound (e : event) : bool :=
  match e with EvHttp _ | EvDns _ | EvStore _ | EvSchema => true | _ => false end.

Definition is_http (e : event) : bool := match e with EvHttp _ => true | _ => false end.

(** [m] only adds events that satisfy [P], and keeps the program state. *)
Definition keeps {A} (P : event → Prop) (m : io X A) : Prop := ∀ s r s',
  m s = (r, s') → s'.1 = s.1 ∧ ∃ new, s'.2 = new ++ s.2 ∧ Forall P new.

Lemma keeps_ret {A} P (a : A) : keeps P (mret a).
Proof. intros s r s' [= <- <-]. split; [done|]. by exists []. Qed.
Lemma keeps_lift {A} P (r : res A) : keeps P (lift r).
Proof. intros s r' s' [= <- <-]. split; [done|]. by exists []. Qed.
Lemma keeps_raise {A} P e : keeps P (raise (A := A) e).
Proof. intros s r' s' [= <- <-]. split; [done|]. by exists []. Qed.
Lemma keeps_ask {A} (P : event → Prop) (f : trace → A) e : P e → keeps P (ask f e).
Proof. intros He s r' s' [= <- <-]. split; [done|]. exists [e]. auto. Qed.
Lemma keeps_emit (P : event → Prop) e : P e → keeps P (emit e).
Proof. intros He s r' s' [= <- <-]. split; [done|]. exists [e]. auto. Qed.

Lemma keeps_bind {A B} P (m : io X A) (f : A → io X B) :
  keeps P m → (∀ a, keeps P (f a)) → keeps P (m ≫= f).
Proof.
  intros Hm Hf s r s'. unfold mbind, io_bind. destruct (m s) as [[a|e] s1] eqn:E.
  - intros H. apply Hm in E as (E1 & n1 & T1 & P1).
    apply Hf in H as (E2 & n2 & T2 & P2). split; [congruence|].
    exists (n2 ++ n1). rewrite T2, T1, app_assoc. split; [done|]. by apply Forall_app.
  - intros [= <- <-]. by apply Hm in E.
Qed.

Lemma keeps_try {A} P (m : io X A) p h :
  keeps P m → (∀ e, keeps P (h e)) → keeps P (try_io m p h).
Proof.
  intros Hm Hf s r s'. unfold try_io. destruct (m s) as [[a|e] s1] eqn:E.
  - intros [= <- <-]. by apply Hm in E.
  - destruct (p e); [|intros [= <- <-]; by apply Hm in E].
    intros H. apply Hm in E as (E1 & n1 & T1 & P1).
    apply Hf in H as (E2 & n2 & T2 & P2). split; [congruence|].
    exists (n2 ++ n1). rewrite T2, T1, app_assoc. split; [done|]. by apply Forall_app.
Qed.

Lemma keeps_fmap {A B} P (m : io X A) (f : A → B) : keeps P m → keeps P (f <$> m).
Proof.
  intros Hm s r s'. unfold fmap, io_fmap. destruct (m s) as [[a|e] s1] eqn:E;
    intros H; injection H as <- <-; by apply Hm in E.
Qed.

(** Runs of computations that keep the state compose. *)
Lemma keeps_state {A} P (m : io X A) s r s' : keeps P m → m s = (r, s') → s'.1 = s.1.
Proof. intros Hm H. by apply Hm in H as [? _]. Qed.
End Frames.

(** No peer is contacted: see [is_outbound]. *)
Definition inward (e : event) : Prop := is_outbound e = false.

(** Follow a computation to its effects. *)
Ltac keeps_step :=
  match goal with
  | |- keeps _ (_ ≫= _) => apply keeps_bind
  | |- keeps _ (mret _) => apply keeps_ret
  | |- keeps _ (lift _) => apply keeps_lift
  | |- keeps _ (raise _) => apply keeps_raise
  | |- keeps _ (ask _ _) => apply keeps_ask
  | |- keeps _ (log _ _) => apply keeps_emit
  | |- keeps _ (bind_correlation_id _) => apply keeps_emit
  | |- keeps _ time => apply keeps_ask
  | |- keeps _ utc_now => apply keeps_ask
  | |- keeps _ (random _) => apply keeps_ask
  | |- keeps _ (_ <$> _) => apply keeps_fmap
  | |- keeps _ (try_io _ _ _) => apply keeps_try
  | |- keeps _ (match ?x with _ => _ end) => destruct x eqn:?
  end.
Ltac keeps_tac :=
  repeat first [ progress intros | keeps_step | solve [eauto 2 with keeps] | reflexivity ].

(** ** What a computation may raise *)

(** Every exception of a run satisfies [P]; see [raises_only] for pure calls. *)
Definition raises {X A} (P : exn → Prop) (m : io X A) : Prop := ∀ s e s',
  m s = (Raise e, s') → P e.

Section Raises.
Context {X A B : Type} (P : exn → Prop).

Lemma raises_ret (a : A) : raises P (mret (M := io X) a).
Proof. done. Qed.
Lemma raises_raise e : P e → raises P (raise (X := X) (A := A) e).
Proof. intros H s e' s' E. injection E as <- <-. exact H. Qed.
Lemma raises_lift (r : res A) : raises_only P r → raises P (lift (X := X) r).
Proof. intros H s e s' E. apply H. exact (f_equal fst E). Qed.
Lemma raises_ask (f : trace → A) e : raises P (ask (X := X) f e).
Proof. done. Qed.
Lemma raises_emit e : raises P (emit (X := X) e).
Proof. done. Qed.
Lemma raises_get_state : raises P (get_state (X := X)).
Proof. done. Qed.
Lemma raises_put_state x : raises P (put_state (X := X) x).
Proof. done. Qed.
Lemma raises_bind (m : io X A) (f : A → io X B) :
  raises P m → (∀ a, raises P (f a)) → raises P (m ≫= f).
Proof.
  intros Hm Hf s e s' [H|(a & s1 & _ & H)]%run_bind_Raise; [by eapply Hm|by eapply Hf].
Qed.
Lemma raises_fmap (m : io X A) (f : A → B) : raises P m → raises P (f <$> m).
Proof.
  intros Hm s e s'. unfold fmap, io_fmap. destruct (m s) as [[a|e1] s1] eqn:E; [done|].
  intros [[= <-] _]%pair_eq. by eapply Hm.
Qed.
(** A [try] raises what its body raises and it does not catch, or what the
    handler raises. *)
Lemma raises_try (Q : exn → Prop) (m : io X A) p h :
  raises Q m → (∀ e, Q e → p e = false → P e) → (∀ e, Q e → p e = true → raises P (h e)) →
  raises P (try_io m p h).
Proof.
  intros Hm Hp Hh s e s' [[H Hn]|(e1 & s1 & H1 & Ht & H)]%run_try_Raise.
  - apply Hp; [by eapply Hm|done].
  - eapply Hh; [by eapply Hm|done|exact H].
Qed.
Lemma raises_weaken (Q : exn → Prop) (m : io X A) :
  raises Q m → (∀ e, Q e → P e) → raises P m.
Proof. intros H HQ s e s' He. by eapply HQ, H. Qed.
Lemma raises_any (m : io X A) : raises (λ _, True) m.
Proof. done. Qed.
End Raises.

#[export] Hint Resolve raises_ret raises_raise raises_lift raises_ask raises_emit raises_get_state
  raises_put_state raises_fmap : raises.

(** Follow a computation to its leaves. *)
Ltac raises_step :=
  match goal with
  | |- raises_only _ _ => raises_pure_step
  | |- raises _ (_ ≫= _) => apply raises_bind
  | |- raises _ (mret _) => apply raises_ret
  | |- raises _ (lift _) => apply raises_lift
  | |- raises _ (raise _) => apply raises_raise
  | |- raises _ (_ <$> _) => apply raises_fmap
  | |- raises _ (match ?x with _ => _ end) => destruct x eqn:?
  | |- raises _ (ask _ _) => apply raises_ask
  | |- raises ?P (try_io _ _ _) => apply (raises_try P P); [|done|]
  end.
Ltac raises_tac :=
  repeat first [ progress intros | raises_step | solve [eauto 2 with raises] | reflexivity ].

(** The JSON parser raises no OAuth error. *)
Lemma scan_string_not_oauth s : raises_only not_oauth (scan_string s).
Proof.
  assert (Hf : ∀ c (r : res (pystr * pystr)),
    raises_only not_oauth r → raises_only not_oauth (cons_fst c <$> r)).
  { intros c [p|e1] Hr e; [done|]. cbn. intros E. injection E as <-. by apply Hr. }
  induction s as [s IH] using (induction_ltof1 _ (@length N)). unfold ltof in IH.
  destruct s as [|c s1]; cbn [scan_string]; [by raises_tac|].
  repeat first [ apply Hf; apply IH; simpl; lia | raises_step | reflexivity ].
Qed.

Lemma scan_value_not_oauth f s : raises_only not_oauth (scan_value f s).
Proof.
  revert s. induction f as [|f IH]; intros s; cbn [scan_value]; [by raises_tac|].
  assert (He : ∀ g s, raises_only not_oauth (scan_elements (scan_value f) g s)).
  { induction g as [|g IHg]; intros s'; cbn [scan_elements]; raises_tac; first [apply IH|apply IHg]. }
  assert (Hm : ∀ g acc s, raises_only not_oauth (scan_members (scan_value f) g acc s)).
  { induction g as [|g IHg]; intros acc s'; cbn [scan_members]; raises_tac;
      first [apply IH|apply IHg|apply scan_string_not_oauth]. }
  assert (Hn : ∀ t r, scan_number t = Some r → raises_only not_oauth r).
  { intros t r. unfold scan_number, int_value.
    repeat case_match; try done; intros E; injection E as <-; raises_tac. }
  unfold scan_atom. raises_tac;
    first [apply He|apply Hm|apply scan_string_not_oauth|by eapply Hn].
Qed.

Lemma loads_utf8_not_oauth b : raises_only not_oauth (loads_utf8 b).
Proof.
  unfold loads_utf8, decode_utf8, loads. raises_tac. apply scan_value_not_oauth.
Qed.

#[export] Hint Resolve loads_utf8_not_oauth : raises.

(** ** What a computation preserves

    [preserves I m]: whether it returns or raises, [m] leads from a program
    state that satisfies [I] to one that does. *)

Create HintDb preserves discriminated.

Section Preserves.
Context {X : Type} (I : X → Prop).

Definition preserves {A} (m : io X A) : Prop := ∀ s r s', I s.1 → m s = (r, s') → I s'.1.

Lemma keeps_preserves {A} P (m : io X A) : keeps P m → preserves m.
Proof. intros Hm s r s' Hi H. apply Hm in H as [E _]. by rewrite E. Qed.

Lemma preserves_ret {A} (a : A) : preserves (mret a).
Proof. apply (keeps_preserves (λ _, True)), keeps_ret. Qed.
Lemma preserves_lift {A} (r : res A) : preserves (lift r).
Proof. apply (keeps_preserves (λ _, True)), keeps_lift. Qed.
Lemma preserves_raise {A} e : preserves (raise (A := A) e).
Proof. apply (keeps_preserves (λ _, True)), keeps_raise. Qed.
Lemma preserves_ask {A} (f : trace → A) e : preserves (ask f e).
Proof. by apply (keeps_preserves (λ _, True)), keeps_ask. Qed.
Lemma preserves_emit e : preserves (emit e).
Proof. by apply (keeps_preserves (λ _, True)), keeps_emit. Qed.

Lemma preserves_bind {A B} (m : io X A) (f : A → io X B) :
  preserves m → (∀ a, preserves (f a)) → preserves (m ≫= f).
Proof.
  intros Hm Hf s r s' Hi H. apply run_bind_cases in H as [(e & H & _)|(a & s1 & H1 & H)].
  - by eapply Hm.
  - eapply Hf; [by eapply Hm|exact H].
Qed.
Lemma preserves_fmap {A B} (m : io X A) (f : A → B) : preserves m → preserves (f <$> m).
Proof.
  intros Hm s r s' Hi. unfold fmap, io_fmap. destruct (m s) as [[a|e] s1] eqn:E;
    intros [_ <-]%pair_eq; by eapply Hm.
Qed.
Lemma preserves_fmap_inv {A B} (m : io X A) (f : A → B) : preserves (f <$> m) → preserves m.
Proof.
  intros Hm s r s' Hi H. assert (H' : (f <$> m) s = (f <$> r, s')).
  { unfold fmap, io_fmap. rewrite H. by destruct r. }
  by eapply Hm.
Qed.
Lemma preserves_try {A} (m : io X A) p h :
  preserves m → (∀ e, preserves (h e)) → preserves (try_io m p h).
Proof.
  intros Hm Hh s r s' Hi. unfold try_io. destruct (m s) as [[a|e] s1] eqn:E.
  - intros [_ <-]%pair_eq. by eapply Hm.
  - destruct (p e); [|intros [_ <-]%pair_eq; by eapply Hm].
    intros H. eapply Hh; [by eapply Hm|exact H].
Qed.
Lemma preserves_for_io {A} (f : A → io X unit) l :
  (∀ x, preserves (f x)) → preserves (for_io f l).
Proof.
  intros Hf. induction l as [|x l IH]; [apply preserves_ret|]. cbn [for_io].
  apply preserves_bind; [apply Hf|intros _; exact IH].
Qed.
End Preserves.

Ltac preserves_step :=
  match goal with
  | |- preserves _ (_ ≫= _) => apply preserves_bind
  | |- preserves _ (mret _) => apply preserves_ret
  | |- preserves _ (lift _) => apply preserves_lift
  | |- preserves _ (raise _) => apply preserves_raise
  | |- preserves _ (ask _ _) => apply preserves_ask
  | |- preserves _ (emit _) => apply preserves_emit
  | |- preserves _ (log _ _) => apply preserves_emit
  | |- preserves _ (bind_correlation_id _) => apply preserves_emit
  | |- preserves _ time => apply preserves_ask
  | |- preserves _ utc_now => apply preserves_ask
  | |- preserves _ (random _) => apply preserves_ask
  | |- preserves _ (_ <$> _) => apply preserves_fmap
  | |- preserves _ (try_io _ _ _) => apply preserves_try
  | |- preserves _ (for_io _ _) => apply preserves_for_io
  | |- preserves _ (match ?x with _ => _ end) => destruct x eqn:?
  end.
Ltac preserves_tac :=
  repeat first [ progress intros | preserves_step | solve [eauto 2 with preserves] ].

(** ** A world to run in

    A concrete oracle for examples: a clock that stands at [now] seconds, a
    constant source of bytes, and peers that answer as told. *)
Definition sample_world (now : Z)
    (dns : pystr → dns_reply)
    (http : http_request → (pystr * pystr) + http_response)
    (stream : http_request → (pystr * pystr) + stream_response) : Outside := {|
  o_time _ := now;
  o_now _ := (now * 1000000)%Z;
  o_monotonic _ := (now * 1000000)%Z;
  o_random _ n := replicate n 7%N;
  o_dns _ := dns;
  o_http _ := http;
  o_stream _ := stream;
  o_db _ _ := DbRuns;
  o_schema _ := None;
  o_pool _ := None;
  o_db_now _ := (now * 1000000)%Z;
  o_db_zone _ := 0%Z
|}.

#[export] Instance sample_world_laws now dns http stream :
  OutsideLaws (sample_world now dns http stream).
Proof.
  split; simpl; intros _ n; [apply length_replicate|]. by apply Forall_replicate.
Qed.

(** A world without peers. *)
Definition silent_world (now : Z) : Outside :=
  sample_world now (λ _, GaiError) (λ _, inl (u "ConnectError", u "refused"))
    (λ _, inl (u "ConnectError", u "refused")).
#[export] Instance silent_world_laws now : OutsideLaws (silent_world now).
Proof. apply sample_world_laws. Qed.
#[export] Instance sample_clock_laws dns http stream :
  ClockLaws (sample_world 1000 dns http stream).
Proof. split. done. Qed.
#[export] Instance silent_clock_laws : ClockLaws (silent_world 1000).
Proof. apply sample_clock_laws. Qed.
