(* ===== verification/Errors.v ===== *)
(** * OAuth errors, upstream endpoints and responses

    [errors.py] (the typed errors and their JSON body), [upstream.py] (the two
    Keycloak endpoints) and the responses the handlers return. *)

From S2P Require Import Prelude PyStr Codec Json World.

(** ** [errors.py] *)

Definition InvalidRequest (d : pystr) : exn := OAuthError (u "invalid_request") d 400.
Definition InvalidTarget (d : pystr) : exn := OAuthError (u "invalid_target") d 400.
Definition InvalidClient (d : pystr) (status_code : Z) : exn :=
  OAuthError (u "invalid_client") d status_code.
Definition UnauthorizedClient (d : pystr) : exn := OAuthError (u "unauthorized_client") d 400.
Definition InvalidGrant (d : pystr) : exn := OAuthError (u "invalid_grant") d 400.
Definition UnsupportedGrantType (d : pystr) : exn :=
  OAuthError (u "unsupported_grant_type") d 400.
Definition ServerError (d : pystr) : exn := OAuthError (u "server_error") d 502.
Definition TemporarilyUnavailable (d : pystr) : exn :=
  OAuthError (u "temporarily_unavailable") d 503.

(** [OAuthError.as_dict], and the same method of [ManagementError]. *)
Definition as_dict (error description : pystr) : json :=
  JObj [(u "error", JStr error); (u "error_description", JStr description)].

(** [str(exc)] for the exceptions the program formats into messages. *)
Definition str_exn (e : exn) : pystr :=
  match e with
  | OAuthError e d _ => e ++ u ": " ++ d
  | ManagementError _ _ d | RegistrationError _ d _ => d
  | EnvelopeError m | RedirectUriRefused m | FetchError _ m | ConfigError m
  | SigningKeyError m | LinkConflict m | SchemaBehind m | CliError m | HTTPError _ m
  | ValueError m | UnicodeError m | JSONDecodeError m | TypeError m | AttributeError m
  | OverflowError m | RuntimeError m | IndexError m | DatabaseError m
  | SystemExit m | OSError m => m
  | KeyError m => repr m
  | FileNotFoundError m => u "[Errno 2] No such file or directory: " ++ repr m
  | AssertionError | StopIteration => []
  end.

(** ** [upstream.py] *)

Definition authorize_url (issuer : pystr) : pystr :=
  rstrip_slash issuer ++ u "/protocol/openid-connect/auth".
Definition token_url (issuer : pystr) : pystr :=
  rstrip_slash issuer ++ u "/protocol/openid-connect/token".

(** ** Responses *)

(** The newline of the plain-text bodies. *)
Definition newline : pystr := [10%N].

Inductive response :=
  | PlainText (status_code : Z) (content : pystr)
  | Redirect (url : pystr)                       (* RedirectResponse, 302 *)
  | JSONResponse (status_code : Z) (content : json) (headers : dict pystr)
  | EmptyResponse (status_code : Z).

(** A response that carries no [Location]: nothing sends the browser on. *)
Definition is_redirect (r : response) : bool :=
  match r with Redirect _ => true | _ => false end.

Definition response_status (r : response) : Z :=
  match r with
  | PlainText c _ | JSONResponse c _ _ | EmptyResponse c => c
  | Redirect _ => 302
  end.
