(* ===== verification/Discovery.v ===== *)
(** * The discovery document ([discovery.py])

    [build_discovery_document], and what each of its fields says. *)

From S2P Require Import Prelude PyStr Codec Json.

Definition strings (l : list pystr) : json := JArr (JStr <$> l).

Definition build_discovery_document (public_url : pystr) (scopes_supported : list pystr)
    (registration_endpoint : bool) (extra_grant_types : list pystr) : dict json :=
  let base := rstrip_slash public_url in
  let doc := [
    (u "issuer", JStr base);
    (u "authorization_endpoint", JStr (base ++ u "/authorize"));
    (u "token_endpoint", JStr (base ++ u "/token"));
    (u "response_types_supported", strings [u "code"]);
    (u "grant_types_supported",
      strings ([u "authorization_code"; u "refresh_token"] ++ extra_grant_types));
    (u "code_challenge_methods_supported", strings [u "S256"]);
    (u "token_endpoint_auth_methods_supported", strings [u "none"]);
    (u "client_id_metadata_document_supported", JBool true);
    (u "authorization_response_iss_parameter_supported", JBool true)] in
  let doc := match scopes_supported with
    | [] => doc | _ => dict_set doc (u "scopes_supported") (strings scopes_supported) end in
  if registration_endpoint
  then dict_set doc (u "registration_endpoint") (JStr (base ++ u "/register")) else doc.

(** The document announces the endpoints of the public URL without its
    trailing slashes, [S256] and public clients only; [scopes_supported] is
    present exactly when there is a scope, and then never empty, and
    [registration_endpoint] exactly when the route is on. *)
Theorem discovery_document_says url scopes reg extra :
  let doc := build_discovery_document url scopes reg extra in
  let base := rstrip_slash url in
  dict_wf doc ∧
  last base ≠ Some 47%N ∧
  dict_get doc (u "issuer") = Some (JStr base) ∧
  dict_get doc (u "token_endpoint") = Some (JStr (base ++ u "/token")) ∧
  dict_get doc (u "code_challenge_methods_supported") = Some (JArr [JStr (u "S256")]) ∧
  dict_get doc (u "token_endpoint_auth_methods_supported") = Some (JArr [JStr (u "none")]) ∧
  dict_get doc (u "grant_types_supported") =
    Some (strings (u "authorization_code" :: u "refresh_token" :: extra)) ∧
  dict_get doc (u "scopes_supported") =
    (if decide (scopes = []) then None else Some (strings scopes)) ∧
  dict_get doc (u "registration_endpoint") =
    (if reg then Some (JStr (base ++ u "/register")) else None).
Proof.
  intros doc base. assert (Hlast : last base ≠ Some 47%N).
  { intros H. apply rstrip_by_last in H. done. }
  split; [|split; [exact Hlast|]]; unfold doc, build_discovery_document, dict_wf;
    fold base; destruct scopes, reg; cbn -[u]; try by repeat split.
  all: refine (bool_decide_unpack (NoDup _) _); vm_compute; exact I.
Qed.
