(* ===== verification/Logging.v ===== *)
(** * Logging ([logging_setup.py])

    [sanitize] and the inline [.replace] chains of the handlers, the redaction
    of secret fields, the filter and the formatter of a log record, and what
    [configure_logging] leaves of the root logger.

    What is shown: after redaction no member named as a secret, at any depth,
    carries more than six characters of its value; redaction is idempotent and
    leaves data without secret names alone; sanitised text has no CR, LF or
    NUL; a formatted record is a single line; configuring twice is configuring
    once. *)

From S2P Require Import Prelude PyStr Codec Json.

Local Open Scope N_scope.

(** ** Sanitising a field *)

Definition sanitize_str (s : pystr) : pystr :=
  replace_char 0 [92; 48] (replace_char 10 [92; 110] (replace_char 13 [92; 114] s)).
Definition sanitize (value : option pystr) : option pystr := sanitize_str <$> value.

Lemma replace_char_notin c r s : c ∉ r → c ∉ replace_char c r s.
Proof.
  intros Hr. unfold replace_char. rewrite list_elem_of_bind. intros (x & Hx & _).
  destruct (N.eqb_spec x c); set_solver.
Qed.

Lemma replace_char_notin_ne c c' r s : c ∉ r → c ∉ s → c ∉ replace_char c' r s.
Proof.
  intros Hr Hs. unfold replace_char. rewrite list_elem_of_bind. intros (x & Hx & Hxs).
  destruct (N.eqb_spec x c'); set_solver.
Qed.

(** ** Redaction *)

Definition secret_fields : list pystr :=
  [u "access_token"; u "refresh_token"; u "code"; u "code_verifier"; u "client_secret";
   u "PROXY_SECRET_KEY"; u "secret_key"; u "upstream_refresh_token"; u "upstream_code";
   u "upstream_verifier"; u "subject_token"; u "assertion"; u "token"].
Definition is_secret (k : pystr) : bool := bool_decide (k ∈ secret_fields).

(** HORIZONTAL ELLIPSIS. *)
Definition ellipsis : N := 0x2026.

Section Redact.
Context `{FloatRepr}.

Definition redact_string (value : json) : pystr :=
  let text := py_str value in
  if (length text <=? 6)%nat then [ellipsis] else take 6 text ++ [ellipsis].

Fixpoint redact (value : json) : json :=
  match value with
  | JObj d => JObj (map (λ '(k, v),
      (k, if is_secret k then JStr (redact_string v) else redact v)) d)
  | JArr l => JArr (map redact l)
  | v => v
  end.

(** [RedactionFilter.filter]: the attributes of the record are its
    dictionary; [msg] and [fields] are two of them. *)
Definition redact_attr (kv : pystr * json) : pystr * json :=
  if is_secret kv.1 then (kv.1, JStr (redact_string kv.2)) else kv.
Definition redact_dict_attr (record : dict json) (attr : pystr) : dict json :=
  match dict_get record attr with
  | Some (JObj d) => dict_set record attr (redact (JObj d))
  | _ => record
  end.
Definition filter_record (record : dict json) : dict json :=
  redact_dict_attr (redact_dict_attr (map redact_attr record) (u "msg")) (u "fields").

(** A value that gives no secret away: every member with a secret name holds
    the mark, after at most six characters of [of k]. *)
Definition marked (v : json) : Prop :=
  ∃ t, v = JStr (t ++ [ellipsis]) ∧ (length t <= 6)%nat.

Fixpoint hides (j : json) : Prop :=
  match j with
  | JObj d => foldr (λ kv Q, (if is_secret kv.1 then marked kv.2 else hides kv.2) ∧ Q) True d
  | JArr l => foldr (λ v Q, hides v ∧ Q) True l
  | _ => True
  end.

Lemma redact_string_marked v : marked (JStr (redact_string v)).
Proof.
  unfold redact_string, marked. destruct (_ <=? 6)%nat eqn:?.
  - exists []. split; [done|simpl; lia].
  - exists (take 6 (py_str v)). split; [done|]. rewrite length_take. lia.
Qed.

Lemma redact_string_idemp v : redact_string (JStr (redact_string v)) = redact_string v.
Proof.
  unfold redact_string at 1. cbn [py_str]. unfold redact_string.
  destruct (length (py_str v) <=? 6)%nat eqn:E; [done|].
  assert (Hl : length (take 6 (py_str v)) = 6%nat) by (rewrite length_take; lia).
  rewrite length_app, Hl. cbn [length Nat.add Nat.leb]. f_equal.
  rewrite take_app_le by lia. apply take_ge. lia.
Qed.

Lemma redact_hides_all j : hides (redact j).
Proof.
  induction j as [| | | | |l IH|d IH] using json_ind; simpl; try done.
  - induction IH; simpl; auto.
  - induction IH as [|[k v] d Hv _ IH]; simpl; [done|]. split; [|done].
    destruct (is_secret k); [apply redact_string_marked|done].
Qed.

Lemma redact_idemp_all j : redact (redact j) = redact j.
Proof.
  induction j as [| | | | |l IH|d IH] using json_ind; simpl; try done; f_equal.
  - induction IH as [|x l Hx _ IHl]; simpl; [done|]. by rewrite Hx, IHl.
  - induction IH as [|[k v] d Hv _ IHd]; simpl; [done|]. rewrite IHd. do 2 f_equal.
    destruct (is_secret k); [|done]. f_equal. apply redact_string_idemp.
Qed.

(** No member anywhere is named as a secret. *)
Fixpoint plain (j : json) : bool :=
  match j with
  | JObj d => forallb (λ kv, negb (is_secret kv.1) && plain kv.2) d
  | JArr l => forallb plain l
  | _ => true
  end.

Lemma redact_plain_all j : plain j = true → redact j = j.
Proof.
  induction j as [| | | | |l IH|d IH] using json_ind; simpl; try done; intros Hp; f_equal.
  - induction IH as [|x l Hx _ IHl]; simpl in *; [done|].
    apply andb_true_iff in Hp as [??]. by rewrite Hx, IHl.
  - induction IH as [|[k v] d Hv _ IHd]; simpl in *; [done|].
    apply andb_true_iff in Hp as [[Hk ?]%andb_true_iff ?]. apply negb_true_iff in Hk.
    rewrite Hk, IHd by done. by rewrite Hv.
Qed.

(** Redacting a payload leaves, at any depth, only the ellipsis after at
    most six characters in every member whose name is a secret; doing it
    again changes nothing; data without a secret name passes untouched. *)
Theorem redact_hides_secrets j :
  hides (redact j) ∧ redact (redact j) = redact j ∧ (plain j = true → redact j = j).
Proof.
  split; [apply redact_hides_all|]. split; [apply redact_idemp_all|apply redact_plain_all].
Qed.

Lemma dict_get_map_attr d k :
  dict_get (map redact_attr d) k =
  (λ v, if is_secret k then JStr (redact_string v) else v) <$> dict_get d k.
Proof.
  induction d as [|[k' v] d IH]; [done|]. unfold redact_attr at 1. simpl.
  destruct (is_secret k') eqn:Hs; simpl; case_decide; subst; simpl; try done; by rewrite Hs.
Qed.

Lemma dict_get_redact_dict_attr d a k :
  dict_get (redact_dict_attr d a) k =
  (λ v, if decide (k = a) then match v with JObj _ => redact v | _ => v end else v)
    <$> dict_get d k.
Proof.
  unfold redact_dict_attr. destruct (decide (k = a)) as [->|Hne].
  - destruct (dict_get d a) as [[]|] eqn:E; rewrite ?E; simpl; rewrite ?decide_True by done;
      try done. by rewrite dict_get_set_eq.
  - destruct (dict_get d a) as [[]|] eqn:E; simpl;
      rewrite ?dict_get_set_ne by done; destruct (dict_get d k); done.
Qed.

(** What the filter leaves in a record: an attribute named as a secret
    holds only the mark, a structured message and the structured fields are
    redacted, and every other attribute is as it was. *)
Theorem filter_record_redacts record k v :
  dict_get record k = Some v →
  ∃ v', dict_get (filter_record record) k = Some v' ∧
    (if is_secret k then marked v'
     else if bool_decide (k = u "msg") || bool_decide (k = u "fields")
     then v' = match v with JObj _ => redact v | _ => v end
     else v' = v).
Proof.
  intros Hk. unfold filter_record.
  rewrite !dict_get_redact_dict_attr, dict_get_map_attr, Hk. simpl. eexists. split; [done|].
  destruct (is_secret k) eqn:Hs.
  - assert (k ≠ u "msg" ∧ k ≠ u "fields") as [??]
      by (split; intros ->; by vm_compute in Hs).
    rewrite !decide_False by done. apply redact_string_marked.
  - destruct (decide (k = u "msg")) as [->|]; [by destruct v|].
    rewrite bool_decide_false by done. simpl. by case_decide; case_bool_decide.
Qed.
End Redact.

(** Redacting the fields a failed exchange might log, at two depths. *)
Lemma filter_record_redacts_witness :
  ∃ v', dict_get (filter_record (H := id)
      [(u "msg", JObj [(u "event", JStr (u "x")); (u "code", JStr (u "abcdefgh"))])]) (u "msg")
    = Some v' ∧ v' = JObj [(u "event", JStr (u "x")); (u "code", JStr (u "abcdef" ++ [ellipsis]))].
Proof.
  destruct (filter_record_redacts (H := id)
    [(u "msg", JObj [(u "event", JStr (u "x")); (u "code", JStr (u "abcdefgh"))])] (u "msg") _
    eq_refl) as (v' & Hv & Hr).
  exists v'. split; [exact Hv|]. rewrite Hr. reflexivity.
Defined.

(** A sanitised field carries no carriage return, line feed or NUL. *)
Theorem sanitize_neutralises s :
  13 ∉ sanitize_str s ∧ 10 ∉ sanitize_str s ∧ 0 ∉ sanitize_str s.
Proof.
  unfold sanitize_str. split; [|split].
  - do 2 (apply replace_char_notin_ne; [set_solver|]).
    apply replace_char_notin. set_solver.
  - apply replace_char_notin_ne; [set_solver|]. apply replace_char_notin. set_solver.
  - apply replace_char_notin. set_solver.
Qed.

(** ** The formatted line *)

(** [json.dumps(..., sort_keys=True, ensure_ascii=False)]: default separators,
    only control characters, the quote and the backslash escaped. *)
Definition escape_text_char (c : N) : pystr :=
  if c =? 34 then [92; 34]
  else if c =? 92 then [92; 92]
  else if c =? 8 then [92; 98]
  else if c =? 9 then [92; 116]
  else if c =? 10 then [92; 110]
  else if c =? 12 then [92; 102]
  else if c =? 13 then [92; 114]
  else if c <? 32 then u_escape c
  else [c].
Definition quote_text (s : pystr) : pystr := [dquote] ++ (s ≫= escape_text_char) ++ [dquote].

Fixpoint dumps_text (j : json) : pystr :=
  match j with
  | JStr s => quote_text s
  | JArr l => u "[" ++ join (u ", ") (map dumps_text l) ++ u "]"
  | JObj d =>
      u "{" ++ join (u ", ") (map (λ '(k, t), quote_text k ++ u ": " ++ t)
        (sort_keys (map (λ '(k, v), (k, dumps_text v)) d))) ++ u "}"
  | j => dumps_in_order j
  end.

(** A [logging.LogRecord] as the formatter reads it: [lr_ts], [lr_message] and
    [lr_exc_info] are what the library's [formatTime], [getMessage] and
    [formatException] return. *)
Record LogRecord := {
  lr_ts : pystr;
  lr_levelname : pystr;
  lr_name : pystr;
  lr_msg : json;
  lr_message : pystr;
  lr_fields : option json;
  lr_exc_info : option pystr
}.

(** [d.update(e)]. *)
Definition dict_update {A} (d e : dict A) : dict A :=
  fold_left (λ acc kv, dict_set acc kv.1 kv.2) e d.

(** [JsonFormatter.format], before [json.dumps]. *)
Definition log_payload (cid : pystr) (record : LogRecord) : dict json :=
  let payload := [(u "ts", JStr (lr_ts record)); (u "level", JStr (lr_levelname record));
                  (u "logger", JStr (lr_name record)); (u "cid", JStr cid)] in
  let payload := match lr_msg record with
    | JObj m => dict_set (dict_set payload (u "fields") (JObj m)) (u "msg")
                  (dict_get_default m (u "event") (JStr []))
    | _ => dict_set payload (u "msg") (JStr (lr_message record))
    end in
  let payload := match lr_fields record with
    | Some (JObj f) =>
        let old := match dict_get payload (u "fields") with Some (JObj o) => o | _ => [] end in
        dict_set payload (u "fields") (JObj (dict_update old f))
    | _ => payload
    end in
  match lr_exc_info record with
  | Some e => dict_set payload (u "exc_info") (JStr e)
  | None => payload
  end.
Definition format (cid : pystr) (record : LogRecord) : pystr :=
  dumps_text (JObj (log_payload cid record)).

(** No control character: on one line, and no escape sequence for a terminal. *)
Definition one_line (s : pystr) : Prop := Forall (λ c, 32 <= c) s.

(** Float literals, the only text that is copied, hold no control character. *)
Fixpoint floats_plain (j : json) : Prop :=
  match j with
  | JFloat s => one_line s
  | JArr l => foldr (λ v Q, floats_plain v ∧ Q) True l
  | JObj d => foldr (λ kv Q, floats_plain kv.2 ∧ Q) True d
  | _ => True
  end.

Lemma one_line_app s t : one_line s → one_line t → one_line (s ++ t).
Proof. intros; by apply Forall_app. Qed.

Lemma one_line_hex w n : one_line (hex_fixed w n).
Proof.
  revert n. induction w as [|w IH]; intros n; simpl; [by apply Forall_nil|].
  apply one_line_app; [apply IH|]. apply Forall_singleton. unfold hex_char.
  destruct (n mod 16 <? 10); lia.
Qed.

Lemma one_line_quote s : one_line (quote_text s).
Proof.
  unfold quote_text. apply one_line_app; [by apply Forall_singleton|].
  apply one_line_app; [|by apply Forall_singleton].
  unfold one_line. apply Forall_forall. intros x (c & Hx & _)%list_elem_of_bind.
  revert x Hx. apply Forall_forall. unfold escape_text_char, u_escape.
  repeat (destruct (_ =? _); [repeat constructor; lia|]).
  destruct (c <? 32) eqn:E; [|apply Forall_singleton; lia].
  do 2 (constructor; [lia|]). apply (one_line_hex 4).
Qed.

Lemma one_line_join sep l : one_line sep → Forall one_line l → one_line (join sep l).
Proof.
  intros Hs Hl. induction Hl as [|x l Hx Hl IH]; simpl; [by apply Forall_nil|].
  destruct l; [done|]. do 2 (apply one_line_app; [done|]). done.
Qed.

Lemma one_line_dumps_text j : floats_plain j → one_line (dumps_text j).
Proof.
  induction j as [|[]|z|s|s|l IH|d IH] using json_ind; intros Hf; cbn [dumps_text].
  1-3: by apply (bool_decide_unpack _).
  - cbn [dumps_gap dumps_in_order]. unfold dumps_in_order. cbn [dumps_gap]. unfold str_of_Z. assert (Hd : ∀ n, one_line (dec n)).
    { intros n. eapply Forall_impl; [apply dec_all|].
      intros x Hx%is_ascii_digit_bounds. lia. }
    destruct (z <? 0)%Z; [apply Forall_cons; split; [lia|]|]; apply Hd.
  - exact Hf.
  - apply one_line_quote.
  - apply one_line_app; [by apply (bool_decide_unpack _)|].
    apply one_line_app; [|by apply (bool_decide_unpack _)].
    apply one_line_join; [by apply (bool_decide_unpack _)|].
    apply foldr_and_Forall in Hf. apply Forall_map. rewrite Forall_forall in *.
    intros x Hx. by apply IH, Hf.
  - apply one_line_app; [by apply (bool_decide_unpack _)|].
    apply one_line_app; [|by apply (bool_decide_unpack _)].
    apply one_line_join; [by apply (bool_decide_unpack _)|].
    apply (foldr_and_Forall (λ kv, floats_plain kv.2)) in Hf.
    apply Forall_map. rewrite sort_keys_perm. apply Forall_map.
    rewrite Forall_forall in *. intros [k v] Hkv.
    change (one_line (quote_text k ++ u ": " ++ dumps_text v)).
    apply one_line_app; [apply one_line_quote|].
    apply one_line_app; [by apply (bool_decide_unpack _)|]. by apply (IH (k, v)), (Hf (k, v)).
Qed.

Lemma floats_plain_set d k v :
  floats_plain v → floats_plain (JObj d) → floats_plain (JObj (dict_set d k v)).
Proof.
  intros Hv. induction d as [|[k' v'] d IH]; simpl; [done|].
  intros [??]. case_decide; simpl; (split; [done|]); [done|by apply IH].
Qed.

Lemma floats_plain_get d k v :
  floats_plain (JObj d) → dict_get d k = Some v → floats_plain v.
Proof.
  intros Hd%(foldr_and_Forall (λ kv, floats_plain kv.2)) Hk%dict_get_Some_elem.
  rewrite Forall_forall in Hd. by apply (Hd (k, v)).
Qed.

Lemma floats_plain_update d e :
  floats_plain (JObj e) → floats_plain (JObj d) → floats_plain (JObj (dict_update d e)).
Proof.
  unfold dict_update. revert d. induction e as [|[k v] e IH]; intros d; [done|].
  intros [? He] Hd. cbn [fold_left]. apply IH; [exact He|]. by apply floats_plain_set.
Qed.

(** A record is formatted as one line without control characters, whatever
    text the message, the fields or the correlation id carry. *)
Theorem format_one_line cid record :
  floats_plain (lr_msg record) → from_option floats_plain True (lr_fields record) →
  one_line (format cid record).
Proof.
  intros Hm Hf. apply one_line_dumps_text. unfold log_payload.
  set (p0 := [_; _; _; _]).
  set (p1 := match lr_msg record with JObj _ => _ | _ => _ end).
  assert (H1 : floats_plain (JObj p1)).
  { subst p1. destruct (lr_msg record) as [| | | | | |m] eqn:E;
      try by (apply floats_plain_set; [|repeat split]).
    apply floats_plain_set; [|apply floats_plain_set; [done|repeat split]].
    unfold dict_get_default. destruct (dict_get m _) as [v|] eqn:Hv; [|done].
    by apply (floats_plain_get m (u "event")). }
  assert (H2 : floats_plain (JObj match lr_fields record with
    | Some (JObj f) =>
        let old := match dict_get p1 (u "fields") with Some (JObj o) => o | _ => [] end in
        dict_set p1 (u "fields") (JObj (dict_update old f))
    | _ => p1 end)).
  { destruct (lr_fields record) as [[]|]; try done. apply floats_plain_set; [|done].
    apply floats_plain_update; [done|].
    destruct (dict_get p1 (u "fields")) as [[]|] eqn:Hg; try done.
    by apply (floats_plain_get p1 (u "fields")). }
  destruct (lr_exc_info record); [by apply floats_plain_set|done].
Qed.

(** A forged line break in a client's name stays inside its line. *)
Lemma format_one_line_witness :
  one_line (format (u "-") {| lr_ts := u "t"; lr_levelname := u "INFO"; lr_name := u "n";
    lr_msg := JObj [(u "event", JStr [65; 13; 10; 66])]; lr_message := [];
    lr_fields := Some (JObj [(u "x", JFloat (u "1.5"))]); lr_exc_info := None |}).
Proof. apply format_one_line; [repeat split|]. simpl. repeat split. repeat constructor; done. Defined.

(** ** Installing the handler *)

Local Open Scope Z_scope.

(** A handler of the root logger: the one [configure_logging] makes, with the
    JSON formatter and the redaction filter, or another. *)
Inductive handler := RedactingJson | OtherHandler (id : N).
#[export] Instance handler_eq_dec : EqDecision handler.
Proof. solve_decision. Defined.

Record LoggingState := {
  root_handlers : list handler;
  root_level : Z;
  httpx_level : Z
}.

(** [logging.getLevelName]'s table: the attributes of the module [logging] that
    are levels. *)
Definition logging_levels : dict Z :=
  [(u "CRITICAL", 50); (u "FATAL", 50); (u "ERROR", 40); (u "WARNING", 30); (u "WARN", 30);
   (u "INFO", 20); (u "DEBUG", 10); (u "NOTSET", 0)].

(** What [setLevel] makes of [getattr(logging, level.upper(), logging.INFO)]:
    the module has two more attributes in capitals, a format and a table. *)
Definition level_of (level : pystr) : res Z :=
  let name := upper level in
  match dict_get logging_levels name with
  | Some n => Ok n
  | None =>
      if bool_decide (name = u "BASIC_FORMAT")
      then Raise (ValueError (u "Unknown level: '%(levelname)s:%(name)s:%(message)s'"))
      else if bool_decide (name = u "_STYLES")
      then Raise (TypeError (u "Level not an integer or a valid string"))
      else Ok 20
  end.

Lemma level_of_spec level :
  is_Ok (level_of level) = true ↔ upper level ≠ u "BASIC_FORMAT" ∧ upper level ≠ u "_STYLES".
Proof.
  unfold level_of. destruct (dict_get logging_levels (upper level)) eqn:E.
  - split; [|done]. intros _. by split; intros H; rewrite H in E.
  - destruct (bool_decide_reflect (upper level = u "BASIC_FORMAT")) as [H|H];
      [by split; [|intros [[] _]]|].
    destruct (bool_decide_reflect (upper level = u "_STYLES")) as [H'|H']; [by split; [|intros [_ []]]|done].
Qed.

(** [root.removeHandler]. *)
Fixpoint remove_handler (h : handler) (l : list handler) : list handler :=
  match l with
  | [] => []
  | h' :: l' => if decide (h' = h) then l' else h' :: remove_handler h l'
  end.

Definition configure_logging (level : pystr) (c : LoggingState) : res unit * LoggingState :=
  let kept := foldl (λ l h, remove_handler h l) (root_handlers c) (root_handlers c) in
  let c := {| root_handlers := kept ++ [RedactingJson]; root_level := root_level c;
              httpx_level := httpx_level c |} in
  match level_of level with
  | Raise e => (Raise e, c)
  | Ok n => (Ok tt, {| root_handlers := root_handlers c; root_level := n; httpx_level := 30 |})
  end.

Lemma remove_all l : foldl (λ l h, remove_handler h l) l l = [].
Proof.
  induction l as [|h l IH]; [done|]. cbn [foldl remove_handler]. by rewrite decide_True.
Qed.

(** Whatever handlers there were, afterwards the root logger has one, the one
    that redacts -- also when the level is refused, which happens to two names
    only.  Configuring again changes nothing. *)
Theorem configure_logging_idempotent level c :
  let '(r, c') := configure_logging level c in
  root_handlers c' = [RedactingJson] ∧ configure_logging level c' = (r, c') ∧
  match r with
  | Ok _ => level_of level = Ok (root_level c') ∧ httpx_level c' = 30
  | Raise _ => upper level = u "BASIC_FORMAT" ∨ upper level = u "_STYLES"
  end.
Proof.
  unfold configure_logging. rewrite remove_all.
  destruct (level_of level) as [n|e] eqn:E; cbn [root_handlers root_level httpx_level app].
  - by rewrite remove_all.
  - split; [done|]. split; [by rewrite remove_all|]. unfold level_of in E.
    destruct (dict_get logging_levels (upper level)); [done|].
    destruct (bool_decide_reflect (upper level = u "BASIC_FORMAT")); [by left|].
    destruct (bool_decide_reflect (upper level = u "_STYLES")); [by right|done].
Qed.

Example level_samples :
  level_of (u "warning") = Ok 30 ∧ level_of (u "verbose") = Ok 20 ∧ level_of [] = Ok 20 ∧
  is_Ok (level_of (u "basic_format")) = false.
Proof. vm_compute. done. Qed.
