(* ===== verification/Pkce.v ===== *)
(** * PKCE ([pkce.py]) and correlation ids ([correlation.py])

    [make_verifier], [derive_challenge] and [verify_challenge] of RFC 7636.
    [secrets.compare_digest] on two strings needs both to be ASCII. *)

From S2P Require Import Prelude PyStr Codec Digest Json World.

Local Open Scope N_scope.

(** [secrets.token_urlsafe] of the standard library. *)
Definition token_urlsafe `{Outside} {X} (n : nat) : io X pystr :=
  raw ← random n; mret (b64url raw).

(** [secrets.compare_digest] on strings. *)
Definition compare_digest (a b : pystr) : res bool :=
  if isascii a && isascii b then Ok (bool_decide (a = b))
  else Raise (TypeError (u "comparing strings with non-ASCII characters is not supported")).

Definition new_correlation_id `{Outside} {X} : io X pystr :=
  t ← token_urlsafe 10; mret (take 13 t).

Definition make_verifier `{Outside} {X} (length : Z) : io X pystr :=
  if (length <? 43)%Z || (128 <? length)%Z
  then raise (ValueError (u "PKCE verifier length must be between 43 and 128"))
  else raw ← token_urlsafe 96; mret (take (Z.to_nat length) raw).

Definition derive_challenge (verifier : pystr) : res pystr :=
  bs ← encode_ascii verifier;
  Ok (b64url (sha256 bs)).

Definition verify_challenge (verifier challenge : pystr) : res bool :=
  computed ← derive_challenge verifier;
  compare_digest computed challenge.

Definition method : pystr := u "S256".

(** ** Lemmas *)

Lemma derive_challenge_ascii v :
  isascii v = true → derive_challenge v = Ok (b64url (sha256 v)).
Proof. intros Hv. unfold derive_challenge, encode_ascii. by rewrite Hv. Qed.

Lemma challenge_is_ascii v : isascii (b64url (sha256 v)) = true.
Proof. apply b64url_ascii, sha256_bytes_ok. Qed.

Lemma challenge_length v : length (b64url (sha256 v)) = 43%nat.
Proof. by rewrite b64url_length, sha256_length. Qed.

Lemma token_urlsafe_run `{O : Outside, !OutsideLaws O} {X} n (s s' : state X) t :
  token_urlsafe n s = (Ok t, s') →
  s' = (s.1, EvRandom n :: s.2) ∧ length t = ((4 * n + 2) / 3)%nat ∧
  Forall (λ c, c ∈ b64_alphabet) t ∧ isascii t = true.
Proof.
  unfold token_urlsafe. intros H. io_inv. split; [done|].
  rewrite b64url_length, o_random_length. split; [done|].
  split; [apply b64url_alphabet, o_random_ok|apply b64url_ascii, o_random_ok].
Qed.

Lemma Forall_take_N {P : N → Prop} n (l : list N) : Forall P l → Forall P (take n l).
Proof. intros H. rewrite <-(take_drop n l) in H. by apply Forall_app in H as [? _]. Qed.

Lemma isascii_take n s : isascii s = true → isascii (take n s) = true.
Proof. rewrite !isascii_spec. apply Forall_take_N. Qed.

(** ** Properties *)

(** C33. [verify_challenge] accepts exactly the ASCII verifiers whose SHA-256,
    in unpadded base64url, is the challenge; it raises for a verifier that is
    not ASCII, and for a challenge that is not ASCII, and is [False] for every
    other pair. *)
Theorem verify_challenge_spec v c :
  verify_challenge v c =
    if isascii v then
      if isascii c then Ok (bool_decide (c = b64url (sha256 v)))
      else Raise (TypeError (u "comparing strings with non-ASCII characters is not supported"))
    else Raise (UnicodeError (u "'ascii' codec can't encode characters")).
Proof.
  unfold verify_challenge. destruct (isascii v) eqn:Hv.
  - rewrite derive_challenge_ascii by done. cbn [mbind res_bind]. unfold compare_digest.
    rewrite challenge_is_ascii. destruct (isascii c); [|done]. simpl.
    do 2 f_equal. apply bool_decide_ext. naive_solver.
  - unfold derive_challenge, encode_ascii. by rewrite Hv.
Qed.

(** Of two verifiers that one challenge accepts, the SHA-256 digests agree:
    a second verifier for a challenge is a SHA-256 collision. *)
Theorem verify_challenge_collision v w c :
  verify_challenge v c = Ok true → verify_challenge w c = Ok true → sha256 v = sha256 w.
Proof.
  unfold verify_challenge, derive_challenge, encode_ascii, compare_digest.
  destruct (isascii v), (isascii w); cbn [mbind res_bind]; try done. rewrite !challenge_is_ascii.
  destruct (isascii c); cbn [andb]; try done.
  intros Hv%Ok_inj%bool_decide_eq_true Hw%Ok_inj%bool_decide_eq_true.
  apply b64url_inj; [apply sha256_bytes_ok..|congruence].
Qed.

(** The pair of RFC 7636, appendix B. *)
Lemma verify_challenge_collision_witness :
  verify_challenge (u "dBjftJeZ4CVP-mB92K27uhbUJU1p1r_wW1gFWFOEjXk")
    (u "E9Melhoa2OwvFrEMTJguCHaoeK1t8URWbuGJSstw-cM") = Ok true ∧
  sha256 (u "dBjftJeZ4CVP-mB92K27uhbUJU1p1r_wW1gFWFOEjXk") =
  sha256 (u "dBjftJeZ4CVP-mB92K27uhbUJU1p1r_wW1gFWFOEjXk").
Proof.
  assert (H : verify_challenge (u "dBjftJeZ4CVP-mB92K27uhbUJU1p1r_wW1gFWFOEjXk")
    (u "E9Melhoa2OwvFrEMTJguCHaoeK1t8URWbuGJSstw-cM") = Ok true) by (vm_compute; reflexivity).
  split; [exact H|]. apply (verify_challenge_collision _ _ _ H H).
Defined.

(** A generated verifier has the requested length, is made of characters
    RFC 7636 allows, and its own challenge (43 characters) is derived without
    error and accepted for it; a length outside 43..128 raises and draws no
    randomness. *)
Theorem make_verifier_spec `{O : Outside, !OutsideLaws O} {X} len (s s' : state X) r :
  make_verifier len s = (r, s') →
  match r with
  | Ok v =>
      (43 <= len <= 128)%Z ∧ length v = Z.to_nat len ∧ Forall (λ c, c ∈ b64_alphabet) v ∧
      ∃ c, derive_challenge v = Ok c ∧ length c = 43%nat ∧ verify_challenge v c = Ok true
  | Raise _ => ¬ (43 <= len <= 128)%Z ∧ s' = s
  end.
Proof.
  unfold make_verifier. destruct ((len <? 43)%Z || (128 <? len)%Z) eqn:E.
  { intros [= <- <-]. split; [lia|done]. }
  intros H. destruct r as [v|e]; [|apply run_bind_Raise in H as [H|(?&?&?&H)]; by unfold token_urlsafe in *; io_inv].
  apply run_bind_Ok in H as (t & s1 & Ht & H). apply token_urlsafe_run in Ht as (_ & Hl & Ha & Hc).
  io_inv. split; [lia|]. split; [rewrite length_take, Hl; simpl; lia|].
  split; [by apply Forall_take_N|]. assert (Hv := isascii_take (Z.to_nat len) _ Hc).
  eexists. split; [by apply derive_challenge_ascii|]. split; [apply challenge_length|].
  unfold verify_challenge. rewrite derive_challenge_ascii by done. cbn [mbind res_bind].
  unfold compare_digest. rewrite challenge_is_ascii. simpl. by rewrite bool_decide_true.
Qed.

(** The two ends of the range, and one past each. *)
Lemma make_verifier_spec_witness :
  let _ := silent_world 0 in
  ∃ v s', make_verifier 43 (tt, []) = (Ok v, s') ∧ length v = 43%nat.
Proof.
  intros O. eexists _, _. split; [reflexivity|].
  apply (make_verifier_spec (O := O) 43 (tt, []) _ (Ok _) eq_refl).
Defined.
