(* ===== verification/Envelope.v ===== *)
(** * Fernet envelopes ([envelope.py])

    The four envelope records, [EnvelopeCodec._pack] and [_open] with their tag
    and lifetime checks, and the [pack_*] and [open_*] methods.

    Fernet is the [cryptography] package's: the class [Fernet] holds its two
    operations, [FernetLaws] what its documentation promises (a token decrypts
    to its message under the same key, is refused when older than the [ttl],
    and is ASCII).

    The dataclasses do not check the type of a field; a payload with the right
    tag and a field of another type can only be made by whoever holds the key
    and does not go through [_pack], and the model raises [TypeError] at once
    where Python raises at a later use.  [upstream_refresh_token] is the value
    of the upstream's reply and stays a JSON value. *)

From S2P Require Import Prelude PyStr Codec Json World.

(** ** [cryptography.fernet] *)

Class Fernet := {
  fkey : Type;
  fernet_key : bytes → option fkey;                    (* None: ValueError *)
  fernet_encrypt : fkey → Z → bytes → bytes → bytes;   (* key, time, IV, message *)
  fernet_decrypt : fkey → option Z → Z → bytes → option bytes
                                       (* key, ttl, time, token; None: InvalidToken *)
}.

Class FernetLaws (F : Fernet) : Prop := {
  fernet_ascii k t iv m : isascii (fernet_encrypt k t iv m) = true;
  fernet_no_ttl k t iv m now : fernet_decrypt k None now (fernet_encrypt k t iv m) = Some m;
  fernet_fresh k t iv m ttl now : t <= now <= t + ttl →
    fernet_decrypt k (Some ttl) now (fernet_encrypt k t iv m) = Some m;
  fernet_old k t iv m ttl now : t + ttl < now →
    fernet_decrypt k (Some ttl) now (fernet_encrypt k t iv m) = None;
  (* a ttl only refuses more *)
  fernet_ttl k ttl now tok m :
    fernet_decrypt k (Some ttl) now tok = Some m → fernet_decrypt k None now tok = Some m
}.

(** ** The envelopes *)

Record AuthorizeEnvelope := {
  az_correlation_id : pystr;
  az_client_id : pystr;
  az_redirect_uri : pystr;
  az_state : pystr;
  az_resource : pystr;
  az_client_code_challenge : pystr;
  az_upstream_verifier : pystr;
  az_scope : pystr;
  az_exp : Z
}.

Record CodeEnvelope := {
  cd_correlation_id : pystr;
  cd_upstream_code : pystr;
  cd_upstream_verifier : pystr;
  cd_resource : pystr;
  cd_client_id : pystr;
  cd_client_code_challenge : pystr;
  cd_redirect_uri : pystr;
  cd_exp : Z
}.

Record RefreshEnvelope := {
  rt_resource : pystr;
  rt_upstream_refresh_token : json
}.

Record RegistrationEnvelope := {
  rg_redirect_uris : list pystr;
  rg_token_endpoint_auth_method : pystr;
  rg_client_id_issued_at : Z;
  rg_client_name : pystr
}.

Inductive envelope :=
  | Authorize (env : AuthorizeEnvelope)
  | Code (env : CodeEnvelope)
  | Refresh (env : RefreshEnvelope)
  | Registration (env : RegistrationEnvelope).

(** The class variables [TAG]. *)
Definition az_TAG : pystr := u "az".
Definition cd_TAG : pystr := u "cd".
Definition rt_TAG : pystr := u "rt".
Definition rg_TAG : pystr := u "rg".

Definition TAG (e : envelope) : pystr :=
  match e with
  | Authorize _ => az_TAG | Code _ => cd_TAG | Refresh _ => rt_TAG | Registration _ => rg_TAG
  end.

(** [dataclasses.asdict]. *)
Definition asdict (e : envelope) : dict json :=
  match e with
  | Authorize e => [
      (u "correlation_id", JStr (az_correlation_id e));
      (u "client_id", JStr (az_client_id e));
      (u "redirect_uri", JStr (az_redirect_uri e));
      (u "state", JStr (az_state e));
      (u "resource", JStr (az_resource e));
      (u "client_code_challenge", JStr (az_client_code_challenge e));
      (u "upstream_verifier", JStr (az_upstream_verifier e));
      (u "scope", JStr (az_scope e));
      (u "exp", JInt (az_exp e))]
  | Code e => [
      (u "correlation_id", JStr (cd_correlation_id e));
      (u "upstream_code", JStr (cd_upstream_code e));
      (u "upstream_verifier", JStr (cd_upstream_verifier e));
      (u "resource", JStr (cd_resource e));
      (u "client_id", JStr (cd_client_id e));
      (u "client_code_challenge", JStr (cd_client_code_challenge e));
      (u "redirect_uri", JStr (cd_redirect_uri e));
      (u "exp", JInt (cd_exp e))]
  | Refresh e => [
      (u "resource", JStr (rt_resource e));
      (u "upstream_refresh_token", rt_upstream_refresh_token e)]
  | Registration e => [
      (u "redirect_uris", JArr (JStr <$> rg_redirect_uris e));
      (u "token_endpoint_auth_method", JStr (rg_token_endpoint_auth_method e));
      (u "client_id_issued_at", JInt (rg_client_id_issued_at e));
      (u "client_name", JStr (rg_client_name e))]
  end.

(** *** Calling a dataclass with the payload as keyword arguments *)

Definition type_error : exn := TypeError (u "unexpected, missing or ill-typed field").

(** Every keyword is a field, every field without a default is given. *)
Definition kwargs (required optional : list pystr) (d : dict json) : res unit :=
  if forallb (λ k, bool_decide (k ∈ required ++ optional)) d.*1
     && forallb (dict_mem d) required
  then Ok tt else Raise type_error.

Definition str_field (d : dict json) (k : pystr) : res pystr :=
  match dict_get d k with Some (JStr s) => Ok s | _ => Raise type_error end.
Definition int_field (d : dict json) (k : pystr) : res Z :=
  match dict_get d k with Some (JInt z) => Ok z | _ => Raise type_error end.
Definition any_field (d : dict json) (k : pystr) : res json :=
  match dict_get d k with Some j => Ok j | _ => Raise type_error end.
Definition as_str (j : json) : res pystr :=
  match j with JStr s => Ok s | _ => Raise type_error end.
Definition strs_field (d : dict json) (k : pystr) : res (list pystr) :=
  match dict_get d k with Some (JArr l) => map_res as_str l | _ => Raise type_error end.

(** [{k: v for k, v in payload.items() if k != "tag"}]. *)
Definition without_tag (payload : dict json) : dict json :=
  base.filter (λ kv, kv.1 ≠ u "tag") payload.

Definition authorize_of (d : dict json) : res AuthorizeEnvelope :=
  _ ← kwargs [u "correlation_id"; u "client_id"; u "redirect_uri"; u "state"; u "resource";
              u "client_code_challenge"; u "upstream_verifier"; u "scope"; u "exp"] [] d;
  correlation_id ← str_field d (u "correlation_id");
  client_id ← str_field d (u "client_id");
  redirect_uri ← str_field d (u "redirect_uri");
  state ← str_field d (u "state");
  resource ← str_field d (u "resource");
  challenge ← str_field d (u "client_code_challenge");
  verifier ← str_field d (u "upstream_verifier");
  scope ← str_field d (u "scope");
  exp ← int_field d (u "exp");
  Ok {| az_correlation_id := correlation_id; az_client_id := client_id;
        az_redirect_uri := redirect_uri; az_state := state; az_resource := resource;
        az_client_code_challenge := challenge; az_upstream_verifier := verifier;
        az_scope := scope; az_exp := exp |}.

Definition code_of (d : dict json) : res CodeEnvelope :=
  _ ← kwargs [u "correlation_id"; u "upstream_code"; u "upstream_verifier"; u "resource";
              u "client_id"; u "client_code_challenge"; u "redirect_uri"; u "exp"] [] d;
  correlation_id ← str_field d (u "correlation_id");
  upstream_code ← str_field d (u "upstream_code");
  verifier ← str_field d (u "upstream_verifier");
  resource ← str_field d (u "resource");
  client_id ← str_field d (u "client_id");
  challenge ← str_field d (u "client_code_challenge");
  redirect_uri ← str_field d (u "redirect_uri");
  exp ← int_field d (u "exp");
  Ok {| cd_correlation_id := correlation_id; cd_upstream_code := upstream_code;
        cd_upstream_verifier := verifier; cd_resource := resource; cd_client_id := client_id;
        cd_client_code_challenge := challenge; cd_redirect_uri := redirect_uri;
        cd_exp := exp |}.

Definition refresh_of (d : dict json) : res RefreshEnvelope :=
  _ ← kwargs [u "resource"; u "upstream_refresh_token"] [] d;
  resource ← str_field d (u "resource");
  token ← any_field d (u "upstream_refresh_token");
  Ok {| rt_resource := resource; rt_upstream_refresh_token := token |}.

Definition registration_of (d : dict json) : res RegistrationEnvelope :=
  _ ← kwargs [u "redirect_uris"; u "token_endpoint_auth_method"; u "client_id_issued_at"]
             [u "client_name"] d;
  redirect_uris ← strs_field d (u "redirect_uris");
  auth_method ← str_field d (u "token_endpoint_auth_method");
  issued_at ← int_field d (u "client_id_issued_at");
  name ← (if dict_mem d (u "client_name") then str_field d (u "client_name") else Ok []);
  Ok {| rg_redirect_uris := redirect_uris; rg_token_endpoint_auth_method := auth_method;
        rg_client_id_issued_at := issued_at; rg_client_name := name |}.

(** ** [EnvelopeCodec] *)

Section Codec.
Context `{O : Outside, F : Fernet, FloatRepr} {X : Type}.
Implicit Types (key : fkey) (token : pystr).

(** [Fernet.encrypt] reads the clock and draws an IV. *)
Definition encrypt key (m : bytes) : io X bytes :=
  now ← time; iv ← random 16; mret (fernet_encrypt key now iv m).
(** [Fernet.decrypt] reads the clock when it is given a [ttl]. *)
Definition decrypt key (ttl : option Z) (tok : bytes) : io X (option bytes) :=
  match ttl with
  | Some _ => now ← time; mret (fernet_decrypt key ttl now tok)
  | None => mret (fernet_decrypt key None 0 tok)
  end.

Definition _pack key (env : envelope) : io X pystr :=
  let payload := dict_set (asdict env) (u "tag") (JStr (TAG env)) in
  blob ← lift (encode_utf8 (dumps (JObj payload)));
  token ← encrypt key blob;
  lift (decode_ascii token).

Definition invalid : exn := EnvelopeError (u "envelope invalid or expired").
Definition malformed : exn := EnvelopeError (u "envelope malformed").
Definition not_json : exn := EnvelopeError (u "envelope payload not JSON").
Definition tag_mismatch (expected : pystr) (got : json) : exn :=
  EnvelopeError (u "envelope tag mismatch (expected " ++ repr expected ++ u ", got "
    ++ py_repr got ++ u ")").

Definition _open key token (expected_tag : pystr) (ttl_seconds : option Z)
    : io X (dict json) :=
  bs ← try_io (lift (encode_ascii token)) is_ValueError (λ _, raise malformed);
  m ← decrypt key ttl_seconds bs;
  match m with
  | None => raise invalid
  | Some blob =>
      payload ← try_io (lift (loads_utf8 blob))
        is_decode_error (λ _, raise not_json);
      match payload with
      | JObj d =>
          let got := dict_get_default d (u "tag") JNull in
          match got with
          | JStr t => if decide (t = expected_tag) then mret d
                      else raise (tag_mismatch expected_tag got)
          | _ => raise (tag_mismatch expected_tag got)
          end
      | _ => raise (AttributeError (u "object has no attribute 'get'"))
      end
  end.

Definition pack_authorize key (env : AuthorizeEnvelope) : io X pystr :=
  _pack key (Authorize env).
Definition pack_code key (env : CodeEnvelope) : io X pystr := _pack key (Code env).
Definition pack_refresh key (env : RefreshEnvelope) : io X pystr := _pack key (Refresh env).
Definition pack_registration key (env : RegistrationEnvelope) : io X pystr :=
  _pack key (Registration env).

Definition open_authorize key token : io X AuthorizeEnvelope :=
  payload ← _open key token az_TAG (Some 600); lift (authorize_of (without_tag payload)).
Definition open_code key token : io X CodeEnvelope :=
  payload ← _open key token cd_TAG None; lift (code_of (without_tag payload)).
Definition open_refresh key token : io X RefreshEnvelope :=
  payload ← _open key token rt_TAG None; lift (refresh_of (without_tag payload)).
Definition open_registration key token : io X RegistrationEnvelope :=
  payload ← _open key token rg_TAG None; lift (registration_of (without_tag payload)).

Definition from_key_string (key : pystr) : res fkey :=
  bs ← encode_ascii key;
  match fernet_key bs with
  | Some k => Ok k
  | None => Raise (ValueError (u "Fernet key must be 32 url-safe base64-encoded bytes."))
  end.

Lemma from_key_string_Ok (key : pystr) (k : fkey) :
  from_key_string key = Ok k ↔ isascii key = true ∧ fernet_key key = Some k.
Proof.
  unfold from_key_string, encode_ascii. destruct (isascii key); cbn [mbind res_bind]; [|naive_solver].
  destruct (fernet_key key); naive_solver.
Qed.

(** The four openings as one, by the kind that is expected. *)
Definition open_as (kind : pystr) key token : io X envelope :=
  if decide (kind = az_TAG) then Authorize <$> open_authorize key token
  else if decide (kind = cd_TAG) then Code <$> open_code key token
  else if decide (kind = rt_TAG) then Refresh <$> open_refresh key token
  else Registration <$> open_registration key token.
End Codec.

(** ** What a packed envelope is *)

(** The fields can be written as JSON and read back: see [json_ok]. *)
Definition env_ok (e : envelope) : Prop := json_ok (JObj (asdict e)).

(** The envelope that comes back: an upstream token that is a JSON object has
    its members sorted. *)
Definition reread (e : envelope) : envelope :=
  match e with
  | Refresh e => Refresh {| rt_resource := rt_resource e;
      rt_upstream_refresh_token := sort_json (rt_upstream_refresh_token e) |}
  | e => e
  end.

Definition packed_payload (e : envelope) : dict json :=
  dict_set (asdict e) (u "tag") (JStr (TAG e)).
Definition read_payload (e : envelope) : dict json :=
  sort_keys (map (λ '(k, v), (k, sort_json v)) (packed_payload e)).

Lemma packed_payload_ok e : env_ok e → json_ok (JObj (packed_payload e)).
Proof.
  unfold env_ok. intros [Hnd Hok]. split.
  - change (dict_wf (packed_payload e)). by apply dict_set_wf.
  - apply foldr_and2_Forall in Hok. apply foldr_and2_Forall, Forall_dict_set; [done|].
    split; [done|]. by destruct e.
Qed.

Lemma map_res_as_str l : map_res as_str (map sort_json (JStr <$> l)) = Ok l.
Proof. induction l as [|s l IH]; [done|]. rewrite fmap_cons. cbn [map sort_json map_res as_str].
  by rewrite IH. Qed.

(** The payload of each kind gives the envelope back. *)
Lemma authorize_of_read e :
  authorize_of (without_tag (read_payload (Authorize e))) = Ok e.
Proof. destruct e. vm_compute. reflexivity. Qed.
Lemma code_of_read e : code_of (without_tag (read_payload (Code e))) = Ok e.
Proof. destruct e. vm_compute. reflexivity. Qed.
Lemma refresh_of_read e :
  Refresh <$> refresh_of (without_tag (read_payload (Refresh e))) = Ok (reread (Refresh e)).
Proof. destruct e. vm_compute. reflexivity. Qed.
Lemma registration_of_read e :
  registration_of (without_tag (read_payload (Registration e))) = Ok e.
Proof.
  destruct e as [l m z n]. unfold registration_of, strs_field.
  replace (dict_get (without_tag (read_payload _)) (u "redirect_uris"))
    with (Some (JArr (map sort_json (JStr <$> l)))) by (vm_compute; reflexivity).
  cbv iota. rewrite map_res_as_str. vm_compute. reflexivity.
Qed.

Lemma read_tag e : dict_get (read_payload e) (u "tag") = Some (JStr (TAG e)).
Proof. destruct e as [[]|[]|[]|[]]; vm_compute; reflexivity. Qed.

(** Envelopes of texts and of machine times can be packed. *)
Definition texts (l : list pystr) : Prop := Forall (λ s, str_ok s = true) l.
Definition machine_time (z : Z) : Prop := Z.abs z < 2 ^ 63.

Lemma machine_time_ok z n : machine_time z → 0 <= n < 2 ^ 32 → json_ok (JInt (z + n)).
Proof.
  unfold machine_time. intros. apply small_int_ok.
  change (2 ^ 63) with 9223372036854775808 in *. change (2 ^ 32) with 4294967296 in *.
  change (2 ^ 64) with 18446744073709551616. lia.
Qed.

Lemma authorize_env_ok e :
  texts [az_correlation_id e; az_client_id e; az_redirect_uri e; az_state e; az_resource e;
         az_client_code_challenge e; az_upstream_verifier e; az_scope e] →
  json_ok (JInt (az_exp e)) → env_ok (Authorize e).
Proof.
  unfold texts, env_ok. rewrite !Forall_cons. intros Ht Hz. split.
  - by apply (bool_decide_unpack _).
  - cbn [asdict foldr fst snd json_ok]. repeat split; naive_solver.
Qed.

Lemma authorize_env_texts e :
  env_ok (Authorize e) →
  texts [az_correlation_id e; az_client_id e; az_redirect_uri e; az_state e; az_resource e;
         az_client_code_challenge e; az_upstream_verifier e; az_scope e].
Proof.
  unfold texts, env_ok. intros [_ H]. cbn [asdict foldr fst snd json_ok] in H.
  repeat match goal with H : _ ∧ _ |- _ => destruct H end.
  repeat first [apply Forall_cons_2; [assumption|]|apply Forall_nil_2].
Qed.

Lemma code_env_ok e :
  texts [cd_correlation_id e; cd_upstream_code e; cd_upstream_verifier e; cd_resource e;
         cd_client_id e; cd_client_code_challenge e; cd_redirect_uri e] →
  json_ok (JInt (cd_exp e)) → env_ok (Code e).
Proof.
  unfold texts, env_ok. rewrite !Forall_cons. intros Ht Hz. split.
  - by apply (bool_decide_unpack _).
  - cbn [asdict foldr fst snd json_ok]. repeat split; naive_solver.
Qed.

Lemma registration_env_ok e :
  texts (rg_token_endpoint_auth_method e :: rg_client_name e :: rg_redirect_uris e) →
  json_ok (JInt (rg_client_id_issued_at e)) → env_ok (Registration e).
Proof.
  unfold texts, env_ok. rewrite !Forall_cons. intros (? & ? & Hu) Hz. split.
  - by apply (bool_decide_unpack _).
  - cbn [asdict foldr fst snd json_ok]. repeat split; try done.
    clear -Hu. induction Hu; cbn [fmap list_fmap foldr json_ok]; by repeat split.
Qed.

Lemma refresh_env_ok e :
  str_ok (rt_resource e) = true → json_ok (rt_upstream_refresh_token e) → env_ok (Refresh e).
Proof.
  unfold env_ok. intros Hr Hj. split.
  - by apply (bool_decide_unpack _).
  - cbn [asdict foldr fst snd]. repeat split; done.
Qed.

Section CodecLemmas.
Context `{O : Outside, F : Fernet, !FernetLaws F, FR : FloatRepr} {X : Type}.
Implicit Types (key : fkey) (s : state X).

(** The token [_pack] makes at time [t] with IV [iv]. *)
Definition token_of key (e : envelope) (t : Z) (iv : bytes) : pystr :=
  fernet_encrypt key t iv (dumps (JObj (packed_payload e))).

Lemma pack_run key e s :
  env_ok e →
  _pack key e s =
    (Ok (token_of key e (o_time s.2) (o_random (EvTime :: s.2) 16)),
     (s.1, EvRandom 16 :: EvTime :: s.2)).
Proof.
  intros Hok%packed_payload_ok. unfold _pack. fold (packed_payload e).
  rewrite encode_utf8_ascii by by apply dumps_ascii.
  unfold decode_ascii, token_of, encrypt. io_run. by rewrite fernet_ascii.
Qed.

(** Packing and opening contact no peer and leave the program's state alone. *)
Lemma _open_keeps key token tag ttl : keeps (X := X) inward (_open key token tag ttl).
Proof. unfold _open, encode_ascii, decrypt. keeps_tac. Qed.

Lemma _pack_keeps key e : keeps (X := X) inward (_pack key e).
Proof. unfold _pack, encrypt. keeps_tac. Qed.

Lemma open_authorize_keeps key token : keeps (X := X) inward (open_authorize key token).
Proof. unfold open_authorize. keeps_tac. apply _open_keeps. Qed.
Lemma open_code_keeps key token : keeps (X := X) inward (open_code key token).
Proof. unfold open_code. keeps_tac. apply _open_keeps. Qed.
Lemma open_refresh_keeps key token : keeps (X := X) inward (open_refresh key token).
Proof. unfold open_refresh. keeps_tac. apply _open_keeps. Qed.
Lemma open_registration_keeps key token : keeps (X := X) inward (open_registration key token).
Proof. unfold open_registration. keeps_tac. apply _open_keeps. Qed.

(** Opening raises no OAuth error: the handlers choose one. *)
Lemma _open_not_oauth key token tag ttl : raises (X := X) not_oauth (_open key token tag ttl).
Proof. unfold _open, encode_ascii, decrypt, time. raises_tac. Qed.

Lemma _pack_not_oauth key e : raises (X := X) not_oauth (_pack key e).
Proof. unfold _pack, encode_utf8, encrypt, time, random, decode_ascii. raises_tac. Qed.

Lemma field_not_oauth d k :
  raises_only not_oauth (str_field d k) ∧ raises_only not_oauth (int_field d k) ∧
  raises_only not_oauth (any_field d k) ∧ raises_only not_oauth (strs_field d k).
Proof.
  unfold str_field, int_field, any_field, strs_field. repeat split; raises_tac.
  apply raises_only_map_res. unfold as_str. raises_tac.
Qed.

Lemma open_not_oauth key token :
  raises (X := X) not_oauth (open_authorize key token) ∧
  raises (X := X) not_oauth (open_code key token) ∧
  raises (X := X) not_oauth (open_refresh key token) ∧
  raises (X := X) not_oauth (open_registration key token).
Proof.
  unfold open_authorize, open_code, open_refresh, open_registration, authorize_of, code_of,
    refresh_of, registration_of, kwargs.
  repeat split; raises_tac; first [apply _open_not_oauth|apply field_not_oauth|done].
Qed.

(** What [_open] does with a token once Fernet has spoken. *)
Lemma open_token key e t iv tag ttl s :
  env_ok e →
  _open key (token_of key e t iv) tag ttl s =
    let s' := match ttl with Some _ => (s.1, EvTime :: s.2) | None => s end in
    match fernet_decrypt key ttl (from_option (λ _, o_time s.2) 0 ttl)
            (token_of key e t iv) with
    | None => (Raise invalid, s')
    | Some m =>
        if decide (m = dumps (JObj (packed_payload e))) then
          if decide (TAG e = tag) then (Ok (read_payload e), s')
          else (Raise (tag_mismatch tag (JStr (TAG e))), s')
        else (_open key (token_of key e t iv) tag ttl s)
    end.
Proof.
  intros Hok%packed_payload_ok. cbv zeta.
  destruct (fernet_decrypt _ _ _ _) as [m|] eqn:Hd; [case_decide; subst; [|done]|].
  all: unfold _open, encode_ascii, decrypt; unfold token_of in *; rewrite fernet_ascii;
    destruct ttl; cbn [from_option] in *; io_run; rewrite Hd; io_run; try done.
  all: rewrite loads_utf8_dumps by done; cbn [sort_json]; io_run.
  all: fold (read_payload e); unfold dict_get_default; rewrite read_tag; cbn [default from_option id];
    by case_decide.
Qed.

Lemma open_token_none key e t iv tag s :
  env_ok e →
  _open key (token_of key e t iv) tag None s =
    if decide (TAG e = tag) then (Ok (read_payload e), s)
    else (Raise (tag_mismatch tag (JStr (TAG e))), s).
Proof.
  intros Hok. rewrite open_token by done. cbn [from_option]. unfold token_of at 1.
  rewrite fernet_no_ttl. by rewrite decide_True.
Qed.

Lemma open_token_ttl key e t iv tag ttl s :
  env_ok e →
  t <= o_time s.2 →
  _open key (token_of key e t iv) tag (Some ttl) s =
    if decide (o_time s.2 <= t + ttl) then
      if decide (TAG e = tag) then (Ok (read_payload e), (s.1, EvTime :: s.2))
      else (Raise (tag_mismatch tag (JStr (TAG e))), (s.1, EvTime :: s.2))
    else (Raise invalid, (s.1, EvTime :: s.2)).
Proof.
  intros Hok Ht. rewrite open_token by done. cbn [from_option]. unfold token_of at 1.
  destruct (decide (_ <= _ + _)).
  - rewrite fernet_fresh by lia. by rewrite decide_True.
  - rewrite fernet_old by lia. done.
Qed.

(** What a sealed token decrypts to, and when. *)
Lemma decrypt_sealed key ttl now t iv m m' :
  fernet_decrypt key ttl now (fernet_encrypt key t iv m) = Some m' →
  m' = m ∧ ∀ n, ttl = Some n → now <= t + n.
Proof.
  intros H. destruct ttl as [n|].
  - pose proof (fernet_ttl _ _ _ _ _ H) as H'. rewrite fernet_no_ttl in H'. injection H' as <-.
    split; [done|]. intros n' [= <-]. destruct (Z.le_gt_cases now (t + n)); [done|].
    by rewrite fernet_old in H.
  - rewrite fernet_no_ttl in H. by injection H as <-.
Qed.

(** A token that opens, whoever wrote it: Fernet vouches for a message, and if
    that is the payload of an envelope, it is one of the expected kind. *)
Lemma open_vouched key token tag ttl s d s' :
  _open key token tag ttl s = (Ok d, s') →
  ∃ m, fernet_decrypt key ttl (from_option (λ _, o_time s.2) 0 ttl) token = Some m ∧
    s' = match ttl with Some _ => (s.1, EvTime :: s.2) | None => s end ∧
    ∀ e, env_ok e → m = dumps (JObj (packed_payload e)) → TAG e = tag ∧ d = read_payload e.
Proof.
  unfold _open, encode_ascii, decrypt. destruct (isascii token); io_run; [|done].
  assert (Hrest : ∀ (o : option bytes) s1, (match o with
      | None => raise invalid
      | Some blob =>
          payload ← try_io (lift (loads_utf8 blob)) is_decode_error (λ _, raise not_json);
          match payload with
          | JObj d =>
              let got := dict_get_default d (u "tag") JNull in
              match got with
              | JStr t => if decide (t = tag) then mret d else raise (tag_mismatch tag got)
              | _ => raise (tag_mismatch tag got)
              end
          | _ => raise (AttributeError (u "object has no attribute 'get'"))
          end
      end : io X (dict json)) s1 = (Ok d, s') →
    ∃ m, o = Some m ∧ s' = s1 ∧
      ∀ e, env_ok e → m = dumps (JObj (packed_payload e)) → TAG e = tag ∧ d = read_payload e).
  { intros [m|] s1; [|done]. intros H. exists m. split; [done|].
    assert (Hs : s' = s1).
    { revert H. io_run. destruct (loads_utf8 m) as [[| | | | | |d']|e]; io_run; try done.
      2: { by destruct (is_decode_error e); io_run. }
      destruct (dict_get_default _ _ _); io_run; try done. by case_decide; intros [= _ <-]. }
    split; [exact Hs|]. intros e Hok%packed_payload_ok ->. revert H. io_run.
    rewrite loads_utf8_dumps by done. cbn [sort_json]. io_run. fold (read_payload e).
    unfold dict_get_default. rewrite read_tag. cbn [default from_option id].
    case_decide; [|done]. by intros [[= <-] _]%pair_eq. }
  destruct ttl as [n|]; io_run; intros H; apply Hrest in H as (m & ? & -> & ?); by exists m.
Qed.

(** The four kinds [open_as] opens. *)
Definition kinds : list pystr := [az_TAG; cd_TAG; rt_TAG; rg_TAG].

(** C12. Whatever is packed can be opened again: every packed envelope is an
    ASCII token that, under the same key, opens as its own kind to the same
    fields -- an authorize envelope for 600 seconds from the moment it was
    packed, the other three at any time -- and opening it touches nothing of
    the program's state. *)
Theorem envelope_roundtrip key e s :
  env_ok e →
  ∃ tok, _pack key e s = (Ok tok, (s.1, EvRandom 16 :: EvTime :: s.2)) ∧
    isascii tok = true ∧
    ∀ s2, (TAG e = az_TAG → o_time s.2 <= o_time s2.2 <= o_time s.2 + 600) →
      ∃ s3, open_as (TAG e) key tok s2 = (Ok (reread e), s3) ∧ s3.1 = s2.1.
Proof.
  intros Hok. eexists. split; [by apply pack_run|]. split; [apply fernet_ascii|].
  intros s2 Ht. unfold open_as, open_authorize, open_code, open_refresh, open_registration.
  destruct e as [e|e|e|e]; cbn [TAG] in *;
    repeat (first [rewrite decide_True by done|rewrite decide_False by done]).
  - specialize (Ht eq_refl). io_run. rewrite open_token_ttl by (done || lia).
    rewrite !decide_True by (done || lia). rewrite authorize_of_read. by eexists.
  - io_run. rewrite open_token_none, decide_True by done. rewrite code_of_read. by eexists.
  - io_run. rewrite open_token_none, decide_True by done.
    pose proof (refresh_of_read e) as Hr. destruct (refresh_of _); simplify_eq/=. by eexists.
  - io_run. rewrite open_token_none, decide_True by done.
    rewrite registration_of_read. by eexists.
Qed.

(** An authorize envelope that is older than 600 seconds is refused, with
    [EnvelopeError], whatever else it holds. *)
Theorem authorize_envelope_expires key e s tok s1 s2 :
  env_ok (Authorize e) →
  pack_authorize key e s = (Ok tok, s1) →
  o_time s.2 + 600 < o_time s2.2 →
  open_authorize key tok s2 = (Raise invalid, (s2.1, EvTime :: s2.2)).
Proof.
  unfold pack_authorize. intros Hok Hp Ht. rewrite pack_run in Hp by done. simplify_eq.
  unfold open_authorize. io_run. rewrite open_token_ttl by (done || lia).
  by rewrite decide_False by lia.
Qed.

(** C15. An envelope never opens as another kind: a code passed as a refresh
    token, a refresh token as a client id, a state as a code and so on raise
    [EnvelopeError] -- at any time, before any field is read. *)
Theorem envelope_kinds_separate key e s tok s1 kind s2 :
  env_ok e →
  _pack key e s = (Ok tok, s1) →
  kind ∈ kinds → kind ≠ TAG e →
  (kind = az_TAG → o_time s.2 <= o_time s2.2) →
  ∃ m s3, open_as kind key tok s2 = (Raise (EnvelopeError m), s3).
Proof.
  intros Hok Hp Hk Hne Ht. rewrite pack_run in Hp by done. injection Hp as <- <-.
  unfold open_as, open_authorize, open_code, open_refresh, open_registration.
  apply elem_of_cons in Hk as [->|Hk].
  { rewrite decide_True by done. io_run. rewrite open_token_ttl by auto.
    rewrite (decide_False (P := TAG e = _)) by done. case_decide; by eexists _, _. }
  rewrite decide_False by (intros ->; revert Hk; by apply (bool_decide_unpack (_ ∉ _))).
  repeat case_decide; io_run; rewrite open_token_none by done;
    (rewrite decide_False; [by eexists _, _|]); try congruence.
  set_solver.
Qed.

(** What Fernet does not vouch for is refused with [EnvelopeError]: a text
    that is not ASCII, and a token that does not decrypt under the key. *)
Theorem open_refuses_forgery key kind tok s :
  (∀ ttl now, fernet_decrypt key ttl now tok = None) →
  ∃ m s', open_as kind key tok s = (Raise (EnvelopeError m), s') ∧ s'.1 = s.1.
Proof.
  intros Hd. assert (Ho : ∀ tag ttl, ∃ m s', _open key tok tag ttl s =
    (Raise (EnvelopeError m), s') ∧ s'.1 = s.1).
  { intros tag ttl. unfold _open, encode_ascii, decrypt. destruct (isascii tok).
    - io_run. destruct ttl; io_run; rewrite Hd; io_run; by eexists _, _.
    - io_run. cbn [is_ValueError]. by eexists _, _. }
  unfold open_as, open_authorize, open_code, open_refresh, open_registration.
  repeat case_decide; io_run;
    match goal with |- context [_open _ _ ?tag ?ttl _] =>
      destruct (Ho tag ttl) as (m & s' & -> & Hs) end; by eexists _, _.
Qed.
End CodecLemmas.

#[export] Hint Resolve _open_keeps _pack_keeps open_authorize_keeps open_code_keeps
  open_refresh_keeps open_registration_keeps : keeps.

(** ** A Fernet to compute with

    An encoding without secrecy that satisfies [FernetLaws]: the key, the time
    and the message in binary digits.  It shows the laws can hold and lets the
    examples run. *)
Module ToyFernet.
Fixpoint enc_pos (p : positive) : bytes :=
  match p with xI p => 49%N :: enc_pos p | xO p => 48%N :: enc_pos p | xH => [50%N] end.
Definition enc_N (n : N) : bytes := match n with N0 => [51%N] | Npos p => enc_pos p end.
Definition enc_Z (z : Z) : bytes :=
  match z with Z0 => [51%N] | Zpos p => enc_pos p | Zneg p => 52%N :: enc_pos p end.

Fixpoint dec_pos (s : bytes) : option (positive * bytes) :=
  match s with
  | c :: r =>
      if (c =? 49)%N then '(p, r) ← dec_pos r; Some (xI p, r)
      else if (c =? 48)%N then '(p, r) ← dec_pos r; Some (xO p, r)
      else if (c =? 50)%N then Some (xH, r) else None
  | [] => None
  end.
Definition dec_N (s : bytes) : option (N * bytes) :=
  match s with
  | c :: r => if (c =? 51)%N then Some (0%N, r) else '(p, r) ← dec_pos s; Some (Npos p, r)
  | [] => None
  end.
Definition dec_Z (s : bytes) : option (Z * bytes) :=
  match s with
  | c :: r =>
      if (c =? 51)%N then Some (0, r)
      else if (c =? 52)%N then '(p, r) ← dec_pos r; Some (Zneg p, r)
      else '(p, r) ← dec_pos s; Some (Zpos p, r)
  | [] => None
  end.
Fixpoint dec_list (fuel : nat) (s : bytes) : option bytes :=
  match fuel, s with
  | _, [] => Some []
  | O, _ => None
  | S f, s => '(n, r) ← dec_N s; l ← dec_list f r; Some (n :: l)
  end.

Definition decode (key tok : bytes) : option (Z * bytes) :=
  k ← (if decide (take (length key) tok = key) then Some (drop (length key) tok) else None);
  '(t, r) ← dec_Z k;
  m ← dec_list (length r) r;
  Some (t, m).

#[export] Instance fernet : Fernet := {|
  fkey := bool;
  fernet_key bs := match bs with [] => None | _ => Some true end;
  fernet_encrypt k t _ m :=
    (if k then [53%N] else [54%N]) ++ enc_Z t ++ (m ≫= enc_N);
  fernet_decrypt k ttl now tok :=
    match decode (if k then [53%N] else [54%N]) tok with
    | Some (t, m) =>
        match ttl with
        | None => Some m
        | Some n => if decide (t <= now <= t + n) then Some m else None
        end
    | None => None
    end
|}.

Lemma dec_enc_pos p r : dec_pos (enc_pos p ++ r) = Some (p, r).
Proof. induction p as [p IH|p IH|]; simpl; [by rewrite IH..|done]. Qed.
Lemma enc_pos_head p : ∃ c r, enc_pos p = c :: r ∧ (48 <= c <= 50)%N.
Proof. destruct p; simpl; eexists _, _; (split; [done|lia]). Qed.
Lemma dec_enc_N n r : dec_N (enc_N n ++ r) = Some (n, r).
Proof.
  destruct n as [|p]; [done|]. pose proof (dec_enc_pos p r) as H. simpl.
  destruct (enc_pos_head p) as (c & t & E & Hc). rewrite E in *. simpl app in *.
  unfold dec_N. replace (c =? 51)%N with false by lia. by rewrite H.
Qed.
Lemma dec_enc_Z z r : dec_Z (enc_Z z ++ r) = Some (z, r).
Proof.
  destruct z as [|p|p]; [done| |].
  - pose proof (dec_enc_pos p r) as H. simpl.
    destruct (enc_pos_head p) as (c & t & E & Hc). rewrite E in *. simpl app in *.
    unfold dec_Z. replace (c =? 51)%N with false by lia.
    replace (c =? 52)%N with false by lia. by rewrite H.
  - simpl. by rewrite dec_enc_pos.
Qed.
Lemma enc_N_length n : (1 <= length (enc_N n))%nat.
Proof. destruct n as [|p]; simpl; [lia|]. destruct p; simpl; lia. Qed.
Lemma dec_enc_list m fuel :
  (length (m ≫= enc_N) <= fuel)%nat → dec_list fuel (m ≫= enc_N) = Some m.
Proof.
  revert fuel. induction m as [|n m IH]; intros fuel; [by destruct fuel|].
  rewrite bind_cons, length_app. intros Hf. pose proof (enc_N_length n).
  destruct fuel as [|fuel]; [lia|].
  destruct (enc_N n ++ _) as [|c r] eqn:E.
  { apply (f_equal length) in E. rewrite length_app in E. simpl in E. lia. }
  change (dec_list (S fuel) (c :: r)) with
    ('(n, r) ← dec_N (c :: r); l ← dec_list fuel r; Some (n :: l)).
  rewrite <-E, dec_enc_N. simpl. by rewrite IH by lia.
Qed.

Lemma decode_encode (k : bool) t iv m :
  decode (if k then [53%N] else [54%N]) (fernet_encrypt k t iv m) = Some (t, m).
Proof.
  unfold decode. cbn [fernet_encrypt fernet].
  rewrite take_app_length, drop_app_length. rewrite decide_True by done. cbn [mbind option_bind].
  rewrite dec_enc_Z. cbn [mbind option_bind]. by rewrite dec_enc_list.
Qed.

Lemma enc_pos_ascii p : isascii (enc_pos p) = true.
Proof. induction p; simpl; [done..|done]. Qed.

#[export] Instance fernet_laws : FernetLaws fernet.
Proof.
  split.
  - intros k t iv m. change (isascii ((if k then [53%N] else [54%N]) ++ enc_Z t ++ (m ≫= enc_N)) = true).
    rewrite !isascii_app, !andb_true_iff. split; [by destruct k|]. split.
    + destruct t as [|p|p]; [done|apply enc_pos_ascii|apply (enc_pos_ascii p)].
    + induction m as [|n m IH]; [done|]. rewrite bind_cons, isascii_app, IH, andb_true_r.
      destruct n; [done|apply enc_pos_ascii].
  - intros k t iv m now. pose proof (decode_encode k t iv m) as H.
    cbn [fernet_decrypt fernet] in *. by rewrite H.
  - intros k t iv m ttl now Ht. pose proof (decode_encode k t iv m) as H.
    cbn [fernet_decrypt fernet] in *. rewrite H. by rewrite decide_True by lia.
  - intros k t iv m ttl now Ht. pose proof (decode_encode k t iv m) as H.
    cbn [fernet_decrypt fernet] in *. rewrite H. by rewrite decide_False by lia.
  - intros k ttl now tok m. cbn [fernet_decrypt fernet].
    destruct (decode _ tok) as [[t m']|]; [|done]. by case_decide.
Qed.
End ToyFernet.

(** ** Examples *)
Module Examples.
#[local] Existing Instance ToyFernet.fernet.
#[local] Existing Instance ToyFernet.fernet_laws.
#[local] Instance no_floats : FloatRepr := id.

Definition sample_authorize : AuthorizeEnvelope := {|
  az_correlation_id := u "c0"; az_client_id := u "https://c.example/id";
  az_redirect_uri := u "https://c.example/cb"; az_state := u "s";
  az_resource := u "https://r.example"; az_client_code_challenge := u "ch";
  az_upstream_verifier := u "v"; az_scope := u "openid"; az_exp := 1600 |}.

Definition sample_refresh : RefreshEnvelope := {|
  rt_resource := u "https://r.example";
  rt_upstream_refresh_token := JObj [(u "b", JInt 1); (u "a", JNull)] |}.

Definition key : fkey := true.
Definition start : state unit := (tt, []).

(** A clock that reads 1000 at the start, and 1601 once it was read. *)
Definition late_world : Outside := {|
  o_time t := match t with [] => 1000 | _ => 1601 end; o_now _ := 0;
  o_monotonic _ := 0; o_random _ n := replicate n 7%N; o_dns _ _ := GaiError;
  o_http _ _ := inl ([], []); o_stream _ _ := inl ([], []);
  o_db _ _ := DbRuns; o_schema _ := None; o_pool _ := None; o_db_now _ := 0; o_db_zone _ := 0 |}.

Lemma sample_authorize_ok : env_ok (Authorize sample_authorize).
Proof. apply json_okb_ok. vm_compute. reflexivity. Qed.
Lemma sample_refresh_ok : env_ok (Refresh sample_refresh).
Proof. apply json_okb_ok. vm_compute. reflexivity. Qed.

Lemma envelope_roundtrip_witness :
  let O := silent_world 1000 in
  ∃ tok s3, open_as (TAG (Refresh sample_refresh)) key tok start
    = (Ok (reread (Refresh sample_refresh)), s3).
Proof.
  intros O.
  destruct (envelope_roundtrip (O := O) key (Refresh sample_refresh) start sample_refresh_ok)
    as (tok & _ & _ & H).
  destruct (H start) as (s3 & Ho & _).
  - intros E. apply (bool_decide_eq_true_2 _) in E. vm_compute in E. discriminate.
  - exists tok, s3. exact Ho.
Defined.

(** The state is refused at 1601, a second after its 600 are over. *)
Lemma authorize_envelope_expires_witness :
  ∃ tok, open_authorize (O := late_world) key tok (tt, [EvTime])
    = (Raise invalid, (tt, [EvTime; EvTime])).
Proof.
  eexists.
  apply (authorize_envelope_expires (O := late_world) key sample_authorize start _
    (tt, [EvRandom 16; EvTime]) (tt, [EvTime])).
  - exact sample_authorize_ok.
  - exact (pack_run (O := late_world) key (Authorize sample_authorize) start sample_authorize_ok).
  - reflexivity.
Defined.

(** The sealed refresh token is no client id. *)
Lemma envelope_kinds_separate_witness :
  ∃ tok m s3, open_as (O := late_world) rg_TAG key tok start = (Raise (EnvelopeError m), s3).
Proof.
  eexists.
  apply (envelope_kinds_separate (O := late_world) key (Refresh sample_refresh) start _
    (tt, [EvRandom 16; EvTime])).
  - exact sample_refresh_ok.
  - exact (pack_run (O := late_world) key (Refresh sample_refresh) start sample_refresh_ok).
  - apply (bool_decide_unpack _). vm_compute. exact I.
  - discriminate.
  - discriminate.
Defined.

(** A made-up token. *)
Lemma open_refuses_forgery_witness :
  let _ := silent_world 1000 in
  ∃ m s', open_as cd_TAG key (u "nonsense") start = (Raise (EnvelopeError m), s')
    ∧ s'.1 = tt.
Proof. intros O. apply open_refuses_forgery. intros [?|] now; reflexivity. Defined.
End Examples.
