(* ===== verification/IpAddr.v ===== *)
(** * IP addresses (the standard library's [ipaddress])

    Parsing of IPv4 and IPv6 addresses, and the six classifications the
    fetcher asks for, as in Python 3.13: an IPv4-mapped IPv6 address is judged
    by the IPv4 address inside it. *)

From S2P Require Import Prelude PyStr Codec.

Local Open Scope N_scope.

(** An address is its integer; a scope id plays no part in what follows. *)
Inductive ip := V4 (n : N) | V6 (n : N).

#[export] Instance ip_eq_dec : EqDecision ip.
Proof. solve_decision. Defined.

Definition not_an_address : exn := ValueError (u "does not appear to be an IPv4 or IPv6 address").

(** ** Parsing *)

Definition parse_octet (s : pystr) : option N :=
  if truthy s && forallb is_ascii_digit s && (length s <=? 3)%nat
     && negb (bool_decide (head s = Some 48) && (1 <? length s)%nat)
  then let n := digits_value ((λ c, c - 48) <$> s) in
       if n <=? 255 then Some n else None
  else None.

Definition parse_v4 (s : pystr) : option N :=
  match split_char 46 s with
  | [a; b; c; d] =>
      a ← parse_octet a; b ← parse_octet b; c ← parse_octet c; d ← parse_octet d;
      Some (from_bytes_be [a; b; c; d])
  | _ => None
  end.

Definition hex_digit_value (c : N) : option N :=
  if is_ascii_digit c then Some (c - 48)
  else if (97 <=? c) && (c <=? 102) then Some (c - 87)
  else if (65 <=? c) && (c <=? 70) then Some (c - 55)
  else None.

Definition parse_hextet (s : pystr) : option N :=
  if truthy s && (length s <=? 4)%nat then
    ds ← mapM hex_digit_value s; Some (fold_left (λ a d, a * 16 + d) ds 0)
  else None.

(** The parts of an address with an IPv4 suffix: its last part becomes two. *)
Definition expand_v4_suffix (parts : list pystr) : option (list (pystr + N)) :=
  match last parts with
  | Some l =>
      if has_char 46 l then
        n ← parse_v4 l;
        Some ((inl <$> take (length parts - 1) parts) ++ [inr (N.shiftr n 16); inr (N.land n 0xFFFF)])
      else Some (inl <$> parts)
  | None => None
  end.

Definition part_value (p : pystr + N) : option N :=
  match p with inl s => parse_hextet s | inr n => Some n end.
Definition part_empty (p : pystr + N) : bool :=
  match p with inl [] => true | _ => false end.

(** The indices strictly inside the list whose part is empty. *)
Definition inner_gaps (parts : list (pystr + N)) : list nat :=
  List.filter (λ i, from_option part_empty false (parts !! i)) (seq 1 (length parts - 2)).

Definition join_hextets (ns : list N) : N := fold_left (λ a h, a * 65536 + h) ns 0.

Definition parse_v6_parts (parts : list (pystr + N)) : option N :=
  let first := from_option part_empty true (head parts) in
  let final := from_option part_empty true (last parts) in
  match inner_gaps parts with
  | [] =>
      if (length parts =? 8)%nat && negb first && negb final
      then join_hextets <$> mapM part_value parts else None
  | [skip] =>
      let hi := (skip - if first then 1 else 0)%nat in
      let lo := (length parts - skip - 1 - if final then 1 else 0)%nat in
      if (first && (0 <? hi)%nat) || (final && (0 <? lo)%nat) || (8 <=? hi + lo)%nat
      then None
      else his ← mapM part_value (take hi parts);
           los ← mapM part_value (drop (length parts - lo) parts);
           Some (join_hextets (his ++ replicate (8 - (hi + lo)) 0 ++ los))
  | _ => None
  end.

Definition parse_v6 (s : pystr) : option N :=
  let '(addr, sep, scope_id) := partition 37 s in
  if has_char 47 s || (sep && (negb (truthy scope_id) || has_char 37 scope_id)) then None
  else
    let parts := split_char 58 addr in
    if (length parts <? 3)%nat then None
    else
      parts ← expand_v4_suffix parts;
      if (9 <? length parts)%nat then None else parse_v6_parts parts.

(** [ipaddress.ip_address]. *)
Definition ip_address (s : pystr) : res ip :=
  match parse_v4 s with
  | Some n => Ok (V4 n)
  | None => match parse_v6 s with Some n => Ok (V6 n) | None => Raise not_an_address end
  end.

(** ** Classification *)

Definition in_net (width : N) (n : N) (net : N * N) : bool :=
  N.shiftr n (width - net.2) =? N.shiftr net.1 (width - net.2).
Definition in_nets (width n : N) (nets : list (N * N)) : bool := existsb (in_net width n) nets.

Definition quad (a b c d : N) : N := from_bytes_be [a; b; c; d].
(** An IPv6 prefix from its leading hextets. *)
Definition hextets (l : list N) : N := join_hextets (take 8 (l ++ replicate 8 0)).

Definition v4_private : list (N * N) :=
  [(quad 0 0 0 0, 8); (quad 10 0 0 0, 8); (quad 127 0 0 0, 8); (quad 169 254 0 0, 16);
   (quad 172 16 0 0, 12); (quad 192 0 0 0, 24); (quad 192 0 0 170, 31); (quad 192 0 2 0, 24);
   (quad 192 168 0 0, 16); (quad 198 18 0 0, 15); (quad 198 51 100 0, 24);
   (quad 203 0 113 0, 24); (quad 240 0 0 0, 4); (quad 255 255 255 255, 32)].
Definition v4_private_exceptions : list (N * N) :=
  [(quad 192 0 0 9, 32); (quad 192 0 0 10, 32)].

Definition v6_private : list (N * N) :=
  [(1, 128); (0, 128); (hextets [0; 0; 0; 0; 0; 0xffff], 96); (hextets [0x64; 0xff9b; 1], 48);
   (hextets [0x100], 64); (hextets [0x2001], 23); (hextets [0x2001; 0xdb8], 32);
   (hextets [0x2002], 16); (hextets [0x3fff], 20); (hextets [0xfc00], 7); (hextets [0xfe80], 10)].
Definition v6_private_exceptions : list (N * N) :=
  [(hextets [0x2001; 1; 0; 0; 0; 0; 0; 1], 128); (hextets [0x2001; 1; 0; 0; 0; 0; 0; 2], 128);
   (hextets [0x2001; 3], 32); (hextets [0x2001; 4; 0x112], 48); (hextets [0x2001; 0x20], 28);
   (hextets [0x2001; 0x30], 28)].
Definition v6_reserved : list (N * N) :=
  [(hextets [0], 8); (hextets [0x100], 8); (hextets [0x200], 7); (hextets [0x400], 6);
   (hextets [0x800], 5); (hextets [0x1000], 4); (hextets [0x4000], 3); (hextets [0x6000], 3);
   (hextets [0x8000], 3); (hextets [0xA000], 3); (hextets [0xC000], 3); (hextets [0xE000], 4);
   (hextets [0xF000], 5); (hextets [0xF800], 6); (hextets [0xFE00], 9)].

Inductive attribute :=
  | is_private | is_loopback | is_link_local | is_reserved | is_multicast | is_unspecified.

Definition v4_is (a : attribute) (n : N) : bool :=
  match a with
  | is_private => in_nets 32 n v4_private && negb (in_nets 32 n v4_private_exceptions)
  | is_loopback => in_net 32 n (quad 127 0 0 0, 8)
  | is_link_local => in_net 32 n (quad 169 254 0 0, 16)
  | is_reserved => in_net 32 n (quad 240 0 0 0, 4)
  | is_multicast => in_net 32 n (quad 224 0 0 0, 4)
  | is_unspecified => n =? 0
  end.

Definition v6_is (a : attribute) (n : N) : bool :=
  match a with
  | is_private => in_nets 128 n v6_private && negb (in_nets 128 n v6_private_exceptions)
  | is_loopback => n =? 1
  | is_link_local => in_net 128 n (hextets [0xfe80], 10)
  | is_reserved => in_nets 128 n v6_reserved
  | is_multicast => in_net 128 n (hextets [0xff00], 8)
  | is_unspecified => n =? 0
  end.

(** [IPv6Address.ipv4_mapped]. *)
Definition ipv4_mapped (n : N) : option N :=
  if N.shiftr n 32 =? 0xFFFF then Some (N.land n 0xFFFFFFFF) else None.

(** [getattr(addr, attr)]. *)
Definition ip_is (a : attribute) (addr : ip) : bool :=
  match addr with
  | V4 n => v4_is a n
  | V6 n => match ipv4_mapped n with Some m => v4_is a m | None => v6_is a n end
  end.

(** ** Ranges *)

Lemma in_net_range width n base len :
  len <= width →
  in_net width n (base, len) = true ↔
  base / 2 ^ (width - len) * 2 ^ (width - len) <= n
    < (base / 2 ^ (width - len) + 1) * 2 ^ (width - len).
Proof.
  intros Hl. unfold in_net. cbn [fst snd]. rewrite !N.shiftr_div_pow2, N.eqb_eq.
  set (p := 2 ^ (width - len)). assert (0 < p) by (apply N.neq_0_lt_0, N.pow_nonzero; lia).
  split.
  - intros <-. pose proof (N.div_mod n p ltac:(lia)). pose proof (N.mod_lt n p ltac:(lia)). lia.
  - intros [H1 H2]. symmetry. apply (N.div_unique n p _ (n - base / p * p)); lia.
Qed.

Lemma in_nets_false width n nets :
  in_nets width n nets = false ↔ Forall (λ net, in_net width n net = false) nets.
Proof.
  unfold in_nets. induction nets as [|net nets IH]; simpl; [by rewrite Forall_nil|].
  rewrite orb_false_iff, Forall_cons. by rewrite IH.
Qed.

(** Addresses as people write them. *)
Example ip_address_samples :
  ip_address (u "127.0.0.1") = Ok (V4 2130706433) ∧
  ip_address (u "010.0.0.1") = Raise not_an_address ∧
  ip_address (u "::1") = Ok (V6 1) ∧
  ip_address (u "::ffff:10.0.0.1") = Ok (V6 (0xFFFF * 2 ^ 32 + quad 10 0 0 1)) ∧
  ip_address (u "2001:db8::8:800:200c:417a") =
    Ok (V6 (hextets [0x2001; 0xdb8; 0; 0; 8; 0x800; 0x200c; 0x417a])) ∧
  ip_address (u "1::2::3") = Raise not_an_address ∧
  ip_address (u "1:2:3:4:5:6:7::") = Ok (V6 (hextets [1; 2; 3; 4; 5; 6; 7; 0])) ∧
  ip_address (u ":1:2:3:4:5:6:7") = Raise not_an_address ∧
  ip_address (u "fe80::1%eth0") = Ok (V6 (hextets [0xfe80; 0; 0; 0; 0; 0; 0; 1])).
Proof. vm_compute. repeat split. Qed.

(** A block, given by its first and last address. *)
Lemma in_net_interval width n base len lo hi :
  len <= width →
  base / 2 ^ (width - len) * 2 ^ (width - len) = lo →
  hi = lo + 2 ^ (width - len) - 1 →
  in_net width n (base, len) = true ↔ lo <= n <= hi.
Proof.
  intros Hl <- ->. rewrite in_net_range by done.
  set (p := 2 ^ (width - len)). assert (0 < p) by (apply N.neq_0_lt_0, N.pow_nonzero; lia). lia.
Qed.

Lemma in_nets_elem width n net nets :
  net ∈ nets → in_net width n net = true → in_nets width n nets = true.
Proof.
  intros Hin H. unfold in_nets. apply existsb_exists. exists net.
  split; [by apply list_elem_of_In|done].
Qed.

Lemma parse_octet_bound s n : parse_octet s = Some n → n < 256.
Proof.
  unfold parse_octet. destruct (_ && _); [|done]. cbv zeta.
  destruct (_ <=? 255) eqn:E; [|done]. intros [= <-]. lia.
Qed.

Lemma parse_v4_bound s n : parse_v4 s = Some n → n < 2 ^ 32.
Proof.
  unfold parse_v4. destruct (split_char 46 s) as [|a [|b [|c [|d [|]]]]]; try done.
  destruct (parse_octet a) eqn:?, (parse_octet b) eqn:?, (parse_octet c) eqn:?,
    (parse_octet d) eqn:?; try done. intros [= <-].
  apply (from_bytes_be_bound [_; _; _; _]). repeat constructor; by eapply parse_octet_bound.
Qed.


Lemma ip_address_v4 s n : ip_address s = Ok (V4 n) → n < 2 ^ 32.
Proof.
  unfold ip_address. destruct (parse_v4 s) as [m|] eqn:E.
  - intros [= <-]. by apply parse_v4_bound in E.
  - by destruct (parse_v6 s).
Qed.

Lemma in_net_host width n base : in_net width n (base, width) = true → n = base.
Proof. unfold in_net. cbn [fst snd]. rewrite N.sub_diag, !N.shiftr_0_r. apply N.eqb_eq. Qed.

(** ** Deciding questions about ranges

    The classifications compare an address with constants and nothing else, so
    a statement about all addresses holds when it holds at the constants. *)

Inductive range_exp :=
  | At_least (c : N)
  | Both (a b : range_exp)
  | Same (a b : range_exp)
  | Never.

Fixpoint holds (e : range_exp) (n : N) : bool :=
  match e with
  | At_least c => c <=? n
  | Both a b => holds a n && holds b n
  | Same a b => eqb (holds a n) (holds b n)
  | Never => false
  end.
Fixpoint cuts (e : range_exp) : list N :=
  match e with
  | At_least c => [c]
  | Both a b | Same a b => cuts a ++ cuts b
  | Never => []
  end.

Definition Not (a : range_exp) : range_exp := Same a Never.
Definition Either (a b : range_exp) : range_exp := Not (Both (Not a) (Not b)).
Definition Within (lo hi : N) : range_exp := Both (At_least lo) (Not (At_least (hi + 1))).
Definition Any (es : list range_exp) : range_exp := foldr Either Never es.

Lemma holds_Not a n : holds (Not a) n = negb (holds a n).
Proof. cbn [Not holds]. by destruct (holds a n). Qed.
Lemma holds_Either a b n : holds (Either a b) n = holds a n || holds b n.
Proof.
  unfold Either. rewrite holds_Not. cbn [holds]. rewrite !holds_Not.
  by destruct (holds a n), (holds b n).
Qed.
Lemma holds_Within lo hi n : holds (Within lo hi) n = (lo <=? n) && (n <=? hi).
Proof. unfold Within. cbn [holds]. rewrite holds_Not. cbn [holds]. lia. Qed.
Lemma holds_Any es n : holds (Any es) n = existsb (λ e, holds e n) es.
Proof. induction es as [|e es IH]; [done|]. cbn [Any foldr existsb]. by rewrite holds_Either, <-IH. Qed.

(** The last cut at or below an address. *)
Lemma last_cut (l : list N) n : ∃ c, c ∈ 0 :: l ∧ ∀ c', c' ∈ l → c' <= n ↔ c' <= c.
Proof.
  cut (∃ c, c ∈ 0 :: l ∧ c <= n ∧ ∀ c', c' ∈ l → c' <= n → c' <= c).
  { intros (c & Hc & Hn & Hl). exists c. split; [done|]. intros c' Hc'. split; [by apply Hl|lia]. }
  induction l as [|a l (c & Hc & Hn & Hl)]; [exists 0; split; [left|split; [lia|by intros ? ?%elem_of_nil]]|].
  destruct (N.le_gt_cases a n), (N.le_gt_cases a c).
  3-4: exists c; split; [set_solver|]; split; [done|]; intros c' [->|?]%elem_of_cons; [lia|auto].
  - exists c. split; [set_solver|]. split; [done|]. intros c' [->|?]%elem_of_cons; auto.
  - exists a. split; [set_solver|]. split; [done|]. intros c' [->|Hc']%elem_of_cons; [lia|].
    intros H'. specialize (Hl c' Hc' H'). lia.
Qed.

Lemma holds_everywhere e : forallb (holds e) (0 :: cuts e) = true → ∀ n, holds e n = true.
Proof.
  rewrite forallb_forall. intros H n. destruct (last_cut (cuts e) n) as (c & Hc & Hl).
  rewrite <-(H c) by by apply list_elem_of_In. clear H Hc. induction e as [k|a IHa b IHb|a IHa b IHb|]; cbn [holds cuts] in *.
  - specialize (Hl k (list_elem_of_here _ _)). lia.
  - rewrite IHa, IHb; set_solver.
  - rewrite IHa, IHb; set_solver.
  - done.
Qed.

Lemma same_everywhere a b : forallb (holds (Same a b)) (0 :: cuts (Same a b)) = true → ∀ n, holds a n = holds b n.
Proof. intros H n. by apply eqb_prop, (holds_everywhere (Same a b)). Qed.

(** A block and a table of blocks. *)
Definition net_exp (width : N) (net : N * N) : range_exp :=
  let p := 2 ^ (width - net.2) in Within (net.1 / p * p) (net.1 / p * p + p - 1).
Definition nets_exp (width : N) (nets : list (N * N)) : range_exp := Any (net_exp width <$> nets).

Lemma in_net_exp width n net : net.2 <= width → in_net width n net = holds (net_exp width net) n.
Proof.
  destruct net as [base len]. cbn [snd]. intros Hl. unfold net_exp. rewrite holds_Within.
  apply eq_true_iff_eq. cbn [fst snd].
  rewrite (in_net_interval width n base len _ _ Hl eq_refl eq_refl). lia.
Qed.
Lemma in_nets_exp width n nets :
  forallb (λ net, net.2 <=? width) nets = true → in_nets width n nets = holds (nets_exp width nets) n.
Proof.
  intros H. unfold in_nets, nets_exp. rewrite holds_Any.
  induction nets as [|net nets IH]; [done|]. cbn [forallb] in H. apply andb_true_iff in H as [H1 H2].
  cbn [existsb fmap list_fmap]. rewrite <-in_net_exp by lia. by rewrite IH.
Qed.

Definition v4_exp (a : attribute) : range_exp :=
  match a with
  | is_private => Both (nets_exp 32 v4_private) (Not (nets_exp 32 v4_private_exceptions))
  | is_loopback => net_exp 32 (quad 127 0 0 0, 8)
  | is_link_local => net_exp 32 (quad 169 254 0 0, 16)
  | is_reserved => net_exp 32 (quad 240 0 0 0, 4)
  | is_multicast => net_exp 32 (quad 224 0 0 0, 4)
  | is_unspecified => Not (At_least 1)
  end.
Definition v6_exp (a : attribute) : range_exp :=
  match a with
  | is_private => Both (nets_exp 128 v6_private) (Not (nets_exp 128 v6_private_exceptions))
  | is_loopback => Within 1 1
  | is_link_local => net_exp 128 (hextets [0xfe80], 10)
  | is_reserved => nets_exp 128 v6_reserved
  | is_multicast => net_exp 128 (hextets [0xff00], 8)
  | is_unspecified => Not (At_least 1)
  end.

Lemma v4_is_exp a n : v4_is a n = holds (v4_exp a) n.
Proof.
  destruct a; cbn [v4_is v4_exp].
  - cbn [holds]. by rewrite holds_Not, !in_nets_exp by reflexivity.
  - by rewrite in_net_exp.
  - by rewrite in_net_exp.
  - by rewrite in_net_exp.
  - by rewrite in_net_exp.
  - rewrite holds_Not. cbn [holds]. lia.
Qed.
Lemma v6_is_exp a n : v6_is a n = holds (v6_exp a) n.
Proof.
  destruct a; cbn [v6_is v6_exp].
  - cbn [holds]. by rewrite holds_Not, !in_nets_exp by reflexivity.
  - rewrite holds_Within. lia.
  - by rewrite in_net_exp.
  - by rewrite in_nets_exp by reflexivity.
  - by rewrite in_net_exp.
  - rewrite holds_Not. cbn [holds]. lia.
Qed.
