(* ===== verification/UrlLib.v ===== *)
(** * URLs (the standard library's [urllib.parse])

    [urlsplit] with its [hostname] and [port] properties, [urlunsplit] and
    [urlencode], as in Python 3.13.  [form_parse] is the decoder of a query
    string on the receiving side; [parse_urlencode] is the round trip. *)

From S2P Require Import Prelude PyStr Codec IpAddr.

Local Open Scope N_scope.

(** ** [urlsplit] *)

Record SplitResult := {
  scheme : pystr;
  netloc : pystr;
  path : pystr;
  query : pystr;
  fragment : pystr
}.

#[export] Instance SplitResult_eq_dec : EqDecision SplitResult.
Proof. solve_decision. Defined.

Definition is_c0_or_space (c : N) : bool := c <=? 32.
Definition is_unsafe (c : N) : bool := (c =? 9) || (c =? 10) || (c =? 13).
Definition is_scheme_char (c : N) : bool :=
  is_ascii_alpha c || is_ascii_digit c || (c =? 43) || (c =? 45) || (c =? 46).

(** What [urlsplit] reads: no leading controls or spaces, no TAB, LF or CR. *)
Definition clean_url (url : pystr) : pystr :=
  List.filter (λ c, negb (is_unsafe c)) (lstrip_by is_c0_or_space url).

(** The scheme, when the text before the first colon is one. *)
Definition split_scheme (url : pystr) : pystr * pystr :=
  match partition 58 url with
  | (c :: s, true, rest) =>
      if is_ascii_alpha c && forallb is_scheme_char (c :: s)
      then (lower (c :: s), rest) else ([], url)
  | _ => ([], url)
  end.

(** Cut before the first [/], [?] or [#]. *)
Definition is_netloc_end (c : N) : bool := (c =? 47) || (c =? 63) || (c =? 35).
Fixpoint span_not (f : N → bool) (s : pystr) : pystr * pystr :=
  match s with
  | [] => ([], [])
  | c :: s' => if f c then ([], s) else let '(a, b) := span_not f s' in (c :: a, b)
  end.

Definition invalid_url : exn := ValueError (u "Invalid IPv6 URL").

(** [re.match(r"\Av[a-fA-F0-9]+\..+\Z", hostname)]; a URL holds no newline here. *)
Definition is_ipvfuture (hostname : pystr) : bool :=
  match hostname with
  | 118 :: r =>
      let '(h, dot, rest) := partition 46 r in
      dot && truthy h && forallb is_hex_digit h && truthy rest
  | _ => false
  end.

Definition check_bracketed_host (hostname : pystr) : res unit :=
  if startswith hostname (u "v") then
    if is_ipvfuture hostname then Ok tt else Raise (ValueError (u "IPvFuture address is invalid"))
  else
    addr ← ip_address hostname;
    match addr with
    | V4 _ => Raise (ValueError (u "An IPv4 address cannot be in brackets"))
    | V6 _ => Ok tt
    end.

Definition check_bracketed_netloc (netloc : pystr) : res unit :=
  let '(_, _, host_port) := rpartition 64 netloc in
  let '(before, have_open_br, bracketed) := partition 91 host_port in
  if have_open_br : bool then
    if truthy before then Raise invalid_url
    else
      let '(hostname, _, port) := partition 93 bracketed in
      if truthy port && negb (startswith port (u ":")) then Raise invalid_url
      else check_bracketed_host hostname
  else
    let '(hostname, _, _) := partition 58 host_port in check_bracketed_host hostname.

(** The code points whose NFKC normal form contains one of [/?#@:]. *)
Definition nfkc_delimiters : list N :=
  [0x2047; 0x2048; 0x2049; 0x2100; 0x2101; 0x2105; 0x2106; 0x2a74; 0xfe13; 0xfe16; 0xfe55;
   0xfe56; 0xfe5f; 0xfe6b; 0xff03; 0xff0f; 0xff1a; 0xff1f; 0xff20].
Definition check_netloc (netloc : pystr) : res unit :=
  if existsb (λ c, existsb (N.eqb c) nfkc_delimiters) netloc
  then Raise (ValueError (u "netloc contains invalid characters under NFKC normalization"))
  else Ok tt.

Definition split_netloc (url : pystr) : res (pystr * pystr) :=
  if startswith url (u "//") then
    let '(netloc, rest) := span_not is_netloc_end (drop 2 url) in
    if xorb (has_char 91 netloc) (has_char 93 netloc) then Raise invalid_url
    else
      _ ← (if has_char 91 netloc then check_bracketed_netloc netloc else Ok tt);
      Ok (netloc, rest)
  else Ok ([], url).

Definition urlsplit (url : pystr) : res SplitResult :=
  let '(scheme, url) := split_scheme (clean_url url) in
  '(netloc, url) ← split_netloc url;
  let '(url, _, fragment) := partition 35 url in
  let '(path, _, query) := partition 63 url in
  _ ← check_netloc netloc;
  Ok {| scheme := scheme; netloc := netloc; path := path; query := query;
        fragment := fragment |}.

(** *** The derived parts *)

(** [SplitResult._hostinfo]: the host and the text of the port. *)
Definition hostinfo (s : SplitResult) : pystr * pystr :=
  let '(_, _, host_port) := rpartition 64 (netloc s) in
  let '(_, have_open_br, bracketed) := partition 91 host_port in
  if have_open_br : bool then
    let '(hostname, _, rest) := partition 93 bracketed in
    let '(_, _, port) := partition 58 rest in (hostname, port)
  else let '(hostname, _, port) := partition 58 host_port in (hostname, port).

Definition hostname (s : SplitResult) : option pystr :=
  match (hostinfo s).1 with
  | [] => None
  | h => let '(host, percent, zone) := partition 37 h in
         Some (lower host ++ (if percent : bool then [37] else []) ++ zone)
  end.

Definition port (s : SplitResult) : res (option Z) :=
  match (hostinfo s).2 with
  | [] => Ok None
  | p =>
      if forallb is_ascii_digit p then
        n ← py_int p;
        if (n <=? 65535)%Z then Ok (Some n) else Raise (ValueError (u "Port out of range 0-65535"))
      else Raise (ValueError (u "Port could not be cast to integer value"))
  end.

(** ** [urlunsplit] *)

Definition uses_netloc : list pystr :=
  [[]; u "ftp"; u "http"; u "gopher"; u "nntp"; u "telnet"; u "imap"; u "wais"; u "file"; u "mms";
   u "https"; u "shttp"; u "snews"; u "prospero"; u "rtsp"; u "rtsps"; u "rtspu"; u "rsync";
   u "svn"; u "svn+ssh"; u "sftp"; u "nfs"; u "git"; u "git+ssh"; u "ws"; u "wss";
   u "itms-services"].

Definition urlunsplit (s : SplitResult) : pystr :=
  let url := path s in
  let url :=
    if truthy (netloc s) then
      [47; 47] ++ netloc s ++ (if truthy url && negb (startswith url [47]) then [47] else []) ++ url
    else if startswith url [47; 47] then [47; 47] ++ url
    else if truthy (scheme s) && bool_decide (scheme s ∈ uses_netloc)
            && (negb (truthy url) || startswith url [47])
    then [47; 47] ++ url
    else url in
  let url := if truthy (scheme s) then scheme s ++ [58] ++ url else url in
  let url := if truthy (query s) then url ++ [63] ++ query s else url in
  if truthy (fragment s) then url ++ [35] ++ fragment s else url.

(** ** [urlencode] *)

Definition is_always_safe (c : N) : bool :=
  is_ascii_alpha c || is_ascii_digit c || (c =? 95) || (c =? 46) || (c =? 45) || (c =? 126).
Definition upper_hex (d : N) : N := if d <? 10 then 48 + d else 55 + d.
Definition quote_byte (b : N) : pystr :=
  if is_always_safe b then [b]
  else if b =? 32 then [43]
  else [37; upper_hex (b / 16); upper_hex (b mod 16)].

(** [quote_plus]: raises for a lone surrogate. *)
Definition quote_plus (s : pystr) : res pystr :=
  bs ← encode_utf8 s; Ok (bs ≫= quote_byte).

Definition quote_pair (kv : pystr * pystr) : res pystr :=
  k ← quote_plus kv.1; v ← quote_plus kv.2; Ok (k ++ [61] ++ v).

Definition urlencode (params : dict pystr) : res pystr :=
  l ← map_res quote_pair params; Ok (join [38] l).

(** ** Reading a query string back *)

Definition unhex (c : N) : option N :=
  if is_ascii_digit c then Some (c - 48)
  else if (65 <=? c) && (c <=? 70) then Some (c - 55)
  else if (97 <=? c) && (c <=? 102) then Some (c - 87)
  else None.

(** Percent-decoding of [application/x-www-form-urlencoded]. *)
Fixpoint form_bytes (s : pystr) : option bytes :=
  match s with
  | [] => Some []
  | c :: r =>
      if c =? 43 then cons 32 <$> form_bytes r
      else if c =? 37 then
        match r with
        | a :: b :: r' => a ← unhex a; b ← unhex b; cons (16 * a + b) <$> form_bytes r'
        | _ => None
        end
      else cons c <$> form_bytes r
  end.
Definition form_decode (s : pystr) : option pystr := bs ← form_bytes s; utf8_decode bs.
Definition form_pair (s : pystr) : option (pystr * pystr) :=
  let '(k, _, v) := partition 61 s in
  k ← form_decode k; v ← form_decode v; Some (k, v).
Definition form_parse (q : pystr) : option (dict pystr) := mapM form_pair (split_char 38 q).

(** ** The round trip *)

Definition is_query_char (c : N) : bool :=
  is_always_safe c || (c =? 43) || (c =? 37).

Lemma unhex_upper d : d < 16 → unhex (upper_hex d) = Some d.
Proof.
  intros Hd. assert (H : forallb (λ d, bool_decide (unhex (upper_hex d) = Some d))
    (N.of_nat <$> seq 0 16) = true) by reflexivity.
  rewrite forallb_forall in H. specialize (H d (elem_of_range d 16 Hd)).
  by apply bool_decide_eq_true in H.
Qed.

Lemma form_bytes_quote b r :
  b < 256 → form_bytes (quote_byte b ++ r) = cons b <$> form_bytes r.
Proof.
  intros Hb. unfold quote_byte. destruct (is_always_safe b) eqn:Hs.
  - unfold is_always_safe, is_ascii_alpha, is_ascii_upper, is_ascii_lower, is_ascii_digit in Hs.
    cbn [app form_bytes]. replace (b =? 43) with false by lia.
    by replace (b =? 37) with false by lia.
  - destruct (b =? 32) eqn:H32; [apply N.eqb_eq in H32; by subst|].
    cbn [app form_bytes]. change (37 =? 43) with false. change (37 =? 37) with true. cbv iota.
    pose proof (N.div_mod b 16 ltac:(lia)) as Hdiv. pose proof (N.mod_lt b 16 ltac:(lia)).
    assert (b / 16 < 16) by (apply N.Div0.div_lt_upper_bound; lia).
    rewrite !unhex_upper by done. cbn [mbind option_bind]. by rewrite <-Hdiv.
Qed.

Lemma form_bytes_quoted bs : bytes_ok bs → form_bytes (bs ≫= quote_byte) = Some bs.
Proof.
  induction 1 as [|b bs Hb Hbs IH]; [done|].
  rewrite bind_cons, form_bytes_quote, IH by done. done.
Qed.

Lemma quote_byte_chars b : b < 256 → forallb is_query_char (quote_byte b) = true.
Proof.
  intros Hb. assert (H : forallb (λ b, forallb is_query_char (quote_byte b))
    (N.of_nat <$> seq 0 256) = true) by (vm_compute; reflexivity).
  rewrite forallb_forall in H. exact (H b (elem_of_range b 256 Hb)).
Qed.

Lemma quoted_chars bs : bytes_ok bs → forallb is_query_char (bs ≫= quote_byte) = true.
Proof.
  induction 1 as [|b bs Hb Hbs IH]; [done|].
  by rewrite bind_cons, forallb_app, quote_byte_chars, IH.
Qed.

Lemma quote_plus_Ok s q :
  quote_plus s = Ok q → form_decode q = Some s ∧ forallb is_query_char q = true.
Proof.
  unfold quote_plus, encode_utf8, form_decode.
  destruct (forallb is_scalar s) eqn:Hs; [|done]. cbn [mbind res_bind]. intros <-%Ok_inj.
  assert (Hb : bytes_ok (s ≫= utf8_encode_char)).
  { rewrite forallb_forall in Hs. unfold bytes_ok. apply Forall_forall.
    intros x (c & Hx & Hc%list_elem_of_In%Hs)%list_elem_of_bind.
    revert x Hx. apply Forall_forall, utf8_encode_char_ok.
    unfold is_scalar in Hc. lia. }
  rewrite form_bytes_quoted by done. cbn [mbind option_bind].
  split; [by apply utf8_roundtrip|by apply quoted_chars].
Qed.

Lemma forallb_notin (f : N → bool) c s : f c = false → forallb f s = true → c ∉ s.
Proof. rewrite forallb_forall. intros Hc Hs Hin%list_elem_of_In%Hs. congruence. Qed.

Lemma split_char_notin c s : c ∉ s → split_char c s = [s].
Proof.
  induction s as [|a s IH]; [done|]. cbn [split_char]. intros H.
  destruct (N.eqb_spec a c); [set_solver|]. by rewrite IH by set_solver.
Qed.

Lemma split_char_app c s t : c ∉ s → split_char c (s ++ c :: t) = s :: split_char c t.
Proof.
  induction s as [|a s IH]; cbn [app split_char]; [by rewrite N.eqb_refl|]. intros H.
  destruct (N.eqb_spec a c); [set_solver|]. by rewrite IH by set_solver.
Qed.

Lemma quote_pair_Ok kv p :
  quote_pair kv = Ok p →
  form_pair p = Some kv ∧ forallb (λ c, is_query_char c || (c =? 61)) p = true.
Proof.
  destruct kv as [k v]. unfold quote_pair. intros H. res_inv. cbn [fst snd] in *.
  repeat match goal with H : quote_plus _ = Ok _ |- _ => apply quote_plus_Ok in H as [??] end.
  split.
  - unfold form_pair. rewrite partition_app by (eapply forallb_notin; [|eassumption]; done).
    by repeat match goal with H : form_decode _ = _ |- _ => rewrite H end.
  - rewrite forallb_app. cbn [forallb]. rewrite !forallb_forall in *.
    apply andb_true_iff; split; [|apply andb_true_iff; split; [done|]];
      rewrite forallb_forall; intros c Hc; apply orb_true_iff; left; auto.
Qed.

(** No query string the program builds contains a delimiter of its own. *)
Lemma urlencode_chars l q :
  urlencode l = Ok q →
  forallb (λ c, is_query_char c || (c =? 61) || (c =? 38)) q = true.
Proof.
  unfold urlencode. intros (ps & Hps%map_res_Ok & <-%Ok_inj)%bind_Ok.
  induction Hps as [|kv p l ps Hp _ IH]; [done|].
  apply quote_pair_Ok in Hp as [_ Hp].
  assert (Hkv : forallb (λ c, is_query_char c || (c =? 61) || (c =? 38)) p = true).
  { rewrite forallb_forall in *. intros c Hc. apply orb_true_iff. left. auto. }
  destruct ps as [|p' ps]; [done|]. cbn [join] in *. rewrite !forallb_app. by rewrite Hkv, IH.
Qed.

(** What [urlencode] writes is read back by any form decoder: the same
    parameters in the same order. *)
(** [urlencode] fails for lone surrogates and for nothing else. *)
Definition encodable (s : pystr) : Prop := forallb is_scalar s = true.
Lemma encodable_app s t : encodable (s ++ t) ↔ encodable s ∧ encodable t.
Proof. unfold encodable. by rewrite forallb_app, andb_true_iff. Qed.
Lemma encodable_ascii s : isascii s = true → encodable s.
Proof. apply forallb_impl. intros c. unfold is_scalar, is_surrogate. simpl. lia. Qed.

Lemma urlencode_iff l :
  (∃ q, urlencode l = Ok q) ↔ Forall (λ kv, encodable kv.1 ∧ encodable kv.2) l.
Proof.
  assert (Hp : ∀ kv, (∃ t, quote_pair kv = Ok t) ↔ encodable kv.1 ∧ encodable kv.2).
  { intros [k v]. unfold quote_pair, quote_plus, encode_utf8, encodable. cbn [fst snd].
    destruct (forallb is_scalar k), (forallb is_scalar v); cbn [mbind res_bind]; split;
      first [by intros [? ?]|done|by eexists]. }
  unfold urlencode. setoid_rewrite bind_Ok. setoid_rewrite map_res_Ok. split.
  - intros (q & ts & Hts & _). clear q. induction Hts as [|kv t l ts H _ IH]; constructor; [|done].
    apply Hp. by exists t.
  - intros H. cut (∃ ts, Forall2 (λ x y, quote_pair x = Ok y) l ts).
    { intros (ts & Hts). by exists (join [38] ts), ts. }
    induction H as [|kv l [t Ht]%Hp _ [ts Hts]]; [by exists []|]. exists (t :: ts). by constructor.
Qed.

Lemma parse_urlencode l q :
  l ≠ [] → urlencode l = Ok q → form_parse q = Some l.
Proof.
  unfold urlencode, form_parse. intros Hne (ps & Hps%map_res_Ok & <-%Ok_inj)%bind_Ok.
  revert Hne. induction Hps as [|kv p l ps Hp Hps IH]; [done|]. intros _.
  apply quote_pair_Ok in Hp as [Hp Hc].
  assert (Hamp : 38 ∉ p) by (eapply forallb_notin; [|exact Hc]; done).
  destruct ps as [|p' ps].
  - cbn [join]. apply Forall2_nil_inv_r in Hps as ->. rewrite split_char_notin by done.
    cbn [mapM]. by rewrite Hp.
  - assert (l ≠ []) by (by destruct l; [apply Forall2_nil_inv_l in Hps|]).
    assert (join [38] (p :: p' :: ps) = p ++ 38 :: join [38] (p' :: ps)) as -> by done.
    rewrite split_char_app by done. cbn [mapM]. rewrite Hp.
    cbn [mbind option_bind]. by rewrite IH.
Qed.

(** [urlsplit] raises nothing but [ValueError]. *)
Definition value_error (e : exn) : Prop := ∃ m, e = ValueError m.

Lemma urlsplit_raises url e : urlsplit url = Raise e → value_error e.
Proof.
  assert (Hh : ∀ h e, check_bracketed_host h = Raise e → value_error e).
  { intros h e'. unfold check_bracketed_host, ip_address. destruct (startswith _ _).
    - destruct (is_ipvfuture h); [done|]. intros [= <-]. by eexists.
    - destruct (parse_v4 h); simpl; [intros [= <-]; by eexists|].
      destruct (parse_v6 h); simpl; [done|]. intros [= <-]. by eexists. }
  assert (Hn : ∀ n e, check_bracketed_netloc n = Raise e → value_error e).
  { intros n e'. unfold check_bracketed_netloc. destruct (rpartition _ _) as [[? ?] hp].
    destruct (partition 91 hp) as [[pre []] br].
    - destruct (truthy pre); [intros [= <-]; by eexists|].
      destruct (partition 93 br) as [[h ?] p].
      destruct (truthy p && _); [intros [= <-]; by eexists|]. apply Hh.
    - destruct (partition 58 hp) as [[h ?] ?]. apply Hh. }
  unfold urlsplit. destruct (split_scheme _) as [sc r]. unfold split_netloc.
  destruct (startswith r _).
  - destruct (span_not _ _) as [n rest]. destruct (xorb _ _); simpl; [intros [= <-]; by eexists|].
    destruct (has_char 91 n).
    + destruct (check_bracketed_netloc n) as [[]|e1] eqn:E; simpl; [|intros [= <-]; eauto].
      destruct (partition 35 rest) as [[a ?] ?], (partition 63 a) as [[? ?] ?].
      unfold check_netloc. destruct (existsb _ _); simpl; [|done]. intros [= <-]. by eexists.
    + simpl. destruct (partition 35 rest) as [[a ?] ?], (partition 63 a) as [[? ?] ?].
      unfold check_netloc. destruct (existsb _ _); simpl; [|done]. intros [= <-]. by eexists.
  - simpl. by destruct (partition 35 r) as [[a ?] ?], (partition 63 a) as [[? ?] ?].
Qed.

Lemma urlsplit_not_oauth url : raises_only not_oauth (urlsplit url).
Proof. intros e H. apply urlsplit_raises in H as [m ->]. done. Qed.
#[export] Hint Resolve urlsplit_not_oauth : raises.

Lemma urlencode_not_oauth params : raises_only not_oauth (urlencode params).
Proof.
  unfold urlencode, quote_pair, quote_plus, encode_utf8. apply raises_only_bind; [|done].
  apply raises_only_map_res. raises_pure.
Qed.
