(* ===== verification/QueryString.v ===== *)
(** * Reading a query string ([urllib.parse.parse_qs])

    The decoder of the standard library, with its default arguments: invalid
    UTF-8 is replaced, blank values are dropped, a malformed escape stands for
    itself.  It never fails.  [parse_qsl_urlencode]: it reads what [urlencode]
    wrote, but for blank values. *)

From S2P Require Import Prelude PyStr Codec UrlLib.

Local Open Scope N_scope.

(** ** [bytes.decode("utf-8", "replace")] *)

Definition replacement : N := 0xFFFD.

(** The second byte of a sequence of three or four: no overlong form, no
    surrogate, nothing past U+10FFFF. *)
Definition second_ok (b0 b1 : N) : bool :=
  if b0 =? 0xE0 then between 0xA0 b1 0xBF
  else if b0 =? 0xED then between 0x80 b1 0x9F
  else if b0 =? 0xF0 then between 0x90 b1 0xBF
  else if b0 =? 0xF4 then between 0x80 b1 0x8F
  else is_cont b1.

(** One replacement for each longest part of a sequence that breaks off. *)
Fixpoint utf8_replace (bs : bytes) : pystr :=
  match bs with
  | [] => []
  | b0 :: r0 =>
      if b0 <? 0x80 then b0 :: utf8_replace r0
      else if between 0xC2 b0 0xDF then
        match r0 with
        | b1 :: r1 =>
            if is_cont b1 then (b0 - 0xC0) * 64 + (b1 - 0x80) :: utf8_replace r1
            else replacement :: utf8_replace r0
        | [] => [replacement]
        end
      else if between 0xE0 b0 0xEF then
        match r0 with
        | b1 :: r1 =>
            if second_ok b0 b1 then
              match r1 with
              | b2 :: r2 =>
                  if is_cont b2
                  then (b0 - 0xE0) * 4096 + (b1 - 0x80) * 64 + (b2 - 0x80) :: utf8_replace r2
                  else replacement :: utf8_replace r1
              | [] => [replacement]
              end
            else replacement :: utf8_replace r0
        | [] => [replacement]
        end
      else if between 0xF0 b0 0xF4 then
        match r0 with
        | b1 :: r1 =>
            if second_ok b0 b1 then
              match r1 with
              | b2 :: r2 =>
                  if is_cont b2 then
                    match r2 with
                    | b3 :: r3 =>
                        if is_cont b3
                        then (b0 - 0xF0) * 262144 + (b1 - 0x80) * 4096
                             + (b2 - 0x80) * 64 + (b3 - 0x80) :: utf8_replace r3
                        else replacement :: utf8_replace r2
                    | [] => [replacement]
                    end
                  else replacement :: utf8_replace r1
              | [] => [replacement]
              end
            else replacement :: utf8_replace r0
        | [] => [replacement]
        end
      else replacement :: utf8_replace r0
  end.

(** ** [unquote_plus] *)

Fixpoint unquote_to_bytes (s : pystr) : bytes :=
  match s with
  | [] => []
  | c :: r =>
      if c =? 37 then
        match r with
        | a :: b :: r' =>
            match unhex a, unhex b with
            | Some x, Some y => 16 * x + y :: unquote_to_bytes r'
            | _, _ => c :: unquote_to_bytes r
            end
        | _ => c :: unquote_to_bytes r
        end
      else c :: unquote_to_bytes r
  end.

(** Each longest ASCII run is decoded by itself; [run] is the one being read,
    backwards. *)
Fixpoint unquote_go (run s : pystr) : pystr :=
  match s with
  | [] => utf8_replace (unquote_to_bytes (rev run))
  | c :: r =>
      if c <? 128 then unquote_go (c :: run) r
      else utf8_replace (unquote_to_bytes (rev run)) ++ c :: unquote_go [] r
  end.
Definition unquote : pystr → pystr := unquote_go [].
Definition unquote_plus (s : pystr) : pystr := unquote (replace_char 43 [32] s).

(** ** [parse_qsl] and [parse_qs] *)

Definition query_field (name_value : pystr) : option (pystr * pystr) :=
  let '(name, _, value) := partition 61 name_value in
  if truthy value then Some (unquote_plus name, unquote_plus value) else None.
Definition parse_qsl (qs : pystr) : list (pystr * pystr) := omap query_field (split_char 38 qs).

Definition add_value (d : dict (list pystr)) (kv : pystr * pystr) : dict (list pystr) :=
  dict_set d kv.1 (default [] (dict_get d kv.1) ++ [kv.2]).
Definition parse_qs (qs : pystr) : dict (list pystr) := foldl add_value [] (parse_qsl qs).

(** ** Lemmas *)

(** Well-formed UTF-8 is decoded as the strict decoder does. *)
Lemma utf8_replace_valid bs t : utf8_decode bs = Some t → utf8_replace bs = t.
Proof.
  revert t. induction bs as [bs IH] using (induction_ltof1 _ (@length N)). unfold ltof in IH.
  assert (Hc : ∀ c r t, (length r < length bs)%nat → cons c <$> utf8_decode r = Some t →
    c :: utf8_replace r = t).
  { intros c r t Hl (t' & E & ->)%fmap_Some. by rewrite (IH _ Hl _ E). }
  destruct bs as [|b0 r0]; intros t; [by intros [= <-]|]. cbn [utf8_decode utf8_replace].
  destruct (b0 <? 128); [apply Hc; simpl; lia|].
  destruct (between 0xC2 b0 0xDF).
  { destruct r0 as [|b1 r1]; [done|]. destruct (is_cont b1); [|done]. apply Hc; simpl; lia. }
  destruct (between 0xE0 b0 0xEF) eqn:H3.
  { destruct r0 as [|b1 [|b2 r2]]; try done. cbv zeta.
    destruct (is_cont b1 && is_cont b2 && _ && _) eqn:Hb; [|done].
    assert (second_ok b0 b1 = true ∧ is_cont b2 = true) as [-> ->].
    { unfold second_ok, is_scalar, is_surrogate, is_cont, between in *. split; [|lia].
      repeat case_match; lia. }
    apply Hc; simpl; lia. }
  destruct (between 0xF0 b0 0xF4) eqn:H4; [|done].
  destruct r0 as [|b1 [|b2 [|b3 r3]]]; try done. cbv zeta.
  destruct (is_cont b1 && is_cont b2 && is_cont b3 && _ && _) eqn:Hb; [|done].
  assert (second_ok b0 b1 = true ∧ is_cont b2 = true ∧ is_cont b3 = true) as (-> & -> & ->).
  { unfold second_ok, is_scalar, is_surrogate, is_cont, between in *. split; [|lia].
    repeat case_match; lia. }
  apply Hc; simpl; lia.
Qed.

Lemma unquote_go_ascii run s :
  isascii s = true → unquote_go run s = utf8_replace (unquote_to_bytes (rev run ++ s)).
Proof.
  revert run. induction s as [|c s IH]; intros run; cbn [isascii forallb unquote_go].
  - by rewrite app_nil_r.
  - intros [-> Hs]%andb_true_iff. rewrite IH by done. cbn [rev]. by rewrite <-app_assoc.
Qed.

Lemma unquote_to_bytes_quote b r :
  b < 256 →
  unquote_to_bytes (replace_char 43 [32] (quote_byte b ++ r)) =
    b :: unquote_to_bytes (replace_char 43 [32] r).
Proof.
  intros Hb. unfold quote_byte, replace_char. rewrite bind_app.
  destruct (is_always_safe b) eqn:Hs.
  - unfold is_always_safe, is_ascii_alpha, is_ascii_upper, is_ascii_lower, is_ascii_digit in Hs.
    rewrite bind_cons. replace (b =? 43) with false by lia. cbn [app mbind list_bind unquote_to_bytes].
    by replace (b =? 37) with false by lia.
  - destruct (b =? 32) eqn:H32; [apply N.eqb_eq in H32; by subst|].
    pose proof (N.div_mod b 16 ltac:(lia)) as Hdiv. pose proof (N.mod_lt b 16 ltac:(lia)).
    assert (Hq : b / 16 < 16) by (apply N.Div0.div_lt_upper_bound; lia).
    assert (Hu : ∀ d, d < 16 → (upper_hex d =? 43) = false).
    { intros d Hd. unfold upper_hex. destruct (d <? 10) eqn:?; lia. }
    rewrite !bind_cons, !Hu by done. cbn [app mbind list_bind].
    change (37 =? 43) with false. cbn [app unquote_to_bytes]. change (37 =? 37) with true. cbv iota.
    rewrite !unhex_upper by done. by rewrite <-Hdiv.
Qed.

Lemma unquote_to_bytes_quoted bs :
  bytes_ok bs → unquote_to_bytes (replace_char 43 [32] (bs ≫= quote_byte)) = bs.
Proof.
  induction 1 as [|b bs Hb Hbs IH]; [done|].
  by rewrite bind_cons, unquote_to_bytes_quote, IH by done.
Qed.

Lemma replace_ascii s : forallb is_query_char s = true → isascii (replace_char 43 [32] s) = true.
Proof.
  unfold replace_char. induction s as [|c s IH]; [done|]. cbn [forallb].
  intros [Hc Hs]%andb_true_iff. rewrite bind_cons, isascii_app, IH by done.
  rewrite andb_true_r. destruct (c =? 43); [done|]. cbn [isascii forallb]. rewrite andb_true_r.
  unfold is_query_char, is_always_safe, is_ascii_alpha, is_ascii_upper, is_ascii_lower, is_ascii_digit in Hc.
  lia.
Qed.

Lemma encode_utf8_bytes s bs :
  encode_utf8 s = Ok bs → bytes_ok bs ∧ utf8_decode bs = Some s.
Proof.
  unfold encode_utf8. destruct (forallb is_scalar s) eqn:Hs; [|done]. intros <-%Ok_inj.
  split; [|by apply utf8_roundtrip]. rewrite forallb_forall in Hs.
  apply Forall_forall. intros x (c & Hx & Hc%list_elem_of_In%Hs)%list_elem_of_bind.
  revert x Hx. apply Forall_forall, utf8_encode_char_ok. unfold is_scalar in Hc. lia.
Qed.

(** [unquote_plus] undoes [quote_plus]; only the empty text is written empty. *)
Lemma unquote_quote s q : quote_plus s = Ok q → unquote_plus q = s ∧ truthy q = truthy s.
Proof.
  intros Hq. pose proof (quote_plus_Ok _ _ Hq) as [Hd Hc]. unfold quote_plus in Hq.
  apply bind_Ok in Hq as (bs & [Hb Hs]%encode_utf8_bytes & <-%Ok_inj). split.
  - unfold unquote_plus, unquote. rewrite unquote_go_ascii by by apply replace_ascii.
    cbn [rev app]. rewrite unquote_to_bytes_quoted by done. by apply utf8_replace_valid.
  - destruct bs as [|b bs]; [by injection Hs as <-|]. rewrite bind_cons.
    destruct s as [|c s].
    + exfalso. destruct (quote_byte b) eqn:E; [|].
      * unfold quote_byte in E. by repeat case_match.
      * apply Forall_inv in Hb. clear -Hs. cbn [utf8_decode] in Hs.
        repeat case_match; try done; apply fmap_Some in Hs as (? & _ & ?); done.
    + unfold quote_byte. by repeat case_match.
Qed.

Lemma query_field_quoted kv p :
  quote_pair kv = Ok p → query_field p = (if truthy kv.2 then Some kv else None) ∧ 38 ∉ p.
Proof.
  intros H. pose proof (quote_pair_Ok _ _ H) as [_ Hc]. split.
  - destruct kv as [k v]. unfold quote_pair in H. cbn [fst snd] in *.
    apply bind_Ok in H as (k' & Hk & (v' & Hv & <-%Ok_inj)%bind_Ok).
    unfold query_field. change (k' ++ [61] ++ v') with (k' ++ 61 :: v'). rewrite partition_app.
    + apply unquote_quote in Hk as [-> _], Hv as [-> ->]. done.
    + apply quote_plus_Ok in Hk as [_ Hk]. eapply forallb_notin; [|exact Hk]. done.
  - eapply forallb_notin; [|exact Hc]. done.
Qed.

(** The fields of a query that [urlencode] wrote, in their order, without the
    blank ones. *)
Lemma parse_qsl_urlencode l q :
  urlencode l = Ok q → parse_qsl q = omap (λ kv, if truthy kv.2 then Some kv else None) l.
Proof.
  unfold urlencode, parse_qsl. intros (ps & Hps%map_res_Ok & <-%Ok_inj)%bind_Ok.
  induction Hps as [|kv p l ps Hp Hps IH]; [done|].
  apply query_field_quoted in Hp as [Hp Hamp]. destruct ps as [|p' ps].
  - cbn [join]. apply Forall2_nil_inv_r in Hps as ->. rewrite split_char_notin by done.
    cbn [omap list_omap]. by rewrite Hp.
  - assert (join [38] (p :: p' :: ps) = p ++ 38 :: join [38] (p' :: ps)) as -> by done.
    rewrite split_char_app by done. cbn [omap list_omap] in *. by rewrite Hp, IH.
Qed.

(** The first value of a key. *)
Definition first_value (d : dict (list pystr)) (k : pystr) : option pystr :=
  vs ← dict_get d k; head vs.

Lemma add_value_first d kv k :
  first_value (add_value d kv) k =
    match first_value d k with
    | Some v => Some v
    | None => if decide (kv.1 = k) then
                match dict_get d k with Some (_ :: _) => None | _ => Some kv.2 end
              else None
    end.
Proof.
  unfold first_value, add_value. destruct (decide (kv.1 = k)) as [<-|Hne].
  - rewrite dict_get_set_eq. destruct (dict_get d kv.1) as [[|v vs]|]; done.
  - rewrite dict_get_set_ne by done. by destruct (dict_get d k) as [[|v vs]|].
Qed.

(** [parse_qs(q)[k][0]] is the first field named [k]. *)
Lemma parse_qs_first q k : first_value (parse_qs q) k = dict_get (parse_qsl q) k.
Proof.
  unfold parse_qs. generalize (parse_qsl q) as l. intros l.
  assert (H : ∀ d, first_value (foldl add_value d l) k =
    match dict_get d k with
    | Some (v :: _) => Some v
    | _ => dict_get l k
    end).
  { induction l as [|kv l IH]; intros d; cbn [foldl dict_get].
    - unfold first_value. by destruct (dict_get d k) as [[|v vs]|].
    - rewrite IH. unfold add_value. destruct kv as [k' v']. cbn [fst snd].
      destruct (decide (k = k')) as [<-|Hne].
      + rewrite dict_get_set_eq. by destruct (dict_get d k) as [[|v vs]|].
      + by rewrite dict_get_set_ne. }
  rewrite H. done.
Qed.

Lemma dict_get_nonblank l k :
  NoDup l.*1 →
  dict_get (omap (λ kv : pystr * pystr, if truthy kv.2 then Some kv else None) l) k =
    match dict_get l k with Some v => if truthy v then Some v else None | None => None end.
Proof.
  induction l as [|[k' v] l IH]; [done|]. intros [Hni Hnd]%NoDup_cons.
  cbn [omap list_omap dict_get fst snd]. specialize (IH Hnd).
  destruct (truthy v) eqn:Hv; cbn [dict_get]; case_decide; subst; rewrite ?Hv; try done.
  rewrite IH. apply dict_get_None in Hni. cbn [fst] in Hni. by rewrite Hni.
Qed.

Example query_samples :
  parse_qsl (u "code=a%20b+c&state=&x&&iss=https%3A%2F%2Fh&bad=%zz&u=%C3%A9%ff") =
    [(u "code", u "a b c"); (u "iss", u "https://h"); (u "bad", u "%zz");
     (u "u", [0xE9; 0xFFFD])] ∧
  utf8_replace [0xE2; 0x82; 0x41; 0xF0; 0x9F; 0x98; 0xED; 0xA0; 0x80] =
    [0xFFFD; 0x41; 0xFFFD; 0xFFFD; 0xFFFD; 0xFFFD].
Proof. vm_compute. done. Qed.
