(* ===== verification/RedirectUri.v ===== *)
(** * The redirect-URI policy ([redirect_uri.py])

    [accept_registered], the registration-time rule of RFC 8252, and
    [uri_matches_registration], the comparison at [/authorize].

    [accept_registered_text] says what an accepted URI looks like as a text,
    [uri_matches_spec] when two URIs match, and [matched_uri_is_accepted] that
    nothing but a policy-conforming URI ever matches an accepted one. *)

From S2P Require Import Prelude PyStr Codec IpAddr UrlLib.

Local Open Scope N_scope.

Definition loopback_literals : list pystr := [u "127.0.0.1"; u "::1"].
Definition loopback_name : pystr := u "localhost".

Definition _is_loopback_host (hostname : option pystr) : bool :=
  match hostname with
  | Some h => bool_decide (h ∈ loopback_literals) || bool_decide (h = loopback_name)
  | None => false
  end.

Definition _is_loopback_http (split : SplitResult) : bool :=
  bool_decide (scheme split = u "http") && _is_loopback_host (hostname split).

Definition refused (uri : pystr) (why : pystr) : exn :=
  RedirectUriRefused (u "redirect_uri " ++ repr uri ++ why).

Definition accept_registered (uri : pystr) : res unit :=
  split ← urlsplit uri;
  if truthy (fragment split) then
    Raise (refused uri (u " must not carry a fragment"))
  else if has_char 64 (netloc split) then
    Raise (refused uri (u " must not carry a userinfo component"))
  else match hostname split with
  | None => Raise (refused uri (u " has no host"))
  | Some h =>
      if bool_decide (scheme split = u "https") then Ok tt
      else if bool_decide (scheme split = u "http") then
        if _is_loopback_host (Some h) then Ok tt
        else Raise (refused uri
          (u " must use https (http is permitted only for the loopback hosts 127.0.0.1, [::1] and localhost)"))
      else Raise (refused uri (u " must use https or a loopback http scheme"))
  end.

Definition uri_matches_registration (requested registered : pystr) : res bool :=
  if decide (requested = registered) then Ok true
  else
    r ← urlsplit requested;
    s ← urlsplit registered;
    if negb (_is_loopback_http r) || negb (_is_loopback_http s) then Ok false
    else if truthy (fragment r) || truthy (fragment s) then Ok false
    else if has_char 64 (netloc r) || has_char 64 (netloc s) then Ok false
    else Ok (bool_decide (hostname r = hostname s) && bool_decide (path r = path s)
             && bool_decide (query r = query s)).

(** ** Lemmas *)

Lemma truthy_false s : truthy s = false ↔ s = [].
Proof. by destruct s. Qed.

Lemma lower_nil s : lower s = [] → s = [].
Proof.
  destruct s as [|c s]; [done|]. unfold lower. rewrite bind_cons. unfold lower_char.
  repeat case_match; done.
Qed.

(** A host is never the empty string. *)
Lemma hostname_nonempty s h : hostname s = Some h → h ≠ [].
Proof.
  unfold hostname. destruct (hostinfo s).1 as [|c h']; [done|].
  destruct (partition 37 (c :: h')) as [[host pc] zone] eqn:E. intros [= <-].
  destruct host as [|x host].
  - destruct pc; [done|]. cbn [partition] in E.
    destruct (c =? 37); [done|]. destruct (partition 37 h') as [[??]?]. done.
  - intros [?%lower_nil _]%app_nil. done.
Qed.

Lemma loopback_host_spec h :
  _is_loopback_host (Some h) = true ↔ h = u "127.0.0.1" ∨ h = u "::1" ∨ h = u "localhost".
Proof.
  unfold _is_loopback_host, loopback_literals, loopback_name.
  rewrite orb_true_iff, !bool_decide_eq_true. set_solver.
Qed.

(** The policy on the parts of a URI. *)
Definition policy (s : SplitResult) : Prop :=
  fragment s = [] ∧ 64 ∉ netloc s ∧
  ∃ h, hostname s = Some h ∧
    (scheme s = u "https" ∨ scheme s = u "http" ∧ _is_loopback_host (Some h) = true).

Lemma loopback_policy s :
  _is_loopback_http s = true → fragment s = [] → 64 ∉ netloc s → policy s.
Proof.
  unfold _is_loopback_http. intros H Hf Ha. bool_hyps. split; [done|]. split; [done|].
  destruct (hostname s) as [h|] eqn:Hh; [|done]. exists h. split; [done|]. by right.
Qed.

Lemma accept_registered_raises uri e :
  accept_registered uri = Raise e → (∃ m, e = RedirectUriRefused m) ∨ value_error e.
Proof.
  unfold accept_registered. destruct (urlsplit uri) as [s|e'] eqn:E.
  - cbn [mbind res_bind]. unfold refused. intros H. left.
    repeat first [case_match|case_bool_decide]; try done; injection H as <-; by eexists.
  - intros [= <-]. right. by eapply urlsplit_raises.
Qed.

Lemma uri_matches_raises requested registered e :
  uri_matches_registration requested registered = Raise e → value_error e.
Proof.
  unfold uri_matches_registration. case_decide; [done|].
  destruct (urlsplit requested) eqn:E1; [|intros [= <-]; by eapply urlsplit_raises].
  destruct (urlsplit registered) eqn:E2; [|intros [= <-]; by eapply urlsplit_raises].
  cbn [mbind res_bind]. by repeat case_match.
Qed.

Lemma accept_registered_iff uri :
  accept_registered uri = Ok tt ↔ ∃ s, urlsplit uri = Ok s ∧ policy s.
Proof.
  unfold accept_registered, policy. rewrite bind_Ok. apply exist_proper. intros s.
  apply and_iff_compat_l. rewrite <-has_char_false, <-truthy_false.
  destruct (truthy _); [split; [done|by intros (? & _)]|].
  destruct (has_char _ _); [split; [done|by intros (_ & ? & _)]|].
  destruct (hostname s) as [h|]; [|split; [done|by intros (_ & _ & ? & ? & _)]].
  case_bool_decide; [split; [eauto 10|done]|].
  case_bool_decide; [|split; [done|by intros (_ & _ & ? & _ & [?|[? ?]])]].
  destruct (_is_loopback_host (Some h)) eqn:Hl.
  - split; [intros _|done]. split; [done|]. split; [done|]. eauto 10.
  - split; [done|]. intros (_ & _ & h' & [= <-] & [?|[_ ?]]); congruence.
Qed.

(** The cut points of [urlsplit]: reassembling the parts gives the text. *)
Lemma partition_join c s b f t :
  partition c s = (b, f, t) →
  s = b ++ (if f : bool then c :: t else []) ∧ c ∉ b ∧ (f = false → t = []).
Proof.
  revert b f t. induction s as [|a s IH]; intros b f t; cbn [partition].
  - intros [= <- <- <-]. set_solver.
  - destruct (N.eqb_spec a c) as [->|Hne].
    + intros [= <- <- <-]. split; [done|]. set_solver.
    + destruct (partition c s) as [[b' f'] t'] eqn:E. intros [= <- <- <-].
      destruct (IH _ _ _ eq_refl) as (-> & ? & ?). split; [done|]. set_solver.
Qed.

Lemma span_not_join f s a b :
  span_not f s = (a, b) →
  s = a ++ b ∧ Forall (λ c, f c = false) a ∧ (∀ c, head b = Some c → f c = true).
Proof.
  revert a b. induction s as [|c s IH]; intros a b; cbn [span_not].
  - intros [= <- <-]. split; [done|]. split; [constructor|done].
  - destruct (f c) eqn:Hf.
    + intros [= <- <-]. split; [done|]. split; [constructor|]. by intros ? [= <-].
    + destruct (span_not f s) as [a' b'] eqn:E. intros [= <- <-].
      destruct (IH _ _ eq_refl) as (-> & ? & ?). split; [done|]. split; [by constructor|done].
Qed.

(** *** From the parts back to the text *)

Lemma hostinfo_no_netloc s : netloc s = [] → hostname s = None.
Proof. unfold hostname, hostinfo. intros ->. done. Qed.

(** A URI with a scheme and a host was written [scheme://netloc] and a rest. *)
Lemma urlsplit_text uri s :
  urlsplit uri = Ok s → hostname s ≠ None → scheme s ≠ [] →
  ∃ sch rest,
    clean_url uri = sch ++ u "://" ++ netloc s ++ rest ∧ lower sch = scheme s ∧
    Forall (λ c, is_netloc_end c = false) (netloc s) ∧
    (∀ c, head rest = Some c → is_netloc_end c = true) ∧
    (fragment s = [] → ∃ r, 35 ∉ r ∧ (rest = r ∨ rest = r ++ [35])) ∧
    (has_char 91 (netloc s) = true → check_bracketed_netloc (netloc s) = Ok tt) ∧
    has_char 91 (netloc s) = has_char 93 (netloc s).
Proof.
  unfold urlsplit. intros Hs Hhost Hsch.
  destruct (split_scheme (clean_url uri)) as [sch url] eqn:Esch.
  apply bind_Ok in Hs as ([net rest] & Hnet & Hs).
  destruct (partition 35 rest) as [[url' fh] frag] eqn:Efrag.
  destruct (partition 63 url') as [[p qh] q] eqn:Eq.
  apply bind_Ok in Hs as (_ & _ & <-%Ok_inj). cbn [scheme netloc fragment] in *.
  assert (net ≠ []) as Hne by (intros ->; by apply Hhost, hostinfo_no_netloc).
  assert (∃ sch', clean_url uri = sch' ++ 58 :: url ∧ lower sch' = sch) as (sch' & Eu & Hlow).
  { unfold split_scheme in Esch.
    destruct (partition 58 (clean_url uri)) as [[b f] t] eqn:E.
    apply partition_join in E as (E & _).
    destruct b as [|c b], f; simplify_eq/=.
    destruct (is_ascii_alpha c && _); simplify_eq. by exists (c :: b). }
  assert (∃ t, url = 47 :: 47 :: t ∧ span_not is_netloc_end t = (net, rest) ∧
    (has_char 91 net = true → check_bracketed_netloc net = Ok tt) ∧
    has_char 91 net = has_char 93 net) as (t & -> & Ht & Hb).
  { unfold split_netloc in Hnet. destruct (startswith url (u "//")) eqn:Est; [|by simplify_eq].
    apply startswith_spec in Est as (t & ->). exists t. split; [done|].
    cbn [drop app u] in Hnet. change (drop 2 (u "//" ++ t)) with t in Hnet.
    destruct (span_not is_netloc_end t) as [n r].
    destruct (xorb _ _) eqn:Hx; [done|]. apply bind_Ok in Hnet as ([] & Hb & [= <- <-]%Ok_inj).
    split; [done|]. split; [intros H91; by rewrite H91 in Hb|by destruct (has_char 91 n), (has_char 93 n)]. }
  apply span_not_join in Ht as (-> & Hall & Hhead).
  exists sch', rest. split; [by rewrite Eu|]. split; [done|]. split; [done|]. split; [done|].
  split; [|done]. intros ->. apply partition_join in Efrag as (-> & ? & _).
  exists url'. split; [done|]. destruct fh; [by right|left; by rewrite app_nil_r].
Qed.

(** A tail that can follow the host in an authority: nothing, or a port. *)
Definition port_tail (t : pystr) : Prop := t = [] ∨ head t = Some 58.

Lemma hostinfo_text s :
  64 ∉ netloc s →
  (has_char 91 (netloc s) = true → check_bracketed_netloc (netloc s) = Ok tt) →
  has_char 91 (netloc s) = has_char 93 (netloc s) →
  ∃ tail, port_tail tail ∧
    (netloc s = (hostinfo s).1 ++ tail ∨ netloc s = [91] ++ (hostinfo s).1 ++ [93] ++ tail).
Proof.
  intros Hat Hbr Hxor. unfold hostinfo. rewrite rpartition_notin by done.
  destruct (partition 91 (netloc s)) as [[before br] inner] eqn:E91.
  destruct br.
  - assert (has_char 91 (netloc s) = true) as H91.
    { apply partition_join in E91 as (-> & _). rewrite has_char_app. cbn. by rewrite orb_true_r. }
    specialize (Hbr H91). unfold check_bracketed_netloc in Hbr.
    rewrite rpartition_notin, E91 in Hbr by done.
    destruct before as [|]; [|done]. cbn [truthy] in Hbr.
    destruct (partition 93 inner) as [[host br] rest] eqn:E93.
    destruct (partition 58 rest) as [[p1 c] p2]. cbn [fst].
    apply partition_join in E91 as (E & _). cbn [app] in E.
    assert (br = true) as ->.
    { destruct br; [done|]. exfalso. apply partition_join in E93 as (Ei & Hni & Hr).
      specialize (Hr eq_refl). subst rest. rewrite app_nil_r in Ei. subst inner.
      rewrite Hxor, E in H91. apply has_char_spec in H91. set_solver. }
    apply partition_join in E93 as (-> & _).
    exists rest. split; [|right; by rewrite E].
    destruct rest as [|c' rest]; [by left|right]. cbn [truthy andb startswith] in Hbr.
    destruct (negb _) eqn:Hs; [done|]. apply negb_false_iff, startswith_spec in Hs as (? & [= ->]).
    done.
  - destruct (partition 58 (netloc s)) as [[host c] p] eqn:E58. cbn [fst].
    apply partition_join in E58 as (E & _). exists (if c then 58 :: p else []).
    split; [destruct c; [by right|by left]|by left].
Qed.

Lemma hostname_no_zone s h :
  hostname s = Some h → 37 ∉ h → lower (hostinfo s).1 = h.
Proof.
  unfold hostname. destruct (hostinfo s).1 as [|c h']; [done|].
  destruct (partition 37 (c :: h')) as [[host pc] zone] eqn:E. intros [= <-] Hni.
  apply partition_join in E as (-> & _ & Hz).
  destruct pc; [set_solver|]. rewrite Hz by done. cbn [app]. by rewrite !app_nil_r.
Qed.

(** ** Properties *)

(** An authority that stays on the device: a loopback host in any case, in
    brackets when it is the IPv6 one, and perhaps a port. *)
Definition loopback_authority (net : pystr) : Prop :=
  ∃ host tail, port_tail tail ∧
    (net = host ++ tail ∨ net = [91] ++ host ++ [93] ++ tail) ∧
    (lower host = u "127.0.0.1" ∨ lower host = u "::1" ∨ lower host = u "localhost").

(** What an accepted redirect URI looks like, read as a text (without the
    white space [urlsplit] ignores): a scheme, [://], a non-empty authority
    without userinfo and a rest; the scheme is [https], or [http] with a
    loopback authority; the rest carries no fragment but possibly a final
    empty one. *)
Theorem accept_registered_text uri :
  accept_registered uri = Ok tt →
  ∃ sch net rest, clean_url uri = sch ++ u "://" ++ net ++ rest ∧
    (lower sch = u "https" ∨ lower sch = u "http" ∧ loopback_authority net) ∧
    net ≠ [] ∧ 64 ∉ net ∧
    Forall (λ c, is_netloc_end c = false) net ∧
    (∀ c, head rest = Some c → is_netloc_end c = true) ∧
    ∃ r, 35 ∉ r ∧ (rest = r ∨ rest = r ++ [35]).
Proof.
  intros (s & Hs & Hfr & Hat & h & Hh & Hsch)%accept_registered_iff.
  assert (scheme s ≠ []) as Hne by (intros E; rewrite E in Hsch; by destruct Hsch as [|[]]).
  destruct (urlsplit_text uri s Hs ltac:(by rewrite Hh) Hne)
    as (sch & rest & E & Hlow & Hall & Hhd & Hf & Hbr & Hx).
  exists sch, (netloc s), rest. split; [done|]. rewrite Hlow. split; [|split; [|eauto 10]].
  - destruct Hsch as [?|[? Hl]]; [by left|right]. split; [done|].
    destruct (hostinfo_text s Hat Hbr Hx) as (tail & Ht & Hn).
    exists (hostinfo s).1, tail. split; [done|]. split; [done|].
    apply loopback_host_spec in Hl. rewrite (hostname_no_zone s h); [done|done|].
    destruct Hl as [->|[->| ->]]; by apply (bool_decide_unpack (_ ∉ _)).
  - intros E0. by rewrite (hostinfo_no_netloc _ E0) in Hh.
Qed.

Lemma accept_registered_text_witness :
  ∃ sch net rest, clean_url (u "http://[::1]:8080/cb") = sch ++ u "://" ++ net ++ rest ∧
    (lower sch = u "https" ∨ lower sch = u "http" ∧ loopback_authority net).
Proof.
  destruct (accept_registered_text (u "http://[::1]:8080/cb") eq_refl)
    as (sch & net & rest & E & H & _). exists sch, net, rest. split; [exact E|exact H].
Defined.

(** C18. When a requested URI matches a registered one: they are the same text,
    or both are loopback [http] URIs without userinfo or fragment that agree
    on host, path and query -- so that only the port may differ. *)
Theorem uri_matches_spec requested registered :
  uri_matches_registration requested registered = Ok true ↔
  requested = registered ∨
  ∃ r s, urlsplit requested = Ok r ∧ urlsplit registered = Ok s ∧
    policy r ∧ policy s ∧ scheme r = u "http" ∧ scheme s = u "http" ∧
    hostname r = hostname s ∧ path r = path s ∧ query r = query s.
Proof.
  unfold uri_matches_registration. destruct (decide (requested = registered)) as [->|Hne].
  { split; [by left|done]. }
  split.
  - intros (r & Hr & (s & Hs & H)%bind_Ok)%bind_Ok. right. exists r, s.
    destruct (negb _ || negb _) eqn:E1; [done|]. destruct (truthy _ || truthy _) eqn:E2; [done|].
    destruct (has_char _ _ || has_char _ _) eqn:E3; [done|]. apply Ok_inj in H.
    bool_hyps. split; [done|]. split; [done|].
    split; [|split]; [apply loopback_policy; [done|by apply truthy_false|by apply has_char_false]..|].
    unfold _is_loopback_http in *. by bool_hyps.
  - intros [?|(r & s & -> & -> & Hr & Hs & Er & Es & Hh & Hp & Hq)]; [done|].
    cbn [mbind res_bind]. unfold _is_loopback_http.
    destruct Hr as (Hfr & Har & hr & Hhr & [Hsr|[_ Hlr]]); [by rewrite Er in Hsr|].
    destruct Hs as (Hfs & Has & hs & Hhs & [Hss|[_ Hls]]); [by rewrite Es in Hss|].
    apply has_char_false in Har, Has.
    rewrite Er, Es, Hhr, Hhs, Hlr, Hls, Hfr, Hfs, Har, Has, Hp, Hq in *. simplify_eq.
    by rewrite !bool_decide_true.
Qed.

Lemma matched_accepted requested registered :
  accept_registered registered = Ok tt →
  uri_matches_registration requested registered = Ok true →
  accept_registered requested = Ok tt.
Proof.
  unfold uri_matches_registration. intros Hacc Hm. rewrite accept_registered_iff in *.
  destruct (decide (requested = registered)) as [->|Hne]; [done|].
  apply bind_Ok in Hm as (r & Hr & (s & Hs & H)%bind_Ok). exists r. split; [done|].
  destruct (negb _ || negb _) eqn:E1; [done|]. destruct (truthy _ || truthy _) eqn:E2; [done|].
  destruct (has_char _ _ || has_char _ _) eqn:E3; [done|].
  bool_hyps. apply loopback_policy; [done|by apply truthy_false|by apply has_char_false].
Qed.

(** Nothing but a policy-conforming URI ever matches an accepted one: the
    match does not widen what registration admitted. *)
Theorem matched_uri_is_accepted requested registered :
  accept_registered registered = Ok tt →
  uri_matches_registration requested registered = Ok true →
  accept_registered requested = Ok tt.
Proof. apply matched_accepted. Qed.

Lemma matched_uri_is_accepted_witness :
  accept_registered (u "http://localhost:51004/cb?x=1") = Ok tt.
Proof.
  apply (matched_uri_is_accepted (u "http://localhost:51004/cb?x=1")
    (u "http://localhost/cb?x=1")); vm_compute; reflexivity.
Defined.

(** The rule on the edges the source names. *)
Example redirect_samples :
  accept_registered (u "https://app.example/cb") = Ok tt ∧
  accept_registered (u "http://foo.localhost/cb") =
    Raise (refused (u "http://foo.localhost/cb")
      (u " must use https (http is permitted only for the loopback hosts 127.0.0.1, [::1] and localhost)")) ∧
  is_Ok (accept_registered (u "https://user@app.example/cb")) = false ∧
  is_Ok (accept_registered (u "https://app.example/cb#f")) = false ∧
  is_Ok (accept_registered (u "myapp:/cb")) = false ∧
  uri_matches_registration (u "http://127.0.0.1:9/a") (u "http://127.0.0.1/a") = Ok true ∧
  uri_matches_registration (u "http://127.0.0.1:9/b") (u "http://127.0.0.1/a") = Ok false ∧
  uri_matches_registration (u "https://h:9/a") (u "https://h/a") = Ok false ∧
  uri_matches_registration (u "http://localhost/a") (u "http://127.0.0.1/a") = Ok false.
Proof. vm_compute. repeat split. Qed.

(** A URI with an unbalanced bracket is not refused but escapes as the
    [ValueError] of [urlsplit]. *)
Example redirect_bracket_escapes :
  accept_registered (u "https://[") = Raise invalid_url ∧
  uri_matches_registration (u "https://[") (u "https://h/a") = Raise invalid_url.
Proof. vm_compute. repeat split. Qed.
