(* ===== verification/Cache.v ===== *)
(** * The document cache ([cache.py])

    [TtlCache] over the clock it is given, [choose_ttl] and its helpers.
    Clock readings are microseconds, lifetimes seconds.  The lock makes each
    operation atomic, so a run is a sequence of operations.

    [cache_refines_log] is the contract: whatever was done before, [get]
    returns what the latest [put] for the key stored, while it is fresh. *)

From S2P Require Import Prelude PyStr.

(** ** [TtlCache] *)

Record entry (T : Type) := Entry { value : T; expires_at : Z }.
Arguments Entry {T} value expires_at.
Arguments value {T} e.
Arguments expires_at {T} e.

Definition seconds (n : Z) : Z := n * 1000000.

Section TtlCache.
Context {T : Type}.
Implicit Types (c : dict (entry T)) (key : pystr).

(** [TtlCache.get] at clock reading [now]: the value and the cache after. *)
Definition cache_get c (now : Z) key : option T * dict (entry T) :=
  match dict_get c key with
  | None => (None, c)
  | Some e => if expires_at e <=? now then (None, dict_pop c key) else (Some (value e), c)
  end.

Definition cache_put c (now : Z) key (v : T) (ttl_seconds : Z) : dict (entry T) :=
  if ttl_seconds <=? 0 then c
  else dict_set c key (Entry v (now + seconds ttl_seconds)).

Definition cache_invalidate c key : dict (entry T) := dict_pop c key.
Definition cache_clear c : dict (entry T) := [].
Definition cache_len c : nat := length c.
End TtlCache.

(** ** [choose_ttl] *)

Fixpoint max_age_of (directives : list pystr) : option Z :=
  match directives with
  | [] => None
  | raw :: rest =>
      let directive := strip raw in
      if negb (startswith directive (u "max-age")) then max_age_of rest
      else
        let '(_, _, rhs) := partition 61 directive in
        match py_int (strip_by (N.eqb dquote) (strip rhs)) with
        | Ok n => Some n
        | Raise _ => None
        end
  end.
Definition _extract_max_age (cache_control_lower : pystr) : option Z :=
  max_age_of (split_char 44 cache_control_lower).

Definition _base_from_directive (cache_control_lower : pystr) (default_ttl : option Z)
    (min_ttl : Z) : Z :=
  match _extract_max_age cache_control_lower with
  | Some n => n
  | None =>
      if contains cache_control_lower (u "no-store") || contains cache_control_lower (u "no-cache")
      then min_ttl else default min_ttl default_ttl
  end.

Definition choose_ttl (cache_control : option pystr) (min_ttl max_ttl : Z)
    (default_ttl : option Z) : Z :=
  let base := match cache_control with
    | None => default min_ttl default_ttl
    | Some h => _base_from_directive (lower h) default_ttl min_ttl
    end in
  Z.max min_ttl (Z.min base max_ttl).

(** ** The cache against its log *)

Inductive cache_op (T : Type) :=
  | OpGet (key : pystr)
  | OpPut (key : pystr) (v : T) (ttl_seconds : Z)
  | OpInvalidate (key : pystr)
  | OpClear.
Arguments OpGet {T} key.
Arguments OpPut {T} key v ttl_seconds.
Arguments OpInvalidate {T} key.
Arguments OpClear {T}.

Section Log.
Context {T : Type}.
Implicit Types (c : dict (entry T)) (key : pystr).

Definition cache_step c (now : Z) (op : cache_op T) : dict (entry T) :=
  match op with
  | OpGet k => (cache_get c now k).2
  | OpPut k v ttl => cache_put c now k v ttl
  | OpInvalidate k => cache_invalidate c k
  | OpClear => cache_clear c
  end.

(** The cache after a log of timed operations, newest first. *)
Fixpoint cache_run (log : list (Z * cache_op T)) : dict (entry T) :=
  match log with
  | [] => []
  | (t, op) :: log' => cache_step (cache_run log') t op
  end.

(** What the log says of a key: the latest value put and not withdrawn, with
    its deadline. *)
Fixpoint latest (key : pystr) (log : list (Z * cache_op T)) : option (T * Z) :=
  match log with
  | [] => None
  | (t, OpPut k v ttl) :: log' =>
      if decide (k = key ∧ 0 < ttl) then Some (v, t + seconds ttl) else latest key log'
  | (_, OpInvalidate k) :: log' => if decide (k = key) then None else latest key log'
  | (_, OpClear) :: _ => None
  | (_, OpGet _) :: log' => latest key log'
  end.

Lemma cache_step_wf c t op : dict_wf c → dict_wf (cache_step c t op).
Proof.
  intros Hc. destruct op as [k|k v ttl|k|]; simpl.
  - unfold cache_get. repeat case_match; simplify_eq/=; auto with py.
  - unfold cache_put. case_match; auto with py.
  - unfold cache_invalidate. auto with py.
  - apply NoDup_nil_2.
Qed.

Lemma cache_run_wf log : dict_wf (cache_run log).
Proof.
  induction log as [|[t op] log IH]; [apply NoDup_nil_2|]. by apply cache_step_wf.
Qed.

(** Every entry is what the log says, and only stale ones may be missing. *)
Lemma cache_run_latest log now key :
  Forall (λ x, x.1 <= now) log →
  match dict_get (cache_run log) key with
  | Some e => latest key log = Some (value e, expires_at e)
  | None => ∀ v d, latest key log = Some (v, d) → d <= now
  end.
Proof.
  induction log as [|[t op] log IH]; [done|]. intros [Ht Hlog]%Forall_cons.
  specialize (IH Hlog). pose proof (cache_run_wf log) as Hwf. simpl in Ht.
  destruct op as [k|k v ttl|k|]; cbn [cache_run cache_step latest].
  - unfold cache_get. destruct (dict_get (cache_run log) k) as [e|] eqn:Ek; [|done].
    destruct (expires_at e <=? t) eqn:Ee; [|done]. cbn [snd].
    destruct (decide (k = key)) as [->|]; [|by rewrite dict_get_pop_ne].
    rewrite dict_get_pop_eq by done. rewrite Ek in IH. intros v d. rewrite IH.
    intros [= <- <-]. lia.
  - unfold cache_put. destruct (ttl <=? 0) eqn:Et; [by rewrite decide_False by (intros [??]; lia)|].
    destruct (decide (k = key)) as [->|].
    + rewrite dict_get_set_eq, decide_True by (split; [done|lia]). done.
    + rewrite dict_get_set_ne by done. by rewrite decide_False by naive_solver.
  - unfold cache_invalidate. destruct (decide (k = key)) as [->|];
      [by rewrite dict_get_pop_eq|by rewrite dict_get_pop_ne].
  - done.
Qed.

(** C27. The contract of the cache: after any sequence of operations made with
    a clock that does not go back, a lookup returns the value the latest [put]
    of that key stored, as long as its lifetime is not over -- and nothing
    else: not a value that was invalidated, cleared or replaced, nor an expired
    one. *)
Theorem cache_refines_log log now key :
  Forall (λ x, x.1 <= now) log →
  (cache_get (cache_run log) now key).1 =
    match latest key log with
    | Some (v, d) => if decide (now < d) then Some v else None
    | None => None
    end.
Proof.
  intros H%(cache_run_latest _ _ key). unfold cache_get.
  destruct (dict_get (cache_run log) key) as [e|].
  - rewrite H. destruct (expires_at e <=? now) eqn:E; cbn [fst];
      [by rewrite decide_False by lia|by rewrite decide_True by lia].
  - destruct (latest key log) as [[v d]|]; [|done]. specialize (H _ _ eq_refl).
    by rewrite decide_False by lia.
Qed.
End Log.

(** Put for 300 seconds at 0, looked up just before and at the deadline. *)
Lemma cache_refines_log_witness :
  (cache_get (cache_run [(0, OpPut (u "k") 7%Z 300)]) (seconds 300 - 1) (u "k")).1 = Some 7%Z ∧
  (cache_get (cache_run [(0, OpPut (u "k") 7%Z 300)]) (seconds 300) (u "k")).1 = None.
Proof.
  split.
  - rewrite cache_refines_log; [vm_compute; reflexivity|].
    constructor; [vm_compute; discriminate|constructor].
  - rewrite cache_refines_log; [vm_compute; reflexivity|].
    constructor; [vm_compute; discriminate|constructor].
Defined.

(** The chosen lifetime stays inside the configured bounds, whatever the
    peer's header says: no header pins a document for longer than the maximum
    or forces a fetch per request. *)
Theorem choose_ttl_bounds header min_ttl max_ttl dflt :
  min_ttl <= max_ttl →
  min_ttl <= choose_ttl header min_ttl max_ttl dflt <= max_ttl.
Proof. intros H. unfold choose_ttl. destruct header; lia. Qed.

Lemma choose_ttl_bounds_witness :
  choose_ttl (Some (u "max-age=99999999999")) 300 86400 None <= 86400.
Proof. apply (choose_ttl_bounds (Some (u "max-age=99999999999")) 300 86400 None). lia. Defined.

(** A [max-age] is honoured even next to [no-store]: the minimum is not forced. *)
Theorem no_store_with_max_age :
  choose_ttl (Some (u "no-store, max-age=7200")) 300 86400 None = 7200 ∧
  choose_ttl (Some (u "no-store")) 300 86400 None = 300 ∧
  choose_ttl (Some (u "public, Max-Age = '60'")) 300 86400 (Some 600) = 600 ∧
  choose_ttl None 300 86400 None = 300.
Proof. vm_compute. repeat split. Qed.
