(* ===== verification/Uuid.v ===== *)
(** * UUIDs (the standard library's [uuid])

    [uuid4] from sixteen random bytes, [str], and the constructor from a text,
    which accepts more than the canonical form: braces, a [urn:] prefix, and
    whatever [int(hex, 16)] reads.

    [parse_str_uuid] is the round trip. *)

From S2P Require Import Prelude PyStr Codec Json World.

Local Open Scope N_scope.

(** ** [uuid.uuid4] and [str] *)

(** Clear the variant and version bits, then set them. *)
Definition set_version4 (n : N) : N :=
  let n := N.lor (N.ldiff n (N.shiftl 0xc000 48)) (N.shiftl 0x8000 48) in
  N.lor (N.ldiff n (N.shiftl 0xf000 64)) (N.shiftl 4 76).

Definition uuid4 `{Outside} {X} : io X N :=
  bs ← random 16; mret (set_version4 (from_bytes_be bs)).

Definition uuid_hex (n : N) : pystr := hex_fixed 32 n.
Definition dashed (hex : pystr) : pystr :=
  take 8 hex ++ [45] ++ take 4 (drop 8 hex) ++ [45] ++ take 4 (drop 12 hex) ++ [45]
    ++ take 4 (drop 16 hex) ++ [45] ++ drop 20 hex.
Definition str_uuid (n : N) : pystr := dashed (uuid_hex n).

(** ** [uuid.UUID(text)] *)

(** [s.replace(p, "")]; the fuel is the length of the text. *)
Fixpoint remove_str (fuel : nat) (p s : pystr) : pystr :=
  match fuel, s with
  | S f, c :: s' =>
      if startswith s p then remove_str f p (drop (length p) s) else c :: remove_str f p s'
  | _, _ => s
  end.
Definition remove_all (p s : pystr) : pystr := remove_str (length s) p s.

(** A digit of base 16, in any script. *)
Definition base16_value (c : N) : option N :=
  match decimal_value c with
  | Some d => Some d
  | None => if (97 <=? c) && (c <=? 102) then Some (c - 87)
            else if (65 <=? c) && (c <=? 70) then Some (c - 55) else None
  end.
(** Digits with single underscores between them. *)
Fixpoint base16_digits (prev : bool) (s : pystr) : option (list N) :=
  match s with
  | [] => if prev then Some [] else None
  | c :: s' =>
      if c =? 95 then (if prev then base16_digits false s' else None)
      else d ← base16_value c; ds ← base16_digits true s'; Some (d :: ds)
  end.
Definition hex_digits_value (ds : list N) : N := fold_left (λ a d, a * 16 + d) ds 0.

(** [int(s, 16)]: white space, a sign, a [0x] prefix and then digits. *)
Definition int_base16 (s : pystr) : option Z :=
  let t := strip s in
  let '(neg, t) := match t with
    | c :: r => if c =? 45 then (true, r) else if c =? 43 then (false, r) else (false, t)
    | [] => (false, t) end in
  let ds := match t with
    | z :: x :: r =>
        if (bool_decide (decimal_value z = Some 0)) && ((x =? 120) || (x =? 88))
        then base16_digits true r ≫= (λ l, match l with [] => None | _ => Some l end)
        else base16_digits false t
    | _ => base16_digits false t end in
  (λ l, let v := Z.of_N (hex_digits_value l) in if neg : bool then (- v)%Z else v) <$> ds.

Definition badly_formed : exn := ValueError (u "badly formed hexadecimal UUID string").

Definition parse_uuid (text : pystr) : res N :=
  let hex := remove_all (u "uuid:") (remove_all (u "urn:") text) in
  let hex := List.filter (λ c, negb (c =? 45)) (strip_by (λ c, (c =? 123) || (c =? 125)) hex) in
  if negb (length hex =? 32)%nat then Raise badly_formed
  else match int_base16 hex with
  | Some z => if (0 <=? z)%Z then Ok (Z.to_N z)
              else Raise (ValueError (u "int is out of range (need a 128-bit value)"))
  | None => Raise (ValueError (u "invalid literal for int() with base 16"))
  end.

(** ** The round trip *)

Lemma hex_fixed_length w n : length (hex_fixed w n) = w.
Proof.
  revert n. induction w as [|w IH]; intros n; simpl; [done|].
  rewrite length_app, IH. simpl. lia.
Qed.

Definition is_lower_hex (c : N) : bool := is_ascii_digit c || ((97 <=? c) && (c <=? 102)).

Lemma hex_char_lower d : d < 16 → is_lower_hex (hex_char d) = true.
Proof.
  intros Hd. unfold is_lower_hex, hex_char, is_ascii_digit.
  destruct (N.ltb_spec d 10); lia.
Qed.

Lemma hex_fixed_lower w n : forallb is_lower_hex (hex_fixed w n) = true.
Proof.
  revert n. induction w as [|w IH]; intros n; cbn [hex_fixed]; [done|].
  rewrite forallb_app, IH. cbn [forallb]. rewrite hex_char_lower; [done|].
  apply N.mod_lt. lia.
Qed.

Lemma base16_hex_char d : d < 16 → base16_value (hex_char d) = Some d.
Proof.
  intros Hd. assert (H : forallb (λ d, bool_decide (base16_value (hex_char d) = Some d))
    (N.of_nat <$> seq 0 16) = true) by (vm_compute; reflexivity).
  rewrite forallb_forall in H. specialize (H d (elem_of_range d 16 Hd)).
  by apply bool_decide_eq_true in H.
Qed.

Lemma base16_fixed w n p :
  n < 16 ^ N.of_nat w → (p = true ∨ w ≠ 0%nat) →
  ∃ ds, base16_digits p (hex_fixed w n) = Some ds ∧ hex_digits_value ds = n.
Proof.
  assert (Happ : ∀ s d p, forallb is_lower_hex s = true → d < 16 →
    ∀ ds, (s = [] ∨ base16_digits p s = Some ds) → (s = [] → ds = []) →
    base16_digits p (s ++ [hex_char d]) = Some (ds ++ [d])).
  { intros s d. induction s as [|c s IH]; intros p' Hs Hd ds Hds Hnil; cbn [app base16_digits].
    - rewrite (Hnil eq_refl), base16_hex_char by done.
      replace (hex_char d =? 95) with false; [done|].
      pose proof (hex_char_lower d Hd). unfold is_lower_hex, is_ascii_digit in *. lia.
    - cbn [forallb] in Hs. apply andb_true_iff in Hs as [Hc Hs].
      destruct Hds as [|Hds]; [done|]. cbn [base16_digits] in Hds.
      replace (c =? 95) with false in * by (unfold is_lower_hex, is_ascii_digit in Hc; lia).
      destruct (base16_value c) as [x|]; [|done]. cbn [mbind option_bind] in *.
      destruct (base16_digits true s) as [es|] eqn:Es; [|done]. cbn [mbind option_bind] in *.
      injection Hds as <-. rewrite (IH true Hs Hd es); [done|by right|].
      intros ->. by simplify_eq/=. }
  revert n p. induction w as [|w IH]; intros n p Hn Hp.
  { destruct Hp as [->|]; [|done]. exists []. split; [done|]. simpl in *. unfold hex_digits_value. simpl. lia. }
  cbn [hex_fixed]. rewrite Nat2N.inj_succ, N.pow_succ_r' in Hn.
  assert (Hd : n mod 16 < 16) by (apply N.mod_lt; lia).
  assert (Hq : n / 16 < 16 ^ N.of_nat w) by (apply N.Div0.div_lt_upper_bound; lia).
  destruct (IH (n / 16) true Hq (or_introl eq_refl)) as (ds & Hds & Hv).
  assert (Hfirst : hex_fixed w (n / 16) = [] ∨ base16_digits p (hex_fixed w (n / 16)) = Some ds).
  { destruct p; [by right|]. destruct (hex_fixed w (n / 16)) as [|c s] eqn:E; [by left|right].
    pose proof (hex_fixed_lower w (n / 16)) as Hl. rewrite E in Hl. cbn [forallb] in Hl.
    cbn [base16_digits] in *.
    replace (c =? 95) with false in * by (unfold is_lower_hex, is_ascii_digit in Hl; lia). done. }
  exists (ds ++ [n mod 16]). split.
  - apply Happ; [apply hex_fixed_lower|done|done|].
    intros E. rewrite E in Hds. by simplify_eq/=.
  - unfold hex_digits_value in *. rewrite fold_left_app, Hv. cbn [fold_left].
    rewrite N.mul_comm. symmetry. apply N.div_mod. lia.
Qed.

Lemma remove_str_absent f p s c :
  head p = Some c → c ∉ s → remove_str f p s = s.
Proof.
  intros Hp. revert s. induction f as [|f IH]; intros s Hs; [done|].
  destruct s as [|a s]; [done|]. cbn [remove_str].
  destruct p as [|c' p]; [done|]. simplify_eq/=.
  destruct (N.eqb_spec c a); [set_solver|]. cbn [andb]. rewrite IH; [done|set_solver].
Qed.

Definition is_dash (c : N) : bool := c =? 45.

Lemma filter_dash s :
  forallb is_lower_hex s = true → List.filter (λ c, negb (is_dash c)) s = s.
Proof.
  induction s as [|c s IH]; [done|]. cbn [forallb List.filter].
  intros [Hc Hs]%andb_true_iff. unfold is_dash at 1.
  replace (c =? 45) with false by (unfold is_lower_hex, is_ascii_digit in Hc; lia).
  cbn [negb]. by rewrite IH.
Qed.

Lemma dashed_chars h :
  forallb is_lower_hex h = true → forallb (λ c, is_lower_hex c || is_dash c) (dashed h) = true.
Proof.
  intros H. assert (Hh : forallb (λ c, is_lower_hex c || is_dash c) h = true).
  { eapply forallb_impl; [|exact H]. intros c Hc. simpl in *. by rewrite Hc. }
  unfold dashed. rewrite !forallb_app. cbn [forallb].
  rewrite !forallb_take by (try apply forallb_drop; done). by rewrite forallb_drop.
Qed.

Lemma dashed_undashed h :
  forallb is_lower_hex h = true → List.filter (λ c, negb (is_dash c)) (dashed h) = h.
Proof.
  intros H. unfold dashed. rewrite !List.filter_app. cbn [List.filter].
  change (is_dash 45) with true. cbn [negb app].
  rewrite !filter_dash by (try apply forallb_take; try apply forallb_drop; done).
  change (drop 12 h) with (drop (8 + 4) h). change (drop 16 h) with (drop (8 + 4 + 4) h).
  change (drop 20 h) with (drop (8 + 4 + 4 + 4) h).
  by rewrite <-!drop_drop, !take_drop.
Qed.

(** Reading back what [str] writes. *)
Lemma parse_str_uuid n : n < 2 ^ 128 → parse_uuid (str_uuid n) = Ok n.
Proof.
  intros Hn. pose proof (dashed_chars _ (hex_fixed_lower 32 n)) as Hc.
  change (dashed (hex_fixed 32 n)) with (str_uuid n) in Hc.
  assert (Hni : ∀ c, is_lower_hex c || is_dash c = false → c ∉ str_uuid n).
  { intros c E Hin%list_elem_of_In. rewrite forallb_forall in Hc. apply Hc in Hin. congruence. }
  unfold parse_uuid, remove_all.
  rewrite (remove_str_absent _ (u "urn:") _ 117) by (done || by apply Hni).
  rewrite (remove_str_absent _ (u "uuid:") _ 117) by (done || by apply Hni).
  rewrite strip_by_none.
  2: { eapply forallb_impl; [|exact Hc]. intros c E. unfold is_lower_hex, is_ascii_digit, is_dash in E. simpl. lia. }
  change (List.filter _ (str_uuid n)) with (List.filter (λ c, negb (is_dash c)) (str_uuid n)).
  unfold str_uuid. rewrite dashed_undashed by apply hex_fixed_lower. unfold uuid_hex. rewrite hex_fixed_length. cbn [Nat.eqb negb].
  pose proof (hex_fixed_lower 32 n) as Hl.
  destruct (base16_fixed 32 n false Hn ltac:(by right)) as (ds & Hds & Hv).
  assert (Hint : int_base16 (hex_fixed 32 n) = Some (Z.of_N n)).
  { unfold int_base16, strip. rewrite strip_by_none.
    2: { eapply forallb_impl; [|exact Hl]. intros c E. unfold is_lower_hex, is_ascii_digit in E. unfold isspace. simpl. lia. }
    pose proof (hex_fixed_length 32 n) as Hlen.
    destruct (hex_fixed 32 n) as [|c [|x r]]; [done|done|].
    cbn [forallb] in Hl. apply andb_true_iff in Hl as [Hc0 [Hx _]%andb_true_iff].
    unfold is_lower_hex, is_ascii_digit in Hc0, Hx.
    replace (c =? 45) with false by lia. replace (c =? 43) with false by lia.
    replace ((x =? 120) || (x =? 88)) with false by lia. rewrite andb_false_r, Hds.
    simpl. by rewrite Hv. }
  rewrite Hint. replace (0 <=? Z.of_N n)%Z with true by lia. by rewrite N2Z.id.
Qed.

(** ** What is random in a version 4 UUID *)

Definition is_version_bit (i : N) : bool := (i =? 62) || (i =? 63) || ((76 <=? i) && (i <=? 79)).

(** The bits of a constant below 2 ^ 128. *)
Lemma constant_bits c f :
  N.log2 c < 128 → (∀ i, 128 <= i → f i = false) →
  forallb (λ i, eqb (N.testbit c i) (f i)) (N.of_nat <$> seq 0 128) = true →
  ∀ i, N.testbit c i = f i.
Proof.
  intros Hc Hf H i. destruct (N.le_gt_cases 128 i).
  - rewrite N.bits_above_log2 by lia. by rewrite Hf.
  - rewrite forallb_forall in H. apply eqb_prop, H. apply list_elem_of_In, list_elem_of_fmap.
    exists (N.to_nat i). split; [by rewrite N2Nat.id|]. apply elem_of_seq. lia.
Qed.

(** Two bits say the variant, four the version; the others are the random ones. *)
Lemma set_version4_bits n i :
  N.testbit (set_version4 n) i =
    if is_version_bit i then (i =? 63) || (i =? 78) else N.testbit n i.
Proof.
  unfold set_version4. rewrite N.lor_spec, N.ldiff_spec, N.lor_spec, N.ldiff_spec.
  rewrite (constant_bits (N.shiftl 0xc000 48) (λ i, (i =? 62) || (i =? 63))),
    (constant_bits (N.shiftl 0x8000 48) (λ i, i =? 63)),
    (constant_bits (N.shiftl 0xf000 64) (λ i, (76 <=? i) && (i <=? 79))),
    (constant_bits (N.shiftl 4 76) (λ i, i =? 78)) by (done || (intros; lia) || (vm_compute; reflexivity)).
  unfold is_version_bit. destruct ((i =? 62) || _ || _) eqn:E, (N.testbit n i); lia.
Qed.

Lemma bits_bound n w : (∀ i, w <= i → N.testbit n i = false) → n < 2 ^ w.
Proof.
  intros H. destruct (N.eq_dec n 0) as [->|Hn]; [apply N.neq_0_lt_0, N.pow_nonzero; lia|].
  apply N.log2_lt_pow2; [lia|]. destruct (N.le_gt_cases w (N.log2 n)) as [Hl|]; [|done].
  specialize (H _ Hl). by rewrite N.bit_log2 in H.
Qed.

Lemma set_version4_bound n : n < 2 ^ 128 → set_version4 n < 2 ^ 128.
Proof.
  intros Hn. apply bits_bound. intros i Hi. rewrite set_version4_bits. unfold is_version_bit.
  replace ((i =? 62) || (i =? 63) || ((76 <=? i) && (i <=? 79))) with false by lia.
  destruct (N.eq_dec n 0) as [->|]; [apply N.bits_0|]. apply N.bits_above_log2.
  apply N.log2_lt_pow2 in Hn; lia.
Qed.

(** A fresh id reads back to the bytes that were drawn, but for six bits. *)
Lemma fresh_uuid bs :
  bytes_ok bs → length bs = 16%nat →
  ∃ id, parse_uuid (str_uuid (set_version4 (from_bytes_be bs))) = Ok id ∧
    ∀ i, is_version_bit i = false → N.testbit id i = N.testbit (from_bytes_be bs) i.
Proof.
  intros Hb Hl. exists (set_version4 (from_bytes_be bs)). split.
  - apply parse_str_uuid, set_version4_bound. pose proof (from_bytes_be_bound bs Hb) as H.
    rewrite Hl in H. exact H.
  - intros i Hi. by rewrite set_version4_bits, Hi.
Qed.
