(* ===== verification/Assertion.v ===== *)
(** * Signed assertions ([assertion.py])

    [SigningKey], [AssertionSigner] and the JWKS.  RSA and the PEM reader are
    the [cryptography] package's: the class [Rsa]; [RsaLaws] says only that a
    signature is a byte string.

    [assertion_says] reads an assertion back; [jwk_determines_modulus] that
    the published key is the whole key. *)

From S2P Require Import Prelude PyStr Codec Json World UrlLib Uuid.

Definition MAX_ASSERTION_LIFETIME : Z := 60.

(** ** [cryptography.hazmat] *)
Class Rsa := {
  rsa_private : Type;
  (* None: ValueError or TypeError; Some None: a key of another kind *)
  load_pem_private_key : bytes → option (option rsa_private);
  rsa_key_size : rsa_private → Z;
  rsa_n : rsa_private → N;
  rsa_e : rsa_private → N;
  rsa_sign : rsa_private → bytes → bytes       (* PKCS1v15, SHA-256 *)
}.
Class RsaLaws (R : Rsa) : Prop := {
  rsa_sign_ok k m : bytes_ok (rsa_sign k m)
}.

Section Signer.
Context `{R : Rsa}.

Record SigningKey := { kid : pystr; private_key : rsa_private }.

Definition from_pem (k : pystr) (pem : bytes) : res SigningKey :=
  match load_pem_private_key pem with
  | None => Raise (SigningKeyError (u "signing key " ++ repr k
                     ++ u " is not an unencrypted PEM private key"))
  | Some None => Raise (SigningKeyError (u "signing key " ++ repr k ++ u " is not an RSA key"))
  | Some (Some key) =>
      if rsa_key_size key <? 2048
      then Raise (SigningKeyError (u "signing key " ++ repr k ++ u " is shorter than 2048 bits"))
      else Ok {| kid := k; private_key := key |}
  end.

(** [n.to_bytes((n.bit_length() + 7) // 8, "big")], then base64url. *)
Definition b64u_uint (n : N) : pystr :=
  b64url (to_bytes_be (N.to_nat ((N.size n + 7) / 8)) n).

Definition public_jwk (k : SigningKey) : json := JObj
  [(u "kty", JStr (u "RSA")); (u "use", JStr (u "sig")); (u "alg", JStr (u "RS256"));
   (u "kid", JStr (kid k)); (u "n", JStr (b64u_uint (rsa_n (private_key k))));
   (u "e", JStr (b64u_uint (rsa_e (private_key k))))].

Record AssertionSigner := {
  signer_issuer : pystr;
  signer_keys : list SigningKey;
  active_kid : pystr
}.

(** The constructor, with the check of [__post_init__]. *)
Definition new_signer (issuer : pystr) (keys : list SigningKey) (active : pystr)
    : res AssertionSigner :=
  if existsb (λ k, bool_decide (kid k = active)) keys
  then Ok {| signer_issuer := issuer; signer_keys := keys; active_kid := active |}
  else Raise (SigningKeyError (u "active signing key " ++ repr active ++ u " is not configured")).

Definition jwks (signer : AssertionSigner) : json :=
  JObj [(u "keys", JArr (public_jwk <$> signer_keys signer))].

Definition jwt_header (k : SigningKey) : json := JObj
  [(u "alg", JStr (u "RS256")); (u "typ", JStr (u "JWT")); (u "kid", JStr (kid k))].
Definition jwt_claims (issuer subject audience : pystr) (now lifetime : Z) (jti : pystr) : json :=
  JObj [(u "iss", JStr issuer); (u "sub", JStr subject); (u "aud", JStr audience);
        (u "iat", JInt now); (u "exp", JInt (now + lifetime)); (u "jti", JStr jti)].

(** [_b64u(json.dumps(v, separators=(",", ":")).encode())]. *)
Definition b64u_json (j : json) : res pystr :=
  bs ← encode_utf8 (dumps_in_order j); Ok (b64url bs).

Definition sign `{O : Outside} {X} (signer : AssertionSigner) (subject audience : pystr)
    (lifetime : Z) : io X pystr :=
  if negb ((0 <? lifetime) && (lifetime <=? MAX_ASSERTION_LIFETIME)) then
    raise (ValueError (u "assertion lifetime must be within 1..60s"))
  else
    match List.find (λ k, bool_decide (kid k = active_kid signer)) (signer_keys signer) with
    | None => raise StopIteration
    | Some key =>
        now ← time;
        id ← uuid4;
        header ← lift (b64u_json (jwt_header key));
        claims ← lift (b64u_json
          (jwt_claims (signer_issuer signer) subject audience now lifetime (str_uuid id)));
        let signing_input := header ++ [46%N] ++ claims in
        bs ← lift (encode_ascii signing_input);
        mret (signing_input ++ [46%N] ++ b64url (rsa_sign (private_key key) bs))
    end.

(** ** Properties *)

(** A signer whose active key is configured, as every constructed one is. *)
Definition signer_ok (s : AssertionSigner) : Prop :=
  ∃ k, List.find (λ k, bool_decide (kid k = active_kid s)) (signer_keys s) = Some k.

Lemma new_signer_ok issuer keys active s : new_signer issuer keys active = Ok s → signer_ok s.
Proof.
  unfold new_signer, signer_ok. destruct (existsb _ keys) eqn:E; [|done]. intros <-%Ok_inj. cbn.
  destruct (List.find _ keys) as [k|] eqn:Hf; [by eexists|].
  apply existsb_exists in E as (k & Hk & Hb). pose proof (find_none _ _ Hf k Hk). cbn in *.
  congruence.
Qed.

Lemma b64u_json_ascii j : json_ok j → b64u_json j = Ok (b64url (dumps_in_order j)).
Proof. intros Hj. unfold b64u_json. by rewrite encode_utf8_ascii by by apply in_order_ascii. Qed.

Lemma ascii_bytes_ok s : isascii s = true → bytes_ok s.
Proof.
  rewrite isascii_spec. intros H. eapply Forall_impl; [exact H|]. simpl. lia.
Qed.

Lemma b64url_no_dot bs : bytes_ok bs → 46%N ∉ b64url bs.
Proof.
  intros H%b64url_alphabet Hin. rewrite Forall_forall in H. specialize (H _ Hin).
  revert H. by apply (bool_decide_unpack (_ ∉ _)).
Qed.

(** The bytes of an unsigned integer are enough for it, and determine it. *)
Lemma b64u_uint_inj m n : b64u_uint m = b64u_uint n → m = n.
Proof.
  intros H. apply b64url_inj in H; [|apply to_bytes_be_ok..].
  assert (Hfit : ∀ n, (n < 256 ^ N.of_nat (N.to_nat ((N.size n + 7) / 8)))%N).
  { intros x. rewrite N2Nat.id. change 256%N with (2 ^ 8)%N. rewrite <-N.pow_mul_r.
    eapply N.lt_le_trans; [apply N.size_gt|]. apply N.pow_le_mono_r; [done|].
    pose proof (N.div_mod (N.size x + 7) 8 ltac:(done)).
    pose proof (N.mod_lt (N.size x + 7) 8 ltac:(done)). lia. }
  apply (f_equal from_bytes_be) in H. by rewrite !from_to_bytes_be in H by apply Hfit.
Qed.

Lemma str_uuid_ascii n : isascii (str_uuid n) = true.
Proof.
  pose proof (dashed_chars _ (hex_fixed_lower 32 n)) as H.
  change (dashed (hex_fixed 32 n)) with (str_uuid n) in H.
  eapply forallb_impl; [|exact H]. intros c E. unfold is_lower_hex, is_ascii_digit, is_dash in E.
  simpl. lia.
Qed.

(** The run of [sign]. *)
Lemma sign_run `{O : Outside, !OutsideLaws O, !RsaLaws R} {X} signer subject audience
    lifetime (s : state X) r s' :
  signer_ok signer →
  Forall (λ k, str_ok (kid k) = true) (signer_keys signer) →
  str_ok (signer_issuer signer) = true → str_ok subject = true → str_ok audience = true →
  0 <= o_time s.2 < 2 ^ 63 →
  sign signer subject audience lifetime s = (r, s') →
  if decide (0 < lifetime <= 60) then
    let jti := str_uuid (set_version4 (from_bytes_be (o_random (EvTime :: s.2) 16))) in
    ∃ tok key header claims,
      r = Ok tok ∧ key ∈ signer_keys signer ∧ kid key = active_kid signer ∧
      split_char 46 tok = [b64url header; b64url claims;
        b64url (rsa_sign (private_key key) (b64url header ++ [46%N] ++ b64url claims))] ∧
      loads_utf8 header = Ok (jwt_header key) ∧
      loads_utf8 claims = Ok (jwt_claims (signer_issuer signer) subject audience
                           (o_time s.2) lifetime jti) ∧
      s' = (s.1, EvRandom 16 :: EvTime :: s.2)
  else (∃ m, r = Raise (ValueError m)) ∧ s' = s.
Proof.
  cbv zeta. intros [key Hkey] Hkids Hiss Hsub Haud Htime. unfold sign, uuid4. io_run.
  destruct (decide (0 < lifetime <= 60)) as [Hl|Hl].
  2: { replace (negb _) with true by (unfold MAX_ASSERTION_LIFETIME; lia).
       intros [= <- <-]. eauto. }
  replace (negb _) with false by (unfold MAX_ASSERTION_LIFETIME; lia).
  rewrite Hkey. apply find_some in Hkey as [Hin Hk]. apply bool_decide_eq_true in Hk.
  apply list_elem_of_In in Hin. rewrite Forall_forall in Hkids. specialize (Hkids _ Hin).
  set (jti := str_uuid _).
  assert (Hh : json_ok (jwt_header key)).
  { split; [by apply (bool_decide_unpack (NoDup _))|]. by repeat split. }
  assert (Hc : json_ok (jwt_claims (signer_issuer signer) subject audience (o_time s.2) lifetime jti)).
  { split; [by apply (bool_decide_unpack (NoDup _))|]. cbn [foldr fst snd json_ok].
    repeat split; try done; try (apply small_int_ok; lia).
    by apply ascii_str_ok, str_uuid_ascii. }
  rewrite !b64u_json_ascii by done. io_run.
  assert (Bh := ascii_bytes_ok _ (in_order_ascii _ Hh)).
  assert (Bc := ascii_bytes_ok _ (in_order_ascii _ Hc)).
  unfold encode_ascii. rewrite !isascii_app, !b64url_ascii by done. cbn [andb isascii forallb].
  change (46 <? 128)%N with true. io_run. intros [<- <-]%pair_eq.
  eexists _, key, (dumps_in_order (jwt_header key)), _.
  split; [done|]. split; [done|]. split; [done|]. split.
  { rewrite <-!app_assoc. cbn [app]. rewrite split_char_app by by apply b64url_no_dot.
    rewrite split_char_app by by apply b64url_no_dot.
    rewrite split_char_notin by apply b64url_no_dot, rsa_sign_ok. done. }
  split; [by apply loads_utf8_in_order|]. split; [by apply loads_utf8_in_order|]. done.
Qed.

(** C35. An assertion, read back: three base64url segments, of which the first
    two decode to the header -- RS256, JWT and the active key's id, which is among
    the published ones -- and to exactly six claims: the signer's issuer, the
    given subject and audience, issued at the clock reading of this call, expiring
    the requested lifetime later, and a [jti] that is a UUID made of the sixteen
    bytes drawn in this call, but for the six bits of variant and version; the
    third is the RSA signature over exactly the first two.  A lifetime outside
    1..60 raises before any clock is read. *)
Theorem assertion_says `{O : Outside, !OutsideLaws O, !RsaLaws R} {X} signer subject audience
    lifetime (s : state X) r s' :
  signer_ok signer →
  Forall (λ k, str_ok (kid k) = true) (signer_keys signer) →
  str_ok (signer_issuer signer) = true → str_ok subject = true → str_ok audience = true →
  0 <= o_time s.2 < 2 ^ 63 →
  sign signer subject audience lifetime s = (r, s') →
  if decide (0 < lifetime <= 60) then
    ∃ tok key header claims jti id,
      r = Ok tok ∧ key ∈ signer_keys signer ∧ kid key = active_kid signer ∧
      split_char 46 tok = [b64url header; b64url claims;
        b64url (rsa_sign (private_key key) (b64url header ++ [46%N] ++ b64url claims))] ∧
      loads_utf8 header = Ok (JObj [
        (u "alg", JStr (u "RS256")); (u "typ", JStr (u "JWT")); (u "kid", JStr (active_kid signer))]) ∧
      loads_utf8 claims = Ok (JObj [
        (u "iss", JStr (signer_issuer signer)); (u "sub", JStr subject); (u "aud", JStr audience);
        (u "iat", JInt (o_time s.2)); (u "exp", JInt (o_time s.2 + lifetime)); (u "jti", JStr jti)]) ∧
      parse_uuid jti = Ok id ∧
      (∀ i, is_version_bit i = false →
         N.testbit id i = N.testbit (from_bytes_be (o_random (EvTime :: s.2) 16)) i) ∧
      s' = (s.1, EvRandom 16 :: EvTime :: s.2)
  else (∃ m, r = Raise (ValueError m)) ∧ s' = s.
Proof.
  intros Hs Hk Hi Hsub Ha Ht H. pose proof (sign_run _ _ _ _ _ _ _ Hs Hk Hi Hsub Ha Ht H) as Hr.
  case_decide; [|done]. destruct Hr as (tok & key & header & claims & ? & ? & Hkid & ? & Hh & Hc & ?).
  destruct (fresh_uuid (o_random (EvTime :: s.2) 16)) as (id & Hid & Hbits);
    [apply o_random_ok|apply o_random_length|].
  exists tok, key, header, claims. eexists _, id. rewrite <-Hkid. split_and!; done.
Qed.

(** The published key determines the key: two signing keys with the same
    JWK have the same modulus and the same exponent, leading zero bytes and
    all -- the verifier checks against exactly the key that signs. *)
Theorem jwk_determines_modulus k1 k2 :
  public_jwk k1 = public_jwk k2 →
  rsa_n (private_key k1) = rsa_n (private_key k2) ∧
  rsa_e (private_key k1) = rsa_e (private_key k2) ∧ kid k1 = kid k2.
Proof.
  unfold public_jwk. intros H. injection H as Hk Hn He.
  split; [by apply b64u_uint_inj|]. split; [by apply b64u_uint_inj|done].
Qed.
End Signer.

(** ** An example *)
Module AssertionExamples.
(** Keys are their moduli; the signature is a checksum, which anyone can make. *)
#[local] Instance toy_rsa : Rsa := {|
  rsa_private := N;
  load_pem_private_key bs :=
    match bs with [] => None | 0%N :: _ => Some None | _ => Some (Some (from_bytes_be bs)) end;
  rsa_key_size n := Z.of_N (N.size n);
  rsa_n n := n;
  rsa_e _ := 65537%N;
  rsa_sign _ m := [(fold_left N.add m 0 mod 256)%N]
|}.
#[local] Instance toy_rsa_laws : RsaLaws toy_rsa.
Proof. split. intros k m. apply Forall_singleton. cbn. by apply N.mod_lt. Qed.

Definition sample_key : SigningKey := {| kid := u "k1"; private_key := (2 ^ 2047 + 1)%N |}.
Definition sample_signer : AssertionSigner := {|
  signer_issuer := u "https://proxy.example"; signer_keys := [sample_key];
  active_kid := u "k1" |}.

Lemma assertion_says_witness :
  let O := silent_world 1000 in
  ∃ tok header claims jti s',
    sign sample_signer (u "sub") (u "aud") 60 (tt, []) = (Ok tok, s') ∧
    split_char 46 tok = [b64url header; b64url claims;
      b64url (rsa_sign (private_key sample_key) (b64url header ++ [46%N] ++ b64url claims))] ∧
    loads_utf8 claims = Ok (JObj [
      (u "iss", JStr (u "https://proxy.example")); (u "sub", JStr (u "sub")); (u "aud", JStr (u "aud"));
      (u "iat", JInt 1000); (u "exp", JInt 1060); (u "jti", JStr jti)]) ∧ is_Ok (parse_uuid jti) = true.
Proof.
  intros O.
  destruct (sign (O := O) sample_signer (u "sub") (u "aud") 60 (tt, [])) as [r s'] eqn:E.
  pose proof (assertion_says (O := O) sample_signer (u "sub") (u "aud") 60 (tt, []) r s'
    ltac:(by eexists) ltac:(by repeat constructor) eq_refl eq_refl eq_refl
    ltac:(simpl; lia) E) as H.
  rewrite decide_True in H by lia.
  destruct H as (tok & key & header & claims & jti & id & -> & Hk & _ & Hs & _ & Hc & Hid & _).
  apply list_elem_of_singleton in Hk as ->.
  exists tok, header, claims, jti, s'. split; [reflexivity|]. split; [exact Hs|]. split; [exact Hc|].
  rewrite Hid. reflexivity.
Defined.

Lemma jwk_determines_modulus_witness : rsa_n (private_key sample_key) = (2 ^ 2047 + 1)%N.
Proof. refine (proj1 (jwk_determines_modulus sample_key sample_key eq_refl)). Defined.
End AssertionExamples.
