(* ===== verification/Fetcher.v ===== *)
(** * The CIMD document fetcher ([fetcher.py])

    [parse_client_id_url], the DNS check [resolve_and_check_ips], the document
    rules [validate_document] and the pinned request of [CimdFetcher].

    [fetch_pins_checked_address] is the SSRF guard, [resolved_ranges] the hosts
    it lets through in numbers, and [fetch_document_valid] what a fetched
    document satisfies. *)

From S2P Require Import Prelude PyStr Codec Json World Errors IpAddr UrlLib RedirectUri.

Definition SSRFRefused (m : pystr) : exn := FetchError KSSRFRefused m.
Definition DocumentInvalid (m : pystr) : exn := FetchError KDocumentInvalid m.
Definition FetchFailed (m : pystr) : exn := FetchError KFetchError m.
Definition is_FetchError (e : exn) : bool := match e with FetchError _ _ => true | _ => false end.

(** ** The client-id URL *)

Record ParsedClientIdUrl := {
  pc_scheme : pystr;
  pc_hostname : pystr;
  pc_port : Z;
  pc_path : pystr;
  pc_query : pystr
}.

Definition authority (p : ParsedClientIdUrl) : pystr :=
  let default := if decide (pc_scheme p = u "https") then 443 else 80 in
  if decide (pc_port p = default) then pc_hostname p
  else pc_hostname p ++ u ":" ++ str_of_Z (pc_port p).

Definition parse_client_id_url (url : pystr) : res ParsedClientIdUrl :=
  if negb (truthy url) then Raise (SSRFRefused (u "client_id is empty"))
  else
    split ← urlsplit url;
    if negb (bool_decide (scheme split = u "https")) then
      Raise (SSRFRefused (u "client_id must use https"))
    else if truthy (fragment split) then
      Raise (SSRFRefused (u "client_id must not carry a fragment"))
    else if has_char 64 (netloc split) then
      Raise (SSRFRefused (u "client_id must not carry a userinfo component"))
    else match hostname split with
    | None => Raise (SSRFRefused (u "client_id has no host"))
    | Some host =>
        if negb (truthy (path split)) || bool_decide (path split = u "/") then
          Raise (SSRFRefused (u "client_id must have a non-empty path"))
        else
          p ← port split;
          Ok {| pc_scheme := scheme split; pc_hostname := host; pc_port := default 443 p;
                pc_path := path split; pc_query := query split |}
    end.

(** ** Addresses *)

Definition forbidden_attributes : list (attribute * pystr) :=
  [(is_private, u "is_private"); (is_loopback, u "is_loopback");
   (is_link_local, u "is_link_local"); (is_reserved, u "is_reserved");
   (is_multicast, u "is_multicast"); (is_unspecified, u "is_unspecified")].

(** [ip_str.split("%", 1)[0]]. *)
Definition without_scope (ip_str : pystr) : pystr :=
  let '(b, _, _) := partition 37 ip_str in b.

(** The inner loop: the first attribute that holds refuses the host. *)
Definition check_address (hostname raw_ip : pystr) (addr : ip) : res unit :=
  for_each (λ '(attr, name),
    if ip_is attr addr
    then Raise (SSRFRefused (u "host " ++ repr hostname ++ u " resolves to " ++ raw_ip
      ++ u " (" ++ name ++ u "); refusing"))
    else Ok tt) forbidden_attributes.

Fixpoint check_ips (hostname : pystr) (infos : list pystr) (seen ips : list pystr)
    : res (list pystr) :=
  match infos with
  | [] => Ok ips
  | ip_str :: infos' =>
      let raw_ip := without_scope ip_str in
      if bool_decide (raw_ip ∈ seen) then check_ips hostname infos' seen ips
      else
        addr ← ip_address raw_ip;
        _ ← check_address hostname raw_ip addr;
        check_ips hostname infos' (raw_ip :: seen) (ips ++ [raw_ip])
  end.

(** ** Documents *)

Record CimdDocument := {
  doc_client_id : pystr;
  doc_redirect_uris : list pystr;
  doc_raw : dict json;
  doc_cache_control : option pystr
}.

Definition forbidden_methods : list pystr :=
  [u "client_secret_post"; u "client_secret_basic"; u "client_secret_jwt"].

(** [isinstance(u, str) and u] for every entry. *)
Definition as_nonempty_str (j : json) : option pystr :=
  match j with JStr (c :: s) => Some (c :: s) | _ => None end.

Fixpoint keep_usable (redirect_uris kept dropped : list pystr) : res (list pystr * list pystr) :=
  match redirect_uris with
  | [] => Ok (kept, dropped)
  | uri :: uris =>
      match accept_registered uri with
      | Ok _ => keep_usable uris (kept ++ [uri]) dropped
      | Raise (RedirectUriRefused m) => keep_usable uris kept (dropped ++ [m])
      | Raise e => Raise e
      end
  end.

Definition _usable_redirect_uris (redirect_uris : list pystr) : res (list pystr) :=
  '(kept, dropped) ← keep_usable redirect_uris [] [];
  match kept with
  | [] => Raise (DocumentInvalid (u "CIMD document lists no usable redirect_uris entry: "
                                  ++ join (u "; ") dropped))
  | _ => Ok kept
  end.

Definition validate_document (url : pystr) (document : json) : res CimdDocument :=
  match document with
  | JObj d =>
      match dict_get d (u "client_id") with
      | Some (JStr client_id) =>
          if negb (bool_decide (client_id = url)) then
            Raise (DocumentInvalid (u "client_id in document does not match the URL byte-for-byte"))
          else if dict_mem d (u "client_secret") then
            Raise (DocumentInvalid (u "CIMD document must not carry client_secret"))
          else if dict_mem d (u "client_secret_expires_at") then
            Raise (DocumentInvalid (u "CIMD document must not carry client_secret_expires_at"))
          else
            _ ← match dict_get d (u "token_endpoint_auth_method") with
                | Some (JStr m) =>
                    if bool_decide (m ∈ forbidden_methods)
                    then Raise (DocumentInvalid (u "token_endpoint_auth_method " ++ repr m
                           ++ u " relies on a shared symmetric secret"))
                    else Ok tt
                | _ => Ok tt
                end;
            match dict_get d (u "redirect_uris") with
            | Some (JArr (j :: l)) =>
                match mapM as_nonempty_str (j :: l) with
                | None => Raise (DocumentInvalid
                            (u "every redirect_uris entry must be a non-empty string"))
                | Some uris =>
                    usable ← _usable_redirect_uris uris;
                    Ok {| doc_client_id := client_id; doc_redirect_uris := usable;
                          doc_raw := d; doc_cache_control := None |}
                end
            | _ => Raise (DocumentInvalid
                     (u "CIMD document must carry a non-empty redirect_uris array"))
            end
      | _ => Raise (DocumentInvalid (u "CIMD document has no client_id"))
      end
  | _ => Raise (DocumentInvalid (u "CIMD document is not a JSON object"))
  end.

(** ** [CimdFetcher] *)

Record CimdFetcher := {
  max_bytes : Z;
  user_agent : pystr
}.

Record FetchResult := {
  fr_document : CimdDocument;
  fr_resolved_ip : pystr
}.

(** The loop over [aiter_bytes]: the body, or the error that ends it. *)
Fixpoint read_body (max : Z) (buf : bytes) (chunks : list bytes) (broken : option (pystr * pystr))
    : res bytes :=
  match chunks with
  | [] => match broken with None => Ok buf | Some (n, m) => Raise (HTTPError n m) end
  | chunk :: chunks' =>
      let buf := buf ++ chunk in
      if max <? Z.of_nat (length buf)
      then Raise (FetchFailed (u "CIMD document exceeds max_bytes (" ++ str_of_Z max ++ u ")"))
      else read_body max buf chunks' broken
  end.

Definition pinned_url (parsed : ParsedClientIdUrl) (pinned_ip : pystr) : pystr :=
  let host_for_url := if has_char 58 pinned_ip then u "[" ++ pinned_ip ++ u "]" else pinned_ip in
  let url := pc_scheme parsed ++ u "://" ++ host_for_url ++ u ":" ++ str_of_Z (pc_port parsed)
             ++ pc_path parsed in
  if truthy (pc_query parsed) then url ++ u "?" ++ pc_query parsed else url.

Section Fetch.
Context `{O : Outside} {X : Type}.

Definition resolve_and_check_ips (hostname : pystr) : io X (list pystr) :=
  infos ← getaddrinfo hostname;
  match infos with
  | GaiError | Addresses [] => raise (SSRFRefused (u "cannot resolve host " ++ repr hostname))
  | LabelError => raise (UnicodeError (u "label empty or too long"))
  | Addresses infos => lift (check_ips hostname infos [] [])
  end.

Definition pinned_request (f : CimdFetcher) (parsed : ParsedClientIdUrl) (pinned_ip : pystr)
    : http_request :=
  StreamGet (pinned_url parsed pinned_ip)
    [(u "Host", authority parsed); (u "User-Agent", user_agent f);
     (u "Accept", u "application/json")]
    (pc_hostname parsed).

Definition _fetch_pinned (f : CimdFetcher) (url : pystr) (parsed : ParsedClientIdUrl)
    (pinned_ip : pystr) : io X FetchResult :=
  '(buf, cache_control) ← try_io
    (response ← stream (pinned_request f parsed pinned_ip);
     if negb (str_status response =? 200) then
       raise (FetchFailed (u "upstream returned HTTP " ++ str_of_Z (str_status response)
                           ++ u " for CIMD document"))
     else
       buf ← lift (read_body (max_bytes f) [] (str_chunks response) (str_broken response));
       mret (buf, str_cache_control response))
    is_HTTPError
    (λ exc, raise (FetchFailed (u "cannot fetch CIMD document: " ++ str_exn exc)));
  payload ← try_io (lift (loads_utf8 buf)) is_decode_error
    (λ _, raise (DocumentInvalid (u "CIMD document is not valid JSON")));
  doc ← lift (validate_document url payload);
  mret {| fr_document := {| doc_client_id := doc_client_id doc;
                            doc_redirect_uris := doc_redirect_uris doc;
                            doc_raw := doc_raw doc;
                            doc_cache_control := cache_control |};
          fr_resolved_ip := pinned_ip |}.

Definition fetch (f : CimdFetcher) (url : pystr) : io X FetchResult :=
  parsed ← lift (parse_client_id_url url);
  ips ← resolve_and_check_ips (pc_hostname parsed);
  match ips with
  | [] => raise (IndexError (u "list index out of range"))
  | pinned_ip :: _ => _fetch_pinned f url parsed pinned_ip
  end.
End Fetch.

(** ** What the address check lets through *)

(** The refused addresses, in numbers: first and last of each range.  What is
    left of 192.0.0.0/24 and of 2001::/23 are the assignments that are globally
    reachable. *)
Definition v4_refused : list (N * N) := [
  (quad 0 0 0 0, quad 0 255 255 255);                (* this network *)
  (quad 10 0 0 0, quad 10 255 255 255);              (* private *)
  (quad 127 0 0 0, quad 127 255 255 255);            (* loopback *)
  (quad 169 254 0 0, quad 169 254 255 255);          (* link-local, with cloud metadata *)
  (quad 172 16 0 0, quad 172 31 255 255);            (* private *)
  (quad 192 0 0 0, quad 192 0 0 8); (quad 192 0 0 11, quad 192 0 0 255);
  (quad 192 0 2 0, quad 192 0 2 255);                (* documentation *)
  (quad 192 168 0 0, quad 192 168 255 255);          (* private *)
  (quad 198 18 0 0, quad 198 19 255 255);            (* benchmarks *)
  (quad 198 51 100 0, quad 198 51 100 255); (quad 203 0 113 0, quad 203 0 113 255);
  (quad 224 0 0 0, quad 255 255 255 255)].           (* multicast and above *)

(** The last address under the leading hextets [l]. *)
Definition hextets_end (l : list N) : N := join_hextets (take 8 (l ++ replicate 8 0xffff%N)).
Definition v6_refused : list (N * N) := [
  (0%N, hextets_end [0x1fff%N]);                     (* below 2000::/3: loopback, mapped, ... *)
  (hextets [0x2001%N], hextets [0x2001; 1]%N);
  (hextets [0x2001; 1; 0; 0; 0; 0; 0; 3]%N, hextets_end [0x2001; 2]%N);
  (hextets [0x2001; 4]%N, hextets_end [0x2001; 4; 0x111]%N);
  (hextets [0x2001; 4; 0x113]%N, hextets_end [0x2001; 0x1f]%N);
  (hextets [0x2001; 0x40]%N, hextets_end [0x2001; 0x1ff]%N);
  (hextets [0x2001; 0xdb8]%N, hextets_end [0x2001; 0xdb8]%N);
  (hextets [0x2002%N], hextets_end [0x2002%N]);
  (hextets [0x3fff%N], hextets_end [0x3fff; 0xfff]%N);
  (hextets [0x4000%N], hextets_end [0xfebf%N]);      (* unassigned, fc00::/7, fe80::/10 *)
  (hextets [0xff00%N], hextets_end [0xffff%N])].     (* multicast *)

Definition outside (ranges : list (N * N)) (n : N) : Prop := Forall (λ r, ¬ (r.1 <= n <= r.2)%N) ranges.

(** The addresses the proxy may connect to: an IPv4-mapped one counts as the
    IPv4 address inside it. *)
Definition routable (addr : ip) : Prop :=
  match addr with
  | V4 n => outside v4_refused n
  | V6 n => match ipv4_mapped n with Some m => outside v4_refused m | None => outside v6_refused n end
  end.
(** The text of such an address. *)
Definition safe_ip (s : pystr) : Prop := ∃ addr, ip_address s = Ok addr ∧ routable addr.

Lemma check_address_attributes h raw addr :
  check_address h raw addr = Ok tt ↔ existsb (λ a, ip_is a.1 addr) forbidden_attributes = false.
Proof.
  unfold check_address. rewrite for_each_Ok.
  induction forbidden_attributes as [|[a name] l IH]; [by split|].
  rewrite Forall_cons, IH. cbn [existsb fst]. by destruct (ip_is a addr); split; [intros [? ?]|intros ?|intros [_ ?]|].
Qed.

Definition refused_exp (ranges : list (N * N)) : range_exp := Any ((λ r, Within r.1 r.2) <$> ranges).
Lemma outside_exp ranges n : outside ranges n ↔ holds (refused_exp ranges) n = false.
Proof.
  unfold outside, refused_exp. rewrite holds_Any.
  induction ranges as [|r l IH]; [by split; [|constructor]|].
  rewrite Forall_cons, IH. cbn [fmap list_fmap existsb]. rewrite holds_Within. clear IH.
  destruct (existsb _ _); lia.
Qed.

(** The six attributes against the numbers, by the constants in them. *)
Lemma v4_forbidden n :
  existsb (λ a, v4_is a.1 n) forbidden_attributes = holds (refused_exp v4_refused) n.
Proof.
  transitivity (holds (Any ((λ a, v4_exp a.1) <$> forbidden_attributes)) n).
  - rewrite holds_Any. induction forbidden_attributes as [|a l IH]; [done|].
    cbn [existsb fmap list_fmap]. by rewrite IH, v4_is_exp.
  - apply same_everywhere. vm_compute. reflexivity.
Qed.
Lemma v6_forbidden n :
  existsb (λ a, v6_is a.1 n) forbidden_attributes = holds (refused_exp v6_refused) n.
Proof.
  transitivity (holds (Any ((λ a, v6_exp a.1) <$> forbidden_attributes)) n).
  - rewrite holds_Any. induction forbidden_attributes as [|a l IH]; [done|].
    cbn [existsb fmap list_fmap]. by rewrite IH, v6_is_exp.
  - apply same_everywhere. vm_compute. reflexivity.
Qed.

Lemma check_address_routable h raw addr : check_address h raw addr = Ok tt ↔ routable addr.
Proof.
  rewrite check_address_attributes. unfold routable, ip_is. destruct addr as [n|n].
  - by rewrite outside_exp, v4_forbidden.
  - destruct (ipv4_mapped n) as [m|]; [by rewrite outside_exp, v4_forbidden|].
    by rewrite outside_exp, v6_forbidden.
Qed.

Lemma check_ips_Ok h infos seen ips out :
  check_ips h infos seen ips = Ok out → Forall safe_ip ips → seen ⊆ ips →
  Forall safe_ip out ∧ ips ⊆ out ∧ (∀ i, i ∈ infos → without_scope i ∈ out) ∧
  (∀ a, a ∈ out → a ∈ ips ∨ ∃ i, i ∈ infos ∧ a = without_scope i).
Proof.
  revert seen ips. induction infos as [|i infos IH]; intros seen ips; cbn [check_ips].
  { intros <-%Ok_inj Hips _. split; [done|]. split; [done|]. split; [set_solver|auto]. }
  intros H Hips Hseen. case_bool_decide as Hin.
  - destruct (IH _ _ H Hips Hseen) as (Hs & Hsub & Hall & Hfrom).
    split; [done|]. split; [done|]. set_solver.
  - apply bind_Ok in H as (addr & Ha & H). apply bind_Ok in H as ([] & Hc & H).
    destruct (IH _ _ H) as (Hs & Hsub & Hall & Hfrom).
    + apply Forall_app. split; [done|]. apply Forall_singleton. exists addr.
      split; [done|]. by eapply check_address_routable.
    + set_solver.
    + split; [done|]. set_solver.
Qed.

Lemma check_ips_complete h infos seen ips :
  (∀ i, i ∈ infos → safe_ip (without_scope i)) → ∃ out, check_ips h infos seen ips = Ok out.
Proof.
  revert seen ips. induction infos as [|i infos IH]; intros seen ips H; cbn [check_ips]; [by eexists|].
  case_bool_decide; [apply IH; set_solver|].
  destruct (H i (list_elem_of_here _ _)) as (addr & -> & Hr). cbn [mbind res_bind].
  rewrite (proj2 (check_address_routable _ _ _) Hr). apply IH. set_solver.
Qed.

Section Resolver.
Context `{O : Outside} {X : Type}.

Lemma resolve_run hostname (s : state X) r s' :
  resolve_and_check_ips hostname s = (r, s') → s' = (s.1, EvDns hostname :: s.2).
Proof.
  unfold resolve_and_check_ips. io_run.
  destruct (o_dns s.2 hostname) as [[|]| |]; io_run; by intros [_ <-]%pair_eq.
Qed.

(** C36. Which hosts pass the guard.  [resolve_and_check_ips] asks the resolver
    once and returns addresses exactly when the resolver named some and every one
    of them, read as an address without its scope, is outside the refused
    ranges -- for IPv4 0/8, 10/8, 127/8, 169.254/16, 172.16/12, 192.0.0/24 but
    for .9 and .10, 192.0.2/24, 192.168/16, 198.18/15, 198.51.100/24,
    203.0.113/24 and everything from 224.0.0.0 up; for IPv6 everything outside
    2000::/3 and fec0::/10, and within it the special-purpose parts of 2001::/23,
    2001:db8::/32, 2002::/16 and 3fff::/20; an IPv4-mapped address is judged as
    the IPv4 address inside.  What is returned are those addresses.  (Shared
    address space, 100.64/10, and the deprecated site-local fec0::/10 pass.) *)
Theorem resolved_ranges hostname (s : state X) r s' :
  resolve_and_check_ips hostname s = (r, s') →
  s' = (s.1, EvDns hostname :: s.2) ∧
  ((∃ ips, r = Ok ips) ↔
     ∃ addrs, o_dns s.2 hostname = Addresses addrs ∧ addrs ≠ [] ∧
       ∀ a, a ∈ addrs → safe_ip (without_scope a)) ∧
  ∀ ips, r = Ok ips → ∃ addrs, o_dns s.2 hostname = Addresses addrs ∧
    ∀ x, x ∈ ips ↔ ∃ a, a ∈ addrs ∧ x = without_scope a.
Proof.
  unfold resolve_and_check_ips. io_run.
  destruct (o_dns s.2 hostname) as [[|a0 l]| |]; io_run.
  1, 3, 4: intros [<- <-]%pair_eq; split; [done|]; split; [|done];
    split; [by intros [? ?]|by intros (? & [= <-] & ? & _)].
  intros [<- <-]%pair_eq. split; [done|]. split.
  - split.
    + intros [ips H]. apply check_ips_Ok in H as (Hs & _ & Hall & _); [|constructor|done].
      exists (a0 :: l). split; [done|]. split; [done|]. intros a Ha%Hall.
      rewrite Forall_forall in Hs. by apply Hs.
    + intros (addrs & [= <-] & _ & H). by apply check_ips_complete.
  - intros ips H. apply check_ips_Ok in H as (_ & _ & Hall & Hfrom); [|constructor|done].
    exists (a0 :: l). split; [done|]. intros x. split.
    + intros [H%elem_of_nil|H]%Hfrom; done.
    + intros (a & Ha & ->). by apply Hall.
Qed.
End Resolver.

(** ** The documents that are accepted *)

Lemma keep_usable_Ok uris kept dropped out :
  keep_usable uris kept dropped = Ok out →
  out.1 = kept ++ List.filter (λ uri, is_Ok (accept_registered uri)) uris.
Proof.
  revert kept dropped. induction uris as [|uri uris IH]; intros kept dropped; cbn [keep_usable].
  { intros <-%Ok_inj. cbn. by rewrite app_nil_r. }
  destruct (accept_registered uri) as [[]|e] eqn:E; cbn [List.filter]; rewrite E; cbn [is_Ok].
  - intros ->%IH. by rewrite <-app_assoc.
  - destruct e; try done. by intros ->%IH.
Qed.

Lemma mapM_nonempty l uris : mapM as_nonempty_str l = Some uris → l = JStr <$> uris.
Proof.
  intros H%mapM_Some. induction H as [|j uri l uris Hj _ IH]; [done|].
  rewrite fmap_cons, IH. destruct j as [| | | |[|c s]| |]; simpl in Hj; by simplify_eq.
Qed.

(** What a validated document for [url] satisfies. *)
Definition valid_document (url : pystr) (d : CimdDocument) : Prop :=
  doc_client_id d = url ∧
  dict_get (doc_raw d) (u "client_id") = Some (JStr url) ∧
  dict_mem (doc_raw d) (u "client_secret") = false ∧
  dict_mem (doc_raw d) (u "client_secret_expires_at") = false ∧
  (∀ m, dict_get (doc_raw d) (u "token_endpoint_auth_method") = Some (JStr m) →
     m ∉ forbidden_methods) ∧
  ∃ uris, dict_get (doc_raw d) (u "redirect_uris") = Some (JArr (JStr <$> uris)) ∧
    doc_redirect_uris d = List.filter (λ uri, is_Ok (accept_registered uri)) uris ∧
    doc_redirect_uris d ≠ [].

Lemma validate_document_Ok url j d :
  validate_document url j = Ok d → j = JObj (doc_raw d) ∧ valid_document url d.
Proof.
  unfold validate_document. intros H. destruct j as [| | | | | |raw]; try done.
  destruct (dict_get raw (u "client_id")) as [[| | | |cid| |]|] eqn:Hc; try done.
  destruct (bool_decide (cid = url)) eqn:Hu; cbn [negb] in H; [|done]. apply bool_decide_eq_true in Hu.
  destruct (dict_mem raw (u "client_secret")) eqn:Hsec; [done|].
  destruct (dict_mem raw (u "client_secret_expires_at")) eqn:Hexp; [done|].
  apply bind_Ok in H as ([] & Hm & H).
  destruct (dict_get raw (u "redirect_uris")) as [[| | | | |[|j l]|]|] eqn:Hr; try done.
  destruct (mapM as_nonempty_str (j :: l)) as [uris|] eqn:Hl; [|done].
  apply mapM_nonempty in Hl. apply bind_Ok in H as (usable & Hus & <-%Ok_inj).
  unfold _usable_redirect_uris in Hus. apply bind_Ok in Hus as ([kept dropped] & Hk & Hus).
  apply keep_usable_Ok in Hk. cbn in Hk. split; [done|]. subst cid.
  repeat (split; [done|]). split.
  { intros m Hmm. cbn [doc_raw] in Hmm. rewrite Hmm in Hm. by case_bool_decide. }
  exists uris. cbn [doc_raw doc_redirect_uris]. rewrite Hr, Hl. split; [done|].
  destruct kept; [done|]. apply Ok_inj in Hus as <-. by rewrite <-Hk.
Qed.

(** Every redirect URI of a validated document conforms to the policy. *)
Lemma valid_document_uris url d :
  valid_document url d → Forall (λ uri, accept_registered uri = Ok tt) (doc_redirect_uris d).
Proof.
  intros (_ & _ & _ & _ & _ & uris & _ & -> & _). apply Forall_forall.
  intros uri [_ H]%list_elem_of_In%filter_In. by destruct (accept_registered uri) as [[]|].
Qed.

Section FetchLemmas.
Context `{O : Outside} {X : Type}.
Implicit Types (s : state X).

Lemma parse_client_id_https url p : parse_client_id_url url = Ok p → pc_scheme p = u "https".
Proof.
  unfold parse_client_id_url. destruct (negb _); [done|]. intros (sp & _ & H)%bind_Ok.
  destruct (bool_decide (scheme sp = _)) eqn:E; cbn [negb] in H; [|done].
  apply bool_decide_eq_true in E. repeat (case_match; try done).
  apply bind_Ok in H as (? & _ & <-%Ok_inj). done.
Qed.

(** The path of a URL with a host is empty or begins with a slash. *)
Lemma urlsplit_path url sp :
  urlsplit url = Ok sp → hostname sp ≠ None → path sp = [] ∨ ∃ rest, path sp = 47%N :: rest.
Proof.
  unfold urlsplit. destruct (split_scheme (clean_url url)) as [sch t].
  intros ([net rest] & Hnet & H)%bind_Ok Hh.
  destruct (partition 35 rest) as [[t1 f1] frag] eqn:E1. destruct (partition 63 t1) as [[p f2] q] eqn:E2.
  apply bind_Ok in H as (_ & _ & <-%Ok_inj). cbn [path].
  assert (Hhead : ∀ c, head rest = Some c → is_netloc_end c = true).
  { unfold split_netloc in Hnet. destruct (startswith t _).
    - destruct (span_not is_netloc_end (drop 2 t)) as [a b] eqn:E. apply span_not_join in E as (_ & _ & E).
      destruct (xorb _ _); [done|]. by apply bind_Ok in Hnet as (_ & _ & [= <- <-]%Ok_inj).
    - apply Ok_inj in Hnet. injection Hnet as <- <-. by rewrite hostinfo_no_netloc in Hh. }
  destruct rest as [|c rest]; [injection E1 as <- <- <-; injection E2 as <- <- <-; by left|].
  specialize (Hhead c eq_refl). unfold is_netloc_end in Hhead. cbn [partition] in E1.
  destruct (N.eqb_spec c 35); [injection E1 as <- <- <-; injection E2 as <- <- <-; by left|].
  destruct (partition 35 rest) as [[b1 g1] e1]. injection E1 as <- <- <-. cbn [partition] in E2.
  destruct (N.eqb_spec c 63); [injection E2 as <- <- <-; by left|].
  destruct (partition 63 b1) as [[b2 g2] e2]. injection E2 as <- <- <-. right.
  assert (c = 47%N) as -> by lia. by exists b2.
Qed.

Lemma parse_client_id_path url p : parse_client_id_url url = Ok p → ∃ rest, pc_path p = 47%N :: rest.
Proof.
  unfold parse_client_id_url. destruct (negb _); [done|]. intros (sp & Hsp & H)%bind_Ok.
  destruct (negb _); [done|]. destruct (truthy _); [done|]. destruct (has_char _ _); [done|].
  destruct (hostname sp) as [h|] eqn:Hh; [|done].
  destruct (negb (truthy (path sp)) || _) eqn:Hpath; [done|].
  apply bind_Ok in H as (? & _ & <-%Ok_inj). cbn [pc_path].
  destruct (urlsplit_path _ _ Hsp) as [E|E]; [by rewrite Hh|by rewrite E in Hpath|done].
Qed.

(** The URL that is dialled, spelt out. *)
Lemma pinned_url_text p ip :
  pc_scheme p = u "https" →
  pinned_url p ip =
    u "https://" ++ (if decide (58%N ∈ ip) then u "[" ++ ip ++ u "]" else ip)
      ++ u ":" ++ str_of_Z (pc_port p) ++ pc_path p
      ++ if decide (pc_query p = []) then [] else u "?" ++ pc_query p.
Proof.
  intros Hs. unfold pinned_url. rewrite Hs. change (u "https://") with (u "https" ++ u "://").
  assert ((if has_char 58 ip then u "[" ++ ip ++ u "]" else ip)
    = (if decide (58%N ∈ ip) then u "[" ++ ip ++ u "]" else ip)) as ->.
  { case_decide as H; destruct (has_char 58 ip) eqn:E; try done.
    - by apply has_char_false in E.
    - exfalso. apply H, dec_stable. intros H'. apply has_char_false in H'. congruence. }
  generalize (if decide (58%N ∈ ip) then u "[" ++ ip ++ u "]" else ip) as host. intros host.
  destruct (pc_query p) as [|c q]; cbn [truthy].
  - by rewrite decide_True, app_nil_r, <-!app_assoc by done.
  - by rewrite decide_False, <-!app_assoc by done.
Qed.

(** What is left after the DNS answer: one request, and no change of state. *)
Lemma fetch_pinned_run f url parsed ip s r s' :
  _fetch_pinned f url parsed ip s = (r, s') →
  s' = (s.1, EvHttp (pinned_request f parsed ip) :: s.2) ∧
  (∀ res, r = Ok res → fr_resolved_ip res = ip ∧ valid_document url (fr_document res)).
Proof.
  unfold _fetch_pinned, stream. io_run.
  destruct (o_stream s.2 (pinned_request f parsed ip)) as [[n m]|rsp]; io_run.
  { cbn [is_HTTPError]. by intros [= <- <-]. }
  destruct (negb _); io_run; [by intros [= <- <-]|].
  destruct (read_body _ _ _ _) as [buf|e]; io_run.
  2: { destruct (is_HTTPError e); cbv beta iota; by intros [= <- <-]. }
  destruct (loads_utf8 buf) as [j|e]; io_run.
  2: { destruct (is_decode_error e); by intros [= <- <-]. }
  destruct (validate_document url j) as [d|e] eqn:Hv; io_run; intros [= <- <-]; [|done].
  split; [done|]. intros res [= <-]. split; [done|].
  by apply validate_document_Ok in Hv as [_ Hv].
Qed.

Lemma fetch_run f url s r s' :
  fetch f url s = (r, s') →
  s'.1 = s.1 ∧
  ((∃ new, s'.2 = new ++ s.2 ∧ Forall (λ e, is_http e = false) new ∧ is_Ok r = false) ∨
   ∃ parsed addrs ip,
     parse_client_id_url url = Ok parsed ∧
     o_dns s.2 (pc_hostname parsed) = Addresses addrs ∧
     (∀ a, a ∈ addrs → safe_ip (without_scope a)) ∧
     ip ∈ without_scope <$> addrs ∧
     s'.2 = EvHttp (pinned_request f parsed ip) :: EvDns (pc_hostname parsed) :: s.2 ∧
     (∀ res, r = Ok res → fr_resolved_ip res = ip ∧ valid_document url (fr_document res))).
Proof.
  unfold fetch. io_run. destruct (parse_client_id_url url) as [parsed|e]; io_run.
  2: { intros [= <- <-]. split; [done|]. left. by exists []. }
  unfold resolve_and_check_ips. io_run.
  assert (Hdns : ∃ new, EvDns (pc_hostname parsed) :: s.2 = new ++ s.2 ∧
    Forall (λ e, is_http e = false) new ∧ false = false).
  { exists [EvDns (pc_hostname parsed)]. repeat split. by apply Forall_singleton. }
  destruct (o_dns s.2 (pc_hostname parsed)) as [addrs| |] eqn:Hd; io_run.
  2-3: intros [= <- <-]; split; [done|by left].
  destruct addrs as [|a0 addrs0] eqn:Ea; io_run.
  { intros [= <- <-]. split; [done|by left]. }
  rewrite <-Ea in *. clear Ea a0 addrs0.
  destruct (check_ips _ addrs [] []) as [ips|e] eqn:Hc; io_run.
  2: { intros [= <- <-]. split; [done|by left]. }
  destruct ips as [|ip ips].
  { intros [= <- <-]. split; [done|by left]. }
  apply check_ips_Ok in Hc as (Hsafe & _ & Hall & Hfrom); [|constructor|done].
  intros [-> Hr]%fetch_pinned_run. split; [done|]. right. exists parsed, addrs, ip.
  split; [done|]. split; [done|]. split.
  { intros a Ha%Hall. rewrite Forall_forall in Hsafe. by apply Hsafe. }
  split; [|done]. destruct (Hfrom ip) as [H|(i & Hi & ->)]; [by left|by apply elem_of_nil in H|].
  by apply list_elem_of_fmap_2.
Qed.

(** The body is all the chunks, in order. *)
Lemma read_body_Ok max buf chunks broken body :
  read_body max buf chunks broken = Ok body → body = buf ++ concat chunks.
Proof.
  revert buf. induction chunks as [|c chunks IH]; intros buf; cbn [read_body concat].
  - destruct broken as [[n m]|]; [done|]. intros <-%Ok_inj. by rewrite app_nil_r.
  - destruct (_ <? _); [done|]. intros ->%IH. by rewrite app_assoc.
Qed.

(** A document that was read from [reply], the answer to a request at the end
    of [t] for the host of [url]. *)
Definition read_from (url : pystr) (d : CimdDocument) (t : trace) (rq : http_request) : Prop :=
  ∃ parsed link headers reply,
    parse_client_id_url url = Ok parsed ∧ rq = StreamGet link headers (pc_hostname parsed) ∧
    o_stream t rq = inr reply ∧ str_status reply = 200 ∧
    loads_utf8 (concat (str_chunks reply)) = Ok (JObj (doc_raw d)).

Lemma fetch_reads f url s res s' :
  fetch f url s = (Ok res, s') →
  ∃ h rq, s'.2 = EvHttp rq :: EvDns h :: s.2 ∧ read_from url (fr_document res) (EvDns h :: s.2) rq.
Proof.
  unfold fetch. io_run. destruct (parse_client_id_url url) as [parsed|e] eqn:Hp; io_run; [|done].
  destruct (resolve_and_check_ips _ _) as [r s1] eqn:Hr. pose proof (resolve_run _ _ _ _ Hr) as ->.
  destruct r as [[|ip ips]|e]; [done| |done]. unfold _fetch_pinned, stream. io_run.
  destruct (o_stream _ (pinned_request f parsed ip)) as [[n m]|rsp] eqn:Ho; io_run; [by cbn [is_HTTPError]|].
  destruct (Z.eqb_spec (str_status rsp) 200); cbn [negb]; io_run; [|done].
  destruct (read_body _ _ _ _) as [buf|e1] eqn:Hb; io_run; [|by destruct (is_HTTPError e1)].
  apply read_body_Ok in Hb. cbn [app] in Hb. subst buf.
  destruct (loads_utf8 _) as [j|e2] eqn:Hl; io_run; [|by destruct (is_decode_error e2)].
  destruct (validate_document url j) as [d|e3] eqn:Hv; io_run; intros [= <- <-].
  exists (pc_hostname parsed). eexists. split; [done|]. cbn [fr_document doc_raw].
  apply validate_document_Ok in Hv as [-> _]. by eexists parsed, _, _, rsp.
Qed.

(** The fetcher raises no OAuth error of its own. *)
Lemma fetch_not_oauth f url : raises (X := X) not_oauth (fetch f url).
Proof.
  assert (Hread : ∀ max buf l br, raises_only not_oauth (read_body max buf l br)).
  { intros max buf l br. revert buf. induction l as [|c l IH]; intros buf; cbn [read_body];
      raises_tac; apply IH. }
  assert (Hips : ∀ h l seen ips, raises_only not_oauth (check_ips h l seen ips)).
  { intros h l. induction l as [|a l IH]; intros seen ips; cbn [check_ips]; [by raises_tac|].
    unfold ip_address, check_address. raises_tac; try apply raises_only_for_each; try apply IH.
    raises_tac. }
  assert (Hkeep : ∀ us k d, raises_only not_oauth (keep_usable us k d)).
  { intros us. induction us as [|x us IH]; intros k d; cbn [keep_usable]; [by raises_tac|].
    destruct (accept_registered x) as [|e] eqn:E; [apply IH|].
    apply accept_registered_raises in E as [[m ->]|[m ->]]; [apply IH|by raises_tac]. }
  unfold fetch, parse_client_id_url, port, resolve_and_check_ips, getaddrinfo, _fetch_pinned,
    validate_document, _usable_redirect_uris.
  unfold stream, py_int. raises_tac.
Qed.

(** C9. Fetching a client's document never reaches into the network behind the
    proxy.  Either no HTTP request is sent and no document results, or exactly
    one is.  Its URL is [https://], then the text of an address -- in brackets if
    it has a colon --, the port, and the path and query of the [client_id], the
    path with its slash: what is dialled is an address, not a name.  It is one the resolver just returned for
    the host of the URL; every address the resolver returned, not just that one,
    is outside the refused ranges ([v4_refused], [v6_refused]); and the host name
    is in the [Host] header and in SNI only. *)
Theorem fetch_pins_checked_address f url s r s' :
  fetch f url s = (r, s') →
  (∃ new, s'.2 = new ++ s.2 ∧ Forall (λ e, is_http e = false) new ∧ is_Ok r = false) ∨
  ∃ parsed addrs ip rest,
    parse_client_id_url url = Ok parsed ∧
    o_dns s.2 (pc_hostname parsed) = Addresses addrs ∧
    (∀ a, a ∈ addrs → safe_ip (without_scope a)) ∧
    ip ∈ without_scope <$> addrs ∧ pc_path parsed = u "/" ++ rest ∧
    let dialled := if decide (58%N ∈ ip) then u "[" ++ ip ++ u "]" else ip in
    s'.2 = EvHttp (StreamGet
             (u "https://" ++ dialled ++ u ":" ++ str_of_Z (pc_port parsed) ++ u "/" ++ rest
                ++ if decide (pc_query parsed = []) then [] else u "?" ++ pc_query parsed)
             [(u "Host", authority parsed); (u "User-Agent", user_agent f);
              (u "Accept", u "application/json")]
             (pc_hostname parsed))
           :: EvDns (pc_hostname parsed) :: s.2.
Proof.
  intros [_ [?|(parsed & addrs & ip & Hp & Hd & Hs & Hin & Ht & _)]]%fetch_run; [by left|].
  right. pose proof (parse_client_id_https _ _ Hp) as Hscheme.
  destruct (parse_client_id_path _ _ Hp) as [rest Hrest].
  exists parsed, addrs, ip, rest. do 5 (split; [done|]). cbv zeta. rewrite Ht. unfold pinned_request.
  by rewrite pinned_url_text, Hrest by done.
Qed.

(** C29. A document that was fetched is the client's own and usable: its
    [client_id] is the URL byte for byte, it carries no shared secret and
    names no shared-secret method, and its redirect URIs are exactly the
    listed ones that pass the redirect-URI policy, at least one. *)
Theorem fetch_document_valid f url s res s' :
  fetch f url s = (Ok res, s') →
  valid_document url (fr_document res) ∧
  Forall (λ uri, accept_registered uri = Ok tt) (doc_redirect_uris (fr_document res)).
Proof.
  intros [_ [(?&_&_&?)|(?&?&?&_&_&_&_&_&H)]]%fetch_run; [done|].
  destruct (H _ eq_refl) as [_ Hv]. split; [done|by eapply valid_document_uris].
Qed.
End FetchLemmas.

(** ** An example world *)
Module FetchExamples.
Definition url : pystr := u "https://c.example/id".
Definition document : json := JObj
  [(u "client_id", JStr url);
   (u "redirect_uris", JArr [JStr (u "https://c.example/cb"); JStr (u "myapp:/cb")])].
Definition world : Outside := sample_world 1000
  (λ h, if decide (h = u "c.example") then Addresses [u "93.184.216.34"] else GaiError)
  (λ _, inl (u "ConnectError", []))
  (λ _, inr {| str_status := 200; str_cache_control := Some (u "max-age=600");
               str_chunks := [dumps document]; str_broken := None |}).
Definition fetcher : CimdFetcher := {| max_bytes := 5120; user_agent := u "cimd-proxy/0.2" |}.

Lemma fetch_document_valid_witness :
  ∃ res s', fetch (O := world) fetcher url (tt, []) = (Ok res, s') ∧
    doc_redirect_uris (fr_document res) = [u "https://c.example/cb"] ∧
    valid_document url (fr_document res).
Proof.
  eexists _, _. split; [vm_compute; reflexivity|]. split; [reflexivity|].
  refine (proj1 (fetch_document_valid (O := world) fetcher url (tt, []) _ _ _)).
  vm_compute. reflexivity.
Defined.

Lemma fetch_pins_checked_address_witness :
  ∃ r s' headers, fetch (O := world) fetcher url (tt, []) = (r, s') ∧
    s'.2 = [EvHttp (StreamGet (u "https://93.184.216.34:443/id") headers (u "c.example"));
            EvDns (u "c.example")].
Proof.
  destruct (fetch (O := world) fetcher url (tt, [])) as [r s'] eqn:E.
  assert (Hr : is_Ok r = true) by (change r with (r, s').1; rewrite <-E; vm_compute; reflexivity).
  exists r, s'.
  destruct (fetch_pins_checked_address (O := world) fetcher url (tt, []) r s' E)
    as [(new & _ & _ & H)|(parsed & addrs & ip & rest & Hp & Hd & _ & Hin & Hpath & Ht)]; [congruence|].
  vm_compute in Hp. injection Hp as <-. vm_compute in Hd. injection Hd as <-.
  apply list_elem_of_singleton in Hin as ->.
  injection Hpath as <-. eexists. split; [reflexivity|exact Ht].
Defined.

Lemma resolved_ranges_witness :
  ∃ ips s', resolve_and_check_ips (O := world) (u "c.example") (tt, []) = (Ok ips, s') ∧
    safe_ip (u "93.184.216.34").
Proof.
  destruct (resolve_and_check_ips (O := world) (u "c.example") (tt, [])) as [r s'] eqn:E.
  assert (Hr : ∃ ips, r = Ok ips).
  { eexists. change r with (r, s').1. rewrite <-E. vm_compute. reflexivity. }
  destruct Hr as [ips ->]. exists ips, s'. split; [reflexivity|].
  destruct (proj1 (proj1 (proj2 (resolved_ranges (O := world) (u "c.example") (tt, []) (Ok ips) s' E)))
    (ex_intro _ ips eq_refl)) as (addrs & Hd & _ & H).
  injection Hd as <-. exact (H (u "93.184.216.34") (list_elem_of_here _ _)).
Defined.

(** Addresses at the edges of the ranges. *)
Definition passes (text : string) : bool :=
  match ip_address (u text) with
  | Ok addr => is_Ok (check_address (u "h") (u text) addr)
  | Raise _ => false
  end.
Example edges :
  passes "9.255.255.255" = true ∧ passes "10.0.0.0" = false ∧ passes "169.254.169.254" = false ∧
  passes "172.32.0.0" = true ∧ passes "192.0.0.9" = true ∧ passes "223.255.255.255" = true ∧
  passes "224.0.0.1" = false ∧ passes "100.64.0.1" = true ∧
  passes "::1" = false ∧ passes "fd00::1" = false ∧ passes "::ffff:127.0.0.1" = false ∧
  passes "2606:2800:220:1:248:1893:25c8:1946" = true ∧ passes "fec0::1" = true.
Proof. vm_compute. repeat split. Qed.
End FetchExamples.
