(* ===== verification/CimdService.v ===== *)
(** * The document service ([cimd_service.py])

    [CimdService.obtain]: the fetcher behind the cache.  The cache is part of
    the program state through the interface [HasCache].

    [obtain_keeps_cache_valid] is the invariant that the cache holds nothing
    but validated documents under their own URL; [obtain_cached_is_silent]
    that a hit touches no peer. *)

From S2P Require Import Prelude PyStr Codec Json World UrlLib RedirectUri Cache Fetcher.

(** The program state holds a document cache. *)
Class HasCache (X : Type) := {
  the_cache : X → dict (entry CimdDocument);
  with_cache : X → dict (entry CimdDocument) → X
}.
Class HasCacheLaws {X} (H : HasCache X) : Prop := {
  the_cache_with x c : the_cache (with_cache x c) = c
}.

(** The smallest such state: the cache itself. *)
#[export] Instance cache_has_cache : HasCache (dict (entry CimdDocument)) :=
  {| the_cache c := c; with_cache _ c := c |}.
#[export] Instance cache_has_cache_laws : HasCacheLaws cache_has_cache.
Proof. by split. Qed.

Record CimdService := {
  cs_fetcher : CimdFetcher;
  cache_ttl_min : Z;
  cache_ttl_max : Z
}.

Section Service.
Context `{O : Outside} {X : Type} `{HasCache X}.

(** [TtlCache.get] and [TtlCache.put] on the program's cache, with its clock. *)
Definition service_get (key : pystr) : io X (option CimdDocument) :=
  now ← monotonic;
  x ← get_state;
  let '(v, c) := cache_get (the_cache x) now key in
  _ ← put_state (with_cache x c);
  mret v.

Definition service_put (key : pystr) (v : CimdDocument) (ttl_seconds : Z) : io X unit :=
  if ttl_seconds <=? 0 then mret tt
  else
    now ← monotonic;
    x ← get_state;
    put_state (with_cache x (cache_put (the_cache x) now key v ttl_seconds)).

Definition obtain (svc : CimdService) (client_id_url : pystr) : io X CimdDocument :=
  cached ← service_get client_id_url;
  match cached with
  | Some d => mret d
  | None =>
      result ← fetch (cs_fetcher svc) client_id_url;
      let ttl := choose_ttl (doc_cache_control (fr_document result))
                   (cache_ttl_min svc) (cache_ttl_max svc) None in
      _ ← service_put client_id_url (fr_document result) ttl;
      mret (fr_document result)
  end.

Lemma obtain_not_oauth svc url : raises not_oauth (obtain svc url).
Proof.
  unfold obtain, service_get, service_put, monotonic. raises_tac. apply fetch_not_oauth.
Qed.

(** ** The invariant *)

(** Under every key there is a validated document for that URL. *)
Definition cache_valid (c : dict (entry CimdDocument)) : Prop :=
  dict_wf c ∧ ∀ k e, dict_get c k = Some e → valid_document k (value e).

Context {HL : HasCacheLaws H}.

Lemma cache_get_valid c now k :
  cache_valid c →
  cache_valid (cache_get c now k).2 ∧
  (∀ d, (cache_get c now k).1 = Some d → valid_document k d).
Proof.
  intros [Hwf Hc]. unfold cache_get. destruct (dict_get c k) as [e|] eqn:E; [|done].
  destruct (expires_at e <=? now); cbn [fst snd]; [|split; [done|intros d [= <-]; auto]].
  split; [|done]. split; [auto with py|]. intros k' e' H'. apply Hc.
  destruct (decide (k = k')) as [->|]; [by rewrite dict_get_pop_eq in H'|].
  by rewrite dict_get_pop_ne in H'.
Qed.

Lemma cache_put_valid c now k d ttl :
  cache_valid c → valid_document k d → cache_valid (cache_put c now k d ttl).
Proof.
  intros [Hwf Hc] Hd. unfold cache_put. destruct (ttl <=? 0); [done|].
  split; [auto with py|]. intros k' e'. destruct (decide (k = k')) as [->|].
  - rewrite dict_get_set_eq. by intros [= <-].
  - rewrite dict_get_set_ne by done. apply Hc.
Qed.

Lemma obtain_run svc url s r s' :
  cache_valid (the_cache s.1) → obtain svc url s = (r, s') →
  cache_valid (the_cache s'.1) ∧ (∀ d, r = Ok d → valid_document url d).
Proof.
  intros Hinv. unfold obtain, service_get. io_run.
  destruct (cache_get_valid _ (o_monotonic s.2) url Hinv) as [Hc Hv].
  destruct (cache_get (the_cache s.1) (o_monotonic s.2) url) as [v c]. cbn [fst snd] in *. io_run.
  destruct v as [d|]; io_run.
  { intros [<- <-]%pair_eq. cbn [fst snd]. rewrite the_cache_with. split; [done|].
    intros d' [= <-]. by apply Hv. }
  destruct (fetch (cs_fetcher svc) url _) as [[res|e] s1] eqn:Hf.
  2: { intros [<- <-]%pair_eq. apply fetch_run in Hf as [-> _]. cbn [fst snd].
       by rewrite the_cache_with. }
  apply fetch_run in Hf as [Hs1 [(?&_&_&?)|(?&?&?&_&_&_&_&_&Hd)]]; [done|]. cbn [fst] in Hs1.
  destruct (Hd _ eq_refl) as [_ Hdoc]. unfold service_put.
  destruct (_ <=? 0); io_run; intros [<- <-]%pair_eq; cbn [fst snd].
  - rewrite Hs1, the_cache_with. split; [done|]. by intros d [= <-].
  - rewrite the_cache_with, Hs1, the_cache_with. split; [by apply cache_put_valid|].
    by intros d [= <-].
Qed.
(** Where the document of a run from [s] to [s'] came from: the cache held it,
    still fresh, under this URL; or a request for this URL was answered with it. *)
Definition document_source (url : pystr) (d : CimdDocument) (s s' : state X) : Prop :=
  (∃ e after, dict_get (the_cache s.1) url = Some e ∧ value e = d ∧ o_monotonic s.2 < expires_at e ∧
     s'.2 = after ++ EvMonotonic :: s.2) ∨
  (∃ after rq before, s'.2 = after ++ EvHttp rq :: before ++ s.2 ∧ read_from url d (before ++ s.2) rq).

Lemma document_source_later url d (s s1 s2 : state X) new :
  document_source url d s s1 → s2.2 = new ++ s1.2 → document_source url d s s2.
Proof.
  intros [(e & after & ? & ? & ? & E)|(after & rq & before & E & ?)] E2; [left|right].
  - exists e, (new ++ after). split_and!; try done. by rewrite E2, E, app_assoc.
  - exists (new ++ after), rq, before. split; [|done]. by rewrite E2, E, app_assoc.
Qed.

Lemma document_source_extends url d (s s' : state X) : document_source url d s s' → ∃ new, s'.2 = new ++ s.2.
Proof.
  intros [(e & after & _ & _ & _ & E)|(after & rq & before & E & _)].
  - exists (after ++ [EvMonotonic]). by rewrite E, <-app_assoc.
  - exists (after ++ EvHttp rq :: before). by rewrite E, <-app_assoc.
Qed.

Lemma obtain_source svc url s d s' : obtain svc url s = (Ok d, s') → document_source url d s s'.
Proof.
  unfold obtain, service_get. io_run. unfold cache_get.
  destruct (dict_get (the_cache s.1) url) as [e|] eqn:He;
    [destruct (Z.leb_spec (expires_at e) (o_monotonic s.2))|]; io_run.
  2: { intros [<-%Ok_inj <-]%pair_eq. left. by exists e, []. }
  all: destruct (fetch _ _ _) as [[res|e'] s1] eqn:Hf; [|done];
    apply fetch_reads in Hf as (h & rq & E & Hr); cbn [fst snd] in *;
    unfold service_put; destruct (_ <=? 0); io_run; intros [<-%Ok_inj <-]%pair_eq; right;
    eexists _, rq, [EvDns h; EvMonotonic]; cbn [fst snd app]; (split; [|exact Hr]).
  all: rewrite E; try exact (eq_refl ([] ++ _)); exact (eq_refl ([EvMonotonic] ++ _)).
Qed.

(** However a document is obtained -- from the cache or fetched, whether
    the call returns or raises -- the cache afterwards still holds only
    validated documents, each under its own URL; and what is returned is a
    validated document for the URL that was asked for, all of whose redirect
    URIs conform to the policy. *)
Theorem obtain_keeps_cache_valid svc url s r s' :
  cache_valid (the_cache s.1) →
  obtain svc url s = (r, s') →
  cache_valid (the_cache s'.1) ∧
  (∀ d, r = Ok d → valid_document url d ∧
     Forall (λ uri, accept_registered uri = Ok tt) (doc_redirect_uris d)).
Proof.
  intros Hinv [Hc Hd]%obtain_run; [|done]. split; [done|]. intros d E. apply Hd in E.
  split; [done|by eapply valid_document_uris].
Qed.

(** While a document is cached and fresh, obtaining it returns that very
    document and talks to nobody: no DNS query, no request, one clock reading. *)
Theorem obtain_cached_is_silent svc url s e :
  dict_get (the_cache s.1) url = Some e →
  o_monotonic s.2 < expires_at e →
  ∃ s', obtain svc url s = (Ok (value e), s') ∧ s'.2 = EvMonotonic :: s.2 ∧
    the_cache s'.1 = the_cache s.1.
Proof.
  intros He Ht. unfold obtain, service_get. io_run. unfold cache_get. rewrite He.
  replace (expires_at e <=? o_monotonic s.2) with false by lia. io_run.
  eexists. split; [done|]. cbn [fst snd]. by rewrite the_cache_with.
Qed.
End Service.

(** A first lookup fetches and stores; within the lifetime the second is silent. *)
Lemma obtain_keeps_cache_valid_witness :
  ∃ d s', obtain (O := FetchExamples.world)
      {| cs_fetcher := FetchExamples.fetcher; cache_ttl_min := 300; cache_ttl_max := 86400 |}
      FetchExamples.url ([], []) = (Ok d, s') ∧
    length (the_cache s'.1) = 1%nat ∧ cache_valid (the_cache s'.1).
Proof.
  eexists _, _. split; [vm_compute; reflexivity|]. split; [vm_compute; reflexivity|].
  refine (proj1 (obtain_keeps_cache_valid (O := FetchExamples.world)
    {| cs_fetcher := FetchExamples.fetcher; cache_ttl_min := 300; cache_ttl_max := 86400 |}
    FetchExamples.url ([], []) _ _ _ _)).
  - split; [apply NoDup_nil_2|done].
  - vm_compute. reflexivity.
Defined.

Lemma obtain_cached_is_silent_witness :
  let d := {| doc_client_id := FetchExamples.url; doc_redirect_uris := [];
              doc_raw := []; doc_cache_control := None |} in
  ∃ s', obtain (O := silent_world 10)
      {| cs_fetcher := FetchExamples.fetcher; cache_ttl_min := 300; cache_ttl_max := 86400 |}
      FetchExamples.url ([(FetchExamples.url, Entry d (seconds 11))], []) = (Ok d, s') ∧
    s'.2 = [EvMonotonic].
Proof.
  intros d.
  destruct (obtain_cached_is_silent (O := silent_world 10)
    {| cs_fetcher := FetchExamples.fetcher; cache_ttl_min := 300; cache_ttl_max := 86400 |}
    FetchExamples.url ([(FetchExamples.url, Entry d (seconds 11))], []) (Entry d (seconds 11)))
    as (s' & Ho & Ht & _).
  - vm_compute. reflexivity.
  - vm_compute. reflexivity.
  - exists s'. split; [exact Ho|exact Ht].
Defined.
