(* ===== verification/Config.v ===== *)
(** * Configuration ([config.py])

    [load_config] over an environment, the [RESOURCE_n_*] and
    [PAT_SIGNING_KEY_n_*] tables, and the lookup [resource_by_url] with its
    normalisation.

    The environment is a dictionary.  The signing keys are files: [FS] is
    what [Path.read_bytes] does.  The two tables are read by loops over an
    index; their fuel is one more than the number of variables, and
    [load_resources_total] and [load_keys_total] show that it suffices. *)

From S2P Require Import Prelude PyStr Codec Json World UrlLib Assertion.

(** ** Numbers in the environment *)

(** [float(s)]: a decimal is exact here, [m * 10 ^ e]; only its sign matters. *)
Inductive pyfloat := FNan | FInf (neg : bool) | FDec (neg : bool) (m : N) (e : Z).

(** Digits with single underscores between them, as long as they last. *)
Fixpoint float_digits (prev : bool) (s : pystr) : list N * pystr :=
  match s with
  | c :: r =>
      match decimal_value c with
      | Some d => let '(ds, t) := float_digits true r in (d :: ds, t)
      | None =>
          match r with
          | c' :: _ =>
              if (c =? 95)%N && prev && bool_decide (is_Some (decimal_value c'))
              then float_digits false r else ([], s)
          | [] => ([], s)
          end
      end
  | [] => ([], [])
  end.

Definition take_sign (s : pystr) : bool * pystr :=
  match s with
  | c :: r => if (c =? 45)%N then (true, r) else if (c =? 43)%N then (false, r) else (false, s)
  | [] => (false, [])
  end.

(** The exponent part, or nothing. *)
Definition float_exponent (s : pystr) : option Z :=
  match s with
  | [] => Some 0
  | c :: r =>
      if (c =? 101)%N || (c =? 69)%N then
        let '(neg, t) := take_sign r in
        match float_digits false t with
        | (d :: ds, []) =>
            let v := Z.of_N (digits_value (d :: ds)) in Some (if neg : bool then - v else v)
        | _ => None
        end
      else None
  end.

Definition parse_float (s : pystr) : option pyfloat :=
  let '(neg, t) := take_sign (strip s) in
  let l := lower t in
  if bool_decide (l = u "nan") then Some FNan
  else if bool_decide (l = u "inf") || bool_decide (l = u "infinity") then Some (FInf neg)
  else
    let '(int, r) := float_digits false t in
    let '(frac, r) := match r with
      | 46%N :: r' => float_digits false r'
      | _ => ([], r) end in
    if bool_decide (int ++ frac = []) then None
    else e ← float_exponent r;
         Some (FDec neg (digits_value (int ++ frac)) (e - Z.of_nat (length frac))).

(** [x <= 0]; a decimal below half the least subnormal rounds to zero. *)
Definition float_le_zero (x : pyfloat) : bool :=
  match x with
  | FNan => false
  | FInf neg => neg
  | FDec neg m e =>
      neg || if 0 <=? e then (m =? 0)%N else Z.of_N m * 2 ^ 1075 <=? 10 ^ (- e)
  end.

(** ** Data *)

Record ResourceEntry := {
  re_url : pystr;
  re_issuer : pystr;
  re_client_id : pystr;
  re_client_secret : pystr;
  re_pat_client_id : pystr;
  re_pat_client_secret : pystr
}.

Definition is_public (e : ResourceEntry) : bool := negb (truthy (re_client_secret e)).
Definition accepts_pat (e : ResourceEntry) : bool := truthy (re_pat_client_id e).

Section Config.
Context `{R : Rsa}.

Record PatConfig := {
  pc_database_url : pystr;
  pc_database_schema : pystr;
  pc_realm_issuer : pystr;
  pc_idp_alias : pystr;
  pc_admin_client_id : pystr;
  pc_admin_client_secret : pystr;
  pc_scopes : list pystr;
  pc_signer : AssertionSigner
}.

Record ProxyConfig := {
  public_url : pystr;
  secret_key : pystr;
  cfg_port : Z;
  bind_host : pystr;
  log_level : pystr;
  cimd_debug : bool;
  cimd_cache_ttl_min : Z;
  cimd_cache_ttl_max : Z;
  cimd_max_bytes : Z;
  cimd_fetch_timeout : pyfloat;
  default_resource : pystr;
  scopes_supported : list pystr;
  default_scope : pystr;
  resources : list ResourceEntry;
  pat : option PatConfig
}.

(** ** Looking a resource up *)

Definition _normalise_requested_url (url : pystr) : res pystr :=
  if negb (truthy url) then Ok url
  else
    parts ← urlsplit url;
    if bool_decide (path parts = u "/") && negb (truthy (query parts)) && negb (truthy (fragment parts))
    then Ok (urlunsplit {| scheme := scheme parts; netloc := netloc parts; path := [];
                           query := query parts; fragment := fragment parts |})
    else Ok url.

Definition find_resource (entries : list ResourceEntry) (target : pystr) : option ResourceEntry :=
  List.find (λ e, bool_decide (re_url e = target)) entries.
Definition resource_by_url (cfg : ProxyConfig) (url : pystr) : res (option ResourceEntry) :=
  target ← _normalise_requested_url url;
  Ok (find_resource (resources cfg) target).

Definition known_resources (cfg : ProxyConfig) : list pystr := re_url <$> resources cfg.

(** ** Reading the environment *)

Definition env_get (env : dict pystr) (name dflt : pystr) : pystr := dict_get_default env name dflt.

Definition _required (env : dict pystr) (name : pystr) : res pystr :=
  match dict_get env name with
  | Some value => if truthy (strip value) then Ok (strip value)
                  else Raise (ConfigError (name ++ u " is required"))
  | None => Raise (ConfigError (name ++ u " is required"))
  end.

Definition _int (raw name : pystr) : res Z :=
  try_except (py_int raw) is_ValueError
    (λ _, Raise (ConfigError (name ++ u " must be an integer, got " ++ repr raw))).

Definition _float (raw name : pystr) : res pyfloat :=
  match parse_float raw with
  | Some x => Ok x
  | None => Raise (ConfigError (name ++ u " must be a number, got " ++ repr raw))
  end.

Definition _bool (raw name : pystr) : res bool :=
  let lowered := lower (strip raw) in
  if bool_decide (lowered ∈ [u "true"; u "1"; u "yes"; u "on"]) then Ok true
  else if bool_decide (lowered ∈ [u "false"; u "0"; u "no"; u "off"; []]) then Ok false
  else Raise (ConfigError (name ++ u " must be a boolean, got " ++ repr raw)).

Definition _parse_scope_list (raw : pystr) : list pystr := split_words raw.
Definition _parse_scope_string (raw : pystr) : pystr := join (u " ") (split_words raw).

Definition indexed (base : pystr) (index : Z) (rest : pystr) : pystr :=
  base ++ str_of_Z index ++ rest.

(** *** The resource table *)

Definition _pat_client (env : dict pystr) (prefix : pystr) : res (pystr * pystr) :=
  let client_id := strip (env_get env (prefix ++ u "PAT_CLIENT_ID") []) in
  let client_secret := strip (env_get env (prefix ++ u "PAT_CLIENT_SECRET") []) in
  if xorb (truthy client_id) (truthy client_secret)
  then Raise (ConfigError (prefix ++ u "PAT_CLIENT_ID and " ++ prefix
    ++ u "PAT_CLIENT_SECRET are set together or not at all; the JWT Authorization Grant needs a confidential client"))
  else Ok (client_id, client_secret).

(** The highest index any [RESOURCE_n_] variable names, or -1. *)
Fixpoint highest_index (keys : list pystr) (highest : Z) : res Z :=
  match keys with
  | [] => Ok highest
  | key :: keys' =>
      if negb (startswith key (u "RESOURCE_")) then highest_index keys' highest
      else
        let '(idx_str, sep, _) := partition 95 (drop (length (u "RESOURCE_")) key) in
        if negb sep || negb (isdigit idx_str) then highest_index keys' highest
        else n ← py_int idx_str; highest_index keys' (Z.max highest n)
  end.

Definition load_resource (env : dict pystr) (index : Z) : res ResourceEntry :=
  let prefix := indexed (u "RESOURCE_") index (u "_") in
  if negb (existsb (λ k, startswith k prefix) env.*1)
  then Raise (ConfigError (u "RESOURCE table has a gap at index " ++ str_of_Z index
                           ++ u "; set higher indices are ignored"))
  else
    url ← _required env (prefix ++ u "URL");
    let url := rstrip_slash url in
    issuer ← _required env (prefix ++ u "ISSUER");
    let issuer := rstrip_slash issuer in
    client_id ← _required env (prefix ++ u "CLIENT_ID");
    let client_secret := env_get env (prefix ++ u "CLIENT_SECRET") [] in
    '(pat_client_id, pat_client_secret) ← _pat_client env prefix;
    if negb (contains url (u "://"))
    then Raise (ConfigError (prefix ++ u "URL " ++ repr url ++ u " is not a URL"))
    else if negb (contains issuer (u "://"))
    then Raise (ConfigError (prefix ++ u "ISSUER " ++ repr issuer ++ u " is not a URL"))
    else Ok {| re_url := url; re_issuer := issuer; re_client_id := client_id;
               re_client_secret := client_secret; re_pat_client_id := pat_client_id;
               re_pat_client_secret := pat_client_secret |}.

Fixpoint resource_loop (fuel : nat) (env : dict pystr) (index highest : Z)
    : res (list ResourceEntry) :=
  match fuel with
  | O => Raise fuel_error
  | S f =>
      if index <=? highest then
        e ← load_resource env index;
        es ← resource_loop f env (index + 1) highest;
        Ok (e :: es)
      else Ok []
  end.

Definition _load_resources (env : dict pystr) : res (list ResourceEntry) :=
  highest ← highest_index env.*1 (-1);
  resource_loop (S (length env)) env 0 highest.

(** *** Personal access tokens *)

Context {FS : pystr → pystr + bytes}.   (* Path.read_bytes; inl: the OSError's text *)

Definition load_key (env : dict pystr) (index : Z) : res SigningKey :=
  k ← _required env (indexed (u "PAT_SIGNING_KEY_") index (u "_KID"));
  file ← _required env (indexed (u "PAT_SIGNING_KEY_") index (u "_FILE"));
  match FS file with
  | inl m => Raise (ConfigError (indexed (u "PAT_SIGNING_KEY_") index (u "_FILE cannot be read: ") ++ m))
  | inr pem =>
      match from_pem k pem with
      | Raise (SigningKeyError m) => Raise (ConfigError m)
      | r => r
      end
  end.

Fixpoint key_loop (fuel : nat) (env : dict pystr) (index : Z) : res (list SigningKey) :=
  match fuel with
  | O => Raise fuel_error
  | S f =>
      if dict_mem env (indexed (u "PAT_SIGNING_KEY_") index (u "_KID"))
         || dict_mem env (indexed (u "PAT_SIGNING_KEY_") index (u "_FILE"))
      then
        k ← load_key env index;
        ks ← key_loop f env (index + 1);
        Ok (k :: ks)
      else Ok []
  end.

(** [re.match(r"^PAT_SIGNING_KEY_\d+_", k)]: the digits, if it matches. *)
Definition signing_key_index (k : pystr) : option pystr :=
  if startswith k (u "PAT_SIGNING_KEY_") then
    let '(ds, sep, _) := partition 95 (drop (length (u "PAT_SIGNING_KEY_")) k) in
    if sep && truthy ds && forallb (λ c, bool_decide (is_Some (decimal_value c))) ds
    then Some ds else None
  else None.

Fixpoint higher_keys (keys : list pystr) (index : Z) : res (list pystr) :=
  match keys with
  | [] => Ok []
  | k :: keys' =>
      match signing_key_index k with
      | None => higher_keys keys' index
      | Some ds =>
          n ← py_int ds;
          rest ← higher_keys keys' index;
          Ok (if index <=? n then k :: rest else rest)
      end
  end.

(** [sorted] on strings. *)
Fixpoint insert_str (s : pystr) (l : list pystr) : list pystr :=
  match l with
  | [] => [s]
  | t :: l' => if pystr_leb s t then s :: l else t :: insert_str s l'
  end.
Definition sorted (l : list pystr) : list pystr := foldr insert_str [] l.

Definition _load_signer (env : dict pystr) (public_url : pystr) : res AssertionSigner :=
  keys ← key_loop (S (length env)) env 0;
  let index := Z.of_nat (length keys) in
  higher ← higher_keys env.*1 index;
  match higher with
  | _ :: _ => Raise (ConfigError (u "PAT_SIGNING_KEY table has a gap at index " ++ str_of_Z index
                ++ u ": " ++ join (u ", ") (sorted higher)))
  | [] =>
      match keys with
      | [] => Raise (ConfigError (u "PAT_SIGNING_KEY_0_KID and PAT_SIGNING_KEY_0_FILE are required"))
      | _ =>
          if negb (bool_decide (NoDup (kid <$> keys)))
          then Raise (ConfigError (u "PAT_SIGNING_KEY_n_KID values must be unique"))
          else
            let issuer := or_str (Some (strip (env_get env (u "PAT_ASSERTION_ISSUER") []))) public_url in
            active ← _required env (u "PAT_SIGNING_KID");
            match new_signer issuer keys active with
            | Raise (SigningKeyError m) => Raise (ConfigError m)
            | r => r
            end
      end
  end.

(** [re.compile(r"^[a-z_][a-z0-9_]{0,62}$").match], on stripped text. *)
Definition is_schema_name (s : pystr) : bool :=
  match s with
  | [] => false
  | c :: r =>
      (is_ascii_lower c || (c =? 95)%N)
      && forallb (λ c, is_ascii_lower c || is_ascii_digit c || (c =? 95)%N) r
      && (length r <=? 62)%nat
  end.

Definition stray_key (kv : pystr * pystr) : bool :=
  (startswith kv.1 (u "PAT_") || contains kv.1 (u "_PAT_CLIENT_")) && truthy (strip kv.2).

Definition _load_pat (env : dict pystr) (public_url : pystr) (resources : list ResourceEntry)
    : res (option PatConfig) :=
  let database_url := strip (env_get env (u "PAT_DATABASE_URL") []) in
  if negb (truthy database_url) then
    match sorted (List.filter stray_key env).*1 with
    | [] => Ok None
    | stray => Raise (ConfigError (join (u ", ") stray
        ++ u " set but PAT_DATABASE_URL is not; personal access tokens are either fully configured or off"))
    end
  else
    let schema := strip (env_get env (u "PAT_DATABASE_SCHEMA") (u "cimd_proxy")) in
    if negb (is_schema_name schema) then
      Raise (ConfigError (u "PAT_DATABASE_SCHEMA " ++ repr schema ++ u " is not a plain lower-case identifier"))
    else
      realm ← _required env (u "PAT_REALM_ISSUER");
      let realm_issuer := rstrip_slash realm in
      raw_scopes ← _required env (u "PAT_SCOPES");
      let scopes := _parse_scope_list raw_scopes in
      let pat_resources := List.filter accepts_pat resources in
      match pat_resources with
      | [] => Raise (ConfigError (u "PAT_DATABASE_URL is set but no RESOURCE_n_PAT_CLIENT_ID is; a personal access token could not name any resource"))
      | _ =>
          _ ← for_each (λ entry,
            if bool_decide (re_issuer entry = realm_issuer) then Ok tt
            else Raise (ConfigError (u "resource " ++ repr (re_url entry)
              ++ u " accepts personal access tokens but its issuer " ++ repr (re_issuer entry)
              ++ u " is not PAT_REALM_ISSUER " ++ repr realm_issuer))) pat_resources;
          idp_alias ← _required env (u "PAT_IDP_ALIAS");
          admin_client_id ← _required env (u "PAT_ADMIN_CLIENT_ID");
          admin_client_secret ← _required env (u "PAT_ADMIN_CLIENT_SECRET");
          signer ← _load_signer env public_url;
          Ok (Some {| pc_database_url := database_url; pc_database_schema := schema;
                      pc_realm_issuer := realm_issuer; pc_idp_alias := idp_alias;
                      pc_admin_client_id := admin_client_id;
                      pc_admin_client_secret := admin_client_secret;
                      pc_scopes := scopes; pc_signer := signer |})
      end.

(** *** The whole configuration *)

Definition load_config (src : dict pystr) : res ProxyConfig :=
  public_url ← _required src (u "PROXY_PUBLIC_URL");
  let public_url := rstrip_slash public_url in
  secret_key ← _required src (u "PROXY_SECRET_KEY");
  port ← _int (env_get src (u "PROXY_PORT") (u "8080")) (u "PROXY_PORT");
  let bind_host := or_str (Some (strip (env_get src (u "PROXY_BIND_HOST") (u "0.0.0.0")))) (u "0.0.0.0") in
  let log_level := or_str (Some (upper (strip (env_get src (u "LOG_LEVEL") (u "INFO"))))) (u "INFO") in
  cimd_debug ← _bool (env_get src (u "CIMD_DEBUG") (u "false")) (u "CIMD_DEBUG");
  ttl_min ← _int (env_get src (u "CIMD_CACHE_TTL_MIN") (u "300")) (u "CIMD_CACHE_TTL_MIN");
  ttl_max ← _int (env_get src (u "CIMD_CACHE_TTL_MAX") (u "86400")) (u "CIMD_CACHE_TTL_MAX");
  if (ttl_min <=? 0) || (ttl_max <=? 0)
  then Raise (ConfigError (u "CIMD_CACHE_TTL_MIN and CIMD_CACHE_TTL_MAX must be positive"))
  else if ttl_max <? ttl_min
  then Raise (ConfigError (u "CIMD_CACHE_TTL_MIN must be <= CIMD_CACHE_TTL_MAX"))
  else
    max_bytes ← _int (env_get src (u "CIMD_MAX_BYTES") (u "5120")) (u "CIMD_MAX_BYTES");
    if max_bytes <=? 0 then Raise (ConfigError (u "CIMD_MAX_BYTES must be positive"))
    else
      fetch_timeout ← _float (env_get src (u "CIMD_FETCH_TIMEOUT") (u "5")) (u "CIMD_FETCH_TIMEOUT");
      if float_le_zero fetch_timeout then Raise (ConfigError (u "CIMD_FETCH_TIMEOUT must be positive"))
      else
        let default_resource := strip (env_get src (u "DEFAULT_RESOURCE") []) in
        let scopes_supported :=
          _parse_scope_list (env_get src (u "PROXY_SCOPES_SUPPORTED") (u "openid offline_access")) in
        let default_scope :=
          _parse_scope_string (env_get src (u "PROXY_DEFAULT_SCOPE") (u "openid offline_access")) in
        resources ← _load_resources src;
        if truthy default_resource
           && negb (existsb (λ r, bool_decide (re_url r = default_resource)) resources)
        then Raise (ConfigError (u "DEFAULT_RESOURCE " ++ repr default_resource
               ++ u " is not present in the RESOURCE_n table"))
        else
          pat ← _load_pat src public_url resources;
          Ok {| public_url := public_url; secret_key := secret_key; cfg_port := port;
                bind_host := bind_host; log_level := log_level; cimd_debug := cimd_debug;
                cimd_cache_ttl_min := ttl_min; cimd_cache_ttl_max := ttl_max;
                cimd_max_bytes := max_bytes; cimd_fetch_timeout := fetch_timeout;
                default_resource := default_resource; scopes_supported := scopes_supported;
                default_scope := default_scope; resources := resources; pat := pat |}.
End Config.

(** ** The tables are read to the end *)

Lemma str_of_Z_inj i j : 0 <= i → 0 <= j → str_of_Z i = str_of_Z j → i = j.
Proof.
  intros Hi Hj. unfold str_of_Z.
  replace (i <? 0) with false by lia. replace (j <? 0) with false by lia. intros H.
  apply (f_equal (λ s, digits_value ((λ c, c - 48)%N <$> s))) in H. rewrite !dec_value in H. lia.
Qed.

Lemma str_of_Z_no_underscore i : 0 <= i → 95%N ∉ str_of_Z i.
Proof.
  intros Hi. unfold str_of_Z. replace (i <? 0) with false by lia. intros Hin.
  pose proof (dec_all (Z.to_N i)) as H. rewrite Forall_forall in H. by apply H in Hin.
Qed.

(** A variable belongs to at most one row of a table. *)
Lemma index_unique base k i j s t :
  0 <= i → 0 <= j → k = indexed base i (u "_") ++ s → k = indexed base j (u "_") ++ t → i = j.
Proof.
  intros Hi Hj -> H. unfold indexed in H. rewrite <-!app_assoc in H. apply app_inv_head in H.
  apply (f_equal (partition 95)) in H. change (u "_" ++ s) with (95%N :: s) in H.
  change (u "_" ++ t) with (95%N :: t) in H.
  rewrite !partition_app in H by by apply str_of_Z_no_underscore.
  apply str_of_Z_inj; [done..|]. by simplify_eq.
Qed.

(** As many rows as have a variable of their own, no more than variables. *)
Lemma rows_le_keys (base : pystr) (keys : list pystr) (n : nat) :
  (∀ i, 0 <= i < Z.of_nat n → ∃ k s, k ∈ keys ∧ k = indexed base i (u "_") ++ s) →
  (n <= length keys)%nat.
Proof.
  intros H.
  assert (∃ l, NoDup l ∧ length l = n ∧ l ⊆ keys ∧
    ∀ k, k ∈ l → ∃ i s, 0 <= i < Z.of_nat n ∧ k = indexed base i (u "_") ++ s)
    as (l & Hnd & <- & Hsub & _).
  { induction n as [|n IH].
    - exists []. split; [apply NoDup_nil_2|]. split; [done|]. split; [set_solver|]. set_solver.
    - destruct IH as (l & Hnd & Hlen & Hsub & Hl); [intros i Hi; apply H; lia|].
      destruct (H (Z.of_nat n) ltac:(lia)) as (k & s & Hk & Ek).
      exists (k :: l). split; [apply NoDup_cons; split; [|done]|].
      { intros (i & t & Hi & Et)%Hl. pose proof (index_unique base k (Z.of_nat n) i s t ltac:(lia) ltac:(lia) Ek Et). lia. }
      split; [simpl; lia|]. split; [set_solver|].
      intros k' [->|(i & t & Hi & ->)%Hl]%elem_of_cons; [exists (Z.of_nat n), s|exists i, t];
        (split; [lia|done]). }
  apply NoDup_incl_length; [by apply NoDup_ListNoDup|].
  intros k Hk%list_elem_of_In. apply list_elem_of_In. auto.
Qed.

Lemma length_keys {A} (env : dict A) : length env.*1 = length env.
Proof. apply length_fmap. Qed.

Section ResourceTable.
Implicit Types (env : dict pystr).

Lemma load_resource_row env i e :
  load_resource env i = Ok e →
  ∃ k s, k ∈ env.*1 ∧ k = indexed (u "RESOURCE_") i (u "_") ++ s.
Proof.
  unfold load_resource. destruct (existsb _ env.*1) eqn:E; cbn [negb]; [|done]. intros _.
  apply existsb_exists in E as (k & Hk%list_elem_of_In & (s & Hs)%startswith_spec). eauto.
Qed.

Lemma load_resource_no_fuel env i : load_resource env i ≠ Raise fuel_error.
Proof.
  unfold load_resource, _required, _pat_client. destruct (negb _); [done|].
  repeat (case_match; simpl; try done).
Qed.

(** The loop, from row [i] on with all rows below it there. *)
Lemma resource_loop_total env f i highest :
  0 <= i → (S (length env) <= f + Z.to_nat i)%nat →
  (∀ j, 0 <= j < i → ∃ e, load_resource env j = Ok e) →
  resource_loop f env i highest ≠ Raise fuel_error.
Proof.
  revert i. induction f as [|f IH]; intros i Hi Hf Hrows.
  - exfalso. assert (Z.to_nat i <= length env.*1)%nat; [|rewrite length_keys in *; lia].
    apply (rows_le_keys (u "RESOURCE_")). intros j Hj.
    destruct (Hrows j ltac:(lia)) as (e & He). by eapply load_resource_row.
  - cbn [resource_loop]. destruct (i <=? highest); [|done].
    destruct (load_resource env i) as [e|x] eqn:E; cbn [mbind res_bind].
    + assert (Hnext : resource_loop f env (i + 1) highest ≠ Raise fuel_error).
      { apply IH; [lia|lia|]. intros j Hj. destruct (decide (j = i)) as [->|]; [eauto|].
        apply Hrows. lia. }
      destruct (resource_loop f env (i + 1) highest) as [|x]; cbn [mbind res_bind]; [done|].
      intros [= ->]. done.
    + intros [= ->]. by eapply load_resource_no_fuel.
Qed.

Lemma py_int_no_fuel s : py_int s ≠ Raise fuel_error.
Proof. unfold py_int. repeat (case_match; try done). Qed.

Lemma highest_index_no_fuel keys h : highest_index keys h ≠ Raise fuel_error.
Proof.
  revert h. induction keys as [|k keys IH]; intros h; cbn [highest_index]; [done|].
  destruct (negb _); [apply IH|]. destruct (partition _ _) as [[i s] t].
  destruct (_ || _); [apply IH|].
  destruct (py_int i) as [n|x] eqn:E; cbn [mbind res_bind]; [apply IH|].
  intros [= ->]. by eapply py_int_no_fuel.
Qed.

(** The loop over the resource table ends by itself. *)
Lemma load_resources_total env : _load_resources env ≠ Raise fuel_error.
Proof.
  unfold _load_resources. destruct (highest_index _ _) as [h|x] eqn:E; cbn [mbind res_bind].
  - apply resource_loop_total; [lia|lia|]. intros j Hj. lia.
  - intros [= ->]. by eapply highest_index_no_fuel.
Qed.

Lemma resource_loop_Ok env f i highest l :
  resource_loop f env i highest = Ok l →
  (∀ j e, l !! j = Some e → load_resource env (i + Z.of_nat j) = Ok e) ∧
  highest < i + Z.of_nat (length l).
Proof.
  revert i l. induction f as [|f IH]; intros i l; cbn [resource_loop]; [done|].
  destruct (i <=? highest) eqn:E; [|intros <-%Ok_inj; cbn; split; [done|lia]].
  intros (e & He & (es & Hes & <-%Ok_inj)%bind_Ok)%bind_Ok.
  destruct (IH _ _ Hes) as [Hrows Hlen]. cbn [length]. split; [|lia].
  intros [|j] e' Hj; cbn in Hj; simplify_eq.
  - by replace (i + Z.of_nat 0) with i by lia.
  - replace (i + Z.of_nat (S j)) with (i + 1 + Z.of_nat j) by lia. by apply Hrows.
Qed.

Lemma highest_index_Ok keys h m :
  highest_index keys h = Ok m →
  h <= m ∧
  ∀ idx rest n, u "RESOURCE_" ++ idx ++ u "_" ++ rest ∈ keys → 95%N ∉ idx →
    isdigit idx = true → py_int idx = Ok n → n <= m.
Proof.
  revert h. induction keys as [|k keys IH]; intros h; cbn [highest_index].
  { intros <-%Ok_inj. split; [done|]. intros ????. set_solver. }
  destruct (startswith k (u "RESOURCE_")) eqn:Es; cbn [negb].
  2: { intros [? H]%IH. split; [done|]. intros idx rest n [Hk|Hk]%elem_of_cons; [|by eauto].
       rewrite <-Hk, startswith_app in Es. done. }
  destruct (partition 95 _) as [[i sep] t] eqn:Ep.
  assert (Hcase : ∀ idx rest, u "RESOURCE_" ++ idx ++ u "_" ++ rest = k → 95%N ∉ idx →
    i = idx ∧ sep = true).
  { intros idx rest <- Hni. change (drop (length (u "RESOURCE_")) ?x) with (drop 9 x) in Ep.
    change (drop 9 (u "RESOURCE_" ++ ?x)) with x in Ep.
    change (u "_" ++ rest) with (95%N :: rest) in Ep. rewrite partition_app in Ep by done.
    by simplify_eq. }
  destruct (negb sep || negb (isdigit i)) eqn:Eb.
  - intros [? H]%IH. split; [done|]. intros idx rest n [Hk|Hk]%elem_of_cons Hni Hd; [|by eauto].
    destruct (Hcase _ _ Hk Hni) as [-> ->]. by rewrite Hd in Eb.
  - intros (n' & Hn' & [? H]%IH)%bind_Ok. split; [lia|].
    intros idx rest n [Hk|Hk]%elem_of_cons Hni Hd Hn; [|by eauto].
    destruct (Hcase _ _ Hk Hni) as [-> ->]. rewrite Hn' in Hn. simplify_eq. lia.
Qed.

(** The resource table has no gap: a configuration that loads has row [i]
    from the variables of index [i], for every index from 0 on, and covers
    every index any [RESOURCE_n_] variable names -- none is silently ignored. *)
Theorem resource_table_contiguous env l :
  _load_resources env = Ok l →
  (∀ i e, l !! i = Some e → load_resource env (Z.of_nat i) = Ok e) ∧
  ∀ idx rest n, u "RESOURCE_" ++ idx ++ u "_" ++ rest ∈ env.*1 → 95%N ∉ idx →
    isdigit idx = true → py_int idx = Ok n → n < Z.of_nat (length l).
Proof.
  unfold _load_resources. intros (h & Hh & Hl)%bind_Ok.
  apply resource_loop_Ok in Hl as [Hrows Hlen]. apply highest_index_Ok in Hh as [_ Hh].
  split; [exact Hrows|]. intros idx rest n Hin Hni Hd Hn.
  pose proof (Hh idx rest n Hin Hni Hd Hn). lia.
Qed.

Definition entry_ok (e : ResourceEntry) : Prop :=
  last (re_url e) ≠ Some 47%N ∧ contains (re_url e) (u "://") = true ∧
  last (re_issuer e) ≠ Some 47%N ∧ contains (re_issuer e) (u "://") = true ∧
  re_client_id e ≠ [] ∧
  accepts_pat e = truthy (re_pat_client_secret e).

Lemma _required_Ok env n v : _required env n = Ok v → v ≠ [].
Proof. unfold _required. destruct (dict_get env n) as [w|]; [|done]. by destruct (strip w); [|intros <-%Ok_inj]. Qed.

Lemma rstrip_slash_last s : last (rstrip_slash s) ≠ Some 47%N.
Proof. intros H. by apply rstrip_by_last in H. Qed.

Lemma load_resource_ok env i e : load_resource env i = Ok e → entry_ok e.
Proof.
  unfold load_resource. destruct (negb _); [done|].
  intros (url & _ & H)%bind_Ok. apply bind_Ok in H as (issuer & _ & H).
  apply bind_Ok in H as (cid & Hcid & H). apply bind_Ok in H as ([pid psec] & Hp & H).
  destruct (contains (rstrip_slash url) _) eqn:Hu; cbn [negb] in H; [|done].
  destruct (contains (rstrip_slash issuer) _) eqn:Hi; cbn [negb] in H; [|done].
  apply Ok_inj in H as <-. repeat split; cbn; try done; try apply rstrip_slash_last.
  - by eapply _required_Ok.
  - unfold accepts_pat. cbn. unfold _pat_client in Hp.
    destruct (truthy (strip _)) eqn:E1, (truthy (strip (env_get env (_ ++ u "PAT_CLIENT_SECRET") _))) eqn:E2;
      cbn [xorb] in Hp; try done; apply Ok_inj, pair_eq in Hp as [<- <-]; by rewrite E1, E2.
Qed.

Lemma load_resources_ok env l : _load_resources env = Ok l → Forall entry_ok l.
Proof.
  unfold _load_resources. intros (h & _ & [Hrows _]%resource_loop_Ok)%bind_Ok.
  apply Forall_lookup. intros i e Hi. by eapply load_resource_ok, Hrows.
Qed.
End ResourceTable.

(** ** What a loaded configuration satisfies *)

Section ConfigLemmas.
Context `{R : Rsa} {FS : pystr → pystr + bytes}.
Implicit Types (env : dict pystr).

Lemma load_key_no_fuel env i : load_key (FS := FS) env i ≠ Raise fuel_error.
Proof. unfold load_key, _required, from_pem. repeat (case_match; simpl; try done). Qed.

Lemma key_row env i :
  dict_mem env (indexed (u "PAT_SIGNING_KEY_") i (u "_KID"))
  || dict_mem env (indexed (u "PAT_SIGNING_KEY_") i (u "_FILE")) = true →
  ∃ k s, k ∈ env.*1 ∧ k = indexed (u "PAT_SIGNING_KEY_") i (u "_") ++ s.
Proof.
  assert (Hmem : ∀ k, dict_mem env k = true → k ∈ env.*1).
  { intros k. unfold dict_mem. destruct (dict_get env k) as [v|] eqn:E; [|done]. intros _.
    apply dict_get_Some_elem in E. by apply (list_elem_of_fmap_2 fst) in E. }
  intros [H%Hmem|H%Hmem]%orb_true_iff; 
    [eexists _, (u "KID")|eexists _, (u "FILE")];
    (split; [exact H|]); unfold indexed; by rewrite <-!app_assoc.
Qed.

Lemma key_loop_total env f i :
  0 <= i → (S (length env) <= f + Z.to_nat i)%nat →
  (∀ j, 0 <= j < i → ∃ k s, k ∈ env.*1 ∧ k = indexed (u "PAT_SIGNING_KEY_") j (u "_") ++ s) →
  key_loop (FS := FS) f env i ≠ Raise fuel_error.
Proof.
  revert i. induction f as [|f IH]; intros i Hi Hf Hrows.
  - exfalso. assert (Z.to_nat i <= length env.*1)%nat; [|rewrite length_keys in *; lia].
    apply (rows_le_keys (u "PAT_SIGNING_KEY_")). intros j Hj. apply Hrows. lia.
  - cbn [key_loop]. destruct (_ || _) eqn:Em; [|done]. apply key_row in Em.
    destruct (load_key env i) as [e|x] eqn:E; cbn [mbind res_bind].
    + assert (Hnext : key_loop (FS := FS) f env (i + 1) ≠ Raise fuel_error).
      { apply IH; [lia|lia|]. intros j Hj. destruct (decide (j = i)) as [->|]; [done|].
        apply Hrows. lia. }
      destruct (key_loop f env (i + 1)) as [|x]; cbn [mbind res_bind]; [done|].
      intros [= ->]. done.
    + intros [= ->]. by eapply load_key_no_fuel.
Qed.

(** The loop over the signing keys ends by itself. *)
Lemma load_keys_total env : key_loop (FS := FS) (S (length env)) env 0 ≠ Raise fuel_error.
Proof. apply key_loop_total; [lia|lia|]. intros j Hj. lia. Qed.

Definition pat_ok (entries : list ResourceEntry) (p : PatConfig) : Prop :=
  pc_database_url p ≠ [] ∧ is_schema_name (pc_database_schema p) = true ∧
  (∃ e, e ∈ entries ∧ accepts_pat e = true) ∧
  (∀ e, e ∈ entries → accepts_pat e = true → re_issuer e = pc_realm_issuer p) ∧
  signer_ok (pc_signer p) ∧ NoDup (kid <$> signer_keys (pc_signer p)).

Definition config_ok (cfg : ProxyConfig) : Prop :=
  last (public_url cfg) ≠ Some 47%N ∧ secret_key cfg ≠ [] ∧
  0 < cimd_cache_ttl_min cfg <= cimd_cache_ttl_max cfg ∧
  0 < cimd_max_bytes cfg ∧ float_le_zero (cimd_fetch_timeout cfg) = false ∧
  (default_resource cfg = [] ∨ default_resource cfg ∈ known_resources cfg) ∧
  Forall entry_ok (resources cfg) ∧
  (∀ p, pat cfg = Some p → pat_ok (resources cfg) p).

Lemma load_signer_ok env url s :
  _load_signer (FS := FS) env url = Ok s → signer_ok s ∧ NoDup (kid <$> signer_keys s).
Proof.
  unfold _load_signer. intros (keys & _ & H)%bind_Ok. cbv zeta in H.
  apply bind_Ok in H as (higher & _ & H). destruct higher; [|done].
  destruct keys as [|k keys]; [done|].
  destruct (bool_decide (NoDup _)) eqn:Hn; cbn [negb] in H; [|done].
  apply bind_Ok in H as (active & _ & H).
  destruct (new_signer _ _ active) as [s'|e] eqn:Hs; [|by destruct e].
  apply Ok_inj in H as ->. split; [by eapply new_signer_ok|].
  unfold new_signer in Hs. destruct (existsb _ _); [|done]. apply Ok_inj in Hs as <-.
  by apply bool_decide_eq_true in Hn.
Qed.

Lemma load_pat_ok env url entries p :
  _load_pat (FS := FS) env url entries = Ok (Some p) → pat_ok entries p.
Proof.
  unfold _load_pat. cbv zeta. destruct (truthy (strip _)) eqn:Hdb; cbn [negb].
  2: { by destruct (sorted _). }
  destruct (is_schema_name _) eqn:Hsch; cbn [negb]; [|done].
  intros (realm & _ & H)%bind_Ok. apply bind_Ok in H as (scopes & _ & H).
  destruct (List.filter accepts_pat entries) as [|e es] eqn:Hf; [done|].
  rewrite <-Hf in H. apply bind_Ok in H as ([] & Heach & H).
  apply bind_Ok in H as (? & _ & H). apply bind_Ok in H as (? & _ & H).
  apply bind_Ok in H as (? & _ & H). apply bind_Ok in H as (s & Hs & H).
  apply Ok_inj in H as [= <-]. apply load_signer_ok in Hs as [Hs1 Hs2].
  split; [cbn; by destruct (strip _)|]. split; [done|]. split.
  { assert (Hin : In e (List.filter accepts_pat entries)) by (rewrite Hf; by left).
    apply filter_In in Hin as [Hin%list_elem_of_In ?]. eauto. }
  split; [|by split]. intros e' Hin Hacc. cbn.
  rewrite for_each_Ok, Forall_forall in Heach. specialize (Heach e').
  rewrite list_elem_of_In, filter_In, <-list_elem_of_In in Heach.
  specialize (Heach (conj Hin Hacc)). by case_bool_decide.
Qed.

Lemma load_config_inv src cfg : load_config (FS := FS) src = Ok cfg → config_ok cfg.
Proof.
  unfold load_config. cbv zeta.
  intros (purl & _ & H)%bind_Ok. apply bind_Ok in H as (skey & Hskey & H).
  apply bind_Ok in H as (port & _ & H). apply bind_Ok in H as (dbg & _ & H).
  apply bind_Ok in H as (tmin & _ & H). apply bind_Ok in H as (tmax & _ & H).
  destruct (_ || _) eqn:E1; [done|]. destruct (tmax <? tmin) eqn:E2; [done|].
  apply bind_Ok in H as (maxb & _ & H). destruct (maxb <=? 0) eqn:E3; [done|].
  apply bind_Ok in H as (tmo & _ & H). destruct (float_le_zero tmo) eqn:E4; [done|].
  apply bind_Ok in H as (rs & Hrs & H). set (dr := strip (env_get src (u "DEFAULT_RESOURCE") [])) in *.
  destruct (truthy dr && _) eqn:E5; [done|]. apply bind_Ok in H as (p & Hp & H).
  apply Ok_inj in H as <-. unfold config_ok. cbn -[u dr strip env_get].
  split; [apply rstrip_slash_last|]. split; [by eapply _required_Ok|].
  split; [lia|]. split; [lia|]. split; [done|]. split.
  - destruct dr as [|c dr'] eqn:Edr; [by left|right]. cbn [truthy andb] in E5.
    apply negb_false_iff, existsb_exists in E5 as (e & He%list_elem_of_In & Hu%bool_decide_eq_true).
    unfold known_resources. cbn. rewrite <-Hu. by apply list_elem_of_fmap_2.
  - split; [by eapply load_resources_ok|]. intros p' ->. by eapply load_pat_ok.
Qed.

(** C31. A configuration that loads is usable: bounds are positive and ordered,
    the public URL and every table URL are without trailing slash, every
    resource has a client, a PAT client id comes with its secret, the default
    resource is in the table, and when personal access tokens are on, at least
    one resource accepts them, all of those are in the token realm, and the
    active signing key is one of uniquely named configured keys. *)
Theorem load_config_ok src cfg : load_config (FS := FS) src = Ok cfg → config_ok cfg.
Proof. apply load_config_inv. Qed.

(** *** What loading may raise *)

Definition config_error (e : exn) : Prop := (∃ m, e = ConfigError m) ∨ ∃ m, e = ValueError m.
Lemma config_error_config m : config_error (ConfigError m).
Proof. left. by eexists. Qed.
Lemma py_int_config s : raises_only config_error (py_int s).
Proof.
  intros e H. right. unfold py_int, int_error in H. repeat case_match; try done;
    apply Raise_inj in H as <-; by eexists.
Qed.
Definition config_or_fuel (e : exn) : Prop := config_error e ∨ e = fuel_error.
Lemma config_or_fuel_config m : config_or_fuel (ConfigError m).
Proof. left. apply config_error_config. Qed.
Lemma int_config raw name : raises_only config_error (_int raw name).
Proof.
  unfold _int. eapply raises_only_try; [apply py_int_config|done|]. intros ? _ _.
  apply raises_only_Raise, config_error_config.
Qed.
Lemma required_config env name : raises_only config_error (_required env name).
Proof. unfold _required. raises_pure; apply config_error_config. Qed.

Local Hint Resolve config_error_config config_or_fuel_config py_int_config int_config required_config : raises.

Lemma load_resource_config env i : raises_only config_error (load_resource env i).
Proof. unfold load_resource, _pat_client. raises_pure. Qed.
Lemma load_key_config env i : raises_only config_error (load_key (FS := FS) env i).
Proof. unfold load_key, from_pem. raises_pure; exfalso; repeat case_match; congruence. Qed.

Lemma resource_loop_config f env i highest :
  raises_only config_or_fuel (resource_loop f env i highest).
Proof.
  revert i. induction f as [|f IH]; intros i; cbn [resource_loop].
  - apply raises_only_Raise. by right.
  - destruct (i <=? highest); [|apply raises_only_Ok]. apply raises_only_bind.
    + eapply raises_only_weaken; [apply load_resource_config|by left].
    + intros e. apply raises_only_bind; [apply IH|intros es; apply raises_only_Ok].
Qed.
Lemma key_loop_config f env i : raises_only config_or_fuel (key_loop (FS := FS) f env i).
Proof.
  revert i. induction f as [|f IH]; intros i; cbn [key_loop].
  - apply raises_only_Raise. by right.
  - destruct (_ || _); [|apply raises_only_Ok]. apply raises_only_bind.
    + eapply raises_only_weaken; [apply load_key_config|by left].
    + intros e. apply raises_only_bind; [apply IH|intros es; apply raises_only_Ok].
Qed.

Lemma highest_index_config keys h : raises_only config_error (highest_index keys h).
Proof.
  revert h. induction keys as [|k keys IH]; intros h; cbn [highest_index]; raises_pure.
Qed.
Lemma higher_keys_config keys i : raises_only config_error (higher_keys keys i).
Proof. induction keys as [|k keys IH]; cbn [higher_keys]; raises_pure. Qed.

(** The loops end by themselves, so what is left is no lack of fuel. *)
Lemma load_resources_config env : raises_only config_error (_load_resources env).
Proof.
  intros e H. assert (Hf : config_or_fuel e).
  { revert e H. unfold _load_resources. apply raises_only_bind; [|intros h; apply resource_loop_config].
    eapply raises_only_weaken; [apply highest_index_config|by left]. }
  destruct Hf as [Hf|Hf]; [exact Hf|]. subst e. by apply load_resources_total in H.
Qed.

Lemma load_signer_config env url : raises_only config_error (_load_signer (FS := FS) env url).
Proof.
  unfold _load_signer, new_signer. apply raises_only_bind.
  - intros e H. destruct (key_loop_config _ _ _ e H) as [Hf|Hf]; [exact Hf|]. subst e. by apply load_keys_total in H.
  - intros keys. apply raises_only_bind; [apply higher_keys_config|]. intros higher. cbv zeta.
    raises_pure; exfalso; repeat case_match; congruence.
Qed.

Lemma load_pat_config env url entries : raises_only config_error (_load_pat (FS := FS) env url entries).
Proof.
  unfold _load_pat. cbv zeta. raises_pure; try apply load_signer_config.
  apply raises_only_for_each. raises_pure.
Qed.

(** Loading the configuration always ends: whatever the environment and the
    key files, the two loops over numbered variables run out of variables before
    they run out of fuel, and the outcome is a configuration, a [ConfigError],
    or the [ValueError] of [int] on an index that is no decimal number or has
    more than 4300 digits. *)
Theorem load_config_terminates src :
  (∃ cfg, load_config (FS := FS) src = Ok cfg) ∨
  ∃ e, load_config (FS := FS) src = Raise e ∧ config_error e ∧ e ≠ fuel_error.
Proof.
  assert (H : raises_only config_error (load_config (FS := FS) src)).
  { unfold load_config, _bool, _float. cbv zeta. raises_pure;
      first [apply load_resources_config|apply load_pat_config]. }
  destruct (load_config src) as [cfg|e]; [left; eauto|right]. exists e. split; [done|].
  specialize (H e eq_refl). split; [done|]. intros ->. by destruct H as [[? ?]|[? ?]].
Qed.
End ConfigLemmas.

(** ** Looking a resource up *)

(** Host characters that [urlsplit] and its checks pass through. *)
Definition is_host_char (c : N) : bool :=
  is_ascii_lower c || is_ascii_digit c || (c =? 46)%N || (c =? 45)%N || (c =? 58)%N.

Lemma clean_url_plain s : forallb (λ c, 32 <? c)%N s = true → clean_url s = s.
Proof.
  intros H. unfold clean_url. rewrite lstrip_by_none.
  2: { eapply forallb_impl; [|exact H]. intros c Hc. unfold is_c0_or_space. simpl in *. lia. }
  induction s as [|c s IH]; [done|]. cbn [List.filter forallb] in *.
  apply andb_true_iff in H as [Hc Hs]. unfold is_unsafe at 1.
  replace (c =? 9)%N with false by lia. replace (c =? 10)%N with false by lia.
  replace (c =? 13)%N with false by lia. cbn [orb negb]. by rewrite IH.
Qed.

Lemma span_not_app f h rest :
  forallb (λ c, negb (f c)) h = true → (∀ c, head rest = Some c → f c = true) →
  span_not f (h ++ rest) = (h, rest).
Proof.
  intros Hh Hr. induction h as [|c h IH]; cbn [app].
  - destruct rest as [|c r]; [done|]. cbn. by rewrite Hr.
  - cbn [forallb] in Hh. apply andb_true_iff in Hh as [Hc%negb_true_iff Hh].
    cbn [span_not]. rewrite Hc. by rewrite IH.
Qed.

(** A URL of a plain host and a path without query or fragment. *)
Lemma urlsplit_https h p :
  forallb is_host_char h = true →
  forallb (λ c, (32 <? c) && negb (c =? 35) && negb (c =? 63))%N p = true →
  (p = [] ∨ head p = Some 47%N) →
  urlsplit (u "https://" ++ h ++ p) = Ok {| scheme := u "https"; netloc := h; path := p;
                                            query := []; fragment := [] |}.
Proof.
  intros Hh Hp Hhead. unfold urlsplit.
  assert (Hni : ∀ c, is_host_char c = false → c ∉ h).
  { intros c Hc Hin%list_elem_of_In. rewrite forallb_forall in Hh. apply Hh in Hin. congruence. }
  rewrite clean_url_plain.
  2: { rewrite !forallb_app. apply andb_true_iff; split; [done|]. apply andb_true_iff; split.
       - eapply forallb_impl; [|exact Hh]. intros c Hc.
         unfold is_host_char, is_ascii_lower, is_ascii_digit in Hc. simpl. lia.
       - eapply forallb_impl; [|exact Hp]. intros c Hc. simpl in *. lia. }
  change (split_scheme (u "https://" ++ h ++ p)) with (u "https", u "//" ++ h ++ p). cbv iota beta.
  unfold split_netloc. rewrite startswith_app. change (drop 2 (u "//" ++ ?x)) with x.
  rewrite span_not_app.
  2: { eapply forallb_impl; [|exact Hh]. intros c Hc.
       unfold is_host_char, is_ascii_lower, is_ascii_digit in Hc. unfold is_netloc_end. simpl. lia. }
  2: { destruct Hhead as [->|Hp']; [done|]. rewrite Hp'. by intros c [= <-]. }
  rewrite (proj2 (has_char_false 91 h)), (proj2 (has_char_false 93 h)) by by apply Hni.
  cbn [xorb mbind res_bind].
  assert (Hpn : ∀ c, (c = 35 ∨ c = 63)%N → c ∉ p).
  { intros c Hc Hin%list_elem_of_In. rewrite forallb_forall in Hp. apply Hp in Hin.
    destruct Hc as [-> | ->]; done. }
  rewrite (partition_notin 35 p), (partition_notin 63 p) by (apply Hpn; auto).
  unfold check_netloc. replace (existsb _ h) with false; [done|].
  symmetry. apply not_true_iff_false. intros (c & Hin & Hc)%existsb_exists.
  apply existsb_exists in Hc as (d & Hd & Heq%N.eqb_eq). subst d.
  rewrite forallb_forall in Hh. apply Hh in Hin.
  assert (H : forallb (λ c, negb (is_host_char c)) nfkc_delimiters = true) by reflexivity.
  rewrite forallb_forall in H. apply H in Hd. by rewrite Hin in Hd.
Qed.

(** A resource is found under its URL and under the same URL with a final
    slash, and under nothing else of the kind: for a plain host, both
    [https://host] and [https://host/] look up [https://host], while a URL
    with any longer path is compared as it stands. *)
Theorem resource_lookup_folds_root `{R : Rsa} cfg h p :
  forallb is_host_char h = true → h ≠ [] →
  forallb (λ c, (32 <? c) && negb (c =? 35) && negb (c =? 63))%N p = true →
  (p = [] ∨ head p = Some 47%N) →
  resource_by_url cfg (u "https://" ++ h ++ p) =
    Ok (find_resource (resources cfg)
          (u "https://" ++ h ++ if decide (p = u "/") then [] else p)).
Proof.
  intros Hh Hne Hp Hhead. unfold resource_by_url, _normalise_requested_url.
  change (negb (truthy (u "https://" ++ h ++ p))) with false. cbv iota.
  rewrite urlsplit_https by done. cbn [mbind res_bind path query fragment scheme netloc truthy negb].
  destruct (decide (p = u "/")) as [->|Hroot].
  - rewrite bool_decide_true by done. cbn [andb mbind res_bind].
    unfold urlunsplit. cbn [path query fragment scheme netloc].
    destruct h as [|c h]; [done|]. cbn [truthy andb app]. by rewrite !app_nil_r.
  - by rewrite bool_decide_false.
Qed.

(** ** Examples *)
Module ConfigExamples.
#[local] Existing Instance AssertionExamples.toy_rsa.
#[local] Existing Instance AssertionExamples.toy_rsa_laws.

Definition files : pystr → pystr + bytes := λ f,
  if decide (f = u "/k1.pem") then inr (1%N :: replicate 256 0%N) else inl (u "No such file").

Definition sample_env : dict pystr :=
  [(u "PROXY_PUBLIC_URL", u "https://proxy.example/");
   (u "PROXY_SECRET_KEY", u "s3cret");
   (u "DEFAULT_RESOURCE", u "https://r0.example");
   (u "RESOURCE_0_URL", u "https://r0.example/");
   (u "RESOURCE_0_ISSUER", u "https://kc.example/realms/main");
   (u "RESOURCE_0_CLIENT_ID", u "r0-client");
   (u "RESOURCE_0_PAT_CLIENT_ID", u "r0-pat");
   (u "RESOURCE_0_PAT_CLIENT_SECRET", u "r0-secret");
   (u "PAT_DATABASE_URL", u "postgres://db");
   (u "PAT_REALM_ISSUER", u "https://kc.example/realms/main/");
   (u "PAT_SCOPES", u "read write");
   (u "PAT_IDP_ALIAS", u "proxy");
   (u "PAT_ADMIN_CLIENT_ID", u "admin");
   (u "PAT_ADMIN_CLIENT_SECRET", u "admin-secret");
   (u "PAT_SIGNING_KEY_0_KID", u "k1");
   (u "PAT_SIGNING_KEY_0_FILE", u "/k1.pem");
   (u "PAT_SIGNING_KID", u "k1")].

Definition sample_config : ProxyConfig :=
  match load_config (FS := files) sample_env with
  | Ok cfg => cfg
  | Raise _ => {| public_url := []; secret_key := []; cfg_port := 0; bind_host := []; log_level := [];
      cimd_debug := false; cimd_cache_ttl_min := 0; cimd_cache_ttl_max := 0; cimd_max_bytes := 0;
      cimd_fetch_timeout := FNan; default_resource := []; scopes_supported := [];
      default_scope := []; resources := []; pat := None |}
  end.

Lemma load_config_ok_witness :
  load_config (FS := files) sample_env = Ok sample_config ∧ config_ok sample_config.
Proof.
  assert (E : load_config (FS := files) sample_env = Ok sample_config) by (vm_compute; reflexivity).
  split; [exact E|]. exact (load_config_ok (FS := files) sample_env sample_config E).
Defined.

Lemma resource_table_contiguous_witness :
  ∃ l, _load_resources sample_env = Ok l ∧ length l = 1%nat ∧
    ∀ i e, l !! i = Some e → load_resource sample_env (Z.of_nat i) = Ok e.
Proof.
  eexists. split; [vm_compute; reflexivity|]. split; [reflexivity|].
  refine (proj1 (resource_table_contiguous sample_env _ _)). vm_compute. reflexivity.
Defined.

Lemma resource_lookup_folds_root_witness :
  resource_by_url sample_config (u "https://" ++ u "r0.example" ++ u "/") =
    Ok (find_resource (resources sample_config)
          (u "https://" ++ u "r0.example" ++ if decide (u "/" = u "/") then [] else u "/")).
Proof.
  exact (resource_lookup_folds_root sample_config (u "r0.example") (u "/")
    eq_refl ltac:(done) eq_refl (or_intror eq_refl)).
Defined.

(** A gap is an error, and so is a superscript digit -- though not the error
    the loader means to raise. *)
Example table_gap :
  _load_resources (dict_set sample_env (u "RESOURCE_2_URL") (u "https://r2.example"))
    = Raise (ConfigError (u "RESOURCE table has a gap at index 1; set higher indices are ignored")).
Proof. vm_compute. reflexivity. Qed.
Example superscript_index_escapes :
  is_Ok (_load_resources (dict_set sample_env (u "RESOURCE_" ++ [0xb2%N] ++ u "_URL") (u "x"))) = false ∧
  match _load_resources (dict_set sample_env (u "RESOURCE_" ++ [0xb2%N] ++ u "_URL") (u "x")) with
  | Raise (ValueError _) => True | _ => False end.
Proof. vm_compute. done. Qed.
End ConfigExamples.
