(* ===== verification/Register.v ===== *)
(** * Dynamic client registration ([register.py])

    The handler of POST [/register] and its validation.  What [request.json()]
    returns is given: the value, or the text of the [ValueError] it raises.

    [register_sealed] is the contract: exactly the conforming bodies are
    registered, each with a [client_id] that opens to the redirect URIs the body
    lists. *)

From S2P Require Import Prelude PyStr Codec Json World Errors Logging Pkce UrlLib RedirectUri.
From S2P Require Import Envelope.

Definition forbidden_auth_methods : list pystr :=
  [u "client_secret_post"; u "client_secret_basic"; u "client_secret_jwt"].

Definition em_dash : N := 0x2014.

Definition metadata_error (d : pystr) : exn := RegistrationError (u "invalid_client_metadata") d 400.
Definition uri_error (d : pystr) : exn := RegistrationError (u "invalid_redirect_uri") d 400.

Definition is_RegistrationError (e : exn) : bool :=
  match e with RegistrationError _ _ _ => true | _ => false end.

(** [_read_json], on what [request.json()] did. *)
Definition _read_json (body : pystr + json) : res (dict json) :=
  match body with
  | inl m => Raise (metadata_error (u "request body is not valid JSON: " ++ m))
  | inr (JObj d) => Ok d
  | inr _ => Raise (metadata_error (u "request body must be a JSON object"))
  end.

Definition _reject_disallowed_redirect (uri : pystr) : res unit :=
  match accept_registered uri with
  | Raise (RedirectUriRefused m) => Raise (uri_error m)
  | r => r
  end.

(** [isinstance(u, str) and u] for every entry. *)
Definition nonempty_str (j : json) : option pystr :=
  match j with JStr (c :: s) => Some (c :: s) | _ => None end.

Definition _validate (payload : dict json) : res (list pystr * pystr * pystr) :=
  if dict_mem payload (u "client_secret") then
    Raise (metadata_error (u "client_secret must not be supplied " ++ [em_dash]
                           ++ u " the proxy issues public clients only"))
  else
    match dict_get payload (u "redirect_uris") with
    | Some (JArr (j :: l)) =>
        match mapM nonempty_str (j :: l) with
        | None => Raise (uri_error (u "every redirect_uris entry must be a non-empty string"))
        | Some raw_uris =>
            _ ← for_each _reject_disallowed_redirect raw_uris;
            match dict_get_default payload (u "token_endpoint_auth_method") (JStr (u "none")) with
            | JStr m =>
                if bool_decide (m ∈ forbidden_auth_methods) then
                  Raise (metadata_error (u "token_endpoint_auth_method " ++ repr m
                                         ++ u " relies on a shared symmetric secret"))
                else if negb (bool_decide (m = u "none")) then
                  Raise (metadata_error (u "token_endpoint_auth_method " ++ repr m
                                         ++ u " is not supported; only 'none' is permitted"))
                else
                  match dict_get_default payload (u "client_name") (JStr []) with
                  | JStr client_name => Ok (raw_uris, m, client_name)
                  | _ => Raise (metadata_error (u "client_name must be a string"))
                  end
            | _ => Raise (metadata_error (u "token_endpoint_auth_method must be a string"))
            end
        end
    | _ => Raise (uri_error (u "redirect_uris must be a non-empty array"))
    end.

(** The body of the handler's [try]. *)
Definition admitted (body : pystr + json) : res (list pystr * pystr * pystr) :=
  payload ← _read_json body; _validate payload.

Section Register.
Context `{O : Outside, F : Fernet, FR : FloatRepr} {X : Type}.

(** The response body of RFC 7591, 3.2.1. *)
Definition registered_body (client_id : pystr) (issued_at : Z) (redirect_uris : list pystr)
    (auth_method client_name : pystr) : dict json :=
  let body := [
    (u "client_id", JStr client_id);
    (u "client_id_issued_at", JInt issued_at);
    (u "redirect_uris", JArr (JStr <$> redirect_uris));
    (u "token_endpoint_auth_method", JStr auth_method);
    (u "grant_types", JArr [JStr (u "authorization_code"); JStr (u "refresh_token")]);
    (u "response_types", JArr [JStr (u "code")])] in
  if truthy client_name then dict_set body (u "client_name") (JStr client_name) else body.

Definition register (key : fkey) (body : pystr + json) : io X response :=
  cid ← new_correlation_id;
  _ ← bind_correlation_id cid;
  match admitted body with
  | Raise (RegistrationError error description status_code) =>
      _ ← log WARNING [(u "event", JStr (u "register.rejected")); (u "error", JStr error);
                       (u "error_description", JStr (sanitize_str description))];
      mret (JSONResponse status_code (as_dict error description) [])
  | Raise e => raise e
  | Ok (redirect_uris, auth_method, client_name) =>
      issued_at ← time;
      client_id ← pack_registration key {|
        rg_redirect_uris := redirect_uris; rg_token_endpoint_auth_method := auth_method;
        rg_client_id_issued_at := issued_at; rg_client_name := client_name |};
      _ ← log INFO [(u "event", JStr (u "register.issued"));
                    (u "client_name", JStr (sanitize_str client_name));
                    (u "redirect_uri_count", JInt (Z.of_nat (length redirect_uris)))];
      mret (JSONResponse 201
        (JObj (registered_body client_id issued_at redirect_uris auth_method client_name)) [])
  end.
End Register.

(** ** Properties *)

Lemma mapM_nonempty_str l uris : mapM nonempty_str l = Some uris → l = JStr <$> uris.
Proof.
  intros H%mapM_Some. induction H as [|j uri l uris Hj _ IH]; [done|].
  rewrite fmap_cons, IH. destruct j as [| | | |[|c s]| |]; simpl in Hj; by simplify_eq.
Qed.

Lemma reject_disallowed_Ok uri :
  _reject_disallowed_redirect uri = Ok tt ↔ accept_registered uri = Ok tt.
Proof.
  unfold _reject_disallowed_redirect. destruct (accept_registered uri) as [[]|e]; [done|].
  by destruct e.
Qed.

Lemma validate_iff payload uris m name :
  _validate payload = Ok (uris, m, name) ↔
  dict_mem payload (u "client_secret") = false ∧
  dict_get payload (u "redirect_uris") = Some (JArr (JStr <$> uris)) ∧
  uris ≠ [] ∧ [] ∉ uris ∧ Forall (λ uri, accept_registered uri = Ok tt) uris ∧
  m = u "none" ∧
  dict_get_default payload (u "token_endpoint_auth_method") (JStr (u "none")) = JStr m ∧
  dict_get_default payload (u "client_name") (JStr []) = JStr name.
Proof.
  unfold _validate. split.
  - destruct (dict_mem payload _); [done|].
    destruct (dict_get payload (u "redirect_uris")) as [[| | | | |[|j l]|]|]; try done.
    destruct (mapM nonempty_str (j :: l)) as [us|] eqn:Hm; [|done].
    assert (Hne : [] ∉ us).
    { apply mapM_Some in Hm. intros Hin. apply list_elem_of_lookup in Hin as (i & Hi).
      destruct (Forall2_lookup_r _ _ _ _ _ Hm Hi) as (j' & _ & Hj').
      by destruct j' as [| | | |[]| |]. }
    pose proof (mapM_nonempty_str _ _ Hm) as E. rewrite E.
    intros ([] & Hall & H)%bind_Ok. apply for_each_Ok in Hall.
    destruct (dict_get_default payload (u "token_endpoint_auth_method") _) as [| | | |m'| |]; try done.
    destruct (bool_decide (m' ∈ _)); [done|].
    destruct (bool_decide (m' = u "none")) eqn:Hnone; cbn [negb] in H; [|done].
    apply bool_decide_eq_true in Hnone.
    destruct (dict_get_default payload (u "client_name") _) as [| | | |n| |]; try done.
    apply Ok_inj, pair_eq in H as [[-> ->]%pair_eq ->].
    split; [done|]. split; [done|]. split; [by intros ->|]. split; [done|]. split; [|done].
    eapply Forall_impl; [exact Hall|]. intros x. apply reject_disallowed_Ok.
  - intros (-> & -> & Hne & Hnil & Hall & -> & -> & ->).
    destruct uris as [|uri uris]; [done|]. rewrite fmap_cons. rewrite <-fmap_cons.
    assert (mapM nonempty_str (JStr <$> uri :: uris) = Some (uri :: uris)) as ->.
    { apply mapM_Some. clear Hne Hall. induction (uri :: uris) as [|x l IH]; [constructor|].
      rewrite fmap_cons. constructor; [|apply IH; set_solver]. destruct x; [set_solver|done]. }
    rewrite (proj2 (for_each_Ok _ _)).
    + cbn [mbind res_bind]. by rewrite bool_decide_false by (by apply (bool_decide_unpack (_ ∉ _))).
    + eapply Forall_impl; [exact Hall|]. intros x. apply reject_disallowed_Ok.
Qed.

(** The registrations that are admitted, on every branch: exactly the
    bodies without a [client_secret], with a non-empty list of non-empty
    strings that all pass the redirect-URI policy, with the method [none] (or
    none named) and with a textual name (or none); and what is admitted is
    those URIs, the method [none] and that name. *)
Theorem validate_registration payload uris m name :
  _validate payload = Ok (uris, m, name) ↔
  dict_mem payload (u "client_secret") = false ∧
  dict_get payload (u "redirect_uris") = Some (JArr (JStr <$> uris)) ∧
  uris ≠ [] ∧ [] ∉ uris ∧ Forall (λ uri, accept_registered uri = Ok tt) uris ∧
  m = u "none" ∧
  dict_get_default payload (u "token_endpoint_auth_method") (JStr (u "none")) = JStr m ∧
  dict_get_default payload (u "client_name") (JStr []) = JStr name.
Proof. apply validate_iff. Qed.

(** What [_read_json] and [_validate] raise together. *)
Definition refusal_ok (e : exn) : Prop :=
  (∃ d, e = metadata_error d) ∨ (∃ d, e = uri_error d) ∨ value_error e.

Lemma for_each_raises (us : list pystr) e :
  for_each _reject_disallowed_redirect us = Raise e → refusal_ok e.
Proof.
  induction us as [|x us IH]; simpl; [done|].
  destruct (_reject_disallowed_redirect x) as [[]|e'] eqn:E; simpl; [done|]. intros [= <-].
  unfold _reject_disallowed_redirect in E.
  destruct (accept_registered x) as [|e1] eqn:Ha; [done|].
  apply accept_registered_raises in Ha as [[m ->]|[m ->]]; injection E as <-.
  - right. left. by eexists.
  - right. right. by eexists.
Qed.

Lemma registration_raises body e :
  admitted body = Raise e → refusal_ok e.
Proof.
  assert (Hm : ∀ d, refusal_ok (metadata_error d)) by (intros d; left; by eexists).
  assert (Hu : ∀ d, refusal_ok (uri_error d)) by (intros d; right; left; by eexists).
  unfold admitted. destruct body as [m|[| | | | | |payload]]; simpl; try (intros [= <-]; apply Hm).
  unfold _validate. destruct (dict_mem _ _); [intros [= <-]; apply Hm|].
  destruct (dict_get payload (u "redirect_uris")) as [[| | | | |[|j l]|]|];
    try (intros [= <-]; apply Hu).
  destruct (mapM nonempty_str (j :: l)) as [us|]; [|intros [= <-]; apply Hu].
  destruct (for_each _ us) as [[]|e'] eqn:E; cbn [mbind res_bind].
  - destruct (dict_get_default payload (u "token_endpoint_auth_method") _);
      try (intros [= <-]; apply Hm).
    destruct (bool_decide _); [intros [= <-]; apply Hm|].
    destruct (negb _); [intros [= <-]; apply Hm|].
    by destruct (dict_get_default payload (u "client_name") _); try (intros [= <-]; apply Hm).
  - intros [= <-]. by eapply for_each_raises.
Qed.

(** The bodies of RFC 7591 the proxy registers: an object without a
    [client_secret], with a non-empty list [uris] of non-empty strings that all
    conform to the policy, no authentication method but [none], and a textual
    name, if any. *)
Definition conforming (body : pystr + json) (uris : list pystr) (name : pystr) : Prop :=
  ∃ d, body = inr (JObj d) ∧ dict_mem d (u "client_secret") = false ∧
    dict_get d (u "redirect_uris") = Some (JArr (JStr <$> uris)) ∧
    uris ≠ [] ∧ [] ∉ uris ∧ Forall (λ uri, ∃ sp, urlsplit uri = Ok sp ∧ policy sp) uris ∧
    dict_get_default d (u "token_endpoint_auth_method") (JStr (u "none")) = JStr (u "none") ∧
    dict_get_default d (u "client_name") (JStr []) = JStr name.

Lemma admitted_iff body uris m name :
  admitted body = Ok (uris, m, name) ↔ conforming body uris name ∧ m = u "none".
Proof.
  assert (Hall : ∀ l, Forall (λ uri, accept_registered uri = Ok tt) l ↔
    Forall (λ uri, ∃ sp, urlsplit uri = Ok sp ∧ policy sp) l).
  { intros l. rewrite !Forall_forall. by setoid_rewrite accept_registered_iff. }
  unfold admitted, conforming. rewrite bind_Ok. setoid_rewrite validate_iff. setoid_rewrite Hall. split.
  - intros (d & Hd & ? & ? & ? & ? & ? & -> & ? & ?). split; [|done]. exists d.
    split; [|done]. by destruct body as [?|[]]; simplify_eq/=.
  - intros [(d & -> & ? & ? & ? & ? & ? & ? & ?) ->]. by exists d.
Qed.

(** The texts of a body are as the decoder of JSON makes them: code points, and
    no surrogate pair. *)
Definition body_text (body : pystr + json) : Prop := ∀ d, body = inr (JObj d) →
  (∀ l x, dict_get d (u "redirect_uris") = Some (JArr l) → JStr x ∈ l → str_ok x = true) ∧
  (∀ x, dict_get d (u "client_name") = Some (JStr x) → str_ok x = true).

Lemma conforming_env_ok body uris name issued_at :
  body_text body → machine_time issued_at → conforming body uris name →
  env_ok (Registration {| rg_redirect_uris := uris; rg_token_endpoint_auth_method := u "none";
    rg_client_id_issued_at := issued_at; rg_client_name := name |}).
Proof.
  intros Hj Ht (d & -> & _ & Hu & _ & _ & _ & _ & Hn). destruct (Hj _ eq_refl) as [Hus Hname].
  apply registration_env_ok.
  2: { replace issued_at with (issued_at + 0) by lia. apply machine_time_ok; [done|lia]. }
  cbn [rg_token_endpoint_auth_method rg_client_name rg_redirect_uris].
  apply Forall_cons_2; [done|]. apply Forall_cons_2.
  - unfold dict_get_default in Hn. destruct (dict_get d (u "client_name")) as [x|]; [|by injection Hn as <-].
    cbn in Hn. subst x. by apply Hname.
  - apply Forall_forall. intros x Hx. apply (Hus _ x Hu). by apply list_elem_of_fmap_2.
Qed.

Section RegisterLemmas.
Context `{O : Outside, !OutsideLaws O, !ClockLaws O, F : Fernet, !FernetLaws F, FR : FloatRepr} {X : Type}.

(** C25. What POST [/register] answers.  201 exactly when the body conforms, and
    then with a [client_id] that opens -- at any later time, under the same key --
    to exactly the redirect URIs the body lists, in their order, its name, and the
    time of the request; the answer is that [client_id] with the time, the same
    URIs, the method [none], the two grants, the response type [code] and the name
    if there is one, and nothing else.  Otherwise 400 with one of the two error
    codes of RFC 7591; or the exception of a URI [urlsplit] cannot read.  No peer
    is contacted and nothing is stored. *)
Theorem register_sealed key body (s : state X) r s' :
  body_text body →
  register key body s = (r, s') →
  s'.1 = s.1 ∧ (∃ new, s'.2 = new ++ s.2 ∧ Forall (λ e, is_outbound e = false) new) ∧
  match r with
  | Ok (JSONResponse status content headers) =>
      (status = 201 ∧ headers = [] ∧ ∃ client_id uris name,
         conforming body uris name ∧
         let issued_at := o_time (EvBind (take 13 (b64url (o_random s.2 10))) :: EvRandom 10 :: s.2) in
         content = JObj ([
           (u "client_id", JStr client_id); (u "client_id_issued_at", JInt issued_at);
           (u "redirect_uris", JArr (JStr <$> uris));
           (u "token_endpoint_auth_method", JStr (u "none"));
           (u "grant_types", JArr [JStr (u "authorization_code"); JStr (u "refresh_token")]);
           (u "response_types", JArr [JStr (u "code")])] ++
           if decide (name = []) then [] else [(u "client_name", JStr name)]) ∧
         ∀ s2 : state X, open_registration key client_id s2 =
           (Ok {| rg_redirect_uris := uris; rg_token_endpoint_auth_method := u "none";
                  rg_client_id_issued_at := issued_at; rg_client_name := name |}, s2)) ∨
      (status = 400 ∧ (∀ uris name, ¬ conforming body uris name) ∧
       ∃ error description, content = as_dict error description ∧
         (error = u "invalid_client_metadata" ∨ error = u "invalid_redirect_uri"))
  | Ok _ => False
  | Raise e => value_error e ∧ ∀ uris name, ¬ conforming body uris name
  end.
Proof.
  intros Hj. unfold register, new_correlation_id, token_urlsafe. io_run.
  destruct (admitted body) as [[[uris m] name]|e] eqn:E.
  - apply admitted_iff in E as [Hconf ->].
    assert (Hok : env_ok (Registration {| rg_redirect_uris := uris; rg_token_endpoint_auth_method := u "none";
      rg_client_id_issued_at := o_time (EvBind (take 13 (b64url (o_random s.2 10))) :: EvRandom 10 :: s.2);
      rg_client_name := name |})) by (eapply conforming_env_ok; [exact Hj|apply o_time_machine|exact Hconf]).
    io_run. unfold pack_registration. rewrite pack_run by exact Hok. io_run.
    intros [<- <-]%pair_eq. cbn [fst snd].
    split; [done|]. split; [by eexists [_; _; _; _; _; _]; split; [done|repeat constructor]|].
    left. split; [done|]. split; [done|]. eexists _, uris, name. split; [done|]. cbv zeta.
    split; [unfold registered_body; by destruct name|].
    intros s2. unfold open_registration. io_run.
    rewrite open_token_none, decide_True by done. by rewrite registration_of_read.
  - assert (Hno : ∀ uris name, ¬ conforming body uris name).
    { intros uris name Hconf. assert (Ha : admitted body = Ok (uris, u "none", name)) by by apply admitted_iff.
      by rewrite E in Ha. }
    apply registration_raises in E as [[d ->]|[[d ->]|[d ->]]]; io_run; intros [= <- <-];
      cbn [fst snd]; (split; [done|]).
    + split; [by eexists [_; _; _]; split; [done|repeat constructor]|].
      right. split; [done|]. split; [done|]. eexists _, _. eauto.
    + split; [by eexists [_; _; _]; split; [done|repeat constructor]|].
      right. split; [done|]. split; [done|]. eexists _, _. eauto.
    + split; [by eexists [_; _]; split; [done|repeat constructor]|]. split; [by eexists|done].
Qed.
End RegisterLemmas.

(** Two URIs are registered under one [client_id]. *)
Module RegisterExamples.
#[local] Existing Instance ToyFernet.fernet.
#[local] Existing Instance ToyFernet.fernet_laws.
#[local] Instance no_floats : FloatRepr := id.

Definition key : fkey := true.
Definition request : pystr + json := inr (JObj [
  (u "client_name", JStr (u "Editor"));
  (u "redirect_uris", JArr [JStr (u "https://c.example/cb"); JStr (u "http://127.0.0.1/cb")])]).

Lemma register_sealed_witness :
  ∃ content s' client_id env, register (O := silent_world 1000) key request (tt, [])
      = (Ok (JSONResponse 201 content []), s') ∧
    open_registration (O := silent_world 1000) key client_id s' = (Ok env, s') ∧
    rg_redirect_uris env = [u "https://c.example/cb"; u "http://127.0.0.1/cb"].
Proof.
  destruct (register (O := silent_world 1000) key request (tt, [])) as [r s'] eqn:E.
  assert (Hr : match r with Ok (JSONResponse 201 _ _) => true | _ => false end = true)
    by (change r with (r, s').1; rewrite <-E; vm_compute; reflexivity).
  pose proof (register_sealed (O := silent_world 1000) key request (tt, []) r s') as H.
  destruct H as (_ & _ & H).
  - intros d Ed. injection Ed as <-. split.
    + intros l x Hl. injection Hl as <-.
      intros [Hx|[Hx|Hx%elem_of_nil]%elem_of_cons]%elem_of_cons; [injection Hx as ->; reflexivity..|destruct Hx].
    + intros x Hx. injection Hx as <-. reflexivity.
  - exact E.
  - destruct r as [[|? |status content headers|]|]; try discriminate Hr.
    destruct H as [(-> & -> & client_id & uris & name & Hconf & _ & Ho)|(-> & _)]; [|discriminate Hr].
    exists content, s', client_id. eexists. split; [reflexivity|]. split; [apply Ho|].
    destruct Hconf as (d & Ed & _ & Hu & _). injection Ed as <-. vm_compute in Hu.
    injection Hu as Hu. cbn [rg_redirect_uris].
    destruct uris as [|u1 [|u2 [|]]]; try discriminate Hu. injection Hu as <- <-. reflexivity.
Defined.
End RegisterExamples.
