(* ===== verification/Authorize.v ===== *)
(** * The authorization endpoint ([authorize.py])

    GET [/authorize]: the parameters, their validation along the two
    registration routes (a CIMD document, or a registration envelope sealed by
    [/register]), the upstream URL and the handler.

    [authorize_redirects]: which requests send the browser on, by which document
    or registration, and where to; [authorize_refuses]: the other answers. *)

From S2P Require Import Prelude PyStr Codec Digest Json World Errors Logging Pkce Envelope.
From S2P Require Import UrlLib RedirectUri Assertion Cache Fetcher CimdService Config.

Definition _ENVELOPE_TTL_SECONDS : Z := 600.

Record AuthorizeParams := {
  ap_response_type : option pystr;
  ap_client_id : option pystr;
  ap_redirect_uri : option pystr;
  ap_code_challenge : option pystr;
  ap_code_challenge_method : option pystr;
  ap_state : option pystr;
  ap_resource : option pystr;
  ap_scope : option pystr
}.

Record Validated := {
  v_client_id : pystr;
  v_redirect_uri : pystr;
  v_code_challenge : pystr;
  v_state : pystr;
  v_scope : pystr;
  v_resource_entry : ResourceEntry;
  v_document : option CimdDocument;
  v_via : pystr
}.

Definition _require_present (params : AuthorizeParams) : res unit :=
  match ap_response_type params with
  | None => Raise (InvalidRequest (u "missing response_type"))
  | Some rt =>
      if negb (bool_decide (rt = u "code"))
      then Raise (InvalidRequest (u "unsupported response_type: " ++ repr rt))
      else match ap_client_id params with
      | None => Raise (InvalidRequest (u "missing client_id"))
      | Some _ =>
          match ap_redirect_uri params with
          | None => Raise (InvalidRequest (u "missing redirect_uri"))
          | Some _ =>
              match ap_code_challenge params with
              | None => Raise (InvalidRequest (u "missing code_challenge"))
              | Some _ => Ok tt
              end
          end
      end
  end.

(** [assert x is not None]. *)
Definition assert_some {A} (o : option A) : res A :=
  match o with Some a => Ok a | None => Raise AssertionError end.

Section Authorize.
Context `{O : Outside, R : Rsa, F : Fernet, FR : FloatRepr} {X : Type} `{HasCache X}.
Implicit Types (config : ProxyConfig) (key : fkey).

(** [list(config.known_resources)], formatted. *)
Definition known_text config : pystr := py_repr (JArr (JStr <$> known_resources config)).

Definition _pick_resource config (resource : option pystr) : res ResourceEntry :=
  let chosen := or_str resource (default_resource config) in
  if negb (truthy chosen) then
    Raise (InvalidTarget (u "missing 'resource' parameter and no DEFAULT_RESOURCE is set; known resources: "
                          ++ known_text config))
  else
    entry ← resource_by_url config chosen;
    match entry with
    | None => Raise (InvalidTarget (u "resource " ++ repr chosen
                ++ u " is not a known target; known resources: " ++ known_text config))
    | Some e => Ok e
    end.

Definition _load_document (cimd : CimdService) (client_id : pystr) : io X CimdDocument :=
  try_io (obtain cimd client_id) is_FetchError (λ e, raise (InvalidClient (str_exn e) 400)).

Definition _validate_cimd (cimd : CimdService) (client_id : pystr)
    : io X (list pystr * CimdDocument * pystr) :=
  document ← _load_document cimd client_id;
  mret (doc_redirect_uris document, document, u "cimd").

Definition _validate_dcr key (client_id : pystr) : io X (list pystr) :=
  envelope ← try_io (open_registration key client_id) is_EnvelopeError
    (λ _, raise (InvalidClient
      (u "client_id is neither a https URL nor a valid registration envelope") 400));
  mret (rg_redirect_uris envelope).

(** The branch on the shape of [client_id]. *)
Definition registered_uris (cimd : CimdService) key (client_id : pystr)
    : io X (list pystr * option CimdDocument * pystr) :=
  if startswith client_id (u "https://") then
    '(redirect_uris, document, via) ← _validate_cimd cimd client_id;
    mret (redirect_uris, Some document, via)
  else
    redirect_uris ← _validate_dcr key client_id;
    mret (redirect_uris, None, u "dcr").

Definition _validate config (cimd : CimdService) key (params : AuthorizeParams) : io X Validated :=
  _ ← lift (_require_present params);
  client_id ← lift (assert_some (ap_client_id params));
  redirect_uri ← lift (assert_some (ap_redirect_uri params));
  code_challenge ← lift (assert_some (ap_code_challenge params));
  entry ← lift (_pick_resource config (ap_resource params));
  if negb (bool_decide (ap_code_challenge_method params = Some (u "S256"))) then
    raise (InvalidRequest (u "code_challenge_method must be 'S256', got "
                           ++ repr_opt (ap_code_challenge_method params)))
  else
    '(redirect_uris, document, via) ← registered_uris cimd key client_id;
    matches ← lift (any_res (uri_matches_registration redirect_uri) redirect_uris);
    if negb matches then
      raise (InvalidRequest (u "redirect_uri is not registered "
        ++ if bool_decide (via = u "cimd") then u "in the CIMD document"
           else u "on the DCR registration"))
    else
      mret {| v_client_id := client_id; v_redirect_uri := redirect_uri;
              v_code_challenge := code_challenge; v_state := or_str (ap_state params) [];
              v_scope := or_str (ap_scope params) (default_scope config);
              v_resource_entry := entry; v_document := document; v_via := via |}.

Definition upstream_params config (v : Validated) (challenge envelope_str : pystr) : dict pystr := [
  (u "response_type", u "code");
  (u "client_id", re_client_id (v_resource_entry v));
  (u "redirect_uri", public_url config ++ u "/callback");
  (u "code_challenge", challenge);
  (u "code_challenge_method", u "S256");
  (u "state", envelope_str);
  (u "scope", v_scope v)].

Definition authorize_envelope (v : Validated) (cid verifier : pystr) (now : Z) : AuthorizeEnvelope := {|
  az_correlation_id := cid; az_client_id := v_client_id v; az_redirect_uri := v_redirect_uri v;
  az_state := v_state v; az_resource := re_url (v_resource_entry v);
  az_client_code_challenge := v_code_challenge v; az_upstream_verifier := verifier;
  az_scope := v_scope v; az_exp := now + _ENVELOPE_TTL_SECONDS |}.

Definition _build_upstream_url config key (v : Validated) (cid : pystr) : io X (pystr * pystr) :=
  upstream_verifier ← make_verifier 64;
  upstream_challenge ← lift (derive_challenge upstream_verifier);
  now ← time;
  envelope_str ← pack_authorize key (authorize_envelope v cid upstream_verifier now);
  query ← lift (urlencode (upstream_params config v upstream_challenge envelope_str));
  mret (authorize_url (re_issuer (v_resource_entry v)) ++ u "?" ++ query, envelope_str).

Definition _render_authorize_error (error description : pystr) (status_code : Z) : response :=
  PlainText status_code (u "error=" ++ error ++ newline ++ u "error_description=" ++ description
                         ++ newline).

Definition authorize config (cimd : CimdService) key (params : AuthorizeParams) : io X response :=
  cid ← new_correlation_id;
  _ ← bind_correlation_id cid;
  (* the try, its except branch and what follows *)
  validated ← try_io (inr <$> _validate config cimd key params) is_OAuthError (λ exc,
    match exc with
    | OAuthError error description status_code =>
        _ ← log WARNING [(u "event", JStr (u "authorize.rejected")); (u "error", JStr error);
              (u "error_description", JStr (sanitize_str description));
              (u "client_id", JStr (sanitize_str (default [] (ap_client_id params))));
              (u "resource", JStr (sanitize_str (default [] (ap_resource params))))];
        mret (inl (_render_authorize_error error description status_code))
    | _ => raise exc
    end);
  match validated with
  | inl refusal => mret refusal
  | inr v =>
      '(target, _) ← _build_upstream_url config key v cid;
      _ ← log INFO [(u "event", JStr (u "authorize.forwarded"));
            (u "resource", JStr (sanitize_str (re_url (v_resource_entry v))));
            (u "upstream_client_id", JStr (re_client_id (v_resource_entry v)));
            (u "client_id", JStr (sanitize_str (v_client_id v)));
            (u "scope", JStr (sanitize_str (v_scope v)));
            (u "via", JStr (v_via v))];
      mret (Redirect target)
  end.
End Authorize.

(** ** Lemmas *)

(** Every parameter that is given is a text that came from a query string. *)
Definition params_text (p : AuthorizeParams) : Prop :=
  texts (omap id [ap_client_id p; ap_redirect_uri p; ap_code_challenge p; ap_state p; ap_scope p]).

Definition config_text `{Rsa} (config : ProxyConfig) : Prop :=
  texts (public_url config :: default_scope config :: known_resources config).

Lemma or_str_text o d : str_ok d = true → texts (omap id [o]) → str_ok (or_str o d) = true.
Proof.
  destruct o as [[|c s]|]; [done| |done]. intros _ H. by apply Forall_cons in H as [? _].
Qed.

Section AuthorizeLemmas.
Context `{O : Outside, R : Rsa, F : Fernet, FR : FloatRepr} {X : Type} `{HC : HasCache X, !HasCacheLaws HC}.
Implicit Types (config : ProxyConfig) (key : fkey) (s : state X).

(** What entitles a request, validated from [s] on, to send the browser to
    [redirect_uri]: it matches a redirect URI that the document at the
    [client_id] URL lists -- the document that the cache held or that was fetched
    in this run, by [s'] --, or one that is sealed in the [client_id]. *)
Definition entitled key (client_id redirect_uri : pystr) s s' : Prop :=
  (startswith client_id (u "https://") = true ∧
   ∃ d registered, document_source client_id d s s' ∧ valid_document client_id d ∧
     registered ∈ doc_redirect_uris d ∧
     uri_matches_registration redirect_uri registered = Ok true ∧
     accept_registered redirect_uri = Ok tt) ∨
  (startswith client_id (u "https://") = false ∧
   ∃ env registered s1, open_registration key client_id s = (Ok env, s1) ∧
     registered ∈ rg_redirect_uris env ∧
     uri_matches_registration redirect_uri registered = Ok true).

Lemma entitled_later key client_id redirect_uri s s1 (s2 : state X) new :
  entitled key client_id redirect_uri s s1 → s2.2 = new ++ s1.2 →
  entitled key client_id redirect_uri s s2.
Proof.
  intros [(Hs & d & registered & Hd & H)|H] E; [left|by right].
  split; [done|]. exists d, registered. split; [by eapply document_source_later|done].
Qed.

Lemma pick_resource_Ok config resource e :
  _pick_resource config resource = Ok e →
  e ∈ resources config ∧
  resource_by_url config (or_str resource (default_resource config)) = Ok (Some e).
Proof.
  unfold _pick_resource. destruct (negb _); [done|]. intros (o & Ho & H)%bind_Ok.
  destruct o as [e'|]; [|done]. apply Ok_inj in H as ->. split; [|done].
  unfold resource_by_url in Ho. apply bind_Ok in Ho as (t & _ & Hf%Ok_inj).
  unfold find_resource in Hf. apply find_some in Hf as [Hf _]. by apply list_elem_of_In.
Qed.

Lemma registered_uris_Ok cimd key client_id redirect_uri s uris doc via s' :
  cache_valid (the_cache s.1) →
  registered_uris cimd key client_id s = (Ok (uris, doc, via), s') →
  any_res (uri_matches_registration redirect_uri) uris = Ok true →
  cache_valid (the_cache s'.1) ∧ entitled key client_id redirect_uri s s' ∧
  ∃ new, s'.2 = new ++ s.2.
Proof.
  intros Hc H (registered & Hin & Hm)%any_res_true. revert H.
  unfold registered_uris, _validate_cimd, _validate_dcr, _load_document.
  destruct (startswith client_id _) eqn:Hs; intros H; io_inv.
  - match goal with H : obtain _ _ _ = _ |- _ =>
      apply obtain_source in H as Hsrc; apply obtain_run in H as [? Hd] end; [|done].
    specialize (Hd _ eq_refl).
    match goal with H : document_source _ _ _ _ |- _ => pose proof (document_source_extends _ _ _ _ H) end.
    split; [done|]. split; [|done]. left. split; [done|]. eexists _, registered.
    split; [done|]. split; [done|]. split; [done|]. split; [done|].
    eapply matched_accepted; [|done]. pose proof (valid_document_uris _ _ Hd) as Hall.
    rewrite Forall_forall in Hall. by apply Hall.
  - match goal with H : open_registration _ _ _ = _ |- _ =>
      pose proof H as Ho; apply open_registration_keeps in H as (H & new & E & _) end.
    split; [congruence|]. split; [|by exists new]. right. split; [done|]. by eexists _, registered, _.
Qed.
(** The requests that pass validation, and what validation, begun in [s], makes
    of them by [s']. *)
Definition authorized config key (p : AuthorizeParams) s s' (v : Validated) : Prop :=
  ap_response_type p = Some (u "code") ∧
  ap_code_challenge_method p = Some (u "S256") ∧
  ap_client_id p = Some (v_client_id v) ∧
  ap_redirect_uri p = Some (v_redirect_uri v) ∧
  ap_code_challenge p = Some (v_code_challenge v) ∧
  v_state v = or_str (ap_state p) [] ∧
  v_scope v = or_str (ap_scope p) (default_scope config) ∧
  v_resource_entry v ∈ resources config ∧
  resource_by_url config (or_str (ap_resource p) (default_resource config))
    = Ok (Some (v_resource_entry v)) ∧
  entitled key (v_client_id v) (v_redirect_uri v) s s'.

Lemma authorized_later config key p s s1 s2 v new :
  authorized config key p s s1 v → s2.2 = new ++ s1.2 → authorized config key p s s2 v.
Proof.
  intros (? & ? & ? & ? & ? & ? & ? & ? & ? & He) E. unfold authorized. split_and!; try done.
  by eapply entitled_later.
Qed.

Lemma require_present_Ok p :
  _require_present p = Ok tt → ap_response_type p = Some (u "code").
Proof.
  unfold _require_present. destruct (ap_response_type p) as [rt|]; [|done].
  destruct (bool_decide (rt = u "code")) eqn:E; cbn [negb]; [|done].
  by apply bool_decide_eq_true in E as ->.
Qed.

Lemma validate_Ok config cimd key p s v s' :
  cache_valid (the_cache s.1) → _validate config cimd key p s = (Ok v, s') →
  cache_valid (the_cache s'.1) ∧ authorized config key p s s' v ∧ ∃ new, s'.2 = new ++ s.2.
Proof.
  intros Hc. unfold _validate, authorized. intros ([] & s0 & Hp & H)%run_bind_Ok.
  unfold lift in Hp. apply pair_eq in Hp as [Hp <-]. apply require_present_Ok in Hp.
  apply run_bind_Ok in H as (cid & s0 & [E1 <-]%pair_eq & H).
  apply run_bind_Ok in H as (ruri & s0 & [E2 <-]%pair_eq & H).
  apply run_bind_Ok in H as (ch & s0 & [E3 <-]%pair_eq & H).
  apply run_bind_Ok in H as (e & s0 & [He <-]%pair_eq & H).
  apply pick_resource_Ok in He.
  destruct (bool_decide (_ = Some (u "S256"))) eqn:Hm; cbn [negb] in H; [|done].
  apply bool_decide_eq_true in Hm.
  apply run_bind_Ok in H as ([[uris doc] via] & s1 & Hu & H).
  apply run_bind_Ok in H as (b & s2 & [Hb <-]%pair_eq & H).
  destruct b; cbn [negb] in H; [|done]. apply pair_eq in H as [<-%Ok_inj <-].
  cbn [v_client_id v_redirect_uri v_code_challenge v_state v_scope v_resource_entry].
  destruct (registered_uris_Ok _ _ _ _ _ _ _ _ _ Hc Hu Hb) as (Hc' & He' & Hnew).
  split; [done|]. split; [|done]. destruct (ap_client_id p), (ap_redirect_uri p), (ap_code_challenge p); try done.
  apply Ok_inj in E1 as ->. apply Ok_inj in E2 as ->. apply Ok_inj in E3 as ->.
  destruct He. naive_solver.
Qed.

(** What validation may raise: one of three OAuth errors, or an exception that
    is none. *)
Definition authorize_error (e : exn) : Prop :=
  (∃ d, e = InvalidRequest d ∨ e = InvalidTarget d ∨ e = InvalidClient d 400) ∨ not_oauth e.

Lemma not_oauth_authorize e : not_oauth e → authorize_error e.
Proof. by right. Qed.
Lemma oauth_authorize d :
  authorize_error (InvalidRequest d) ∧ authorize_error (InvalidTarget d) ∧
  authorize_error (InvalidClient d 400).
Proof. repeat split; left; eauto. Qed.

Lemma authorize_error_codes error description code :
  authorize_error (OAuthError error description code) →
  code = 400 ∧ error ∈ [u "invalid_request"; u "invalid_target"; u "invalid_client"].
Proof.
  intros [(d & [E|[E|E]])|E]; [injection E as -> -> ->..|done]; (split; [done|]);
    by apply (bool_decide_unpack _).
Qed.

Lemma validate_raises config cimd key p :
  raises authorize_error (_validate config cimd key p).
Proof.
  unfold _validate, _require_present, assert_some, _pick_resource, resource_by_url,
    _normalise_requested_url, registered_uris, _validate_cimd, _validate_dcr, _load_document.
  raises_tac; try first [apply oauth_authorize|by right].
  - eapply raises_only_weaken; [apply urlsplit_not_oauth|apply not_oauth_authorize].
  - eapply raises_weaken; [apply obtain_not_oauth|apply not_oauth_authorize].
  - eapply raises_weaken; [apply open_not_oauth|apply not_oauth_authorize].
  - apply raises_only_any_res. intros x e H%uri_matches_raises. right. by destruct H as [m ->].
Qed.

Lemma authorized_env_ok config key p s s' v cid verifier now :
  authorized config key p s s' v → params_text p → config_text config →
  str_ok cid = true → str_ok verifier = true → machine_time now →
  env_ok (Authorize (authorize_envelope v cid verifier now)).
Proof.
  intros (_ & _ & E1 & E2 & E3 & E4 & E5 & Hin & _) Hp Hc Hcid Hv Hnow.
  unfold params_text, config_text, texts in *. rewrite E1, E2, E3 in Hp. cbn [omap list_omap id] in Hp.
  rewrite !Forall_cons in *. destruct Hp as (? & ? & ? & Hp), Hc as (_ & ? & Hk).
  assert (Hst : texts (omap id [ap_state p]) ∧ texts (omap id [ap_scope p])).
  { destruct (ap_state p), (ap_scope p); cbn [omap list_omap id] in *; unfold texts;
      rewrite ?Forall_cons in *; naive_solver. }
  apply authorize_env_ok; [|apply machine_time_ok; [done|unfold _ENVELOPE_TTL_SECONDS; lia]].
  unfold texts. rewrite !Forall_cons. cbn [authorize_envelope az_correlation_id az_client_id
    az_redirect_uri az_state az_resource az_client_code_challenge az_upstream_verifier az_scope].
  rewrite E4, E5. split; [done|]. split; [done|]. split; [done|].
  destruct Hst as [??]. split; [by apply or_str_text|]. split.
  { rewrite Forall_forall in Hk. apply Hk. by apply list_elem_of_fmap_2. }
  split; [done|]. split; [done|]. split; [by apply or_str_text|done].
Qed.
End AuthorizeLemmas.

(** ** Properties *)

Section Forwarding.
Context `{O : Outside, !OutsideLaws O, !ClockLaws O, R : Rsa, F : Fernet, !FernetLaws F,
  FR : FloatRepr} {X : Type} `{HC : HasCache X, !HasCacheLaws HC}.
Implicit Types (config : ProxyConfig) (key : fkey) (s : state X).

Lemma random_text t n : str_ok (b64url (o_random t n)) = true.
Proof. apply ascii_str_ok, b64url_ascii, o_random_ok. Qed.
Lemma random_text_take t n k : str_ok (take k (b64url (o_random t n))) = true.
Proof. apply ascii_str_ok, isascii_take, b64url_ascii, o_random_ok. Qed.

(** The verifier drawn after [t], and the state sealed for it. *)
Definition drawn_verifier (t : trace) : pystr := take 64 (b64url (o_random t 96)).
Definition drawn_trace (t : trace) : trace := EvTime :: EvRandom 96 :: t.
Definition sealed_envelope (v : Validated) (cid : pystr) (t : trace) : AuthorizeEnvelope :=
  authorize_envelope v cid (drawn_verifier t) (o_time (EvRandom 96 :: t)).
Definition sealed_state key (v : Validated) (cid : pystr) (t : trace) : pystr :=
  token_of key (Authorize (sealed_envelope v cid t)) (o_time (drawn_trace t))
    (o_random (EvTime :: drawn_trace t) 16).

Lemma build_run config key v cid s :
  env_ok (Authorize (sealed_envelope v cid s.2)) →
  _build_upstream_url config key v cid s =
    let tok := sealed_state key v cid s.2 in
    let s' := (s.1, EvRandom 16 :: EvTime :: drawn_trace s.2) in
    match urlencode (upstream_params config v (b64url (sha256 (drawn_verifier s.2))) tok) with
    | Ok query => (Ok (authorize_url (re_issuer (v_resource_entry v)) ++ u "?" ++ query, tok), s')
    | Raise e => (Raise e, s')
    end.
Proof.
  intros Hok. unfold _build_upstream_url, make_verifier, token_urlsafe, pack_authorize.
  change ((64 <? 43) || (128 <? 64)) with false. change (Z.to_nat 64) with 64%nat. io_run.
  fold (drawn_verifier s.2).
  rewrite derive_challenge_ascii by (apply isascii_take, b64url_ascii, o_random_ok). io_run.
  fold (sealed_envelope v cid s.2). rewrite pack_run by done. io_run.
  fold (drawn_trace s.2). fold (sealed_state key v cid s.2).
  by destruct (urlencode _).
Qed.

(** The correlation id drawn after [t], and the state in which the validation of
    a request that arrived in [s] begins. *)
Definition drawn_cid (t : trace) : pystr := take 13 (b64url (o_random t 10)).
Definition validating s : state X := (s.1, EvBind (drawn_cid s.2) :: EvRandom 10 :: s.2).

Lemma upstream_encodable config v challenge st q :
  urlencode (upstream_params config v challenge st) = Ok q → encodable (public_url config).
Proof.
  intros H. assert (Hl := proj1 (urlencode_iff _) (ex_intro _ q H)). rewrite Forall_forall in Hl.
  specialize (Hl (u "redirect_uri", public_url config ++ u "/callback")).
  cbn [fst snd] in Hl. rewrite encodable_app in Hl. apply Hl. by do 2 right; left.
Qed.

Lemma authorize_sealed config cimd key p s url s' :
  cache_valid (the_cache s.1) → params_text p → config_text config →
  authorize config cimd key p s = (Ok (Redirect url), s') →
  cache_valid (the_cache s'.1) ∧
  ∃ v t query fields, let cid := drawn_cid s.2 in
    let env := sealed_envelope v cid t in let tok := sealed_state key v cid t in
    authorized config key p (validating s) s' v ∧
    url = authorize_url (re_issuer (v_resource_entry v)) ++ u "?" ++ query ∧
    form_parse query =
      Some (upstream_params config v (b64url (sha256 (az_upstream_verifier env))) tok) ∧
    63%N ∉ query ∧ s'.2 = EvLog INFO fields :: EvRandom 16 :: EvTime :: drawn_trace t ∧
    (∃ new, t = new ++ (validating s).2) ∧ encodable (public_url config) ∧
    length (az_upstream_verifier env) = 64%nat ∧ env_ok (Authorize env) ∧
    ∀ s2 : state X, o_time (drawn_trace t) <= o_time s2.2 <= o_time (drawn_trace t) + 600 →
      open_authorize key tok s2 = (Ok env, (s2.1, EvTime :: s2.2)).
Proof.
  intros Hc Hp Hcfg H. unfold authorize, new_correlation_id, token_urlsafe in H.
  apply run_bind_Ok in H as (cid & s1 & H1 & H).
  apply run_bind_Ok in H1 as (raw & s0 & [<-%Ok_inj <-]%pair_eq & [<-%Ok_inj <-]%pair_eq).
  apply run_bind_Ok in H as ([] & s2 & [_ <-]%pair_eq & H). cbn [fst snd] in *.
  fold (drawn_cid s.2) in H. set (cid := drawn_cid s.2) in *.
  apply run_bind_Ok in H as (vd & s3 & Hv & H).
  apply run_try_Ok in Hv as [Hv|(e & s4 & _ & _ & Hv)].
  2: { destruct e; try discriminate. apply run_bind_Ok in Hv as ([] & ? & _ & Hv).
       apply pair_eq in Hv as [<-%Ok_inj <-]. apply pair_eq in H as [H _]. discriminate. }
  destruct vd as [bad|v]; [by unfold fmap, io_fmap in Hv; destruct (_validate _ _ _ _ _) as [[]]|].
  assert (Hval : _validate config cimd key p (validating s) = (Ok v, s3)).
  { unfold fmap, io_fmap in Hv. destruct (_validate _ _ _ _ _) as [[v'|] s'']; [|done].
    apply pair_eq in Hv as [[= ->]%Ok_inj ->]. done. }
  clear Hv. apply validate_Ok in Hval as (Hc3 & Hauth & Hnew); [|done].
  apply run_bind_Ok in H as ([target x] & s5 & Hb & H).
  apply run_bind_Ok in H as ([] & s6 & [_ <-]%pair_eq & H).
  apply pair_eq in H as [H%Ok_inj <-]. injection H as ->.
  assert (Hok : env_ok (Authorize (sealed_envelope v cid s3.2))).
  { eapply authorized_env_ok; [done..|apply random_text_take|apply random_text_take|].
    apply o_time_machine. }
  rewrite build_run in Hb by done. cbv zeta in Hb.
  destruct (urlencode _) as [query|e] eqn:Hq; [|by apply pair_eq in Hb as [? _]].
  apply pair_eq in Hb as [Hb%Ok_inj <-]. apply pair_eq in Hb as [<- _].
  split; [done|]. exists v, s3.2, query. eexists. cbv zeta.
  split; [eapply (authorized_later _ _ _ _ s3 _ _ [_; _; _; _; _]); [exact Hauth|reflexivity]|].
  split; [done|].
  split; [by apply parse_urlencode|].
  split; [by eapply forallb_notin; [|by eapply urlencode_chars]|].
  split; [done|]. split; [done|]. split; [by eapply upstream_encodable|]. split.
  { cbn [sealed_envelope authorize_envelope az_upstream_verifier]. unfold drawn_verifier.
    rewrite length_take, b64url_length, o_random_length. done. }
  split; [done|].
  intros s2 Ht. unfold open_authorize, sealed_state. io_run.
  rewrite open_token_ttl by (done || lia). rewrite !decide_True by (done || lia).
  by rewrite authorize_of_read.
Qed.

(** C3. When GET [/authorize] sends the browser on, the request asked for a
    code with S256 PKCE and for a configured resource, and its redirect URI is
    one the client is entitled to: it matches an entry of the document of that
    very [client_id] URL -- the one the cache held, still fresh, or the one that
    was fetched in this run --, or one sealed in the [client_id].  The location
    is the authorization endpoint of that resource's issuer, and its query
    decodes to [code], the resource's own client, the proxy's callback, the S256
    challenge of a verifier of 64 characters drawn in this run, the scope, and a
    [state] -- which opens, for 600 seconds, to exactly that verifier and the
    request's client, redirect URI, challenge, state, resource and scope, under
    the id drawn for this run.  The cache stays valid. *)
Theorem authorize_redirects config cimd key p s url s' :
  cache_valid (the_cache s.1) → params_text p → config_text config →
  authorize config cimd key p s = (Ok (Redirect url), s') →
  cache_valid (the_cache s'.1) ∧
  ∃ v t query fields st,
    let cid := take 13 (b64url (o_random s.2 10)) in
    let arrived := EvBind cid :: EvRandom 10 :: s.2 in
    let verifier := take 64 (b64url (o_random t 96)) in
    let sealed := EvTime :: EvRandom 96 :: t in
    authorized config key p (s.1, arrived) s' v ∧
    (∃ new, t = new ++ arrived) ∧ s'.2 = EvLog INFO fields :: EvRandom 16 :: EvTime :: sealed ∧
    url = rstrip_slash (re_issuer (v_resource_entry v)) ++ u "/protocol/openid-connect/auth?" ++ query ∧
    form_parse query = Some [
      (u "response_type", u "code"); (u "client_id", re_client_id (v_resource_entry v));
      (u "redirect_uri", public_url config ++ u "/callback");
      (u "code_challenge", b64url (sha256 verifier)); (u "code_challenge_method", u "S256");
      (u "state", st); (u "scope", v_scope v)] ∧
    length verifier = 64%nat ∧
    ∀ s2 : state X, o_time sealed <= o_time s2.2 <= o_time sealed + 600 →
      open_authorize key st s2 = (Ok {|
        az_correlation_id := cid; az_client_id := v_client_id v;
        az_redirect_uri := v_redirect_uri v; az_state := v_state v;
        az_resource := re_url (v_resource_entry v);
        az_client_code_challenge := v_code_challenge v; az_upstream_verifier := verifier;
        az_scope := v_scope v; az_exp := o_time (EvRandom 96 :: t) + 600 |}, (s2.1, EvTime :: s2.2)).
Proof.
  intros Hc Hp Hcfg H.
  destruct (authorize_sealed _ _ _ _ _ _ _ Hc Hp Hcfg H)
    as (? & v & t & query & fields & ? & -> & Hq & _ & ? & ? & _ & ? & _ & ?).
  split; [done|]. exists v, t, query, fields, (sealed_state key v (drawn_cid s.2) t). cbv zeta.
  split; [done|]. split; [done|]. split; [done|].
  split; [unfold authorize_url; by rewrite <-app_assoc|]. by split; [exact Hq|].
Qed.

Lemma build_not_oauth config key v cid :
  raises (X := X) not_oauth (_build_upstream_url config key v cid).
Proof.
  unfold _build_upstream_url, make_verifier, token_urlsafe, derive_challenge, encode_ascii,
    time, random, pack_authorize.
  raises_tac; first [apply _pack_not_oauth|apply urlencode_not_oauth].
Qed.

Lemma authorize_not_oauth config cimd key p :
  raises not_oauth (authorize config cimd key p).
Proof.
  unfold authorize, new_correlation_id, token_urlsafe, bind_correlation_id.
  apply raises_bind; [unfold random; raises_tac|]. intros cid.
  apply raises_bind; [done|]. intros []. apply raises_bind.
  - apply (raises_try _ authorize_error).
    + apply raises_fmap, validate_raises.
    + intros e' [(d & [->|[->| ->]])|He]; done.
    + intros e' _ Hp. by destruct e'.
  - intros [refusal|v]; [done|]. raises_tac. apply build_not_oauth.
Qed.

(** Before a redirect URI is established no answer redirects: every other
    answer of GET [/authorize] is a plain text of status 400 that names one of
    three OAuth errors, and an exception that leaves the handler is not an OAuth
    error. *)
Theorem authorize_refuses config cimd key p s r s' :
  authorize config cimd key p s = (r, s') →
  match r with
  | Ok resp =>
      is_redirect resp = true ∨
      ∃ error description, resp = _render_authorize_error error description 400 ∧
        error ∈ [u "invalid_request"; u "invalid_target"; u "invalid_client"]
  | Raise e => is_OAuthError e = false
  end.
Proof.
  unfold authorize. destruct r as [resp|e].
  - intros H. apply run_bind_Ok in H as (cid & s1 & _ & H).
    apply run_bind_Ok in H as ([] & s2 & _ & H).
    apply run_bind_Ok in H as (vd & s3 & Hv & H). destruct vd as [refusal|v].
    2: { left. apply run_bind_Ok in H as ([tgt x] & s5 & _ & H).
         apply run_bind_Ok in H as ([] & s6 & _ & H). by apply pair_eq in H as [<-%Ok_inj _]. }
    apply pair_eq in H as [<-%Ok_inj _]. right.
    apply run_try_Ok in Hv as [Hv|(e & s4 & He & Hp & Hv)].
    { unfold fmap, io_fmap in Hv. by destruct (_validate _ _ _ _ _) as [[]]. }
    destruct e; try discriminate. apply run_bind_Ok in Hv as ([] & s5 & _ & Hv).
    apply pair_eq in Hv as [Hv%Ok_inj _]. injection Hv as <-.
    apply raises_fmap with (P := authorize_error) in He; [|apply validate_raises].
    apply authorize_error_codes in He as [-> ?]. by eexists _, _.
  - intros H. by eapply authorize_not_oauth.
Qed.
End Forwarding.

(** ** A registered client asks for a code *)
Module AuthorizeExamples.
#[local] Existing Instance ToyFernet.fernet.
#[local] Existing Instance ToyFernet.fernet_laws.
#[local] Existing Instance AssertionExamples.toy_rsa.
#[local] Instance no_floats : FloatRepr := id.

Definition key : fkey := true.
Definition service : CimdService :=
  {| cs_fetcher := FetchExamples.fetcher; cache_ttl_min := 300; cache_ttl_max := 86400 |}.

(** A [client_id] that [/register] issued. *)
Definition client_id : pystr := token_of key (Registration {|
  rg_redirect_uris := [u "http://127.0.0.1/cb"]; rg_token_endpoint_auth_method := u "none";
  rg_client_id_issued_at := 1000; rg_client_name := u "Editor" |}) 1000 [].

Definition config : ProxyConfig := ConfigExamples.sample_config.

Definition params : AuthorizeParams := {|
  ap_response_type := Some (u "code"); ap_client_id := Some client_id;
  ap_redirect_uri := Some (u "http://127.0.0.1:51004/cb");
  ap_code_challenge := Some (u "E9Melhoa2OwvFrEMTJguCHaoeK1t8URWbuGJSstw-cM");
  ap_code_challenge_method := Some (u "S256"); ap_state := Some (u "xyz");
  ap_resource := Some (u "https://r0.example/"); ap_scope := None |}.

Definition start : state (dict (entry CimdDocument)) := ([], []).

Lemma texts_check l : forallb str_ok l = true → texts l.
Proof. unfold texts. rewrite forallb_forall, Forall_forall. intros H x Hx. by apply H, list_elem_of_In. Qed.

(** A client that published a document, under an empty cache. *)
Definition published_params : AuthorizeParams := {|
  ap_response_type := Some (u "code"); ap_client_id := Some FetchExamples.url;
  ap_redirect_uri := Some (u "https://c.example/cb");
  ap_code_challenge := ap_code_challenge params; ap_code_challenge_method := Some (u "S256");
  ap_state := Some (u "xyz"); ap_resource := Some (u "https://r0.example/"); ap_scope := None |}.

Lemma authorize_redirects_witness :
  ∃ url s' sa d rq before, authorize (O := FetchExamples.world) config service key published_params start
      = (Ok (Redirect url), s') ∧ cache_valid (the_cache s'.1) ∧
    read_from (O := FetchExamples.world) FetchExamples.url d (before ++ sa) rq ∧
    u "https://c.example/cb" ∈ doc_redirect_uris d.
Proof.
  assert (Hr : match authorize (O := FetchExamples.world) config service key published_params start with
    (Ok (Redirect _), _) => true | _ => false end = true) by (vm_compute; reflexivity).
  destruct (authorize (O := FetchExamples.world) config service key published_params start)
    as [[[| url | |]|] s'] eqn:E; try discriminate Hr.
  destruct (authorize_redirects (O := FetchExamples.world) config service key published_params start url s')
    as (Hc & v & t & query & fields & st & Hauth & _).
  - split; [apply NoDup_nil_2|done].
  - apply texts_check. vm_compute. reflexivity.
  - apply texts_check. vm_compute. reflexivity.
  - exact E.
  - destruct Hauth as (_ & _ & Ecl & Eru & _ & _ & _ & _ & _ & Hent).
    injection Ecl as Ecl. injection Eru as Eru. rewrite <-Ecl, <-Eru in Hent.
    destruct Hent as [(_ & d & registered & Hsrc & _ & Hin & Hm & _)|[Hs _]].
    2: { vm_compute in Hs. discriminate Hs. }
    destruct Hsrc as [(e & after & He & _)|(after & rq & before & _ & Hread)].
    { vm_compute in He. discriminate He. }
    eexists url, s', _, d, rq, before. split; [reflexivity|]. split; [exact Hc|]. split; [exact Hread|].
    apply uri_matches_spec in Hm as [->|(r & s & Hs & _ & _ & _ & Hhttp & _)]; [exact Hin|].
    vm_compute in Hs. injection Hs as <-. vm_compute in Hhttp. discriminate Hhttp.
Defined.

(** The same client from a host it did not register. *)
Lemma authorize_refuses_witness :
  let p := {| ap_response_type := Some (u "code"); ap_client_id := Some client_id;
              ap_redirect_uri := Some (u "https://evil.example/cb");
              ap_code_challenge := ap_code_challenge params;
              ap_code_challenge_method := Some (u "S256"); ap_state := None;
              ap_resource := None; ap_scope := None |} in
  ∃ resp s', authorize (O := silent_world 1000) config service key p start = (Ok resp, s') ∧
    (is_redirect resp = true ∨
     ∃ error description, resp = _render_authorize_error error description 400 ∧
       error ∈ [u "invalid_request"; u "invalid_target"; u "invalid_client"]) ∧
    is_redirect resp = false.
Proof.
  intros p. eexists _, _. split; [vm_compute; reflexivity|]. split; [|reflexivity].
  refine (authorize_refuses (O := silent_world 1000) config service key p start (Ok _) _ _).
  vm_compute. reflexivity.
Defined.
End AuthorizeExamples.
