(* ===== verification/Callback.v ===== *)
(** * The upstream's return ([callback.py])

    GET [/callback]: the state is opened, an upstream error is handed on to the
    client, and an upstream code is sealed with what [/token] needs to redeem
    it.

    [callback_hands_on] says what the client receives on each branch;
    [callback_refuses] when it receives nothing. *)

From S2P Require Import Prelude PyStr Codec Json World Errors Logging Envelope UrlLib.
From S2P Require Import RedirectUri Assertion Config.

Definition _CODE_TTL_SECONDS : Z := 60.

Definition plain_error (description : pystr) : response :=
  PlainText 400 (u "error=invalid_request" ++ newline ++ u "error_description=" ++ description
                 ++ newline).

(** [params[k] = v] under [if v]. *)
Definition set_truthy (d : dict pystr) (k v : pystr) : dict pystr :=
  if truthy v then dict_set d k v else d.

Section Callback.
Context `{O : Outside, R : Rsa, F : Fernet, FR : FloatRepr} {X : Type}.
Implicit Types (config : ProxyConfig) (key : fkey).

Definition error_params config (env : AuthorizeEnvelope) (error : pystr)
    (error_description : option pystr) : dict pystr :=
  let params := [(u "error", error)] in
  let params := set_truthy params (u "error_description") (default [] error_description) in
  let params := set_truthy params (u "state") (az_state env) in
  dict_set params (u "iss") (public_url config).

Definition code_params config (env : AuthorizeEnvelope) (code_str : pystr) : dict pystr :=
  set_truthy [(u "code", code_str); (u "iss", public_url config)] (u "state") (az_state env).

Definition code_envelope (env : AuthorizeEnvelope) (code : pystr) (now : Z) : CodeEnvelope := {|
  cd_correlation_id := az_correlation_id env; cd_upstream_code := code;
  cd_upstream_verifier := az_upstream_verifier env; cd_resource := az_resource env;
  cd_client_id := az_client_id env; cd_client_code_challenge := az_client_code_challenge env;
  cd_redirect_uri := az_redirect_uri env; cd_exp := now + _CODE_TTL_SECONDS |}.

(** The redirect to the client's URI. *)
Definition back_to_client (env : AuthorizeEnvelope) (params : dict pystr) : res response :=
  query ← urlencode params; Ok (Redirect (az_redirect_uri env ++ u "?" ++ query)).

Definition callback config key (code state error error_description : option pystr) : io X response :=
  match state with
  | None => mret (plain_error (u "missing state"))
  | Some st =>
      opened ← try_io (inr <$> open_authorize key st) is_EnvelopeError (λ exc,
        _ ← log WARNING [(u "event", JStr (u "callback.state_invalid"));
                         (u "error", JStr (str_exn exc))];
        mret (inl (plain_error (u "state envelope invalid or expired"))));
      match opened with
      | inl refusal => mret refusal
      | inr authorize_env =>
          _ ← bind_correlation_id (az_correlation_id authorize_env);
          match error with
          | Some err =>
              _ ← log INFO [(u "event", JStr (u "callback.upstream_error"));
                            (u "error", JStr (sanitize_str err));
                            (u "error_description", JStr (sanitize_str (default [] error_description)));
                            (u "resource", JStr (sanitize_str (az_resource authorize_env)))];
              lift (back_to_client authorize_env (error_params config authorize_env err error_description))
          | None =>
              match code with
              | None => mret (plain_error (u "missing code"))
              | Some c =>
                  now ← time;
                  code_str ← pack_code key (code_envelope authorize_env c now);
                  _ ← log INFO [(u "event", JStr (u "callback.forwarded"));
                                (u "resource", JStr (sanitize_str (az_resource authorize_env)));
                                (u "client_id", JStr (sanitize_str (az_client_id authorize_env)))];
                  lift (back_to_client authorize_env (code_params config authorize_env code_str))
              end
          end
      end
  end.
End Callback.

(** ** Lemmas *)

Lemma code_envelope_ok env code now :
  env_ok (Authorize env) → str_ok code = true → machine_time now →
  env_ok (Code (code_envelope env code now)).
Proof.
  intros Henv%authorize_env_texts Hc Hn.
  apply code_env_ok; [|apply machine_time_ok; [exact Hn|unfold _CODE_TTL_SECONDS; lia]].
  unfold texts in *. rewrite !Forall_cons in *. cbn [code_envelope cd_correlation_id cd_upstream_code
    cd_upstream_verifier cd_resource cd_client_id cd_client_code_challenge cd_redirect_uri].
  naive_solver.
Qed.

Lemma set_truthy_nonempty d k v : d ≠ [] → set_truthy d k v ≠ [].
Proof. unfold set_truthy. destruct (truthy v), d as [|[a b] d]; simpl; try done. by case_decide. Qed.
Lemma dict_set_nonempty {A} (d : dict A) k v : dict_set d k v ≠ [].
Proof. destruct d as [|[a b] d]; simpl; [done|]. by case_decide. Qed.

Section CallbackLemmas.
Context `{O : Outside, !ClockLaws O, R : Rsa, F : Fernet, !FernetLaws F, FR : FloatRepr} {X : Type}.
Implicit Types (config : ProxyConfig) (key : fkey) (s : state X).

Lemma back_to_client_Ok env params url :
  params ≠ [] → back_to_client env params = Ok (Redirect url) →
  ∃ query, url = az_redirect_uri env ++ u "?" ++ query ∧ form_parse query = Some params ∧ 63%N ∉ query.
Proof.
  unfold back_to_client. intros Hne (query & Hq & H)%bind_Ok. apply Ok_inj in H. injection H as <-.
  exists query. split; [done|]. split; [by apply parse_urlencode|].
  by eapply forallb_notin; [|by eapply urlencode_chars].
Qed.

(** The code that is handed out for an opened state, at the end of trace [t]. *)
Definition sealed_code key (env : AuthorizeEnvelope) (code : pystr) (t : trace) : pystr :=
  token_of key (Code (code_envelope env code (o_time t))) (o_time (EvTime :: t))
    (o_random (EvTime :: EvTime :: t) 16).

(** The run once the state is open. *)
Lemma callback_run config key code st error description env s s1 :
  open_authorize key st s = (Ok env, s1) →
  let t := EvBind (az_correlation_id env) :: s1.2 in
  callback config key code (Some st) error description s =
    match error with
    | Some err => (back_to_client env (error_params config env err description),
        (s1.1, EvLog INFO [(u "event", JStr (u "callback.upstream_error"));
                            (u "error", JStr (sanitize_str err));
                            (u "error_description", JStr (sanitize_str (default [] description)));
                            (u "resource", JStr (sanitize_str (az_resource env)))] :: t))
    | None =>
        match code with
        | None => (Ok (plain_error (u "missing code")), (s1.1, t))
        | Some c =>
            (code_str ← pack_code key (code_envelope env c (o_time t));
             _ ← log INFO [(u "event", JStr (u "callback.forwarded"));
                           (u "resource", JStr (sanitize_str (az_resource env)));
                           (u "client_id", JStr (sanitize_str (az_client_id env)))];
             lift (back_to_client env (code_params config env code_str))) (s1.1, EvTime :: t)
        end
    end.
Proof.
  intros Ho t. unfold callback. io_run. rewrite Ho. io_run. destruct error; [done|].
  by destruct code.
Qed.

(** An opened state and an upstream code: where the browser goes, with what. *)
Lemma callback_code_run config key c st description env s s1 url s' :
  open_authorize key st s = (Ok env, s1) → env_ok (Authorize env) → str_ok c = true →
  callback config key (Some c) (Some st) None description s = (Ok (Redirect url), s') →
  let t := EvBind (az_correlation_id env) :: s1.2 in let tok := sealed_code key env c t in
  ∃ query, url = az_redirect_uri env ++ u "?" ++ query ∧
    form_parse query = Some (code_params config env tok) ∧ 63%N ∉ query ∧
    ∀ s2 : state X, open_code key tok s2 = (Ok (code_envelope env c (o_time t)), s2).
Proof.
  intros Ho Henv Hc H t tok. rewrite (callback_run _ _ _ _ _ _ _ _ _ Ho) in H. fold t in H.
  unfold pack_code in H. apply run_bind_Ok in H as (tok' & s2 & Hp & H).
  assert (Hok : env_ok (Code (code_envelope env c (o_time t)))).
  { apply code_envelope_ok; [done..|apply o_time_machine]. }
  rewrite pack_run in Hp by done. apply pair_eq in Hp as [<-%Ok_inj <-].
  apply run_bind_Ok in H as ([] & s3 & _ & H). apply pair_eq in H as [H _].
  apply back_to_client_Ok in H as (query & -> & Hq & Hm); [|by apply set_truthy_nonempty].
  exists query. split; [done|]. split; [done|]. split; [done|]. intros s4. unfold open_code, tok, sealed_code. io_run.
  rewrite open_token_none, decide_True by done. by rewrite code_of_read.
Qed.

(** With an encodable state and issuer the browser is sent on. *)
Lemma callback_succeeds config key c st description env s s1 :
  open_authorize key st s = (Ok env, s1) → env_ok (Authorize env) → str_ok c = true →
  encodable (public_url config) → encodable (az_state env) →
  ∃ url s', callback config key (Some c) (Some st) None description s = (Ok (Redirect url), s').
Proof.
  intros Ho Henv Hc Hp Hs. rewrite (callback_run _ _ _ _ _ _ _ _ _ Ho). unfold pack_code. io_run.
  rewrite pack_run by (apply code_envelope_ok; [done..|apply o_time_machine]). io_run.
  set (tok := token_of _ _ _ _). assert (Ht : encodable tok) by apply encodable_ascii, fernet_ascii.
  unfold back_to_client.
  destruct (proj2 (urlencode_iff (code_params config env tok))) as [q ->]; [|by eexists _, _].
  unfold code_params, set_truthy.
  assert (Hk : encodable (u "code") ∧ encodable (u "iss") ∧ encodable (u "state")) by done.
  destruct Hk as (? & ? & ?). destruct (truthy (az_state env)); cbn [dict_set];
    rewrite ?decide_False by (by apply (bool_decide_unpack _)); by repeat constructor.
Qed.

(** C10. When GET [/callback] sends the browser on with a state it could open,
    it goes to the redirect URI sealed in that state, with a query that decodes
    to: the upstream's error and description unchanged, or else a code that
    opens -- as a code, at any later time -- to the upstream code with the
    verifier, challenge, resource, client and redirect URI sealed in the state
    and a lifetime of 60 seconds; in both cases with the issuer of RFC 9207,
    and with the client's own state exactly when it sent one. *)
Theorem callback_hands_on config key code st error description env s s1 url s' :
  open_authorize key st s = (Ok env, s1) →
  env_ok (Authorize env) → (∀ c, code = Some c → str_ok c = true) →
  callback config key code (Some st) error description s = (Ok (Redirect url), s') →
  ∃ query params, url = az_redirect_uri env ++ u "?" ++ query ∧ form_parse query = Some params ∧
    dict_get params (u "iss") = Some (public_url config) ∧
    dict_get params (u "state") = (if truthy (az_state env) then Some (az_state env) else None) ∧
    match error with
    | Some err =>
        dict_get params (u "error") = Some err ∧
        dict_get params (u "error_description") =
          (if truthy (default [] description) then description else None) ∧
        dict_get params (u "code") = None
    | None =>
        ∃ c tok now, code = Some c ∧ dict_get params (u "code") = Some tok ∧
          dict_get params (u "error") = None ∧
          ∀ s2 : state X, open_code key tok s2 = (Ok (code_envelope env c now), s2)
    end.
Proof.
  intros Ho Henv Hcode H. pose proof H as H0. rewrite (callback_run _ _ _ _ _ _ _ _ _ Ho) in H.
  destruct error as [err|]; [|destruct code as [c|]].
  - apply pair_eq in H as [H _]. apply back_to_client_Ok in H as (query & -> & Hq & _);
      [|apply dict_set_nonempty].
    exists query, (error_params config env err description). split; [done|]. split; [done|].
    unfold error_params, set_truthy.
    destruct description as [[|d0 d]|], (truthy (az_state env)) eqn:Hs; repeat split.
  - apply (callback_code_run _ _ _ _ _ _ _ _ _ _ Ho) in H0 as (query & -> & Hq & _ & Hop); [|by auto..].
    eexists query, _. split; [done|]. split; [done|].
    unfold code_params, set_truthy. split; [by destruct (truthy _)|].
    split; [by destruct (truthy _)|]. eexists c, _, _. split; [done|].
    split; [by destruct (truthy _)|]. split; [by destruct (truthy _)|]. exact Hop.
  - by apply pair_eq in H as [H%Ok_inj _].
Qed.

(** Without a state, with a state that does not open -- forged, of another
    kind, or older than 600 seconds -- or without a code, GET [/callback]
    answers 400 in plain text and sends the browser nowhere. *)
Theorem callback_refuses config key code error description s :
  callback config key code None error description s = (Ok (plain_error (u "missing state")), s) ∧
  (∀ st m s1, open_authorize key st s = (Raise (EnvelopeError m), s1) →
     ∃ s', callback config key code (Some st) error description s
       = (Ok (plain_error (u "state envelope invalid or expired")), s') ∧ s'.1 = s1.1) ∧
  (∀ st env s1, open_authorize key st s = (Ok env, s1) →
     ∃ s', callback config key None (Some st) None description s
       = (Ok (plain_error (u "missing code")), s') ∧ s'.1 = s1.1).
Proof.
  split; [done|]. split.
  - intros st m s1 Ho. unfold callback. io_run. rewrite Ho. io_run. cbn [is_EnvelopeError].
    by eexists.
  - intros st env s1 Ho. rewrite (callback_run _ _ _ _ _ _ _ _ _ Ho). by eexists.
Qed.
End CallbackLemmas.

(** ** The user consented *)
Module CallbackExamples.
#[local] Existing Instance ToyFernet.fernet.
#[local] Existing Instance ToyFernet.fernet_laws.
#[local] Existing Instance AssertionExamples.toy_rsa.
#[local] Instance no_floats : FloatRepr := id.

Definition key : fkey := true.
Definition config : ProxyConfig := ConfigExamples.sample_config.
Definition start : state unit := (tt, []).

(** An envelope for the client whose redirect URI is [uri], and its state. *)
Definition env_for (uri : pystr) : AuthorizeEnvelope := {|
  az_correlation_id := u "c0"; az_client_id := u "https://c.example/id"; az_redirect_uri := uri;
  az_state := u "xyz"; az_resource := u "https://r0.example";
  az_client_code_challenge := u "E9Melhoa2OwvFrEMTJguCHaoeK1t8URWbuGJSstw-cM";
  az_upstream_verifier := u "v"; az_scope := u "openid"; az_exp := 1600 |}.
Definition state_for (uri : pystr) : pystr := token_of key (Authorize (env_for uri)) 1000 [].

Lemma callback_hands_on_witness :
  ∃ url s', callback (O := silent_world 1000) config key (Some (u "upstream-code"))
      (Some (state_for (u "https://c.example/cb"))) None None start = (Ok (Redirect url), s') ∧
    ∃ query, url = u "https://c.example/cb" ++ u "?" ++ query.
Proof.
  eexists _, _. split; [vm_compute; reflexivity|].
  edestruct (callback_hands_on (O := silent_world 1000) config key (Some (u "upstream-code"))
    (state_for (u "https://c.example/cb")) None None (env_for (u "https://c.example/cb")) start)
    as (query & params & Hu & _); cycle 4.
  - exists query. exact Hu.
  - vm_compute. reflexivity.
  - apply json_okb_ok. vm_compute. reflexivity.
  - intros c E. injection E as <-. vm_compute. reflexivity.
  - vm_compute. reflexivity.
Defined.

(** A made-up state. *)
Lemma callback_refuses_witness :
  ∃ s', callback (O := silent_world 1000) config key (Some (u "c")) (Some (u "forged")) None None start
    = (Ok (plain_error (u "state envelope invalid or expired")), s') ∧ s'.1 = tt.
Proof.
  refine (proj1 (proj2 (callback_refuses (O := silent_world 1000) config key (Some (u "c")) None None
    start)) (u "forged") (u "envelope invalid or expired") (tt, [EvTime]) _).
  vm_compute. reflexivity.
Defined.

(** A redirect URI that carries a query of its own: the client is sent to a URL
    whose query has no parameter [code]; the code is part of the value of [x]. *)
Example callback_loses_code :
  match callback (O := silent_world 1000) config key (Some (u "upstream-code"))
          (Some (state_for (u "https://c.example/cb?x=1"))) None None start with
  | (Ok (Redirect url), _) =>
      match urlsplit url with
      | Ok sp => (λ d, dict_get d (u "code")) <$> form_parse (query sp) = Some None
      | Raise _ => False
      end
  | _ => False
  end ∧
  accept_registered (u "https://c.example/cb?x=1") = Ok tt.
Proof. vm_compute. repeat split. Qed.
End CallbackExamples.
