(* ===== verification/Token.v ===== *)
(** * The token endpoint ([token.py])

    POST [/token] with its three grants: the code is redeemed and the refresh
    token rotated at the upstream, and what the upstream answers is handed on
    with its refresh token sealed.  The token exchange is an operation of the
    service for personal access tokens, given here by its interface
    [ExchangeService]. *)

From S2P Require Import Prelude PyStr Codec Digest Json World Errors Logging Pkce Envelope.
From S2P Require Import UrlLib Assertion Config.

Definition TOKEN_EXCHANGE : pystr := u "urn:ietf:params:oauth:grant-type:token-exchange".

(** What [/token] asks of [PatService]: the payload of a token exchange. *)
Record ExchangeService (X : Type) := {
  exchange : (* subject_token subject_token_type requested_token_type resource *)
    option pystr → option pystr → option pystr → option pystr → io X (dict json)
}.
Arguments exchange {X}.

Record TokenForm := {
  tf_grant_type : option pystr;
  tf_code : option pystr;
  tf_code_verifier : option pystr;
  tf_redirect_uri : option pystr;
  tf_client_id : option pystr;
  tf_refresh_token : option pystr;
  tf_scope : option pystr;
  tf_subject_token : option pystr;
  tf_subject_token_type : option pystr;
  tf_requested_token_type : option pystr;
  tf_resource : option pystr
}.

Section Token.
Context `{O : Outside, R : Rsa, F : Fernet, FR : FloatRepr} {X : Type}.
Implicit Types (config : ProxyConfig) (key : fkey).

Definition token_headers : dict pystr := [(u "Accept", u "application/json")].

Definition _post_form (url : pystr) (form : dict json) : io X http_response :=
  try_io (send (PostForm url form token_headers None)) is_HTTPError
    (λ exc, raise (ServerError (u "upstream unreachable: " ++ str_exn exc))).

(** [JObj d] is the reply the upstream documents; on another value the dict
    operations raise. *)
Definition _finalise_upstream_response (reply : http_response) key (resource : pystr)
    : io X response :=
  payload ← try_io (lift (response_json reply)) is_ValueError
    (λ _, raise (ServerError (u "upstream token response is not valid JSON")));
  if 400 <=? rsp_status reply then
    match payload with
    | JObj d =>
        _ ← log INFO [(u "event", JStr (u "token.upstream_error"));
                      (u "status_code", JInt (rsp_status reply));
                      (u "error", dict_get_default d (u "error") JNull)];
        mret (JSONResponse (rsp_status reply) (JObj d) [])
    | _ => raise no_get
    end
  else
    match payload with
    | JObj d =>
        '(d', has_refresh) ←
          match dict_get d (u "refresh_token") with
          | Some upstream =>
              envelope_refresh ← pack_refresh key
                {| rt_resource := resource; rt_upstream_refresh_token := upstream |};
              mret (dict_set d (u "refresh_token") (JStr envelope_refresh), true)
          | None => mret (d, false)
          end;
        _ ← log INFO [(u "event", JStr (u "token.issued")); (u "resource", JStr resource);
                      (u "has_refresh", JBool has_refresh);
                      (u "token_type", dict_get_default d' (u "token_type") JNull);
                      (u "expires_in", dict_get_default d' (u "expires_in") JNull)];
        mret (JSONResponse 200 (JObj d') [])
    | JArr l =>
        if existsb (λ j, match j with JStr t => bool_decide (t = u "refresh_token") | _ => false end) l
        then raise (TypeError (u "list indices must be integers or slices, not str"))
        else raise no_get
    | JStr t =>
        if contains t (u "refresh_token")
        then raise (TypeError (u "string indices must be integers, not 'str'"))
        else raise no_get
    | _ => raise (TypeError (u "argument is not iterable"))
    end.

Definition code_form config (env : CodeEnvelope) (entry : ResourceEntry) : dict json :=
  let form := [
    (u "grant_type", JStr (u "authorization_code"));
    (u "code", JStr (cd_upstream_code env));
    (u "redirect_uri", JStr (public_url config ++ u "/callback"));
    (u "code_verifier", JStr (cd_upstream_verifier env));
    (u "client_id", JStr (re_client_id entry))] in
  if truthy (re_client_secret entry)
  then dict_set form (u "client_secret") (JStr (re_client_secret entry)) else form.

Definition _handle_auth_code config key (code code_verifier redirect_uri client_id : option pystr)
    : io X response :=
  match code, code_verifier with
  | None, _ => raise (InvalidRequest (u "missing code"))
  | _, None => raise (InvalidRequest (u "missing code_verifier"))
  | Some c, Some verifier =>
      code_env ← try_io (open_code key c) is_EnvelopeError
        (λ exc, raise (InvalidGrant (u "code envelope invalid or expired: " ++ str_exn exc)));
      _ ← bind_correlation_id (cd_correlation_id code_env);
      now ← time;
      if cd_exp code_env <=? now then raise (InvalidGrant (u "code envelope expired"))
      else if match redirect_uri with
              | Some r => negb (bool_decide (r = cd_redirect_uri code_env)) | None => false end
      then raise (InvalidGrant (u "redirect_uri does not match the redirect_uri from /authorize"))
      else if match client_id with
              | Some i => negb (bool_decide (i = cd_client_id code_env)) | None => false end
      then raise (InvalidGrant (u "client_id does not match the client_id from /authorize"))
      else
        verified ← lift (verify_challenge verifier (cd_client_code_challenge code_env));
        if negb verified
        then raise (InvalidGrant (u "PKCE code_verifier does not match code_challenge"))
        else
          entry ← lift (resource_by_url config (cd_resource code_env));
          match entry with
          | None => raise (ServerError (u "resource " ++ repr (cd_resource code_env)
                      ++ u " is no longer configured; refusing token exchange"))
          | Some e =>
              upstream_response ← _post_form (token_url (re_issuer e)) (code_form config code_env e);
              _finalise_upstream_response upstream_response key (re_url e)
          end
  end.

Definition refresh_form (env : RefreshEnvelope) (entry : ResourceEntry) (scope : option pystr)
    : dict json :=
  let form := [
    (u "grant_type", JStr (u "refresh_token"));
    (u "refresh_token", rt_upstream_refresh_token env);
    (u "client_id", JStr (re_client_id entry))] in
  let form := if truthy (re_client_secret entry)
    then dict_set form (u "client_secret") (JStr (re_client_secret entry)) else form in
  if truthy (default [] scope) then dict_set form (u "scope") (JStr (default [] scope)) else form.

Definition _handle_refresh config key (refresh_token scope : option pystr) : io X response :=
  match refresh_token with
  | None => raise (InvalidRequest (u "missing refresh_token"))
  | Some token =>
      refresh_env ← try_io (open_refresh key token) is_EnvelopeError
        (λ exc, raise (InvalidGrant (u "refresh_token envelope invalid: " ++ str_exn exc)));
      entry ← lift (resource_by_url config (rt_resource refresh_env));
      match entry with
      | None => raise (ServerError (u "resource " ++ repr (rt_resource refresh_env)
                  ++ u " is no longer configured; refusing refresh"))
      | Some e =>
          upstream_response ← _post_form (token_url (re_issuer e)) (refresh_form refresh_env e scope);
          _finalise_upstream_response upstream_response key (re_url e)
      end
  end.

Definition allowed_grants (pat_service : option (ExchangeService X)) : pystr :=
  match pat_service with
  | Some _ => u "'authorization_code', 'refresh_token' or '" ++ TOKEN_EXCHANGE ++ u "'"
  | None => u "'authorization_code' or 'refresh_token'"
  end.

(** The body of the handler's [try]. *)
Definition grant config key (pat_service : option (ExchangeService X)) (f : TokenForm)
    : io X response :=
  let grant_type := tf_grant_type f in
  if bool_decide (grant_type = Some (u "authorization_code")) then
    _handle_auth_code config key (tf_code f) (tf_code_verifier f) (tf_redirect_uri f) (tf_client_id f)
  else if bool_decide (grant_type = Some (u "refresh_token")) then
    _handle_refresh config key (tf_refresh_token f) (tf_scope f)
  else
    match (if bool_decide (grant_type = Some TOKEN_EXCHANGE) then pat_service else None) with
    | Some service =>
        payload ← exchange service (tf_subject_token f) (tf_subject_token_type f)
          (tf_requested_token_type f) (tf_resource f);
        mret (JSONResponse 200 (JObj payload) [(u "Cache-Control", u "no-store")])
    | None =>
        if negb (truthy (default [] grant_type))
        then raise (InvalidRequest (u "missing grant_type; supported: " ++ allowed_grants pat_service))
        else raise (UnsupportedGrantType (u "grant_type must be " ++ allowed_grants pat_service
               ++ u ", got " ++ repr (default [] grant_type)))
    end.

Definition token config key (pat_service : option (ExchangeService X)) (f : TokenForm)
    : io X response :=
  try_io (grant config key pat_service f) is_OAuthError (λ exc,
    match exc with
    | OAuthError error description status_code =>
        _ ← log WARNING [(u "event", JStr (u "token.rejected"));
              (u "grant_type", JStr (sanitize_str (default [] (tf_grant_type f))));
              (u "error", JStr error);
              (u "error_description", JStr (sanitize_str description))];
        mret (JSONResponse status_code (as_dict error description) [])
    | _ => raise exc
    end).
End Token.

(** ** Lemmas *)

(** A refusal: an exception that becomes an error response or leaves the
    handler. *)
Definition refusal (r : res response) : Prop :=
  match r with
  | Ok _ => False
  | Raise (OAuthError _ _ status_code) => 400 <= status_code
  | Raise _ => True
  end.

Lemma resource_by_url_In `{R : Rsa} config url e :
  resource_by_url config url = Ok (Some e) → e ∈ resources config.
Proof.
  unfold resource_by_url. intros (t & _ & Hf%Ok_inj)%bind_Ok.
  unfold find_resource in Hf. apply find_some in Hf as [Hf _]. by apply list_elem_of_In.
Qed.

Section TokenLemmas.
Context `{O : Outside, R : Rsa, F : Fernet, FR : FloatRepr} {X : Type}.
Implicit Types (config : ProxyConfig) (key : fkey) (s : state X).

Lemma finalise_keeps reply key resource :
  keeps (X := X) inward (_finalise_upstream_response reply key resource).
Proof. unfold _finalise_upstream_response, pack_refresh. keeps_tac. Qed.

(** One form is posted, and what follows stays inside. *)
Lemma post_finalise_run url form key resource s r s' :
  (reply ← _post_form url form; _finalise_upstream_response reply key resource) s = (r, s') →
  s'.1 = s.1 ∧ ∃ new, s'.2 = new ++ EvHttp (PostForm url form token_headers None) :: s.2 ∧
    Forall inward new.
Proof.
  unfold _post_form, send. io_run.
  destruct (o_http s.2 _) as [[n m]|reply]; io_run.
  - cbn [is_HTTPError]. intros H. apply pair_eq in H as [_ <-]. split; [done|]. by exists [].
  - intros H. by apply finalise_keeps in H as [? ?].
Qed.

(** The two interactive grants either stay inside and refuse, or post one form. *)
Definition outcome (entitled : pystr → dict json → Prop) s (r : res response) (s' : state X) : Prop :=
  s'.1 = s.1 ∧
  ((∃ new, s'.2 = new ++ s.2 ∧ Forall inward new ∧ refusal r) ∨
   ∃ url form before after, entitled url form ∧
     s'.2 = after ++ EvHttp (PostForm url form token_headers None) :: before ++ s.2 ∧
     Forall inward before ∧ Forall inward after).

Definition refusing (e : exn) : Prop := refusal (Raise e).
Lemma not_oauth_refusing e : not_oauth e → refusing e.
Proof. by destruct e. Qed.

Lemma oauth_refusing e d status_code : 400 <= status_code → refusing (OAuthError e d status_code).
Proof. done. Qed.

Lemma outcome_raise Q s e r s' :
  refusing e → raise e s = (r, s') → outcome Q s r s'.
Proof. intros He H. apply pair_eq in H as [<- <-]. split; [done|]. left. by exists []. Qed.

Ltac refuse := eapply outcome_raise; [|eassumption]; apply oauth_refusing; lia.

(** A step that stays inside does not change the outcome. *)
Lemma outcome_bind {A} (m : io X A) (f : A → io X response) Q s r s' :
  (m ≫= f) s = (r, s') → keeps inward m → raises refusing m →
  (∀ a s1, m s = (Ok a, s1) → f a s1 = (r, s') → outcome Q s1 r s') → outcome Q s r s'.
Proof.
  intros H Hk Hr. revert H. unfold mbind, io_bind. destruct (m s) as [[a|e] s1] eqn:E.
  - apply Hk in E as Hs. destruct Hs as (E1 & new & E2 & Hn). intros H Hf.
    destruct (Hf a s1 eq_refl H) as [F1 Ho]. split; [congruence|].
    destruct Ho as [(new' & F2 & Hn' & ?)|(url & form & before & after & ? & F2 & ? & ?)].
    + left. exists (new' ++ new). rewrite F2, E2, app_assoc. split; [done|].
      split; [by apply Forall_app|done].
    + right. exists url, form, (before ++ new), after. rewrite F2, E2, app_assoc.
      split; [done|]. split; [done|]. split; [by apply Forall_app|done].
  - intros H _. apply pair_eq in H as [<- <-]. apply Hr in E as He.
    apply Hk in E as (E1 & new & E2 & Hn). split; [done|]. left. by exists new.
Qed.

Lemma outcome_post (Q : pystr → dict json → Prop) url form key resource s r s' :
  Q url form →
  (reply ← _post_form url form; _finalise_upstream_response reply key resource) s = (r, s') →
  outcome Q s r s'.
Proof.
  intros HQ H. apply post_finalise_run in H as (H1 & after & H2 & Ha).
  split; [done|]. right. by exists url, form, [], after.
Qed.

(** The code a request redeems. *)
Definition redeemable config key (s : state X) (code verifier redirect_uri client_id : option pystr)
    (url : pystr) (form : dict json) : Prop :=
  ∃ c v env entry s1,
    code = Some c ∧ verifier = Some v ∧ open_code key c s = (Ok env, s1) ∧
    o_time (EvBind (cd_correlation_id env) :: s1.2) < cd_exp env ∧
    (∀ x, redirect_uri = Some x → x = cd_redirect_uri env) ∧
    (∀ x, client_id = Some x → x = cd_client_id env) ∧
    verify_challenge v (cd_client_code_challenge env) = Ok true ∧
    resource_by_url config (cd_resource env) = Ok (Some entry) ∧ entry ∈ resources config ∧
    url = token_url (re_issuer entry) ∧ form = code_form config env entry.

Lemma mismatch_false (o : option pystr) x :
  match o with Some r => negb (bool_decide (r = x)) | None => false end = false →
  ∀ y, o = Some y → y = x.
Proof. intros H y ->. by bool_hyps. Qed.

Lemma refusing_lift {A} (r : res A) : raises_only not_oauth r → raises refusing (lift (X := X) r).
Proof.
  intros H. apply raises_lift. eapply raises_only_weaken; [exact H|apply not_oauth_refusing].
Qed.

Lemma resource_by_url_not_oauth config url : raises_only not_oauth (resource_by_url config url).
Proof.
  unfold resource_by_url, _normalise_requested_url. raises_pure.
Qed.

Lemma verify_challenge_not_oauth v c : raises_only not_oauth (verify_challenge v c).
Proof. unfold verify_challenge, derive_challenge, encode_ascii, compare_digest. raises_pure. Qed.

Lemma handle_auth_code_run config key code verifier redirect_uri client_id s r s' :
  _handle_auth_code config key code verifier redirect_uri client_id s = (r, s') →
  outcome (redeemable config key s code verifier redirect_uri client_id) s r s'.
Proof.
  unfold _handle_auth_code. destruct code as [c|], verifier as [v|]; try by (intros H; refuse).
  destruct (open_not_oauth (X := X) key c) as (_ & Hoc & _).
  intros H. eapply outcome_bind; [exact H|..].
  { apply keeps_try; [apply open_code_keeps|]. intros e. apply keeps_raise. }
  { apply (raises_try _ not_oauth); [exact Hoc|intros e He _; by apply not_oauth_refusing|].
    intros e _ _. apply raises_raise, oauth_refusing. lia. }
  clear H. intros env s1 Ho H. apply run_try_Ok in Ho as [Ho|(e & s2 & _ & _ & Ho)]; [|done].
  cbv beta in H.   eapply outcome_bind; [exact H|keeps_tac|apply raises_emit|]. clear H.
  intros [] s2 [_ <-]%pair_eq H. cbv beta in H.
  eapply outcome_bind; [exact H|keeps_tac|apply raises_ask|]. clear H.
  intros now s2 Hs2 H. apply pair_eq in Hs2 as [<-%Ok_inj <-]. cbn [fst snd] in *. cbv beta in H.
  destruct (_ <=? _) eqn:Ht; [refuse|]. apply Z.leb_gt in Ht.
  match type of H with (if ?b then _ else _) _ = _ => destruct b eqn:Hr; [refuse|] end.
  match type of H with (if ?b then _ else _) _ = _ => destruct b eqn:Hc; [refuse|] end.
  eapply outcome_bind; [exact H|apply keeps_lift|apply refusing_lift, verify_challenge_not_oauth|].
  clear H. intros ok s2 [Hv <-]%pair_eq H. cbv beta in H. destruct ok; cbn [negb] in H; [|refuse].
  eapply outcome_bind; [exact H|apply keeps_lift|apply refusing_lift, resource_by_url_not_oauth|].
  clear H. intros o s2 [He <-]%pair_eq H. cbv beta in H. destruct o as [entry|]; [|refuse].
  eapply outcome_post; [|exact H]. exists c, v, env, entry, s1. split; [done|]. split; [done|].
  split; [done|]. split; [done|]. split; [by apply mismatch_false|].
  split; [by apply mismatch_false|]. split; [done|]. split; [done|].
  split; [by eapply resource_by_url_In|done].
Qed.
(** Once every check passes the code is redeemed. *)
Lemma redeem_run config key service f s c v env entry s1 :
  tf_grant_type f = Some (u "authorization_code") →
  tf_code f = Some c → tf_code_verifier f = Some v →
  open_code key c s = (Ok env, s1) →
  let t := EvTime :: EvBind (cd_correlation_id env) :: s1.2 in
  o_time (EvBind (cd_correlation_id env) :: s1.2) < cd_exp env →
  (∀ x, tf_redirect_uri f = Some x → x = cd_redirect_uri env) →
  (∀ x, tf_client_id f = Some x → x = cd_client_id env) →
  verify_challenge v (cd_client_code_challenge env) = Ok true →
  resource_by_url config (cd_resource env) = Ok (Some entry) →
  grant config key service f s =
    (reply ← _post_form (token_url (re_issuer entry)) (code_form config env entry);
     _finalise_upstream_response reply key (re_url entry)) (s1.1, t).
Proof.
  intros Hg Hc Hv Ho t Ht Hr Hi Hp He. unfold grant. rewrite Hg, bool_decide_true by done.
  unfold _handle_auth_code. rewrite Hc, Hv. unfold mbind at 1, io_bind at 1, try_io. rewrite Ho.
  unfold mbind at 1, io_bind at 1, bind_correlation_id, emit.
  unfold mbind at 1, io_bind at 1, time, ask. cbn [fst snd]. fold t.
  replace (cd_exp env <=? _) with false by lia.
  assert (match tf_redirect_uri f with
          | Some r => negb (bool_decide (r = cd_redirect_uri env)) | None => false end = false) as ->.
  { destruct (tf_redirect_uri f); [|done]. by rewrite bool_decide_true by auto. }
  assert (match tf_client_id f with
          | Some i => negb (bool_decide (i = cd_client_id env)) | None => false end = false) as ->.
  { destruct (tf_client_id f); [|done]. by rewrite bool_decide_true by auto. }
  rewrite Hp, He. done.
Qed.

(** What a refresh token entitles to. *)
Definition refreshable config key (s : state X) (refresh_token scope : option pystr)
    (url : pystr) (form : dict json) : Prop :=
  ∃ t env entry s1,
    refresh_token = Some t ∧ open_refresh key t s = (Ok env, s1) ∧
    resource_by_url config (rt_resource env) = Ok (Some entry) ∧ entry ∈ resources config ∧
    url = token_url (re_issuer entry) ∧ form = refresh_form env entry scope.

Lemma handle_refresh_run config key refresh_token scope s r s' :
  _handle_refresh config key refresh_token scope s = (r, s') →
  outcome (refreshable config key s refresh_token scope) s r s'.
Proof.
  unfold _handle_refresh. destruct refresh_token as [t|]; [|intros H; refuse].
  destruct (open_not_oauth (X := X) key t) as (_ & _ & Hor & _).
  intros H. eapply outcome_bind; [exact H|..].
  { apply keeps_try; [apply open_refresh_keeps|]. intros e. apply keeps_raise. }
  { apply (raises_try _ not_oauth); [exact Hor|intros e He _; by apply not_oauth_refusing|].
    intros e _ _. apply raises_raise, oauth_refusing. lia. }
  clear H. intros env s1 Ho H. apply run_try_Ok in Ho as [Ho|(e & s2 & _ & _ & Ho)]; [|done].
  cbv beta in H.
  eapply outcome_bind; [exact H|apply keeps_lift|apply refusing_lift, resource_by_url_not_oauth|].
  clear H. intros o s2 [He <-]%pair_eq H. cbv beta in H. destruct o as [entry|]; [|refuse].
  eapply outcome_post; [|exact H]. exists t, env, entry, s1.
  repeat (split; [done|]). split; [by eapply resource_by_url_In|done].
Qed.

(** What the handler makes of an outcome of its [try] body. *)
Definition answered (entitled : pystr → dict json → Prop) s (r : res response) (s' : state X) : Prop :=
  s'.1 = s.1 ∧
  ((∃ new, s'.2 = new ++ s.2 ∧ Forall inward new ∧
      ∀ resp, r = Ok resp → 400 <= response_status resp) ∨
   ∃ url form before after, entitled url form ∧
     s'.2 = after ++ EvHttp (PostForm url form token_headers None) :: before ++ s.2 ∧
     Forall inward before ∧ Forall inward after).

Lemma token_outcome config key service f Q s r s' :
  (∀ r s', grant config key service f s = (r, s') → outcome Q s r s') →
  token config key service f s = (r, s') → answered Q s r s'.
Proof.
  intros Hg. unfold token, try_io. destruct (grant config key service f s) as [r1 s1] eqn:E.
  destruct (Hg _ _ eq_refl) as [E1 Ho]. clear Hg E.
  destruct r1 as [resp|e]; [|destruct (is_OAuthError e) eqn:He].
  - intros H. apply pair_eq in H as [<- <-]. split; [done|].
    destruct Ho as [(?&?&?&[])|?]; by right.
  - destruct e; try discriminate. io_run. intros H. apply pair_eq in H as [<- <-]. split; [done|].
    cbn [fst snd]. destruct Ho as [(new & E2 & Hn & Hr)|(url & form & before & after & ? & E2 & ? & ?)].
    + left. eexists (EvLog WARNING _ :: new). rewrite E2. split; [done|].
      split; [by constructor|]. intros resp H%Ok_inj. by rewrite <-H.
    + right. eexists url, form, before, (EvLog WARNING _ :: after). rewrite E2. split; [done|].
      split; [done|]. split; [done|]. by constructor.
  - intros H. apply pair_eq in H as [<- <-]. split; [done|].
    destruct Ho as [(new & ? & ? & ?)|?]; [|by right]. left. by exists new.
Qed.
End TokenLemmas.

(** ** Properties *)

Section TokenProperties.
Context `{O : Outside, R : Rsa, F : Fernet, FR : FloatRepr} {X : Type}.
Implicit Types (config : ProxyConfig) (key : fkey) (s : state X).

(** A code is redeemed only for the client it was issued to.  With the grant
    [authorization_code], POST [/token] either contacts nobody and answers with
    an error, or sends exactly one request: the upstream code and verifier that
    the presented code seals, to the token endpoint of the issuer of the
    resource that it seals, with that resource's client -- and then the code has
    not expired, the redirect URI and client id agree with the sealed ones where
    the request names them, and the presented verifier passes the PKCE check
    against the sealed challenge. *)
Theorem token_redeems_code config key service f s r s' :
  tf_grant_type f = Some (u "authorization_code") →
  token config key service f s = (r, s') →
  answered (redeemable config key s (tf_code f) (tf_code_verifier f) (tf_redirect_uri f)
              (tf_client_id f)) s r s'.
Proof.
  intros Hg. apply token_outcome. intros r' s'' H. eapply handle_auth_code_run. revert H.
  unfold grant. rewrite Hg. by rewrite bool_decide_true.
Qed.

(** A refresh token is used only at its own upstream.  With the grant
    [refresh_token], POST [/token] either contacts nobody and answers with an
    error, or sends exactly one request: the upstream refresh token that the
    presented one seals, to the token endpoint of the issuer of the resource it
    seals, with that resource's client, and the scope if one is named. *)
Theorem token_refreshes config key service f s r s' :
  tf_grant_type f = Some (u "refresh_token") →
  token config key service f s = (r, s') →
  answered (refreshable config key s (tf_refresh_token f) (tf_scope f)) s r s'.
Proof.
  intros Hg. apply token_outcome. intros r' s'' H. eapply handle_refresh_run. revert H.
  unfold grant. rewrite Hg. rewrite bool_decide_false by (by apply (bool_decide_unpack _)).
  by rewrite bool_decide_true.
Qed.

(** A token exchange is the service's to answer. *)
Lemma token_exchange_run config key svc f s payload s1 :
  tf_grant_type f = Some TOKEN_EXCHANGE →
  exchange svc (tf_subject_token f) (tf_subject_token_type f) (tf_requested_token_type f)
    (tf_resource f) s = (Ok payload, s1) →
  token config key (Some svc) f s
    = (Ok (JSONResponse 200 (JObj payload) [(u "Cache-Control", u "no-store")]), s1).
Proof.
  intros Hg H. unfold token, grant, try_io. rewrite Hg.
  rewrite !(bool_decide_false _) by (by apply (bool_decide_unpack _)). rewrite bool_decide_true by done.
  io_run. by rewrite H.
Qed.

(** C40. Every other request: a token exchange is answered by the service -- its
    payload with status 200, marked not to be stored -- when the service is
    configured, and any other grant is refused with status 400 without
    contacting anybody, as [invalid_request] when none is named and as
    [unsupported_grant_type] when one is.  Whatever the grant, an OAuth error
    that is raised becomes the JSON body with that error's status, and an
    exception that leaves the handler is none. *)
Theorem token_grants config key service f s :
  (∀ error description status_code s1,
     grant config key service f s = (Raise (OAuthError error description status_code), s1) →
     ∃ s', token config key service f s
       = (Ok (JSONResponse status_code (as_dict error description) []), s') ∧ s'.1 = s1.1) ∧
  (∀ e s', token config key service f s = (Raise e, s') → is_OAuthError e = false) ∧
  (tf_grant_type f ≠ Some (u "authorization_code") → tf_grant_type f ≠ Some (u "refresh_token") →
   (∀ svc, tf_grant_type f = Some TOKEN_EXCHANGE → service = Some svc →
      ∀ payload s1, exchange svc (tf_subject_token f) (tf_subject_token_type f)
                      (tf_requested_token_type f) (tf_resource f) s = (Ok payload, s1) →
        token config key service f s
          = (Ok (JSONResponse 200 (JObj payload) [(u "Cache-Control", u "no-store")]), s1)) ∧
   (tf_grant_type f ≠ Some TOKEN_EXCHANGE ∨ service = None →
      ∃ description new,
        token config key service f s =
          (Ok (JSONResponse 400 (as_dict
             (if truthy (default [] (tf_grant_type f)) then u "unsupported_grant_type"
              else u "invalid_request") description) []), (s.1, new ++ s.2)) ∧
        Forall inward new)).
Proof.
  split; [|split; [|intros H1 H2; split]].
  - intros error d st s1 H. unfold token, try_io. rewrite H. cbn [is_OAuthError].
    eexists. split; [reflexivity|done].
  - unfold token, try_io. intros e s'. destruct (grant _ _ _ _ s) as [[a|e1] s1]; [done|].
    destruct (is_OAuthError e1) eqn:He; [by destruct e1|]. intros H. injection H as <- <-. done.
  - intros svc Hg -> payload s1 H. by apply token_exchange_run.
  - intros H3. unfold token, grant, try_io. rewrite !(bool_decide_false (tf_grant_type f = _)) by done.
    replace (if bool_decide (tf_grant_type f = Some TOKEN_EXCHANGE) then service else None)
      with (@None (ExchangeService X)).
    2: { destruct H3 as [H3| ->]; [by rewrite bool_decide_false|by case_bool_decide]. }
    destruct (truthy _) eqn:Ht; cbn [negb]; io_run; cbn [is_OAuthError UnsupportedGrantType InvalidRequest];
      (eexists _, [_]; split; [reflexivity|by constructor]).
Qed.
End TokenProperties.

Section TokenReplies.
Context `{O : Outside, F : Fernet, !FernetLaws F, FR : FloatRepr} {X : Type}.
Implicit Types (key : fkey) (s : state X).

Lemma finalise_run reply key resource s r s' :
  str_ok resource = true →
  _finalise_upstream_response reply key resource s = (r, s') →
  s'.1 = s.1 ∧ (∃ new, s'.2 = new ++ s.2 ∧ Forall inward new) ∧
  match rsp_json reply with
  | None => ∃ d, r = Raise (ServerError d)
  | Some (JObj d) =>
      if 400 <=? rsp_status reply then r = Ok (JSONResponse (rsp_status reply) (JObj d) [])
      else match dict_get d (u "refresh_token") with
      | None => r = Ok (JSONResponse 200 (JObj d) [])
      | Some upstream => json_ok upstream →
          ∃ tok d', r = Ok (JSONResponse 200 (JObj d') []) ∧
            dict_get d' (u "refresh_token") = Some (JStr tok) ∧
            (∀ k, k ≠ u "refresh_token" → dict_get d' k = dict_get d k) ∧
            ∀ s2 : state X, open_refresh key tok s2 =
              (Ok {| rt_resource := resource; rt_upstream_refresh_token := sort_json upstream |}, s2)
      end
  | Some _ => ∃ e, r = Raise e ∧ not_oauth e
  end.
Proof.
  intros Hres H. split; [by eapply keeps_state, H; apply finalise_keeps|].
  split; [by apply finalise_keeps in H as [_ ?]|]. revert H.
  unfold _finalise_upstream_response, response_json, pack_refresh. io_run.
  destruct (rsp_json reply) as [j|]; io_run.
  2: { cbn [is_ValueError json_error]. intros H. apply pair_eq in H as [<- _]. by eexists. }
  destruct (400 <=? rsp_status reply); destruct j as [| | | | | |d]; io_run;
    try (intros H; apply pair_eq in H as [<- _]; by eexists).
  - match goal with |- (if ?b then _ else _) _ = _ → _ => destruct b end; intros H; (apply pair_eq in H as [<- _]; by eexists).
  - match goal with |- (if ?b then _ else _) _ = _ → _ => destruct b end; intros H; (apply pair_eq in H as [<- _]; by eexists).
  - destruct (dict_get d (u "refresh_token")) as [upstream|] eqn:Hd.
    2: { io_run. intros H. by apply pair_eq in H as [<- _]. }
    intros H Hj. assert (Hok : env_ok (Refresh
      {| rt_resource := resource; rt_upstream_refresh_token := upstream |})) by by apply refresh_env_ok.
    revert H. io_run. rewrite pack_run by done. io_run. intros H. apply pair_eq in H as [<- _].
    eexists _, _. split; [reflexivity|]. split; [by rewrite dict_get_set_eq|].
    split; [intros k Hk; by rewrite dict_get_set_ne|].
    intros s2. unfold open_refresh. io_run. rewrite open_token_none, decide_True by done.
    pose proof (refresh_of_read {| rt_resource := resource; rt_upstream_refresh_token := upstream |}) as Hr.
    destruct (refresh_of _); [|discriminate]. cbn in Hr. apply Ok_inj in Hr. by injection Hr as ->.
Qed.

(** C7. What becomes of the upstream's reply to either interactive grant.  An
    error object is handed on with its status, verbatim.  A token object is
    handed on with every member unchanged but [refresh_token]; the upstream's
    own is never handed on, but sealed with the resource into a token that
    opens, as a refresh token and at any time, to both.  A reply that is not
    JSON becomes a [server_error] and one that is not an object an exception.
    No one else is contacted. *)
Theorem upstream_reply_handed_on reply key resource s r s' :
  str_ok resource = true →
  _finalise_upstream_response reply key resource s = (r, s') →
  s'.1 = s.1 ∧ (∃ new, s'.2 = new ++ s.2 ∧ Forall inward new) ∧
  match rsp_json reply with
  | None => ∃ d, r = Raise (ServerError d)
  | Some (JObj d) =>
      if 400 <=? rsp_status reply then r = Ok (JSONResponse (rsp_status reply) (JObj d) [])
      else match dict_get d (u "refresh_token") with
      | None => r = Ok (JSONResponse 200 (JObj d) [])
      | Some upstream => json_ok upstream →
          ∃ tok d', r = Ok (JSONResponse 200 (JObj d') []) ∧
            dict_get d' (u "refresh_token") = Some (JStr tok) ∧
            (∀ k, k ≠ u "refresh_token" → dict_get d' k = dict_get d k) ∧
            ∀ s2 : state X, open_refresh key tok s2 =
              (Ok {| rt_resource := resource; rt_upstream_refresh_token := sort_json upstream |}, s2)
      end
  | Some _ => ∃ e, r = Raise e ∧ not_oauth e
  end.
Proof. apply finalise_run. Qed.
End TokenReplies.

(** ** A code is redeemed, a refresh token used *)
Module TokenExamples.
#[local] Existing Instance ToyFernet.fernet.
#[local] Existing Instance ToyFernet.fernet_laws.
#[local] Existing Instance AssertionExamples.toy_rsa.
#[local] Instance no_floats : FloatRepr := id.

Definition key : fkey := true.
Definition config : ProxyConfig := ConfigExamples.sample_config.
Definition start : state unit := (tt, []).

Definition upstream_reply : dict json :=
  [(u "access_token", JStr (u "at")); (u "refresh_token", JStr (u "upstream-rt"))].
Definition world : Outside := sample_world 1000 (λ _, GaiError)
  (λ _, inr (HttpResponse 200 (Some (JObj upstream_reply)))) (λ _, inl ([], [])).

(** The pair of RFC 7636, appendix B. *)
Definition verifier : pystr := u "dBjftJeZ4CVP-mB92K27uhbUJU1p1r_wW1gFWFOEjXk".
Definition code_env : CodeEnvelope := {|
  cd_correlation_id := u "c0"; cd_upstream_code := u "uc"; cd_upstream_verifier := u "uv";
  cd_resource := u "https://r0.example"; cd_client_id := u "https://c.example/id";
  cd_client_code_challenge := u "E9Melhoa2OwvFrEMTJguCHaoeK1t8URWbuGJSstw-cM";
  cd_redirect_uri := u "https://c.example/cb"; cd_exp := 1060 |}.
Definition code : pystr := token_of key (Code code_env) 1000 [].
Definition refresh_env : RefreshEnvelope := {|
  rt_resource := u "https://r0.example"; rt_upstream_refresh_token := JStr (u "upstream-rt") |}.
Definition refresh : pystr := token_of key (Refresh refresh_env) 1000 [].

Definition form_for (grant_type : pystr) : TokenForm := {|
  tf_grant_type := Some grant_type; tf_code := Some code; tf_code_verifier := Some verifier;
  tf_redirect_uri := Some (u "https://c.example/cb"); tf_client_id := None;
  tf_refresh_token := Some refresh; tf_scope := None; tf_subject_token := None;
  tf_subject_token_type := None; tf_requested_token_type := None; tf_resource := None |}.

Lemma token_redeems_code_witness :
  ∃ content s', token (O := world) config key None (form_for (u "authorization_code")) start
      = (Ok (JSONResponse 200 content []), s') ∧ s'.1 = tt ∧
    length (List.filter is_http s'.2) = 1%nat.
Proof.
  eexists _, _. split; [vm_compute; reflexivity|]. split; [|vm_compute; reflexivity].
  refine (proj1 (token_redeems_code (O := world) config key None (form_for (u "authorization_code"))
    start _ _ eq_refl _)).
  vm_compute. reflexivity.
Defined.

Lemma token_refreshes_witness :
  ∃ content s', token (O := world) config key None (form_for (u "refresh_token")) start
      = (Ok (JSONResponse 200 content []), s') ∧ s'.1 = tt ∧
    length (List.filter is_http s'.2) = 1%nat.
Proof.
  eexists _, _. split; [vm_compute; reflexivity|]. split; [|vm_compute; reflexivity].
  refine (proj1 (token_refreshes (O := world) config key None (form_for (u "refresh_token"))
    start _ _ eq_refl _)).
  vm_compute. reflexivity.
Defined.

Lemma token_grants_witness :
  ∃ description new,
    token (O := world) config key None (form_for (u "password")) start =
      (Ok (JSONResponse 400 (as_dict (u "unsupported_grant_type") description) []), (tt, new)) ∧
    Forall inward new.
Proof.
  destruct (token_grants (O := world) config key None (form_for (u "password")) start)
    as (_ & _ & H).
  destruct (H ltac:(by apply (bool_decide_unpack _)) ltac:(by apply (bool_decide_unpack _))) as [_ Hg].
  destruct (Hg (or_intror eq_refl)) as (description & new & Ht & Hn).
  exists description, (new ++ []). split; [exact Ht|]. rewrite app_nil_r. exact Hn.
Defined.

Lemma upstream_reply_handed_on_witness :
  ∃ tok d' s', _finalise_upstream_response (O := world) (HttpResponse 200 (Some (JObj upstream_reply)))
      key (u "https://r0.example") start = (Ok (JSONResponse 200 (JObj d') []), s') ∧
    dict_get d' (u "refresh_token") = Some (JStr tok) ∧
    open_refresh (O := world) key tok start = (Ok refresh_env, start).
Proof.
  destruct (_finalise_upstream_response (O := world) (HttpResponse 200 (Some (JObj upstream_reply)))
    key (u "https://r0.example") start) as [r s'] eqn:E.
  destruct (upstream_reply_handed_on (O := world) _ key (u "https://r0.example") start r s' eq_refl E)
    as (_ & _ & H).
  destruct (H eq_refl) as (tok & d' & -> & Hg & _ & Ho).
  exists tok, d', s'. split; [reflexivity|]. split; [exact Hg|]. exact (Ho start).
Defined.
End TokenExamples.
