(* ===== verification/Flow.v ===== *)
(** * The interactive flow

    [/authorize], [/callback] and [/token] together.  The three handlers share
    no memory: what one needs of another travels in sealed envelopes, through
    the client and the upstream.  [code_flow_completes] shows that nothing gets
    lost on the way; each handler may run in another state, after any other
    events, and [/token] under a configuration that was read anew. *)

From S2P Require Import Prelude PyStr Codec Digest Json World Errors Logging Pkce Envelope.
From S2P Require Import UrlLib RedirectUri Assertion Cache Fetcher CimdService Config Register.
From S2P Require Import Authorize Callback Token.

Section Flow.
Context `{O : Outside, !OutsideLaws O, !ClockLaws O, R : Rsa, F : Fernet, !FernetLaws F,
  FR : FloatRepr} {X : Type} `{HC : HasCache X, !HasCacheLaws HC}.
Implicit Types (config : ProxyConfig) (key : fkey) (s : state X).

Lemma drawn_verifier_verifies t :
  verify_challenge (drawn_verifier t) (b64url (sha256 (drawn_verifier t))) = Ok true.
Proof.
  unfold verify_challenge.
  rewrite derive_challenge_ascii by (apply isascii_take, b64url_ascii, o_random_ok).
  cbn [mbind res_bind]. unfold compare_digest. rewrite challenge_is_ascii.
  by rewrite bool_decide_true.
Qed.

(** What the upstream's token endpoint is asked for a code: the form of RFC
    6749 with PKCE, for the client of [entry], with its secret if it has one. *)
Definition redeems config (entry : ResourceEntry) (c verifier : pystr) (form : dict json) : Prop :=
  dict_get form (u "grant_type") = Some (JStr (u "authorization_code")) ∧
  dict_get form (u "code") = Some (JStr c) ∧
  dict_get form (u "code_verifier") = Some (JStr verifier) ∧
  dict_get form (u "redirect_uri") = Some (JStr (public_url config ++ u "/callback")) ∧
  dict_get form (u "client_id") = Some (JStr (re_client_id entry)) ∧
  dict_get form (u "client_secret") =
    (if decide (re_client_secret entry = []) then None else Some (JStr (re_client_secret entry))).

Lemma code_form_redeems config env entry :
  redeems config entry (cd_upstream_code env) (cd_upstream_verifier env) (code_form config env entry).
Proof. unfold redeems, code_form. by destruct (re_client_secret entry). Qed.

(** C1. The authorization code flow completes.  If GET [/authorize] sent the
    browser to the upstream, then with a [state] and an S256 challenge such that:
    when the upstream returns that state to GET [/callback] at most 600 seconds
    after it was sealed, together with a code, the browser is sent to the
    redirect URI of the request, with a code of the proxy's own (if the client's
    own state is encodable, as every decoded query parameter is); and when that
    code comes to POST [/token] less than 60 seconds after the callback's clock
    reading, with a verifier that passes the client's challenge and no
    contradicting redirect URI or client id, while the resource is still
    configured, then the upstream -- if it answers a form with its own code, the
    verifier of the challenge it was sent, the proxy's callback and the
    resource's client with a token object -- is asked, and that object is answered
    to the client with status 200, its refresh token sealed for that resource. *)
Theorem code_flow_completes config cimd key p s0 url1 s1 :
  cache_valid (the_cache s0.1) → params_text p → config_text config →
  authorize config cimd key p s0 = (Ok (Redirect url1), s1) →
  let cid := take 13 (b64url (o_random s0.2 10)) in
  ∃ v query1 params1 st challenge upstream_verifier fields sealed,
    authorized config key p (s0.1, EvBind cid :: EvRandom 10 :: s0.2) s1 v ∧
    s1.2 = EvLog INFO fields :: EvRandom 16 :: EvTime :: sealed ∧
    url1 = rstrip_slash (re_issuer (v_resource_entry v)) ++ u "/protocol/openid-connect/auth?" ++ query1 ∧
    form_parse query1 = Some params1 ∧ dict_get params1 (u "state") = Some st ∧
    dict_get params1 (u "code_challenge") = Some challenge ∧
    dict_get params1 (u "code_challenge_method") = Some (u "S256") ∧
    verify_challenge upstream_verifier challenge = Ok true ∧
    ∀ c s2, str_ok c = true → encodable (v_state v) →
      o_time sealed <= o_time s2.2 <= o_time sealed + 600 →
      ∃ url2 s3 query2 params2 tok,
        callback config key (Some c) (Some st) None None s2 = (Ok (Redirect url2), s3) ∧
        url2 = v_redirect_uri v ++ u "?" ++ query2 ∧
        form_parse query2 = Some params2 ∧ dict_get params2 (u "code") = Some tok ∧
        ∀ config' service f cv s4 entry d upstream,
          tf_grant_type f = Some (u "authorization_code") → tf_code f = Some tok →
          tf_code_verifier f = Some cv → verify_challenge cv (v_code_challenge v) = Ok true →
          (∀ x, tf_redirect_uri f = Some x → x = v_redirect_uri v) →
          (∀ x, tf_client_id f = Some x → x = v_client_id v) →
          o_time (EvBind cid :: s4.2) < o_time (EvBind cid :: EvTime :: s2.2) + 60 →
          resource_by_url config' (re_url (v_resource_entry v)) = Ok (Some entry) →
          str_ok (re_url entry) = true →
          (∀ form, redeems config' entry c upstream_verifier form →
             o_http (EvTime :: EvBind cid :: s4.2)
               (PostForm (rstrip_slash (re_issuer entry) ++ u "/protocol/openid-connect/token") form
                  [(u "Accept", u "application/json")] None)
               = inr (HttpResponse 200 (Some (JObj d)))) →
          dict_get d (u "refresh_token") = Some upstream → json_ok upstream →
          ∃ tok' d' s5,
            token config' key service f s4 = (Ok (JSONResponse 200 (JObj d') []), s5) ∧
            (∀ k, k ≠ u "refresh_token" → dict_get d' k = dict_get d k) ∧
            dict_get d' (u "refresh_token") = Some (JStr tok') ∧
            ∀ s6 : state X, open_refresh key tok' s6 =
              (Ok {| rt_resource := re_url entry; rt_upstream_refresh_token := sort_json upstream |}, s6).
Proof.
  intros Hc Hp Hcfg Ha. cbv zeta.
  destruct (authorize_sealed _ _ _ _ _ _ _ Hc Hp Hcfg Ha)
    as (_ & v & t & query1 & fields & Hauth & -> & Hq1 & _ & Hs1 & _ & Henc & _ & Henv & Hopen). cbv zeta in *.
  set (tok1 := sealed_state key v _ t) in *. set (env := sealed_envelope v _ t) in *.
  exists v, query1. eexists. exists tok1. eexists. exists (drawn_verifier t), fields, (drawn_trace t).
  split; [exact Hauth|]. split; [exact Hs1|].
  split; [unfold authorize_url; by rewrite <-app_assoc|]. split; [exact Hq1|]. split; [reflexivity|].
  split; [reflexivity|]. split; [reflexivity|]. split; [apply drawn_verifier_verifies|].
  intros c s2 Hcode Hst Ht.
  destruct (callback_succeeds config key c tok1 None env s2 _ (Hopen s2 Ht) Henv Hcode Henc Hst)
    as (url2 & s3 & Hcb). exists url2, s3.
  destruct (callback_code_run _ _ _ _ _ _ _ _ _ _ (Hopen s2 Ht) Henv Hcode Hcb)
    as (query2 & -> & Hq2 & _ & Hopen2). cbn [snd] in *.
  set (t2 := EvBind (az_correlation_id env) :: EvTime :: s2.2) in *.
  set (tok := sealed_code key env c t2) in *.
  exists query2. eexists. exists tok. split; [exact Hcb|]. split; [reflexivity|]. split; [exact Hq2|].
  split; [unfold code_params, set_truthy; by destruct (truthy _)|].
  intros config' service f cv s4 entry d upstream Hg Hf Hfv Hcv Hfr Hfi Hexp He Hes Hup Hd Hj.
  pose proof (redeem_run config' key service f s4 tok cv _ entry _ Hg Hf Hfv (Hopen2 s4)
    Hexp Hfr Hfi Hcv He) as Hgrant. cbv zeta in Hgrant. cbn [fst snd] in Hgrant.
  unfold _post_form, send in Hgrant. revert Hgrant. io_run.
  specialize (Hup _ (code_form_redeems config' (code_envelope env c (o_time t2)) entry)).
  unfold token_url, token_headers. cbn [code_envelope cd_correlation_id] in *.
  change (az_correlation_id env) with (take 13 (b64url (o_random s0.2 10))). rewrite Hup.
  io_run. intros Hgrant.
  destruct (_finalise_upstream_response _ _ _ _) as [r s5] eqn:Hfin.
  pose proof (finalise_run _ _ _ _ _ _ Hes Hfin) as (_ & _ & Hr). cbn [rsp_json rsp_status] in Hr.
  change (400 <=? 200) with false in Hr. cbv iota in Hr. rewrite Hd in Hr.
  destruct (Hr Hj) as (tok' & d' & -> & Ht' & Hk & Ho).
  exists tok', d', s5. split; [|done]. unfold token, try_io. by rewrite Hgrant.
Qed.
End Flow.

(** ** One flow, run *)
Module FlowExamples.
#[local] Existing Instance ToyFernet.fernet.
#[local] Existing Instance ToyFernet.fernet_laws.
#[local] Existing Instance AssertionExamples.toy_rsa.
#[local] Instance no_floats : FloatRepr := id.

Import AuthorizeExamples.

Definition query_param (location k : pystr) : pystr :=
  match urlsplit location with
  | Ok sp => default [] (form_parse (query sp) ≫= λ d, dict_get d k)
  | Raise _ => []
  end.

(** What the client posts for its code. *)
Definition code_request (tok : pystr) : TokenForm := {|
  tf_grant_type := Some (u "authorization_code"); tf_code := Some tok;
  tf_code_verifier := Some TokenExamples.verifier;
  tf_redirect_uri := Some (u "http://127.0.0.1:51004/cb");
  tf_client_id := Some client_id; tf_refresh_token := None; tf_scope := None;
  tf_subject_token := None; tf_subject_token_type := None;
  tf_requested_token_type := None; tf_resource := None |}.

(** The client's browser and the upstream: each takes what it needs from the
    location it was sent to. *)
Definition flow : io (dict (entry CimdDocument)) response :=
  sent ← authorize (O := TokenExamples.world) config service key params;
  match sent with
  | Redirect url1 =>
      back ← callback (O := TokenExamples.world) config key (Some (u "upstream-code"))
        (Some (query_param url1 (u "state"))) None None;
      match back with
      | Redirect url2 =>
          token (O := TokenExamples.world) config key None (code_request (query_param url2 (u "code")))
      | r => mret r
      end
  | r => mret r
  end.

Example flow_runs :
  match flow start with
  | (Ok (JSONResponse 200 (JObj d) _), s) =>
      dict_get d (u "access_token") = Some (JStr (u "at")) ∧
      match dict_get d (u "refresh_token") with
      | Some (JStr tok) =>
          (open_refresh (O := TokenExamples.world) key tok s).1 = Ok TokenExamples.refresh_env
      | _ => False
      end
  | _ => False
  end.
Proof. vm_compute. split; reflexivity. Qed.

(** Every clock of this world stands still at 1000. *)
Lemma code_flow_completes_witness :
  ∃ url1 s1 st url2 s3 tok d' s5 tok',
    authorize (O := TokenExamples.world) config service key params start = (Ok (Redirect url1), s1) ∧
    callback (O := TokenExamples.world) config key (Some (u "upstream-code")) (Some st) None None s1
      = (Ok (Redirect url2), s3) ∧
    token (O := TokenExamples.world) config key None (code_request tok) s3
      = (Ok (JSONResponse 200 (JObj d') []), s5) ∧
    dict_get d' (u "access_token") = Some (JStr (u "at")) ∧
    dict_get d' (u "refresh_token") = Some (JStr tok') ∧
    open_refresh (O := TokenExamples.world) key tok' s5 = (Ok TokenExamples.refresh_env, s5).
Proof.
  assert (Hr : match authorize (O := TokenExamples.world) config service key params start with
    (Ok (Redirect _), _) => true | _ => false end = true) by (vm_compute; reflexivity).
  destruct (authorize (O := TokenExamples.world) config service key params start) as [[[| url1 | |]|] s1] eqn:E;
    try discriminate Hr.
  destruct (code_flow_completes (O := TokenExamples.world) config service key params start url1 s1)
    as (v & query1 & params1 & st & challenge & uv & fields & sealed & Hauth & _ & _ & _ & _ & _ & _ & _ & Hcb).
  - split; [apply NoDup_nil_2|done].
  - apply texts_check. vm_compute. reflexivity.
  - apply texts_check. vm_compute. reflexivity.
  - exact E.
  - destruct Hauth as (_ & _ & Ecl & Eru & Ech & Est & _ & _ & Hres & _).
    remember (v_resource_entry v) as entry eqn:Een. clear Een.
    apply (f_equal (λ r, match r with Ok (Some e) => e | _ => entry end)) in Hres.
    vm_compute in Hres.
    injection Ecl as Ecl. injection Eru as Eru. injection Ech as Ech.
    destruct (Hcb (u "upstream-code") s1) as (url2 & s3 & query2 & params2 & tok & Hcall & _ & _ & _ & Htok).
    + reflexivity.
    + rewrite Est. reflexivity.
    + change (1000 <= 1000 <= 1000 + 600). lia.
    + destruct (Htok config None (code_request tok) TokenExamples.verifier s3 entry
        TokenExamples.upstream_reply (JStr (u "upstream-rt"))) as (tok' & d' & s5 & Ht & Hk & Hd & Ho).
      * reflexivity.
      * reflexivity.
      * reflexivity.
      * rewrite <-Ech. vm_compute. reflexivity.
      * intros x Hx. injection Hx as <-. exact Eru.
      * intros x Hx. injection Hx as <-. exact Ecl.
      * change (1000 < 1000 + 60). lia.
      * rewrite <-Hres. vm_compute. reflexivity.
      * rewrite <-Hres. reflexivity.
      * intros form _. reflexivity.
      * reflexivity.
      * vm_compute. reflexivity.
      * exists url1, s1, st, url2, s3, tok, d', s5, tok'. split; [reflexivity|]. split; [exact Hcall|].
        split; [exact Ht|]. split; [rewrite Hk; [reflexivity|discriminate]|]. split; [exact Hd|].
        rewrite Ho, <-Hres. reflexivity.
Defined.
End FlowExamples.
