(* ===== verification/Correlation.v ===== *)
(** * One correlation id per flow ([correlation.py])

    An id is minted at [/authorize], sealed into the state, bound again at
    [/callback], sealed into the code and bound once more at [/token].
    [one_correlation_id]: every line the three requests log carries it, however
    they end.  [emits] is the frame used for that: which events a computation
    adds, whatever it does to the program's state. *)

From S2P Require Import Prelude PyStr Codec Digest Json World Errors Logging Pkce Envelope.
From S2P Require Import UrlLib RedirectUri Assertion Cache Fetcher CimdService Config Register.
From S2P Require Import Authorize Callback Token Flow.

(** ** Definitions *)

(** [current_correlation_id]: what the context variable holds after the events
    of a request, which is a context of its own. *)
Fixpoint current_correlation_id (t : trace) : pystr :=
  match t with
  | [] => u "-"
  | EvBind cid :: _ => cid
  | _ :: t' => current_correlation_id t'
  end.

(** Every record of a request is logged under this id. *)
Fixpoint logged_under (cid : pystr) (t : trace) : Prop :=
  match t with
  | [] => True
  | EvLog _ _ :: t' => current_correlation_id t' = cid ∧ logged_under cid t'
  | _ :: t' => logged_under cid t'
  end.

(** ** What a computation adds to the trace *)

Definition emits {X A} (P : event → Prop) (m : io X A) : Prop := ∀ s r s',
  m s = (r, s') → ∃ new, s'.2 = new ++ s.2 ∧ Forall P new.

Section Emits.
Context {X : Type}.

Lemma keeps_emits {A} P (m : io X A) : keeps P m → emits P m.
Proof. intros Hm s r s' H. by apply Hm in H as [_ ?]. Qed.

Lemma emits_get_state P : emits P (get_state (X := X)).
Proof. intros s r s' [_ <-]%pair_eq. by exists []. Qed.
Lemma emits_put_state P x : emits P (put_state (X := X) x).
Proof. intros s r s' [_ <-]%pair_eq. by exists []. Qed.

Lemma emits_bind {A B} P (m : io X A) (f : A → io X B) :
  emits P m → (∀ a, emits P (f a)) → emits P (m ≫= f).
Proof.
  intros Hm Hf s r s'. unfold mbind, io_bind. destruct (m s) as [[a|e] s1] eqn:E.
  - intros H. apply Hm in E as (n1 & T1 & P1). apply Hf in H as (n2 & T2 & P2).
    exists (n2 ++ n1). rewrite T2, T1, app_assoc. split; [done|]. by apply Forall_app.
  - intros [_ <-]%pair_eq. by apply Hm in E.
Qed.

Lemma emits_try {A} P (m : io X A) p h :
  emits P m → (∀ e, emits P (h e)) → emits P (try_io m p h).
Proof.
  intros Hm Hf s r s'. unfold try_io. destruct (m s) as [[a|e] s1] eqn:E.
  - intros [_ <-]%pair_eq. by apply Hm in E.
  - destruct (p e); [|intros [_ <-]%pair_eq; by apply Hm in E].
    intros H. apply Hm in E as (n1 & T1 & P1). apply Hf in H as (n2 & T2 & P2).
    exists (n2 ++ n1). rewrite T2, T1, app_assoc. split; [done|]. by apply Forall_app.
Qed.

Lemma emits_fmap {A B} P (m : io X A) (f : A → B) : emits P m → emits P (f <$> m).
Proof.
  intros Hm s r s'. unfold fmap, io_fmap. destruct (m s) as [[a|e] s1] eqn:E;
    intros [_ <-]%pair_eq; by apply Hm in E.
Qed.
End Emits.

(** Follow a computation to its effects. *)
Ltac emits_step :=
  match goal with
  | |- emits ?P (λ x, ?m x) => change (emits P m)
  | |- emits _ (_ ≫= _) => apply emits_bind
  | |- emits _ (_ <$> _) => apply emits_fmap
  | |- emits _ (try_io _ _ _) => apply emits_try
  | |- emits _ get_state => apply emits_get_state
  | |- emits _ (put_state _) => apply emits_put_state
  | |- emits _ (match ?x with _ => _ end) => destruct x eqn:?
  | |- emits _ _ => apply keeps_emits; keeps_step
  end.
Ltac emits_tac := repeat first [ progress intros | emits_step | exact I | done ].

(** ** The handlers bind once *)

Definition unbound (e : event) : Prop := match e with EvBind _ => False | _ => True end.
Definition silent (e : event) : Prop :=
  match e with EvBind _ | EvLog _ _ => False | _ => True end.

Lemma current_bound cid new t : Forall unbound new → current_correlation_id (new ++ EvBind cid :: t) = cid.
Proof. induction 1 as [|e new He _ IH]; [done|]. destruct e; (exact IH || destruct He). Qed.

Lemma logged_silent cid t : Forall silent t → logged_under cid t.
Proof. induction 1 as [|e t He _ IH]; [done|]. destruct e; (exact IH || destruct He). Qed.

(** Nothing is logged before the id is bound, and no other is bound after. *)
Lemma logged_bound cid new t :
  Forall unbound new → Forall silent t → logged_under cid (new ++ EvBind cid :: t).
Proof.
  intros Hn Ht. induction Hn as [|e new He Hn IH]; [exact (logged_silent _ _ Ht)|].
  cbn [app]. destruct e; try exact IH. split; [by apply current_bound|exact IH].
Qed.

Section Handlers.
Context `{O : Outside, R : Rsa, F : Fernet, FR : FloatRepr} {X : Type} `{HC : HasCache X}.
Implicit Types (config : ProxyConfig) (key : fkey) (s : state X).

Ltac flow_tac :=
  unfold monotonic, send, stream, getaddrinfo, new_correlation_id, token_urlsafe;
  emits_tac.

Lemma open_silent {A} key token tag ttl (f : dict json → res A) :
  emits (X := X) silent (payload ← _open key token tag ttl; lift (f (without_tag payload))).
Proof. unfold _open, decrypt. flow_tac. Qed.

Lemma pack_unbound key e : emits (X := X) unbound (_pack key e).
Proof. unfold _pack, encrypt. flow_tac. Qed.

Lemma obtain_unbound cimd url : emits (X := X) unbound (obtain cimd url).
Proof.
  unfold obtain, service_get, service_put, fetch, resolve_and_check_ips, _fetch_pinned. flow_tac.
Qed.

Lemma validate_unbound config cimd key p : emits (X := X) unbound (Authorize._validate config cimd key p).
Proof.
  unfold Authorize._validate, registered_uris, _validate_cimd, _load_document, _validate_dcr. flow_tac.
  - apply obtain_unbound.
  - unfold open_registration, _open, decrypt. flow_tac.
Qed.

Lemma build_unbound config key v cid : emits (X := X) unbound (_build_upstream_url config key v cid).
Proof. unfold _build_upstream_url, make_verifier, pack_authorize. flow_tac. apply pack_unbound. Qed.

Lemma finalise_unbound reply key resource :
  emits (X := X) unbound (_finalise_upstream_response reply key resource).
Proof. unfold _finalise_upstream_response, pack_refresh. flow_tac. apply pack_unbound. Qed.

(** What [/authorize] logs, it logs under the id it drew. *)
Lemma authorize_logs config cimd key p s r s' :
  authorize config cimd key p s = (r, s') →
  ∃ t, s'.2 = t ++ s.2 ∧ logged_under (drawn_cid s.2) t.
Proof.
  unfold authorize, new_correlation_id, token_urlsafe. intros H.
  apply run_bind_cases in H as [(e & H & _)|(cid & s1 & H1 & H)]; [by apply pair_eq in H as [? _]|].
  apply run_bind_Ok in H1 as (raw & s0 & [<-%Ok_inj <-]%pair_eq & [<-%Ok_inj <-]%pair_eq).
  cbn [fst snd] in H. fold (drawn_cid s.2) in H.
  apply run_bind_cases in H as [(e & H & _)|([] & s1 & [_ <-]%pair_eq & H)]; [by apply pair_eq in H as [? _]|].
  cbn [fst snd] in H.
  match type of H with ?m _ = _ => assert (Hm : emits unbound m) end.
  { flow_tac; [apply validate_unbound|apply build_unbound]. }
  destruct (Hm _ _ _ H) as (new & -> & Hn). cbn [fst snd].
  exists (new ++ [EvBind (drawn_cid s.2); EvRandom 10]). rewrite <-app_assoc. split; [done|].
  by apply (logged_bound _ _ [_]); [|repeat constructor].
Qed.

(** What follows the opening of an envelope, in a request of its own. *)
Lemma opened_logs {A} (m : io X A) cid (t0 : trace) s s1 r s' :
  s1.2 = t0 ++ s.2 → Forall silent t0 → emits unbound m →
  m (s1.1, EvBind cid :: s1.2) = (r, s') → ∃ t, s'.2 = t ++ s.2 ∧ logged_under cid t.
Proof.
  intros E Ht Hm (new & -> & Hn)%Hm. cbn [snd]. exists (new ++ EvBind cid :: t0).
  rewrite E, <-app_assoc. split; [done|by apply logged_bound].
Qed.

Lemma callback_logs config key code st error description env s s1 r s' :
  open_authorize key st s = (Ok env, s1) →
  callback config key code (Some st) error description s = (r, s') →
  ∃ t, s'.2 = t ++ s.2 ∧ logged_under (az_correlation_id env) t.
Proof.
  intros Ho H. destruct (open_silent key st az_TAG (Some _ENVELOPE_TTL_SECONDS) authorize_of s _ _ Ho)
    as (t0 & E & Ht).
  unfold callback in H. apply run_bind_cases in H as [(e & H & _)|(o & s2 & H1 & H)].
  { unfold try_io, fmap, io_fmap in H. by rewrite Ho in H. }
  unfold try_io, fmap, io_fmap in H1. rewrite Ho in H1. apply pair_eq in H1 as [<-%Ok_inj <-].
  apply run_bind_cases in H as [(e & H & _)|([] & s3 & [_ <-]%pair_eq & H)]; [by apply pair_eq in H as [? _]|].
  eapply opened_logs; [exact E|exact Ht| |exact H].
  unfold pack_code. flow_tac. apply pack_unbound.
Qed.

Lemma token_logs config key service f c env s s1 r s' :
  tf_grant_type f = Some (u "authorization_code") →
  tf_code f = Some c → tf_code_verifier f ≠ None →
  open_code key c s = (Ok env, s1) →
  token config key service f s = (r, s') →
  ∃ t, s'.2 = t ++ s.2 ∧ logged_under (cd_correlation_id env) t.
Proof.
  intros Hg Hc Hv Ho H. destruct (open_silent key c cd_TAG None code_of s _ _ Ho) as (t0 & E & Ht).
  destruct (tf_code_verifier f) as [v|] eqn:Ev; [|done].
  assert (Hm : ∃ m : io X response, emits unbound m ∧
    token config key service f s = m (s1.1, EvBind (cd_correlation_id env) :: s1.2)).
  2: { destruct Hm as (m & Hm & Em). rewrite Em in H. by eapply opened_logs. }
  unfold token, grant. rewrite Hg, bool_decide_true, Hc, Ev by done.
  unfold _handle_auth_code. eexists (try_io _ _ _). split; cycle 1.
  { unfold try_io at 1 3. unfold mbind at 1, io_bind at 1, try_io at 1. rewrite Ho.
    unfold mbind at 1, io_bind at 1. reflexivity. }
  unfold _post_form. flow_tac. apply finalise_unbound.
Qed.
End Handlers.

(** ** The thread through the flow *)

Section Thread.
Context `{O : Outside, !OutsideLaws O, !ClockLaws O, R : Rsa, F : Fernet, !FernetLaws F,
  FR : FloatRepr} {X : Type} `{HC : HasCache X, !HasCacheLaws HC}.
Implicit Types (config : ProxyConfig) (key : fkey) (s : state X).

(** C20. One correlation id travels through a flow.  When GET [/authorize] sends
    the browser on, it has drawn an id of 13 characters, and every record it
    logged carries it.  When the state it handed to the upstream comes back to
    GET [/callback] within 600 seconds -- with a code, an error or neither,
    whatever becomes of the request -- every record of that request carries the
    same id; and when the code that was handed out is presented at POST
    [/token] with a verifier, be it redeemed or refused, every record of that
    request carries it too. *)
Theorem one_correlation_id config cimd key p s0 url1 s1 :
  cache_valid (the_cache s0.1) → params_text p → config_text config →
  authorize config cimd key p s0 = (Ok (Redirect url1), s1) →
  ∃ cid log1 query1 params1 st t1 fields, length cid = 13%nat ∧
    s1.2 = EvLog INFO fields :: EvRandom 16 :: EvTime :: t1 ∧
    s1.2 = log1 ++ s0.2 ∧ logged_under cid log1 ∧ suffix (u "?" ++ query1) url1 ∧
    form_parse query1 = Some params1 ∧ dict_get params1 (u "state") = Some st ∧
    ∀ code error description s2 r s3, o_time t1 <= o_time s2.2 <= o_time t1 + 600 →
      callback config key code (Some st) error description s2 = (r, s3) →
      (∃ log3, s3.2 = log3 ++ s2.2 ∧ logged_under cid log3) ∧
      ∀ c url2, code = Some c → str_ok c = true → error = None → r = Ok (Redirect url2) →
        ∃ query2 params2 tok, suffix (u "?" ++ query2) url2 ∧ form_parse query2 = Some params2 ∧
          dict_get params2 (u "code") = Some tok ∧
          ∀ config' service f s4 r' s5,
            tf_grant_type f = Some (u "authorization_code") → tf_code f = Some tok →
            tf_code_verifier f ≠ None → token config' key service f s4 = (r', s5) →
            ∃ log5, s5.2 = log5 ++ s4.2 ∧ logged_under cid log5.
Proof.
  intros Hc Hp Hcfg Ha. destruct (authorize_logs _ _ _ _ _ _ _ Ha) as (log1 & E1 & H1).
  destruct (authorize_sealed _ _ _ _ _ _ _ Hc Hp Hcfg Ha)
    as (_ & v & t & query1 & fields & _ & -> & Hq1 & _ & Hs1 & _ & _ & _ & Henv & Hopen). cbv zeta in *.
  set (cid := drawn_cid s0.2) in *. set (env := sealed_envelope v cid t) in *.
  exists cid, log1, query1. eexists. exists (sealed_state key v cid t), (drawn_trace t), fields.
  split. { unfold cid, drawn_cid. by rewrite length_take, b64url_length, o_random_length. }
  split; [done|]. split; [done|]. split; [done|]. split; [by eexists|]. split; [exact Hq1|]. split; [reflexivity|].
  intros code error description s2 r s3 Ht Hcb. pose proof (Hopen s2 Ht) as Ho. split.
  { by apply (callback_logs _ _ _ _ _ _ _ _ _ _ _ Ho Hcb). }
  intros c url2 -> Hcode -> ->.
  destruct (callback_code_run _ _ _ _ _ _ _ _ _ _ Ho Henv Hcode Hcb) as (query2 & -> & Hq2 & _ & Hopen2).
  exists query2. eexists. eexists. split; [by eexists|]. split; [exact Hq2|].
  split; [unfold code_params, set_truthy; by destruct (truthy _)|].
  intros config' service f s4 r' s5 Hg Hf Hv Htok.
  exact (token_logs config' key service f _ _ _ _ _ _ Hg Hf Hv (Hopen2 s4) Htok).
Qed.
End Thread.

(** ** The thread, followed *)
Module CorrelationExamples.
#[local] Existing Instance ToyFernet.fernet.
#[local] Existing Instance ToyFernet.fernet_laws.
#[local] Existing Instance AssertionExamples.toy_rsa.
#[local] Instance no_floats : FloatRepr := id.

Import AuthorizeExamples.

Fixpoint count_logs (t : trace) : nat :=
  match t with [] => 0 | EvLog _ _ :: t' => S (count_logs t') | _ :: t' => count_logs t' end.

Lemma one_correlation_id_witness :
  ∃ url1 s1 cid log1, length cid = 13%nat ∧
    authorize (O := TokenExamples.world) config service key params start = (Ok (Redirect url1), s1) ∧
    s1.2 = log1 ++ [] ∧ count_logs log1 = 1%nat ∧ logged_under cid log1.
Proof.
  assert (Hr : match authorize (O := TokenExamples.world) config service key params start with
    (Ok (Redirect _), s1) => Nat.eqb (count_logs s1.2) 1 | _ => false end = true) by (vm_compute; reflexivity).
  destruct (authorize (O := TokenExamples.world) config service key params start) as [[[| url1 | |]|] s1] eqn:E;
    try discriminate Hr.
  destruct (one_correlation_id (O := TokenExamples.world) config service key params start url1 s1)
    as (cid & log1 & _ & _ & _ & _ & _ & Hl & _ & H1 & H2 & _).
  - split; [apply NoDup_nil_2|done].
  - apply texts_check. vm_compute. reflexivity.
  - apply texts_check. vm_compute. reflexivity.
  - exact E.
  - exists url1, s1, cid, log1. split; [exact Hl|]. split; [reflexivity|]. split; [exact H1|].
    split; [|exact H2]. apply Nat.eqb_eq. replace log1 with s1.2; [exact Hr|]. rewrite H1. apply app_nil_r.
Defined.
End CorrelationExamples.
