(* ===== verification/PatFormat.v ===== *)
(** * The personal access token as a string ([pat_format.py])

    Generation, checksum and hash.  [generate_well_formed] shows that what is
    generated passes the check, [one_character_detected] that the check rejects
    every token with one character replaced, and [generate_injective] that the
    string determines the random bytes it was made of. *)

From S2P Require Import Prelude PyStr Codec Digest Json World Pkce.

Local Open Scope N_scope.

Definition PREFIX : pystr := u "kmb_pat_".
Definition _ALPHABET : pystr :=
  u "0123456789ABCDEFGHIJKLMNOPQRSTUVWXYZabcdefghijklmnopqrstuvwxyz".
Definition _RANDOM_BYTES : nat := 32.
Definition _RANDOM_CHARS : nat := 43.
Definition _CHECKSUM_CHARS : nat := 6.
Definition TOKEN_LENGTH : nat := length PREFIX + _RANDOM_CHARS + _CHECKSUM_CHARS.

(** The loop of [_base62]: the quotient that is left, and the characters in
    their final order. *)
Fixpoint base62_loop (width : nat) (value : N) (chars : pystr) : N * pystr :=
  match width with
  | O => (value, chars)
  | S w => base62_loop w (value / 62) (nth (N.to_nat (value mod 62)) _ALPHABET 0 :: chars)
  end.

Definition _base62 (value : N) (width : nat) : res pystr :=
  let '(rest, chars) := base62_loop width value [] in
  if rest =? 0 then Ok chars
  else Raise (ValueError (u "value does not fit the requested width")).

Definition _checksum (body : pystr) : res pystr :=
  bs ← encode_ascii body; _base62 (crc32 bs) _CHECKSUM_CHARS.

Definition generate `{Outside} {X} : io X pystr :=
  raw ← random _RANDOM_BYTES;
  digits ← lift (_base62 (from_bytes_be raw) _RANDOM_CHARS);
  let body := PREFIX ++ digits in
  check ← lift (_checksum body);
  mret (body ++ check).

Definition is_well_formed (token : pystr) : res bool :=
  if negb (length token =? TOKEN_LENGTH)%nat || negb (startswith token PREFIX) then Ok false
  else
    let tail := drop (length PREFIX) token in
    if negb (forallb (λ c, has_char c _ALPHABET) tail) then Ok false
    else
      let body := take (length token - _CHECKSUM_CHARS) token in
      let check := drop (length token - _CHECKSUM_CHARS) token in
      expected ← _checksum body;
      compare_digest expected check.

Definition token_hash (token : pystr) : res bytes :=
  bs ← encode_ascii token; Ok (sha256 bs).

(** ** Lemmas on base 62 *)

(** The number a base-62 string stands for. *)
Definition digit62 (c : N) : N :=
  if c <? 58 then c - 48 else if c <? 91 then c - 55 else c - 61.
Definition value62 (s : pystr) : N := fold_left (λ a c, a * 62 + digit62 c) s 0.

Definition alphabetic (s : pystr) : Prop := Forall (λ c, c ∈ _ALPHABET) s.

Lemma alphabet_table :
  forallb (λ i, (digit62 (nth (N.to_nat i) _ALPHABET 0) =? i)
                && (nth (N.to_nat i) _ALPHABET 0 <? 128)) (N.of_nat <$> seq 0 62) = true.
Proof. vm_compute. reflexivity. Qed.

Lemma alphabet_nth i : i < 62 →
  digit62 (nth (N.to_nat i) _ALPHABET 0) = i ∧ nth (N.to_nat i) _ALPHABET 0 ∈ _ALPHABET ∧
  nth (N.to_nat i) _ALPHABET 0 < 128.
Proof.
  intros Hi. pose proof alphabet_table as H. rewrite forallb_forall in H.
  specialize (H i (elem_of_range i 62 ltac:(lia))). bool_hyps. split; [lia|]. split; [|lia].
  apply list_elem_of_In, nth_In. change (length _ALPHABET) with 62%nat. lia.
Qed.

Lemma alphabet_ascii s : alphabetic s → isascii s = true.
Proof.
  intros H. apply isascii_spec. eapply Forall_impl; [exact H|]. intros c Hc. simpl in Hc.
  assert (Ha : isascii _ALPHABET = true) by (vm_compute; reflexivity).
  apply isascii_spec in Ha. rewrite Forall_forall in Ha. by apply Ha.
Qed.

Lemma alphabetic_forallb s : forallb (λ c, has_char c _ALPHABET) s = true ↔ alphabetic s.
Proof.
  unfold alphabetic. rewrite forallb_forall, Forall_forall. split; intros H c Hc.
  - by apply has_char_spec, H, list_elem_of_In.
  - by apply has_char_spec, H, list_elem_of_In.
Qed.

Lemma base62_loop_spec w v acc :
  let '(rest, chars) := base62_loop w v acc in
  ∃ ds, chars = ds ++ acc ∧ length ds = w ∧ alphabetic ds ∧
    v = rest * 62 ^ N.of_nat w + value62 ds.
Proof.
  revert v acc. induction w as [|w IH]; intros v acc; cbn [base62_loop].
  { exists []. repeat split; [constructor|]. cbn. lia. }
  specialize (IH (v / 62) (nth (N.to_nat (v mod 62)) _ALPHABET 0 :: acc)).
  destruct (base62_loop w (v / 62) _) as [rest chars]. destruct IH as (ds & -> & Hl & Ha & Hv).
  destruct (alphabet_nth (v mod 62)) as (Hd & Hin & _); [apply N.mod_lt; lia|].
  exists (ds ++ [nth (N.to_nat (v mod 62)) _ALPHABET 0]). rewrite <-app_assoc.
  split; [done|]. split; [rewrite length_app; simpl; lia|].
  split; [apply Forall_app; split; [done|by apply Forall_singleton]|].
  unfold value62 in *. rewrite fold_left_app. cbn [fold_left]. rewrite Hd.
  rewrite Nat2N.inj_succ, N.pow_succ_r'. rewrite (N.div_mod v 62) at 1 by lia.
  rewrite Hv at 1. lia.
Qed.

(** What fits is written in full width, and can be read back. *)
Lemma base62_Ok v w s :
  _base62 v w = Ok s → length s = w ∧ alphabetic s ∧ value62 s = v.
Proof.
  unfold _base62. pose proof (base62_loop_spec w v []) as H.
  destruct (base62_loop w v []) as [rest chars]. destruct H as (ds & -> & Hl & Ha & Hv).
  destruct (N.eqb_spec rest 0) as [->|]; [|done]. intros E%Ok_inj. rewrite app_nil_r in E. subst ds.
  split; [done|]. split; [done|]. lia.
Qed.

Lemma base62_fits v w : v < 62 ^ N.of_nat w → ∃ s, _base62 v w = Ok s.
Proof.
  intros Hlt. unfold _base62. pose proof (base62_loop_spec w v []) as H.
  destruct (base62_loop w v []) as [rest chars]. destruct H as (ds & -> & Hl & Ha & Hv).
  destruct (N.eqb_spec rest 0) as [->|]; [by eexists|]. exfalso.
  assert (1 * 62 ^ N.of_nat w <= rest * 62 ^ N.of_nat w) by (apply N.mul_le_mono_r; lia). lia.
Qed.

Lemma checksum_Ok body :
  isascii body = true → ∃ c, _checksum body = Ok c ∧ length c = _CHECKSUM_CHARS ∧ alphabetic c ∧
    value62 c = crc32 body.
Proof.
  intros Hb. unfold _checksum, encode_ascii. rewrite Hb. cbn [mbind res_bind].
  assert (Hby : bytes_ok body).
  { apply isascii_spec in Hb. eapply Forall_impl; [exact Hb|]. simpl. lia. }
  destruct (base62_fits (crc32 body) _CHECKSUM_CHARS) as [c Hc].
  { eapply N.lt_trans; [by apply crc32_bound|]. by vm_compute. }
  exists c. split; [done|]. by apply base62_Ok in Hc.
Qed.

Lemma prefix_ascii : isascii PREFIX = true.
Proof. vm_compute. reflexivity. Qed.

(** The token a body makes. *)
Lemma well_formed_intro digits check :
  length digits = _RANDOM_CHARS → alphabetic digits → _checksum (PREFIX ++ digits) = Ok check →
  is_well_formed ((PREFIX ++ digits) ++ check) = Ok true.
Proof.
  intros Hl Ha Hc. assert (Hasc : isascii (PREFIX ++ digits) = true).
  { rewrite isascii_app, prefix_ascii. by apply alphabet_ascii. }
  destruct (checksum_Ok (PREFIX ++ digits) Hasc) as (c & Hc' & Hlc & Hac & _).
  rewrite Hc in Hc'. apply Ok_inj in Hc' as <-.
  unfold is_well_formed.
  assert (Hlen : length ((PREFIX ++ digits) ++ check) = TOKEN_LENGTH).
  { unfold TOKEN_LENGTH. rewrite !length_app. lia. }
  rewrite Hlen, Nat.eqb_refl. rewrite <-app_assoc at 1. rewrite startswith_app. cbn [negb orb].
  assert (drop (length PREFIX) ((PREFIX ++ digits) ++ check) = digits ++ check) as ->.
  { rewrite <-app_assoc. apply drop_app_length. }
  rewrite (proj2 (alphabetic_forallb _)) by by apply Forall_app. cbn [negb].
  assert (Hcut : (TOKEN_LENGTH - _CHECKSUM_CHARS)%nat = length (PREFIX ++ digits)).
  { rewrite length_app. unfold TOKEN_LENGTH. lia. }
  rewrite Hcut, take_app_length, drop_app_length, Hc. cbn [mbind res_bind]. unfold compare_digest.
  rewrite (alphabet_ascii _ Hac). simpl. by rewrite bool_decide_true.
Qed.

(** ... and nothing else passes: the shape of a well-formed token. *)
Lemma well_formed_elim token :
  is_well_formed token = Ok true →
  ∃ digits check, token = (PREFIX ++ digits) ++ check ∧ length digits = _RANDOM_CHARS ∧
    length check = _CHECKSUM_CHARS ∧ alphabetic digits ∧ alphabetic check ∧
    _checksum (PREFIX ++ digits) = Ok check.
Proof.
  unfold is_well_formed. destruct (Nat.eqb_spec (length token) TOKEN_LENGTH) as [Hl|]; [|done].
  cbn [negb orb]. destruct (startswith token PREFIX) eqn:Hp; cbn [negb]; [|done].
  apply startswith_spec in Hp as [tail ->].
  rewrite drop_app_length. destruct (forallb _ tail) eqn:Ha; cbn [negb]; [|done].
  apply alphabetic_forallb in Ha. rewrite length_app in Hl.
  assert (Hlt : length tail = (_RANDOM_CHARS + _CHECKSUM_CHARS)%nat) by (unfold TOKEN_LENGTH in Hl; lia).
  set (digits := take _RANDOM_CHARS tail). set (check := drop _RANDOM_CHARS tail).
  assert (Ht : tail = digits ++ check) by (symmetry; apply take_drop).
  assert (Hld : length digits = _RANDOM_CHARS).
  { unfold digits. rewrite length_take, Hlt. unfold _RANDOM_CHARS, _CHECKSUM_CHARS. lia. }
  assert (Hcut : (length (PREFIX ++ tail) - _CHECKSUM_CHARS)%nat = length (PREFIX ++ digits)).
  { rewrite !length_app, Hlt, Hld. lia. }
  rewrite Hcut, Ht, app_assoc, take_app_length, drop_app_length.
  rewrite Ht in Ha. apply Forall_app in Ha as [Had Hac].
  destruct (checksum_Ok (PREFIX ++ digits)) as (c & Hc & Hlc & Hac' & _).
  { rewrite isascii_app, prefix_ascii. by apply alphabet_ascii. }
  rewrite Hc. cbn [mbind res_bind]. unfold compare_digest.
  rewrite (alphabet_ascii _ Hac), (alphabet_ascii _ Hac'). cbn [andb].
  intros E%Ok_inj%bool_decide_eq_true. exists digits, check.
  split; [done|]. split; [done|]. subst c. done.
Qed.

Lemma well_formed_total token : ∃ b, is_well_formed token = Ok b.
Proof.
  unfold is_well_formed. destruct (Nat.eqb_spec (length token) TOKEN_LENGTH) as [Hl|]; [|by eexists].
  cbn [negb orb]. destruct (startswith token PREFIX) eqn:Hp; cbn [negb]; [|by eexists].
  apply startswith_spec in Hp as [tail ->]. rewrite drop_app_length.
  destruct (forallb _ tail) eqn:Ha; cbn [negb]; [|by eexists]. apply alphabetic_forallb in Ha.
  assert (Hasc : isascii (PREFIX ++ tail) = true).
  { rewrite isascii_app, prefix_ascii. by apply alphabet_ascii. }
  set (n := (length (PREFIX ++ tail) - _CHECKSUM_CHARS)%nat).
  destruct (checksum_Ok (take n (PREFIX ++ tail))) as (c & -> & _ & Hc & _).
  { by apply isascii_take. }
  cbn [mbind res_bind]. unfold compare_digest. rewrite (alphabet_ascii _ Hc).
  assert (isascii (drop n (PREFIX ++ tail)) = true) as ->.
  { rewrite <-(take_drop n (PREFIX ++ tail)), isascii_app in Hasc. by bool_hyps. }
  by eexists.
Qed.

Lemma well_formed_ascii token : is_well_formed token = Ok true → isascii token = true.
Proof.
  intros (d & c & -> & _ & _ & Hd & Hc & _)%well_formed_elim.
  rewrite !isascii_app, prefix_ascii, (alphabet_ascii _ Hd), (alphabet_ascii _ Hc). done.
Qed.

(** Base 62 has one numeral of a width for each number. *)
Lemma alphabet_digit c : c ∈ _ALPHABET → digit62 c < 62 ∧ c = nth (N.to_nat (digit62 c)) _ALPHABET 0.
Proof.
  assert (H : forallb (λ c, (digit62 c <? 62) && (c =? nth (N.to_nat (digit62 c)) _ALPHABET 0)) _ALPHABET
    = true) by (vm_compute; reflexivity).
  rewrite forallb_forall in H. intros Hc%list_elem_of_In%H. bool_hyps. split; lia.
Qed.

Lemma value62_inj a b :
  length a = length b → alphabetic a → alphabetic b → value62 a = value62 b → a = b.
Proof.
  revert b. induction a as [|x a IH] using rev_ind; intros b Hl Ha Hb E.
  { by destruct b. }
  destruct b as [|y b _] using rev_ind; [rewrite length_app in Hl; simpl in Hl; lia|].
  rewrite !length_app in Hl. apply Forall_app in Ha as [Ha Hx%Forall_inv], Hb as [Hb Hy%Forall_inv].
  apply alphabet_digit in Hx as [Hx Ex], Hy as [Hy Ey].
  unfold value62 in E. rewrite !fold_left_app in E. fold (value62 a) (value62 b) in E. cbn [fold_left] in E.
  assert (Ed : digit62 x = digit62 y) by lia. f_equal.
  - apply IH; try done; simpl in Hl; lia.
  - by rewrite Ex, Ey, Ed.
Qed.

(** Generation never fails. *)
Lemma generate_run `{O : Outside, !OutsideLaws O} {X} (s : state X) :
  ∃ digits check, generate s = (Ok ((PREFIX ++ digits) ++ check), (s.1, EvRandom 32 :: s.2)) ∧
    length digits = _RANDOM_CHARS ∧ alphabetic digits ∧
    value62 digits = from_bytes_be (o_random s.2 32) ∧ _checksum (PREFIX ++ digits) = Ok check.
Proof.
  unfold generate. io_run. change _RANDOM_BYTES with 32%nat.
  pose proof (o_random_length s.2 32) as Hl. pose proof (o_random_ok s.2 32) as Hok.
  destruct (base62_fits (from_bytes_be (o_random s.2 32)) _RANDOM_CHARS) as [digits Hd].
  { eapply N.lt_trans; [by apply from_bytes_be_bound|]. rewrite Hl. by vm_compute. }
  rewrite Hd. io_run. apply base62_Ok in Hd as (Hld & Had & Hv).
  destruct (checksum_Ok (PREFIX ++ digits)) as (check & Hc & _).
  { rewrite isascii_app, prefix_ascii. by apply alphabet_ascii. }
  rewrite Hc. io_run. by exists digits, check.
Qed.

(** ** Properties *)

(** Generating a token never fails, and what is generated is 57 ASCII
    characters that pass the check a presented token is put to: 256 random bits
    fit 43 characters and a CRC-32 fits 6. *)
Theorem generate_well_formed `{O : Outside, !OutsideLaws O} {X} (s : state X) :
  ∃ token, generate s = (Ok token, (s.1, EvRandom 32 :: s.2)) ∧
    length token = 57%nat ∧ isascii token = true ∧ is_well_formed token = Ok true.
Proof.
  destruct (generate_run s) as (d & c & E & Hl & Ha & _ & Hc). eexists. split; [exact E|].
  assert (Hw : is_well_formed ((PREFIX ++ d) ++ c) = Ok true) by by apply well_formed_intro.
  split; [|split; [by apply well_formed_ascii|done]].
  unfold is_well_formed in Hw. by destruct (Nat.eqb_spec (length ((PREFIX ++ d) ++ c)) TOKEN_LENGTH).
Qed.

(** The token determines the random bytes it was made of: two runs that drew
    different bytes generate different tokens. *)
Theorem generate_injective `{O : Outside, !OutsideLaws O} {X} (s1 s2 : state X) token s1' s2' :
  generate s1 = (Ok token, s1') → generate s2 = (Ok token, s2') →
  from_bytes_be (o_random s1.2 32) = from_bytes_be (o_random s2.2 32).
Proof.
  destruct (generate_run s1) as (d1 & c1 & -> & Hl1 & _ & <- & _).
  destruct (generate_run s2) as (d2 & c2 & -> & Hl2 & _ & <- & _).
  intros [<-%Ok_inj _]%pair_eq [E%Ok_inj _]%pair_eq.
  rewrite <-!app_assoc in E. apply app_inv_head in E. apply app_inj_1 in E as [-> _]; [done|congruence].
Qed.

(** The check always answers, and accepts exactly the strings that are the
    prefix, 43 characters of the alphabet and the base-62 CRC-32 of those. *)
Theorem is_well_formed_spec token :
  ∃ b, is_well_formed token = Ok b ∧
    (b = true ↔ ∃ digits check, token = PREFIX ++ digits ++ check ∧ length digits = 43%nat ∧
       alphabetic digits ∧ _checksum (PREFIX ++ digits) = Ok check).
Proof.
  destruct (well_formed_total token) as [b Hb]. exists b. split; [done|]. split.
  - intros ->. apply well_formed_elim in Hb as (d & c & -> & Hl & _ & Ha & _ & Hc).
    exists d, c. by rewrite app_assoc.
  - intros (d & c & -> & Hl & Ha & Hc). rewrite app_assoc in Hb.
    rewrite well_formed_intro in Hb by done. by apply Ok_inj in Hb.
Qed.

(** A world whose source of randomness yields these bytes. *)
Definition drawing (raw : bytes) : Outside := {|
  o_time := o_time (Outside := silent_world 0); o_now := o_now (Outside := silent_world 0);
  o_monotonic := o_monotonic (Outside := silent_world 0);
  o_random _ n := take n (raw ++ replicate n 0);
  o_dns := o_dns (Outside := silent_world 0); o_http := o_http (Outside := silent_world 0);
  o_stream := o_stream (Outside := silent_world 0); o_db := o_db (Outside := silent_world 0);
  o_schema := o_schema (Outside := silent_world 0); o_pool := o_pool (Outside := silent_world 0);
  o_db_now := o_db_now (Outside := silent_world 0); o_db_zone := o_db_zone (Outside := silent_world 0) |}.

Lemma drawing_laws raw : bytes_ok raw → OutsideLaws (drawing raw).
Proof.
  intros Hr. split; intros t n; cbn [o_random drawing].
  - rewrite length_take, length_app, length_replicate. lia.
  - apply Forall_take, Forall_app. split; [done|]. apply Forall_replicate. lia.
Qed.

(** C26. The check recognises what generation produces: a string can come out of
    [generate], for some 32 random bytes, exactly when [is_well_formed] accepts
    it and the number its 43 digits spell fits 256 bits.  (43 digits of base 62
    reach a little further: the check also accepts what no 32 bytes make.) *)
Theorem generated_iff_well_formed token :
  (∃ (O : Outside) (s s' : state unit), OutsideLaws O ∧ generate s = (Ok token, s')) ↔
  is_well_formed token = Ok true ∧
  value62 (take _RANDOM_CHARS (drop (length PREFIX) token)) < 2 ^ 256.
Proof.
  assert (Hcut : ∀ d c : pystr, length d = _RANDOM_CHARS →
    take _RANDOM_CHARS (drop (length PREFIX) ((PREFIX ++ d) ++ c)) = d).
  { intros d c Hd. rewrite <-app_assoc, drop_app_length, <-Hd. apply take_app_length. }
  split.
  - intros (O & s & s' & HO & H). destruct (generate_run s) as (d & c & E & Hl & Ha & Hv & Hc).
    rewrite E in H. apply pair_eq in H as [<-%Ok_inj _].
    split; [by apply well_formed_intro|]. rewrite Hcut, Hv by done.
    eapply N.lt_le_trans; [apply from_bytes_be_bound, o_random_ok|]. by rewrite o_random_length.
  - intros [(d & c & -> & Hl & _ & Ha & _ & Hc)%well_formed_elim Hv]. rewrite Hcut in Hv by done.
    set (raw := to_bytes_be 32 (value62 d)).
    pose proof (drawing_laws raw (to_bytes_be_ok _ _)) as HO.
    destruct (generate_run (O := drawing raw) (tt, [])) as (d' & c' & E & Hl' & Ha' & Hv' & Hc').
    exists (drawing raw), (tt, []). eexists. split; [exact HO|]. rewrite E. f_equal. f_equal.
    assert (Hraw : o_random (Outside := drawing raw) [] 32 = raw).
    { cbn [o_random drawing]. replace 32%nat with (length raw) at 1 by apply to_bytes_be_length.
      apply take_app_length. }
    cbn [snd] in Hv'. rewrite Hraw in Hv'. unfold raw in Hv'. rewrite from_to_bytes_be in Hv' by done.
    assert (d' = d) as -> by (apply value62_inj; congruence || done).
    rewrite Hc in Hc'. by apply Ok_inj in Hc' as ->.
Qed.

(** A token with one character replaced, wherever it is, does not pass the
    check: it never reaches the database. *)
Theorem one_character_detected pre a b post :
  is_well_formed (pre ++ a :: post) = Ok true → a ≠ b →
  is_well_formed (pre ++ b :: post) = Ok false.
Proof.
  intros Ha Hne. destruct (well_formed_total (pre ++ b :: post)) as [[] Hb]; [exfalso|done].
  pose proof (well_formed_ascii _ Ha) as Asc. pose proof (well_formed_ascii _ Hb) as Bsc.
  apply well_formed_elim in Ha as (d1 & c1 & E1 & L1 & M1 & _ & _ & C1).
  apply well_formed_elim in Hb as (d2 & c2 & E2 & L2 & M2 & _ & _ & C2).
  assert (Hl : length (PREFIX ++ d1) = length (PREFIX ++ d2)) by (rewrite !length_app; lia).
  destruct (decide (length pre < length (PREFIX ++ d1))%nat) as [Hin|Hout].
  - (* in the body: the two checksums agree on bodies one byte apart *)
    assert (Hbody : ∀ x p q, pre ++ x :: post = p ++ q → (length pre < length p)%nat →
      ∃ post', p = pre ++ x :: post' ∧ post = post' ++ q).
    { intros x p q E Hp. exists (take (length p - length pre - 1) post).
      assert (Hpq : p = take (length p) (pre ++ x :: post)) by (rewrite E; by rewrite take_app_length).
      rewrite take_app_ge in Hpq by lia.
      replace (length p - length pre)%nat with (S (length p - length pre - 1)) in Hpq by lia.
      cbn [firstn] in Hpq. split; [exact Hpq|]. remember (take _ post) as t eqn:Et. clear Et.
      rewrite Hpq, <-app_assoc in E. apply app_inv_head in E. cbn in E. by injection E. }
    destruct (Hbody _ _ _ E1 Hin) as (p1 & B1 & T1).
    destruct (Hbody _ _ _ E2 ltac:(lia)) as (p2 & B2 & T2).
    assert (p1 = p2 ∧ c1 = c2) as [<- <-].
    { rewrite T1 in T2. apply app_inj_2 in T2; [done|congruence]. }
    rewrite B1 in C1. rewrite B2 in C2. unfold _checksum, encode_ascii in *.
    rewrite T1, (app_comm_cons _ _ a), app_assoc, isascii_app in Asc. apply andb_true_iff in Asc as [Asc _].
    rewrite T1, (app_comm_cons _ _ b), app_assoc, isascii_app in Bsc. apply andb_true_iff in Bsc as [Bsc _].
    rewrite Asc in C1. rewrite Bsc in C2. cbn [mbind res_bind] in *.
    apply base62_Ok in C1 as (_ & _ & V1). apply base62_Ok in C2 as (_ & _ & V2).
    apply Hne. eapply crc32_one_byte; [| |by rewrite <-V1, <-V2].
    + apply isascii_spec in Asc. eapply Forall_impl; [exact Asc|]. simpl. lia.
    + apply isascii_spec in Bsc. apply Forall_app in Bsc as [_ Bsc]. apply Forall_cons in Bsc as [? _]. lia.
  - (* in the checksum: the bodies are the same, hence the checksums *)
    assert (Hpre : ∀ x p q, pre ++ x :: post = p ++ q → (length p <= length pre)%nat →
      p = take (length p) pre ∧ q = drop (length p) pre ++ x :: post).
    { intros x p q E Hp. assert (Ht : take (length p) (pre ++ x :: post) = p) by (rewrite E; by rewrite take_app_length).
      assert (Hd : drop (length p) (pre ++ x :: post) = q) by (rewrite E; by rewrite drop_app_length).
      rewrite take_app_le in Ht by done. rewrite drop_app_le in Hd by done. done. }
    destruct (Hpre _ _ _ E1 ltac:(lia)) as [B1 Q1]. destruct (Hpre _ _ _ E2 ltac:(lia)) as [B2 Q2].
    rewrite <-Hl, <-B1 in B2. rewrite B2 in C2. rewrite C1 in C2. apply Ok_inj in C2.
    rewrite Q1, Q2, Hl in C2. apply app_inv_head in C2. by injection C2.
Qed.

(** ** Examples *)
Module PatFormatExamples.
Definition sample : pystr :=
  match generate (H := silent_world 0) ((tt, []) : state unit) with
  | (Ok t, _) => t | _ => []
  end.

Lemma generate_injective_witness :
  let O := silent_world 0 in
  from_bytes_be (o_random ([] : trace) 32) = from_bytes_be (o_random [EvTime] 32).
Proof.
  intros O. apply (generate_injective (tt, []) (tt, [EvTime]) sample
    (tt, [EvRandom 32]) (tt, [EvRandom 32; EvTime])); vm_compute; reflexivity.
Defined.

(** The last character mistyped. *)
Lemma one_character_detected_witness :
  is_well_formed (take 56 sample ++ [33]) = Ok false.
Proof.
  apply (one_character_detected (take 56 sample) (nth 56 sample 0) 33 []).
  - vm_compute. reflexivity.
  - apply (bool_decide_unpack _). vm_compute. exact I.
Defined.
End PatFormatExamples.
