(* ===== verification/PatStore.v ===== *)
(** * The token store ([pat_store.py], [migrations])

    [PatStore] is the interface the service is written against.  What it
    promises is a finite map from token hashes to records: [op_spec] says what
    each call answers and what becomes of the map, and [PatStoreSpec] that a
    store implements it.  [PostgresPatStore] runs the five SQL statements on a
    table with the constraints of the migration; [postgres_spec] is the
    refinement.

    PostgreSQL itself is the oracle [o_db]: any statement may fail, before or
    after it took effect. *)

From stdpp Require Import sorting gmap fin_maps.
From S2P Require Import Prelude PyStr Codec Json Datetime World UrlLib Uuid.

(** ** Records *)

Definition opt_iso (o : option datetime) : json :=
  match o with Some t => JStr (isoformat t) | None => JNull end.

Definition public_view (r : PatRecord) : dict json := [
  (u "id", JStr (str_uuid (pr_id r)));
  (u "name", JStr (pr_name r));
  (u "tenant", JStr (pr_tenant r));
  (u "resources", JArr (JStr <$> pr_resources r));
  (u "scopes", JArr (JStr <$> pr_scopes r));
  (u "created_at", JStr (isoformat (pr_created_at r)));
  (u "expires_at", JStr (isoformat (pr_expires_at r)));
  (u "last_used_at", opt_iso (pr_last_used_at r));
  (u "revoked_at", opt_iso (pr_revoked_at r))].

(** ** The interface *)

Record PatStore (X : Type) := {
  store_insert : PatRecord → bytes → io X unit;
  store_find_by_hash : bytes → io X (option PatRecord);
  store_list_for_owner : pystr → pystr → io X (list PatRecord);
  store_revoke : pystr → pystr → N → io X bool;
  store_touch : N → datetime → io X unit
}.
Arguments store_insert {X}.
Arguments store_find_by_hash {X}.
Arguments store_list_for_owner {X}.
Arguments store_revoke {X}.
Arguments store_touch {X}.

(** The five calls under one name, to state what they have in common. *)
Inductive answer := AUnit | ARecord (o : option PatRecord) | ARecords (l : list PatRecord) | ABool (b : bool).

Definition store_do {X} (S : PatStore X) (c : store_call) : io X answer :=
  match c with
  | SInsert r h => (λ _, AUnit) <$> store_insert S r h
  | SFindByHash h => ARecord <$> store_find_by_hash S h
  | SListForOwner i o => ARecords <$> store_list_for_owner S i o
  | SRevoke i o id => ABool <$> store_revoke S i o id
  | STouch id t => (λ _, AUnit) <$> store_touch S id t
  end.

(** ** The specification: a map from hashes to records *)

Abbreviation pats := (gmap bytes PatRecord).

Section Spec.
Context `{O : Outside}.

(** A time as it is read back, in the zone of the connection. *)
Definition at_zone (instant : Z) : datetime :=
  {| dt_instant := instant; dt_offset := o_db_zone instant |}.
Definition rezone (t : datetime) : datetime := at_zone (dt_instant t).

(** What an insertion stores of a record. *)
Definition stored (r : PatRecord) : PatRecord := {|
  pr_id := pr_id r; pr_tenant := pr_tenant r; pr_realm_issuer := pr_realm_issuer r;
  pr_owner_sub := pr_owner_sub r; pr_name := pr_name r; pr_resources := pr_resources r;
  pr_scopes := pr_scopes r; pr_created_at := rezone (pr_created_at r);
  pr_expires_at := rezone (pr_expires_at r); pr_last_used_at := None; pr_revoked_at := None |}.

Definition owned (realm_issuer owner_sub : pystr) (r : PatRecord) : bool :=
  bool_decide (pr_realm_issuer r = realm_issuer) && bool_decide (pr_owner_sub r = owner_sub).

Definition revocable (realm_issuer owner_sub : pystr) (id : N) (r : PatRecord) : bool :=
  (pr_id r =? id)%N && owned realm_issuer owner_sub r && bool_decide (pr_revoked_at r = None).

Definition with_revoked (t : datetime) (r : PatRecord) : PatRecord := {|
  pr_id := pr_id r; pr_tenant := pr_tenant r; pr_realm_issuer := pr_realm_issuer r;
  pr_owner_sub := pr_owner_sub r; pr_name := pr_name r; pr_resources := pr_resources r;
  pr_scopes := pr_scopes r; pr_created_at := pr_created_at r; pr_expires_at := pr_expires_at r;
  pr_last_used_at := pr_last_used_at r; pr_revoked_at := Some t |}.

Definition with_used (t : datetime) (r : PatRecord) : PatRecord := {|
  pr_id := pr_id r; pr_tenant := pr_tenant r; pr_realm_issuer := pr_realm_issuer r;
  pr_owner_sub := pr_owner_sub r; pr_name := pr_name r; pr_resources := pr_resources r;
  pr_scopes := pr_scopes r; pr_created_at := pr_created_at r; pr_expires_at := pr_expires_at r;
  pr_last_used_at := Some t; pr_revoked_at := pr_revoked_at r |}.

Definition revoke_record (now : Z) realm_issuer owner_sub id (r : PatRecord) : PatRecord :=
  if revocable realm_issuer owner_sub id r then with_revoked (at_zone now) r else r.
Definition touch_record (id : N) (t : datetime) (r : PatRecord) : PatRecord :=
  if (pr_id r =? id)%N then with_used (rezone t) r else r.

(** The constraints a record has to meet to be stored (the CHECKs of V1). *)
Definition admissible (r : PatRecord) (h : bytes) : bool :=
  truthy (pr_tenant r) && (1 <=? length (pr_name r))%nat && (length (pr_name r) <=? 100)%nat
  && (length h =? 32)%nat && (1 <=? length (pr_resources r))%nat
  && (dt_instant (pr_created_at r) <? dt_instant (pr_expires_at r)).

(** The order of a listing. *)
Definition listed_before (a b : PatRecord) : Prop :=
  dt_instant (pr_created_at a) < dt_instant (pr_created_at b) ∨
  dt_instant (pr_created_at a) = dt_instant (pr_created_at b) ∧ (pr_id a <= pr_id b)%N.

(** What a call answers, and what it makes of the map; [now] is the clock of
    the database. *)
Definition op_spec (now : Z) (c : store_call) (v : pats) (a : answer) (v' : pats) : Prop :=
  match c with
  | SInsert r h =>
      a = AUnit ∧ v !! h = None ∧ (∀ h' x, v !! h' = Some x → pr_id x ≠ pr_id r) ∧
      admissible r h = true ∧ v' = <[h := stored r]> v
  | SFindByHash h => a = ARecord (v !! h) ∧ v' = v
  | SListForOwner i o =>
      v' = v ∧ ∃ l, a = ARecords l ∧ Sorted listed_before l ∧ NoDup (pr_id <$> l) ∧
        ∀ x, x ∈ l ↔ owned i o x = true ∧ ∃ h, v !! h = Some x
  | SRevoke i o id =>
      v' = revoke_record now i o id <$> v ∧
      ∃ b, a = ABool b ∧ (b = true ↔ ∃ h x, v !! h = Some x ∧ revocable i o id x = true)
  | STouch id t => a = AUnit ∧ v' = touch_record id t <$> v
  end.

(** A store that implements the specification: each call is one event, answers
    as specified, or raises a [DatabaseError], having taken effect or not. *)
Class PatStoreSpec {X} (S : PatStore X) := {
  st_inv : X → Prop;
  st_view : X → pats;
  store_do_spec c (s : state X) r s' :
    st_inv s.1 → store_do S c s = (r, s') →
    st_inv s'.1 ∧ s'.2 = EvStore c :: s.2 ∧
    match r with
    | Ok a => op_spec (o_db_now s.2) c (st_view s.1) a (st_view s'.1)
    | Raise e => (∃ m, e = DatabaseError m) ∧
        (st_view s'.1 = st_view s.1 ∨
         ∃ a, op_spec (o_db_now s.2) c (st_view s.1) a (st_view s'.1))
    end
}.

(** ** What never changes *)

(** A later state of the same token: every column but two is as it was, and a
    revocation stays. *)
Definition evolves (x y : PatRecord) : Prop :=
  pr_id x = pr_id y ∧ pr_tenant x = pr_tenant y ∧ pr_realm_issuer x = pr_realm_issuer y ∧
  pr_owner_sub x = pr_owner_sub y ∧ pr_name x = pr_name y ∧ pr_resources x = pr_resources y ∧
  pr_scopes x = pr_scopes y ∧ pr_created_at x = pr_created_at y ∧
  pr_expires_at x = pr_expires_at y ∧ (pr_revoked_at x ≠ None → pr_revoked_at y = pr_revoked_at x).

#[export] Instance evolves_preorder : PreOrder evolves.
Proof.
  unfold evolves. split; [intros x; by repeat split|]. intros x y z Hxy Hyz.
  destruct Hxy as (->&->&->&->&->&->&->&->&->&Hr). destruct Hyz as (->&->&->&->&->&->&->&->&->&Hs).
  repeat split; try done. intros Hn. rewrite <-(Hr Hn). apply Hs. by rewrite (Hr Hn).
Qed.

Definition pats_evolve (v v' : pats) : Prop :=
  ∀ h x, v !! h = Some x → ∃ y, v' !! h = Some y ∧ evolves x y.

#[export] Instance pats_evolve_preorder : PreOrder pats_evolve.
Proof.
  split; [intros v h x Hx; by exists x|].
  intros u v w Huv Hvw h x (y & Hy & Hxy)%Huv. apply Hvw in Hy as (z & Hz & Hyz).
  exists z. split; [done|]. by etrans.
Qed.

Lemma revoke_record_evolves now i o id x : evolves x (revoke_record now i o id x).
Proof.
  unfold revoke_record, revocable. destruct (_ && _) eqn:H; [|done]. bool_hyps.
  repeat split. intros Hn. congruence.
Qed.

Lemma touch_record_evolves id t x : evolves x (touch_record id t x).
Proof. unfold touch_record. by destruct (_ =? _)%N. Qed.

Lemma op_spec_evolves now c v a v' : op_spec now c v a v' → pats_evolve v v'.
Proof.
  destruct c; cbn [op_spec].
  - intros (_ & Hf & _ & _ & ->) h x Hx. exists x. split; [|done].
    rewrite lookup_insert_ne; [done|]. congruence.
  - by intros [_ ->].
  - by intros [-> _].
  - intros [-> _] h x Hx. exists (revoke_record now realm_issuer owner_sub token_id x).
    rewrite lookup_fmap, Hx. split; [done|]. apply revoke_record_evolves.
  - intros [_ ->] h x Hx. exists (touch_record token_id used_at x).
    rewrite lookup_fmap, Hx. split; [done|]. apply touch_record_evolves.
Qed.
End Spec.

(** ** [PostgresPatStore] *)

Record row := {
  row_id : N;
  row_tenant : pystr;
  row_realm_issuer : pystr;
  row_owner_sub : pystr;
  row_name : pystr;
  row_token_hash : bytes;
  row_resources : list pystr;
  row_scopes : list pystr;
  row_created_at : Z;
  row_expires_at : Z;
  row_last_used_at : option Z;
  row_revoked_at : option Z
}.

(** The schema: the token table, and the history Flyway keeps -- version and
    success of each migration -- when there is one. *)
Record database := {
  tokens : list row;
  history : option (list (option pystr * bool))
}.

(** A program state with a database in it. *)
Class HasDb (X : Type) := {
  db : X → database;
  set_tokens : list row → X → X;
  db_set_tokens l x : db (set_tokens l x) = {| tokens := l; history := history (db x) |}
}.

(** The constraints of the table on one row. *)
Definition row_ok (r : row) : bool :=
  truthy (row_tenant r) && (1 <=? length (row_name r))%nat && (length (row_name r) <=? 100)%nat
  && (length (row_token_hash r) =? 32)%nat && (1 <=? length (row_resources r))%nat
  && (row_created_at r <? row_expires_at r).

(** [INSERT]: the primary key, the unique hash and the checks. *)
Definition insert_row (r : row) (t : list row) : option (list row) :=
  if row_ok r && forallb (λ x, negb (row_id x =? row_id r)%N
                               && negb (bool_decide (row_token_hash x = row_token_hash r))) t
  then Some (t ++ [r]) else None.

(** [SELECT ... WHERE token_hash = h], and its first row. *)
Definition find_row (h : bytes) (t : list row) : option row :=
  List.find (λ x, bool_decide (row_token_hash x = h)) t.

Definition row_owned (realm_issuer owner_sub : pystr) (x : row) : bool :=
  bool_decide (row_realm_issuer x = realm_issuer) && bool_decide (row_owner_sub x = owner_sub).

(** [ORDER BY created_at, id]. *)
Definition row_le (a b : row) : Prop :=
  row_created_at a < row_created_at b ∨
  row_created_at a = row_created_at b ∧ (row_id a <= row_id b)%N.
#[export] Instance row_le_dec : RelDecision row_le.
Proof. intros a b. unfold row_le. solve_decision. Defined.

Definition list_rows (realm_issuer owner_sub : pystr) (t : list row) : list row :=
  merge_sort row_le (List.filter (row_owned realm_issuer owner_sub) t).

Definition row_revocable (realm_issuer owner_sub : pystr) (id : N) (x : row) : bool :=
  (row_id x =? id)%N && row_owned realm_issuer owner_sub x && bool_decide (row_revoked_at x = None).

Definition row_with_revoked (now : Z) (x : row) : row := {|
  row_id := row_id x; row_tenant := row_tenant x; row_realm_issuer := row_realm_issuer x;
  row_owner_sub := row_owner_sub x; row_name := row_name x; row_token_hash := row_token_hash x;
  row_resources := row_resources x; row_scopes := row_scopes x;
  row_created_at := row_created_at x; row_expires_at := row_expires_at x;
  row_last_used_at := row_last_used_at x; row_revoked_at := Some now |}.

Definition row_with_used (t : Z) (x : row) : row := {|
  row_id := row_id x; row_tenant := row_tenant x; row_realm_issuer := row_realm_issuer x;
  row_owner_sub := row_owner_sub x; row_name := row_name x; row_token_hash := row_token_hash x;
  row_resources := row_resources x; row_scopes := row_scopes x;
  row_created_at := row_created_at x; row_expires_at := row_expires_at x;
  row_last_used_at := Some t; row_revoked_at := row_revoked_at x |}.

(** [UPDATE ... SET revoked_at = now() ...]: the number of rows, and the table. *)
Definition revoke_rows (now : Z) (realm_issuer owner_sub : pystr) (id : N) (t : list row)
    : nat * list row :=
  let hit := row_revocable realm_issuer owner_sub id in
  (length (List.filter hit t), map (λ x, if hit x then row_with_revoked now x else x) t).

(** [UPDATE ... SET last_used_at = ...]. *)
Definition touch_rows (used_at : Z) (id : N) (t : list row) : list row :=
  map (λ x, if (row_id x =? id)%N then row_with_used used_at x else x) t.

Section Postgres.
Context `{O : Outside} {X : Type} `{D : HasDb X}.

(** One statement in a transaction of its own: [f] is its effect on the table
    at a database time, [None] when a constraint is violated. *)
Definition statement {A} (c : store_call) (f : Z → list row → option (A * list row)) : io X A :=
  '(outcome, now) ← ask (λ t, (o_db t c, o_db_now t)) (EvStore c);
  x ← get_state;
  match f now (tokens (db x)) with
  | None => raise (DatabaseError (u "constraint violated"))
  | Some (a, t) =>
      match outcome with
      | DbRuns => _ ← put_state (set_tokens t x); mret a
      | DbFails true m => _ ← put_state (set_tokens t x); raise (DatabaseError m)
      | DbFails false m => raise (DatabaseError m)
      end
  end.

Definition _record (r : row) : PatRecord := {|
  pr_id := row_id r; pr_tenant := row_tenant r; pr_realm_issuer := row_realm_issuer r;
  pr_owner_sub := row_owner_sub r; pr_name := row_name r; pr_resources := row_resources r;
  pr_scopes := row_scopes r; pr_created_at := at_zone (row_created_at r);
  pr_expires_at := at_zone (row_expires_at r); pr_last_used_at := at_zone <$> row_last_used_at r;
  pr_revoked_at := at_zone <$> row_revoked_at r |}.

Definition new_row (r : PatRecord) (h : bytes) : row := {|
  row_id := pr_id r; row_tenant := pr_tenant r; row_realm_issuer := pr_realm_issuer r;
  row_owner_sub := pr_owner_sub r; row_name := pr_name r; row_token_hash := h;
  row_resources := pr_resources r; row_scopes := pr_scopes r;
  row_created_at := dt_instant (pr_created_at r); row_expires_at := dt_instant (pr_expires_at r);
  row_last_used_at := None; row_revoked_at := None |}.

Definition pg_insert (record : PatRecord) (token_hash : bytes) : io X unit :=
  statement (SInsert record token_hash)
    (λ _ t, t' ← insert_row (new_row record token_hash) t; Some (tt, t')).

Definition pg_find_by_hash (token_hash : bytes) : io X (option PatRecord) :=
  row ← statement (SFindByHash token_hash) (λ _ t, Some (find_row token_hash t, t));
  mret (_record <$> row).

Definition pg_list_for_owner (realm_issuer owner_sub : pystr) : io X (list PatRecord) :=
  rows ← statement (SListForOwner realm_issuer owner_sub)
    (λ _ t, Some (list_rows realm_issuer owner_sub t, t));
  mret (_record <$> rows).

Definition pg_revoke (realm_issuer owner_sub : pystr) (token_id : N) : io X bool :=
  rowcount ← statement (SRevoke realm_issuer owner_sub token_id)
    (λ now t, Some (revoke_rows now realm_issuer owner_sub token_id t));
  mret (rowcount =? 1)%nat.

Definition pg_touch (token_id : N) (used_at : datetime) : io X unit :=
  statement (STouch token_id used_at)
    (λ _ t, Some (tt, touch_rows (dt_instant used_at) token_id t)).

Definition PostgresPatStore : PatStore X := {|
  store_insert := pg_insert; store_find_by_hash := pg_find_by_hash;
  store_list_for_owner := pg_list_for_owner; store_revoke := pg_revoke;
  store_touch := pg_touch |}.

End Postgres.

(** ** [check_schema] and the migrations it asks for *)

(** The digits of [^V(\d+)__[a-z0-9_]+\.sql$], if the name matches; [$] also
    matches before a final newline. *)
Definition migration_version (name : pystr) : option pystr :=
  if startswith name (u "V") then
    let '(ds, rest) := span_not (λ c, negb (bool_decide (is_Some (decimal_value c)))) (drop 1 name) in
    if truthy ds && startswith rest (u "__") then
      let tail := drop 2 rest in
      let tail := if bool_decide (last tail = Some 10%N) then take (length tail - 1) tail else tail in
      let n := (length tail - 4)%nat in
      if bool_decide (drop n tail = u ".sql") && (0 <? n)%nat
         && forallb (λ c, is_ascii_lower c || is_ascii_digit c || (c =? 95)%N) (take n tail)
      then Some ds else None
    else None
  else None.

(** [names] is what [DIRECTORY.iterdir()] yields. *)
Definition versions (names : list pystr) : res (list Z) :=
  found ← map_res py_int (omap migration_version names);
  let found := merge_sort Z.le found in
  if bool_decide (found = seqZ 1 (Z.of_nat (length found))) then Ok found
  else Raise (RuntimeError (u "migration versions must run 1..n without gaps, found "
                            ++ u "[" ++ join (u ", ") (str_of_Z <$> found) ++ u "]")).

Definition latest_version (names : list pystr) : res Z :=
  l ← versions names; Ok (Z.of_nat (length l)).

Section CheckSchema.
Context `{O : Outside} {X : Type} `{D : HasDb X}.
(** The names in the directory, and PostgreSQL's cast [text::integer]. *)
Context (names : list pystr) (pg_integer : pystr → option Z).

(** [SELECT coalesce(max(version::integer), 0) ... WHERE success AND version IS
    NOT NULL]; a version that is no integer is an error. *)
Definition applied (l : list (option pystr * bool)) : list pystr :=
  omap (λ m, if m.2 : bool then m.1 else None) l.
Definition history_version (l : list (option pystr * bool)) : option Z :=
  (λ vs, match vs with [] => 0 | v :: vs' => foldr Z.max v vs' end) <$> mapM pg_integer (applied l).

(** Without the table or the schema (UndefinedTable, InvalidSchemaName): 0. *)
Definition current_version (h : option (list (option pystr * bool))) : res Z :=
  match h with
  | None => Ok 0
  | Some l => match history_version l with
              | Some v => Ok v
              | None => Raise (DatabaseError (u "invalid input syntax for type integer"))
              end
  end.

Definition check_schema : io X unit :=
  failure ← ask o_schema EvSchema;
  x ← get_state;
  current ← match failure with
    | Some m => raise (DatabaseError m)
    | None => lift (current_version (history (db x)))
    end;
  needed ← lift (latest_version names);
  if current <? needed
  then raise (SchemaBehind (u "database schema is at version " ++ str_of_Z current
         ++ u ", this code needs " ++ str_of_Z needed
         ++ u "; run the cimd-proxy-migrations image of the same release"))
  else mret tt.
End CheckSchema.

(** ** The table implements the map *)

(** What the constraints guarantee of every table. *)
Definition table_ok (t : list row) : Prop :=
  NoDup (row_id <$> t) ∧ NoDup (row_token_hash <$> t) ∧ Forall (λ r, row_ok r = true) t.

Section Refinement.
Context `{O : Outside}.
Implicit Types (t : list row) (r : row).

Definition entry_of (r : row) : bytes * PatRecord := (row_token_hash r, _record r).
Definition view (t : list row) : pats := list_to_map (entry_of <$> t).

Lemma view_cons r t : view (r :: t) = <[row_token_hash r := _record r]> (view t).
Proof. done. Qed.

Lemma view_elem t h x :
  NoDup (row_token_hash <$> t) →
  view t !! h = Some x ↔ ∃ r, r ∈ t ∧ row_token_hash r = h ∧ _record r = x.
Proof.
  intros Hn. unfold view. rewrite <-elem_of_list_to_map.
  - rewrite list_elem_of_fmap. unfold entry_of. naive_solver.
  - by rewrite <-list_fmap_compose.
Qed.

Lemma find_row_view h t : _record <$> find_row h t = view t !! h.
Proof.
  induction t as [|r t IH]; [done|]. rewrite view_cons. unfold find_row in *. cbn [List.find].
  case_bool_decide as E; [by rewrite E, lookup_insert_eq|].
  by rewrite lookup_insert_ne.
Qed.

Lemma view_map (f : row → row) (g : PatRecord → PatRecord) t :
  (∀ r, row_token_hash (f r) = row_token_hash r ∧ _record (f r) = g (_record r)) →
  view (map f t) = g <$> view t.
Proof.
  intros H. induction t as [|r t IH]; [done|]. cbn [map]. rewrite !view_cons, IH, fmap_insert.
  by destruct (H r) as [-> ->].
Qed.

Lemma view_snoc r t :
  row_token_hash r ∉ row_token_hash <$> t →
  view (t ++ [r]) = <[row_token_hash r := _record r]> (view t).
Proof.
  induction t as [|r' t IH]; [done|]. cbn [app fmap list_fmap]. intros [Hne Hni]%not_elem_of_cons.
  rewrite !view_cons, IH by done. by rewrite insert_insert_ne.
Qed.

(** *** Each statement *)

Lemma row_ok_admissible (r : PatRecord) h : row_ok (new_row r h) = admissible r h.
Proof. done. Qed.

Lemma record_new_row (r : PatRecord) h : _record (new_row r h) = stored r.
Proof. done. Qed.

Lemma insert_row_Some r t t' :
  insert_row r t = Some t' →
  t' = t ++ [r] ∧ row_ok r = true ∧ row_id r ∉ row_id <$> t ∧
  row_token_hash r ∉ row_token_hash <$> t.
Proof.
  unfold insert_row. destruct (_ && _) eqn:E; [|done]. intros [= <-].
  apply andb_true_iff in E as [Hok Hf]. rewrite forallb_forall in Hf.
  split; [done|]. split; [done|].
  assert (H : ∀ x, x ∈ t → row_id x ≠ row_id r ∧ row_token_hash x ≠ row_token_hash r).
  { intros x Hx%list_elem_of_In. specialize (Hf x Hx). bool_hyps. split; [lia|done]. }
  split; intros (x & Hx & Hin)%list_elem_of_fmap; apply H in Hin as [??]; congruence.
Qed.

Lemma insert_row_ok r t t' : table_ok t → insert_row r t = Some t' → table_ok t'.
Proof.
  intros (Hi & Hh & Hr) (-> & Hok & Hni & Hnh)%insert_row_Some.
  unfold table_ok. rewrite !fmap_app. split; [|split].
  - apply NoDup_app. split; [done|]. split; [|apply NoDup_singleton]. set_solver.
  - apply NoDup_app. split; [done|]. split; [|apply NoDup_singleton]. set_solver.
  - apply Forall_app. by rewrite Forall_singleton.
Qed.

Lemma map_rows_ok (f : row → row) t :
  (∀ r, row_id (f r) = row_id r ∧ row_token_hash (f r) = row_token_hash r ∧ row_ok (f r) = row_ok r) →
  table_ok t → table_ok (map f t).
Proof.
  intros H (Hi & Hh & Hr). unfold table_ok.
  assert (Ei : row_id <$> map f t = row_id <$> t).
  { rewrite <-list_fmap_compose. apply list_fmap_ext. intros ?? _. apply H. }
  assert (Eh : row_token_hash <$> map f t = row_token_hash <$> t).
  { rewrite <-list_fmap_compose. apply list_fmap_ext. intros ?? _. apply H. }
  rewrite Ei, Eh. split; [done|]. split; [done|]. apply Forall_map.
  eapply Forall_impl; [exact Hr|]. intros r ?. destruct (H r) as (_ & _ & E). by rewrite E.
Qed.

Lemma row_revocable_record i o id r : row_revocable i o id r = revocable i o id (_record r).
Proof.
  unfold row_revocable, revocable, row_owned, owned. cbn. f_equal. by destruct (row_revoked_at r).
Qed.

Lemma revoke_row_cases now i o id r :
  let r' := if row_revocable i o id r then row_with_revoked now r else r in
  row_id r' = row_id r ∧ row_token_hash r' = row_token_hash r ∧ row_ok r' = row_ok r ∧
  _record r' = revoke_record now i o id (_record r).
Proof.
  unfold revoke_record. rewrite <-row_revocable_record. by destruct (row_revocable i o id r).
Qed.

Lemma touch_row_cases at_ id r :
  let r' := if (row_id r =? id)%N then row_with_used (dt_instant at_) r else r in
  row_id r' = row_id r ∧ row_token_hash r' = row_token_hash r ∧ row_ok r' = row_ok r ∧
  _record r' = touch_record id at_ (_record r).
Proof. unfold touch_record. cbn. by destruct (_ =? _)%N. Qed.

Lemma filter_one (f : row → bool) t id :
  NoDup (row_id <$> t) → (∀ r, f r = true → row_id r = id) →
  (length (List.filter f t) =? 1)%nat = true ↔ ∃ r, r ∈ t ∧ f r = true.
Proof.
  intros Hn Hf. split.
  - destruct (List.filter f t) as [|r l] eqn:E; [done|]. intros _. exists r.
    rewrite list_elem_of_In. apply filter_In. rewrite E. by left.
  - induction t as [|a t IH]; [by intros (? & ?%elem_of_nil & ?)|].
    cbn [fmap list_fmap List.filter] in *. apply NoDup_cons in Hn as [Hni Hn].
    destruct (f a) eqn:Ha.
    + intros _. assert (List.filter f t = []) as ->; [|done].
      destruct (List.filter f t) as [|b l] eqn:E; [done|]. exfalso. apply Hni.
      assert (Hb : In b (List.filter f t)) by (rewrite E; by left).
      apply filter_In in Hb as [Hb Hfb]. rewrite (Hf a Ha), <-(Hf b Hfb).
      apply list_elem_of_fmap. exists b. by rewrite list_elem_of_In.
    + intros (r & [->|Hr]%elem_of_cons & Hfr); [congruence|]. apply IH; [done|]. by exists r.
Qed.
End Refinement.

Section PostgresSpec.
Context `{O : Outside} {X : Type} `{D : HasDb X}.
Implicit Types (s : state X).

Definition db_inv (x : X) : Prop := table_ok (tokens (db x)).
Definition db_view (x : X) : pats := view (tokens (db x)).

Lemma tokens_set t x : tokens (db (set_tokens t x)) = t.
Proof. by rewrite db_set_tokens. Qed.

(** A statement took effect as a whole or not at all. *)
Lemma statement_run {A} c (f : Z → list row → option (A * list row)) s r s' :
  statement c f s = (r, s') →
  s'.2 = EvStore c :: s.2 ∧
  match r with
  | Ok a => ∃ t, f (o_db_now s.2) (tokens (db s.1)) = Some (a, t) ∧ tokens (db s'.1) = t
  | Raise e => (∃ m, e = DatabaseError m) ∧
      (s'.1 = s.1 ∨ ∃ a t, f (o_db_now s.2) (tokens (db s.1)) = Some (a, t) ∧ tokens (db s'.1) = t)
  end.
Proof.
  unfold statement. io_run. destruct (f _ _) as [[a t]|] eqn:E.
  - destruct (o_db s.2 c) as [|[] m]; intros [<- <-]%pair_eq; cbn [fst snd]; split; try done.
    + exists t. by rewrite tokens_set.
    + split; [by eexists|]. right. exists a, t. by rewrite tokens_set.
    + split; [by eexists|]. by left.
  - intros [<- <-]%pair_eq. split; [done|]. split; [by eexists|]. by left.
Qed.

(** From the effect of a statement on the table to its effect on the map. *)
Lemma statement_spec {A} c (f : Z → list row → option (A * list row)) (g : A → answer) s r s' :
  db_inv s.1 →
  (∀ a t, f (o_db_now s.2) (tokens (db s.1)) = Some (a, t) →
     table_ok t ∧ op_spec (o_db_now s.2) c (db_view s.1) (g a) (view t)) →
  (g <$> statement c f) s = (r, s') →
  db_inv s'.1 ∧ s'.2 = EvStore c :: s.2 ∧
  match r with
  | Ok a => op_spec (o_db_now s.2) c (db_view s.1) a (db_view s'.1)
  | Raise e => (∃ m, e = DatabaseError m) ∧
      (db_view s'.1 = db_view s.1 ∨ ∃ a, op_spec (o_db_now s.2) c (db_view s.1) a (db_view s'.1))
  end.
Proof.
  intros Hinv Hf. unfold fmap, io_fmap. destruct (statement c f s) as [r1 s1] eqn:E.
  apply statement_run in E as [Ht Hr]. unfold db_inv, db_view in *.
  destruct r1 as [a|e]; intros [<- <-]%pair_eq.
  - destruct Hr as (t & E & Ht'). apply Hf in E. rewrite Ht'. destruct E as [??]. by split_and!.
  - destruct Hr as [Hm [->|(a & t & E & Ht')]].
    + split_and!; try done. by left.
    + apply Hf in E as [??]. rewrite Ht'. split_and!; try done. right. by eexists.
Qed.

Lemma list_rows_spec i o t :
  table_ok t →
  let l := _record <$> list_rows i o t in
  Sorted listed_before l ∧ NoDup (pr_id <$> l) ∧
  ∀ x, x ∈ l ↔ owned i o x = true ∧ ∃ h, view t !! h = Some x.
Proof.
  intros (Hi & Hh & _) l. unfold l, list_rows. split; [|split].
  - assert (Hs : Sorted row_le (merge_sort row_le (List.filter (row_owned i o) t))).
    { apply Sorted_merge_sort. intros a b. unfold row_le. lia. }
    induction Hs as [|a l' _ IH Hd]; cbn [fmap list_fmap]; constructor; [done|].
    destruct Hd; cbn [fmap list_fmap]; by constructor.
  - rewrite <-list_fmap_compose. change (pr_id ∘ _record) with row_id.
    assert (Hp : merge_sort row_le (List.filter (row_owned i o) t) ≡ₚ List.filter (row_owned i o) t)
      by apply merge_sort_Permutation. rewrite Hp.
    clear Hp Hh. induction t as [|a t IH]; cbn [List.filter]; [constructor|].
    cbn [fmap list_fmap] in Hi. apply NoDup_cons in Hi as [Hni Hi].
    destruct (row_owned i o a); [|by apply IH]. cbn [fmap list_fmap]. apply NoDup_cons.
    split; [|by apply IH]. intros (b & Hb & Hin)%list_elem_of_fmap. apply Hni, list_elem_of_fmap.
    exists b. split; [done|]. apply list_elem_of_In, filter_In in Hin as [Hin _].
    by apply list_elem_of_In.
  - intros x. rewrite list_elem_of_fmap. setoid_rewrite (view_elem t _ x Hh).
    assert (Hin : ∀ r, r ∈ merge_sort row_le (List.filter (row_owned i o) t) ↔
      r ∈ t ∧ row_owned i o r = true).
    { intros r. by rewrite merge_sort_Permutation, !list_elem_of_In, filter_In. }
    setoid_rewrite Hin. split.
    + intros (r & -> & Hr & Ho). split; [exact Ho|]. by exists (row_token_hash r), r.
    + intros (Ho & h & r & Hr & _ & <-). by exists r.
Qed.

(** Two pure steps after a statement are one. *)
Lemma fuse_run {A B C} (m : io X A) (f : A → B) (g : B → C) s :
  (g <$> (a ← m; mret (f a))) s = ((g ∘ f) <$> m) s.
Proof. unfold fmap, io_fmap, mbind, io_bind. by destruct (m s) as [[]]. Qed.

Lemma postgres_refines c s r s' :
  db_inv s.1 → store_do PostgresPatStore c s = (r, s') →
  db_inv s'.1 ∧ s'.2 = EvStore c :: s.2 ∧
  match r with
  | Ok a => op_spec (o_db_now s.2) c (db_view s.1) a (db_view s'.1)
  | Raise e => (∃ m, e = DatabaseError m) ∧
      (db_view s'.1 = db_view s.1 ∨ ∃ a, op_spec (o_db_now s.2) c (db_view s.1) a (db_view s'.1))
  end.
Proof.
  intros Hinv. destruct (Hinv) as (Hi & Hh & Hr).
  destruct c as [rec h|h|i o|i o id|id at_]; cbn [store_do PostgresPatStore store_insert
    store_find_by_hash store_list_for_owner store_revoke store_touch];
    unfold pg_insert, pg_find_by_hash, pg_list_for_owner, pg_revoke, pg_touch; rewrite ?fuse_run;
    (apply statement_spec; [done|]); intros a t E; cbn [op_spec].
  - destruct (insert_row _ _) as [t'|] eqn:Ei; [|done]. cbn in E. injection E as <- <-.
    split; [by eapply insert_row_ok|]. apply insert_row_Some in Ei as (-> & Hok & Hni & Hnh).
    split; [done|]. rewrite row_ok_admissible in Hok.
    split_and!; [..|done|by rewrite view_snoc].
    + unfold db_view. rewrite <-find_row_view. destruct (find_row h _) as [r1|] eqn:Ef; [exfalso|done].
      apply find_some in Ef as [Hin Hb]. apply bool_decide_eq_true in Hb. apply Hnh.
      apply list_elem_of_fmap. exists r1. by rewrite list_elem_of_In.
    + intros h' x (r1 & Hin & _ & <-)%view_elem; [|done]. cbn. intros E. apply Hni.
      apply list_elem_of_fmap. by exists r1.
  - injection E as <- <-. split; [done|]. split; [|done]. cbn. by rewrite find_row_view.
  - injection E as <- <-. split; [done|]. split; [done|]. eexists. split; [done|].
    by apply list_rows_spec.
  - injection E as <- <-. split.
    { apply map_rows_ok; [|done]. intros r1. by destruct (revoke_row_cases (o_db_now s.2) i o id r1) as (?&?&?&_). }
    split.
    { apply view_map. intros r1. by destruct (revoke_row_cases (o_db_now s.2) i o id r1) as (?&?&?&?). }
    eexists. split; [done|]. rewrite (filter_one _ _ id); [|done|].
    + setoid_rewrite view_elem; [|done]. split.
      * intros (r1 & Hin & Hrev). exists (row_token_hash r1), (_record r1). split; [by exists r1|].
        by rewrite <-row_revocable_record.
      * intros (h & x & (r1 & Hin & _ & <-) & Hrev). exists r1. split; [done|].
        by rewrite row_revocable_record.
    + intros r1. unfold row_revocable. intros ?. bool_hyps. lia.
  - injection E as <- <-. split.
    { apply map_rows_ok; [|done]. intros r1. by destruct (touch_row_cases at_ id r1) as (?&?&?&_). }
    split; [done|]. apply view_map. intros r1. by destruct (touch_row_cases at_ id r1) as (?&?&?&?).
Qed.
End PostgresSpec.

#[export] Instance postgres_spec `{O : Outside} {X} `{D : HasDb X} : PatStoreSpec PostgresPatStore := {|
  st_inv := db_inv; st_view := db_view; store_do_spec := postgres_refines
|}.

(** ** Histories of a store *)

Section Histories.
Context `{O : Outside} {X : Type} (S : PatStore X) `{P : !PatStoreSpec S}.
Implicit Types (s : state X).

(** Whoever calls the store, in whatever order, and whatever else happens in
    between that leaves the program state alone. *)
Inductive step : state X → state X → Prop :=
  | step_call c s r s' : store_do S c s = (r, s') → step s s'
  | step_other s s' : s'.1 = s.1 → step s s'.

Definition advances s s' : Prop :=
  st_inv s.1 → st_inv s'.1 ∧ pats_evolve (st_view s.1) (st_view s'.1).

#[export] Instance advances_preorder : PreOrder advances.
Proof.
  split; [by intros s Hi|]. intros s1 s2 s3 H1 H2 Hi.
  destruct (H1 Hi) as [Hi2 E1]. destruct (H2 Hi2) as [Hi3 E2]. split; [done|]. by etrans.
Qed.

Lemma store_do_advances c s r s' : store_do S c s = (r, s') → advances s s'.
Proof.
  intros H Hi. destruct (store_do_spec c s r s' Hi H) as (Hi' & _ & Hr). split; [done|].
  destruct r as [a|e]; [by eapply op_spec_evolves|].
  destruct Hr as [_ [->|[a Ha]]]; [done|by eapply op_spec_evolves].
Qed.

Lemma steps_advance s s' : rtc step s s' → advances s s'.
Proof.
  induction 1 as [|s1 s2 s3 H12 _ IH]; [done|]. etrans; [|exact IH].
  destruct H12 as [c s r s' H|s s' E]; [by eapply store_do_advances|].
  intros Hi. by rewrite E.
Qed.

(** A call that is one of the five, with its answer taken apart. *)
Lemma do_find h s r s' :
  store_find_by_hash S h s = (r, s') → st_inv s.1 →
  st_inv s'.1 ∧ s'.2 = EvStore (SFindByHash h) :: s.2 ∧ st_view s'.1 = st_view s.1 ∧
  match r with Ok o => o = st_view s.1 !! h | Raise e => ∃ m, e = DatabaseError m end.
Proof.
  intros H Hi. assert (Hd : store_do S (SFindByHash h) s = (match r with Ok o => Ok (ARecord o) | Raise e => Raise e end, s')).
  { cbn [store_do]. unfold fmap, io_fmap. rewrite H. by destruct r. }
  apply store_do_spec in Hd as (Hi' & Ht & Hr); [|done]. split; [done|]. split; [done|].
  destruct r as [o|e]; cbn [op_spec] in Hr.
  - destruct Hr as [E ->]. by injection E as ->.
  - destruct Hr as [Hm [->|(a & _ & ->)]]; done.
Qed.

Lemma do_insert rec h s r s' :
  store_insert S rec h s = (r, s') → st_inv s.1 →
  st_inv s'.1 ∧ s'.2 = EvStore (SInsert rec h) :: s.2 ∧
  match r with
  | Ok _ => op_spec (o_db_now s.2) (SInsert rec h) (st_view s.1) AUnit (st_view s'.1)
  | Raise e => (∃ m, e = DatabaseError m) ∧ (st_view s'.1 = st_view s.1 ∨
      op_spec (o_db_now s.2) (SInsert rec h) (st_view s.1) AUnit (st_view s'.1))
  end.
Proof.
  intros H Hi. assert (Hd : store_do S (SInsert rec h) s = (match r with Ok _ => Ok AUnit | Raise e => Raise e end, s')).
  { cbn [store_do]. unfold fmap, io_fmap. rewrite H. by destruct r. }
  apply store_do_spec in Hd as (Hi' & Ht & Hr); [|done]. split; [done|]. split; [done|].
  destruct r as [o|e]; [done|]. destruct Hr as [Hm [->|(a & Ha)]]; (split; [done|]); [by left|].
  right. cbn [op_spec] in *. destruct Ha as (_ & Ha). done.
Qed.

Lemma do_revoke i o id s r s' :
  store_revoke S i o id s = (r, s') → st_inv s.1 →
  st_inv s'.1 ∧ s'.2 = EvStore (SRevoke i o id) :: s.2 ∧
  match r with
  | Ok b => st_view s'.1 = revoke_record (o_db_now s.2) i o id <$> st_view s.1 ∧
      (b = true ↔ ∃ h x, st_view s.1 !! h = Some x ∧ revocable i o id x = true)
  | Raise e => (∃ m, e = DatabaseError m) ∧ (st_view s'.1 = st_view s.1 ∨
      st_view s'.1 = revoke_record (o_db_now s.2) i o id <$> st_view s.1)
  end.
Proof.
  intros H Hi. assert (Hd : store_do S (SRevoke i o id) s = (match r with Ok b => Ok (ABool b) | Raise e => Raise e end, s')).
  { cbn [store_do]. unfold fmap, io_fmap. rewrite H. by destruct r. }
  apply store_do_spec in Hd as (Hi' & Ht & Hr); [|done]. split; [done|]. split; [done|].
  destruct r as [b|e]; [|destruct Hr as [Hm [->|(a & E & _)]]; auto].
  destruct Hr as (E & b' & Eb & Hb). injection Eb as <-. done.
Qed.

Lemma do_touch id t s r s' :
  store_touch S id t s = (r, s') → st_inv s.1 →
  st_inv s'.1 ∧ s'.2 = EvStore (STouch id t) :: s.2 ∧
  match r with
  | Ok _ => st_view s'.1 = touch_record id t <$> st_view s.1
  | Raise e => ∃ m, e = DatabaseError m
  end.
Proof.
  intros H Hi. assert (Hd : store_do S (STouch id t) s = (match r with Ok _ => Ok AUnit | Raise e => Raise e end, s')).
  { cbn [store_do]. unfold fmap, io_fmap. rewrite H. by destruct r. }
  apply store_do_spec in Hd as (Hi' & Ht & Hr); [|done]. split; [done|]. split; [done|].
  destruct r as [b|e]; [by destruct Hr as [_ ?]|by destruct Hr as [? _]].
Qed.

Lemma do_list i o s r s' :
  store_list_for_owner S i o s = (r, s') → st_inv s.1 →
  st_inv s'.1 ∧ s'.2 = EvStore (SListForOwner i o) :: s.2 ∧ st_view s'.1 = st_view s.1 ∧
  match r with
  | Ok l => Sorted listed_before l ∧ NoDup (pr_id <$> l) ∧
      ∀ x, x ∈ l ↔ owned i o x = true ∧ ∃ h, st_view s.1 !! h = Some x
  | Raise e => ∃ m, e = DatabaseError m
  end.
Proof.
  intros H Hi. assert (Hd : store_do S (SListForOwner i o) s = (match r with Ok b => Ok (ARecords b) | Raise e => Raise e end, s')).
  { cbn [store_do]. unfold fmap, io_fmap. rewrite H. by destruct r. }
  apply store_do_spec in Hd as (Hi' & Ht & Hr); [|done]. split; [done|]. split; [done|].
  destruct r as [l|e].
  - destruct Hr as (E & l' & El & Hl). by injection El as <-.
  - destruct Hr as [Hm [->|(a & -> & _)]]; done.
Qed.
End Histories.

(** ** Properties *)

(** C19. The SQL implements the map.  On a table that meets the constraints, each of
    the five calls is one statement that leaves a table meeting the constraints;
    when it returns, its answer and the table's view -- hashes to records -- are
    the specification's: an insertion adds exactly the record, under a new hash
    and a new id, neither used nor revoked; a lookup answers by hash; a listing is
    the owner's records, each once, in the order of creation; a revocation touches
    only the owner's unrevoked token of that id and says whether there was one; a
    touch writes one column.  When it raises, it took effect as specified or not
    at all. *)
Theorem postgres_implements_map `{O : Outside} {X} `{D : HasDb X} c (s : state X) r s' :
  table_ok (tokens (db s.1)) → store_do PostgresPatStore c s = (r, s') →
  table_ok (tokens (db s'.1)) ∧ s'.2 = EvStore c :: s.2 ∧
  match r with
  | Ok a => op_spec (o_db_now s.2) c (view (tokens (db s.1))) a (view (tokens (db s'.1)))
  | Raise e => (∃ m, e = DatabaseError m) ∧
      (view (tokens (db s'.1)) = view (tokens (db s.1)) ∨
       ∃ a, op_spec (o_db_now s.2) c (view (tokens (db s.1))) a (view (tokens (db s'.1))))
  end.
Proof. apply postgres_refines. Qed.

(** What a stored token says never changes.  Whatever calls are made, by
    whomever and in whatever order, also failing ones: no token leaves the store,
    its id, owner, organization, resources, scopes and dates are what they were,
    and a revoked token stays revoked since then. *)
Theorem stored_tokens_immutable `{O : Outside} {X} (S : PatStore X) `{!PatStoreSpec S}
    (s s' : state X) :
  st_inv s.1 → rtc (step S) s s' →
  st_inv s'.1 ∧
  ∀ h x, st_view s.1 !! h = Some x → ∃ y, st_view s'.1 !! h = Some y ∧ evolves x y.
Proof. intros Hi H. by apply (steps_advance S) in H as [??]. Qed.

(** What is stored is found.  After an insertion that returned, and whatever
    else happens then, a lookup of the hash that returns finds the token as it was
    inserted -- but for the uses and the revocation recorded since. *)
Theorem inserted_token_found `{O : Outside} {X} (S : PatStore X) `{!PatStoreSpec S}
    record h (s s1 s2 s3 : state X) found :
  st_inv s.1 → store_insert S record h s = (Ok tt, s1) → rtc (step S) s1 s2 →
  store_find_by_hash S h s2 = (Ok found, s3) →
  ∃ r, found = Some r ∧ evolves (stored record) r.
Proof.
  intros Hi H H12 Hf. destruct (do_insert S _ _ _ _ _ H Hi) as (Hi1 & _ & _ & _ & _ & _ & Hv).
  destruct (steps_advance S _ _ H12 Hi1) as [Hi2 He].
  destruct (do_find S _ _ _ _ Hf Hi2) as (_ & _ & _ & ->).
  destruct (He h (stored record)) as (y & Hy & Hev); [by rewrite Hv, lookup_insert_eq|].
  by exists y.
Qed.

Lemma map_res_mapM {A B} (f : A → res B) l ys : map_res f l = Ok ys → length ys = length l.
Proof. intros H%map_res_Ok. by apply Forall2_length in H. Qed.

(** The version files of a directory that is in order. *)
Lemma latest_version_Ok names n :
  latest_version names = Ok n ↔
  ∃ found, map_res py_int (omap migration_version names) = Ok found ∧
    n = Z.of_nat (length found) ∧ found ≡ₚ seqZ 1 n.
Proof.
  unfold latest_version, versions. split.
  - intros (l & (found & Hf & Hl)%bind_Ok & <-%Ok_inj)%bind_Ok. case_bool_decide as E; [|done].
    apply Ok_inj in Hl as <-. exists found. split; [done|].
    rewrite (Permutation_length (merge_sort_Permutation Z.le found)) in *. split; [done|].
    by rewrite <-E, merge_sort_Permutation.
  - intros (found & -> & -> & Hp). cbn [mbind res_bind].
    assert (E : merge_sort Z.le found = seqZ 1 (Z.of_nat (length found))).
    { assert (Hs : Sorted Z.le (merge_sort Z.le found)) by (apply Sorted_merge_sort, _).
      assert (Ht : Sorted Z.le (seqZ 1 (Z.of_nat (length found)))).
      { unfold seqZ. rewrite Nat2Z.id. generalize (length found) at 1 as k. intros k. generalize 0%nat.
        induction k as [|k IH]; intros b; cbn; constructor; [apply IH|].
        destruct k; cbn; constructor. lia. }
      apply (StronglySorted_unique Z.le); [by apply (Sorted_StronglySorted _)..|].
      by rewrite merge_sort_Permutation. }
    rewrite E, length_seqZ, Nat2Z.id, bool_decide_true by done. cbn [mbind res_bind].
    by rewrite length_seqZ, Nat2Z.id.
Qed.

Lemma history_version_Some pg_integer l v :
  history_version pg_integer l = Some v → 0 < v →
  ∃ m text, m ∈ l ∧ m.2 = true ∧ m.1 = Some text ∧ pg_integer text = Some v.
Proof.
  unfold history_version. destruct (mapM pg_integer (applied l)) as [vs|] eqn:E; [|done].
  cbn. intros [= Hv] Hp. apply mapM_Some in E.
  assert (Hin : v ∈ vs).
  { destruct vs as [|v0 vs]; [lia|]. subst v. clear. induction vs as [|a vs IH]; cbn; [by left|].
    destruct (Z.max_spec a (foldr Z.max v0 vs)) as [[_ ->]|[_ ->]]; set_solver. }
  apply list_elem_of_lookup in Hin as [i Hi].
  destruct (Forall2_lookup_r _ _ _ _ _ E Hi) as (text & Ht & Hc).
  apply list_elem_of_lookup_2 in Ht. unfold applied in Ht. apply list_elem_of_omap in Ht as (m & Hm & Ho).
  exists m, text. destruct (m.2) eqn:E2; [done|done].
Qed.

(** One query, and when it lets the process start. *)
Lemma check_schema_run `{O : Outside} {X} `{D : HasDb X} names pg_integer (s : state X) r s' :
  check_schema names pg_integer s = (r, s') →
  s' = (s.1, EvSchema :: s.2) ∧
  (r = Ok tt ↔ o_schema s.2 = None ∧ ∃ n v, latest_version names = Ok n ∧ n <= v ∧
     match history (db s.1) with None => v = 0 | Some l => history_version pg_integer l = Some v end).
Proof.
  intros H. revert H. unfold check_schema. io_run.
  destruct (o_schema s.2) as [m|]; io_run.
  { intros [<- <-]%pair_eq. split; [done|]. split; [done|]. by intros [? _]. }
  destruct (current_version pg_integer (history (db s.1))) as [cur|e] eqn:Ec; io_run.
  2: { intros [<- <-]%pair_eq. split; [done|]. split; [done|]. intros (_ & n & v & _ & _ & Hv).
      unfold current_version in Ec. destruct (history (db s.1)) as [l|]; [|done]. by rewrite Hv in Ec. }
  assert (Hcur : ∀ v, match history (db s.1) with None => v = 0 | Some l => history_version pg_integer l = Some v end ↔ v = cur).
  { intros v. unfold current_version in Ec. destruct (history (db s.1)) as [l|]; [|naive_solver].
    destruct (history_version pg_integer l); [|done]. apply Ok_inj in Ec as ->. naive_solver. }
  setoid_rewrite Hcur. destruct (latest_version names) as [n|e]; io_run.
  2: { intros [<- <-]%pair_eq. split; [done|]. split; [done|]. by intros (_ & n & v & ? & _). }
  destruct (Z.ltb_spec cur n); intros [<- <-]%pair_eq; (split; [done|]); split; try done.
  + intros (_ & n' & v & [= <-]%Ok_inj & ? & ->). lia.
  + intros _. split; [done|]. by exists n, cur.
Qed.

(** The proxy starts only on a schema it knows.  [check_schema] reads, once,
    and returns exactly when the migration files are numbered 1 to n without a
    gap and the highest successful version in the history -- 0 without a history
    -- is at least n; so with any file at all, some migration of version n or
    more succeeded.  Otherwise it raises, and it never writes. *)
Theorem check_schema_guards `{O : Outside} {X} `{D : HasDb X} names pg_integer (s : state X) r s' :
  check_schema names pg_integer s = (r, s') →
  s' = (s.1, EvSchema :: s.2) ∧
  (r = Ok tt ↔ o_schema s.2 = None ∧ ∃ n v, latest_version names = Ok n ∧ n <= v ∧
     match history (db s.1) with None => v = 0 | Some l => history_version pg_integer l = Some v end) ∧
  (∀ n, r = Ok tt → latest_version names = Ok n →
     (∃ found, map_res py_int (omap migration_version names) = Ok found ∧ found ≡ₚ seqZ 1 n) ∧
     (0 < n → ∃ l m text v, history (db s.1) = Some l ∧ m ∈ l ∧ m.2 = true ∧ m.1 = Some text ∧
        pg_integer text = Some v ∧ n <= v)).
Proof.
  intros H.
  pose proof (check_schema_run _ _ _ _ _ H) as Hmain.
  split; [apply Hmain|]. split; [apply Hmain|]. intros n Hr Hn.
  destruct Hmain as [_ [Hmain _]]. destruct (Hmain Hr) as (_ & n' & v & Hn' & Hle & Hv).
  rewrite Hn in Hn'. apply Ok_inj in Hn' as <-. split.
  - apply latest_version_Ok in Hn as (found & ? & _ & ?). by exists found.
  - intros Hp. destruct (history (db s.1)) as [l|]; [|lia].
    destruct (history_version_Some _ _ _ Hv) as (m & text & ?); [lia|]. exists l, m, text, v. naive_solver.
Qed.

(** ** A table *)
Module PatStoreExamples.
#[local] Instance only_db : HasDb database.
Proof. refine {| db := id; set_tokens l x := {| tokens := l; history := history x |} |}. done. Defined.

Definition sample_hash : bytes := replicate 32 9%N.
Definition sample_record : PatRecord := {|
  pr_id := 5; pr_tenant := u "acme"; pr_realm_issuer := u "https://kc.example/realms/r";
  pr_owner_sub := u "alice"; pr_name := u "ci"; pr_resources := [u "https://r0.example"];
  pr_scopes := [u "read"]; pr_created_at := at_utc 1000000; pr_expires_at := at_utc 2000000;
  pr_last_used_at := None; pr_revoked_at := None |}.

Definition schema : database := {| tokens := []; history := Some [(None, true); (Some (u "1"), true)] |}.
Definition start : state database := (schema, []).
Definition world : Outside := silent_world 1000.

(** The empty table, and the table with the sample in it. *)
Lemma empty_ok : table_ok [].
Proof. repeat split; constructor. Defined.
Definition inserted : state database :=
  ({| tokens := [new_row sample_record sample_hash]; history := history schema |},
   [EvStore (SInsert sample_record sample_hash)]).
Lemma inserted_runs :
  store_insert (PostgresPatStore (O := world)) sample_record sample_hash start = (Ok tt, inserted).
Proof. vm_compute. reflexivity. Defined.
Lemma inserted_ok : table_ok (tokens (db inserted.1)).
Proof. repeat split; repeat constructor; set_solver. Defined.

(** A revocation by another owner leaves the token alone. *)
Lemma postgres_implements_map_witness :
  let O := world in
  ∃ s', store_do PostgresPatStore (SRevoke (pr_realm_issuer sample_record) (u "bob") 5) inserted
      = (Ok (ABool false), s') ∧
    view (tokens (db s'.1)) = revoke_record 1000000000 (pr_realm_issuer sample_record) (u "bob") 5
      <$> view (tokens (db inserted.1)).
Proof.
  intros O. eexists. split; [vm_compute; reflexivity|].
  refine (proj1 (proj2 (proj2 (postgres_implements_map (O := O)
    (SRevoke (pr_realm_issuer sample_record) (u "bob") 5) inserted (Ok (ABool false)) _ inserted_ok _)))).
  vm_compute. reflexivity.
Defined.

(** Revoked by its owner, then used: the revocation stays. *)
Definition revoked : state database :=
  Eval vm_compute in
  (store_revoke (PostgresPatStore (O := world)) (pr_realm_issuer sample_record) (u "alice") 5 inserted).2.

Lemma stored_tokens_immutable_witness :
  let O := world in
  ∃ y, st_view (S := PostgresPatStore) revoked.1 !! sample_hash = Some y ∧ evolves (stored sample_record) y.
Proof.
  intros O.
  assert (H : rtc (step PostgresPatStore) inserted revoked).
  { apply rtc_once. apply (step_call _ (SRevoke (pr_realm_issuer sample_record) (u "alice") 5) _
      (Ok (ABool true))). vm_compute. reflexivity. }
  destruct (stored_tokens_immutable PostgresPatStore inserted revoked) as [_ Hs].
  - exact inserted_ok.
  - exact H.
  - apply Hs. vm_compute. reflexivity.
Defined.

Lemma inserted_token_found_witness :
  let O := world in ∃ r, evolves (stored sample_record) r ∧ pr_owner_sub r = u "alice".
Proof.
  intros O.
  destruct (inserted_token_found PostgresPatStore sample_record sample_hash start inserted inserted
    (inserted.1, EvStore (SFindByHash sample_hash) :: inserted.2) (Some (stored sample_record)))
    as (r & Hr & He).
  - apply empty_ok.
  - apply inserted_runs.
  - reflexivity.
  - vm_compute. reflexivity.
  - exists r. split; [exact He|]. injection Hr as <-. reflexivity.
Defined.

Definition cast (t : pystr) : option Z := match py_int t with Ok v => Some v | Raise _ => None end.
Definition files : list pystr := [u "V1__personal_access_token.sql"; u "__init__.py"].

Lemma check_schema_guards_witness :
  let O := world in
  ∃ s', check_schema files cast start = (Ok tt, s') ∧ s' = (schema, [EvSchema]).
Proof.
  intros O. eexists. split; [vm_compute; reflexivity|].
  refine (proj1 (check_schema_guards files cast start (Ok tt) _ _)). vm_compute. reflexivity.
Defined.

(** A second file the database does not know yet. *)
Example schema_behind :
  let O := world in
  (check_schema (files ++ [u "V2__more.sql"]) cast start).1 =
    Raise (SchemaBehind (u "database schema is at version 1, this code needs 2; run the cimd-proxy-migrations image of the same release")).
Proof. vm_compute. reflexivity. Qed.
End PatStoreExamples.
