(* ===== verification/Keycloak.v ===== *)
(** * The calls to Keycloak ([keycloak.py])

    Introspection, the federated identity link and the JWT Authorization Grant.
    A subject is a text: introspection answers with one (RFC 7662).

    [admin_base_realm] says which issuers are Keycloak realms, and
    [ensure_link_spec] what linking an owner sends and when it succeeds. *)

From S2P Require Import Prelude PyStr Codec Json World Errors.

Definition JWT_BEARER : pystr := u "urn:ietf:params:oauth:grant-type:jwt-bearer".

Definition _admin_base (realm_issuer : pystr) : res pystr :=
  let '(base, sep, realm) := rpartition_str (u "/realms/") (rstrip_slash realm_issuer) in
  if negb sep || negb (truthy realm)
  then Raise (ValueError (repr realm_issuer ++ u " is not a Keycloak realm issuer"))
  else Ok (base ++ u "/admin/realms/" ++ realm).

(** What a realm issuer is: an address, ["/realms/"] and a name. *)
Definition realm_issuer_of (issuer : pystr) : Prop :=
  ∃ base realm, realm ≠ [] ∧ rstrip_slash issuer = base ++ u "/realms/" ++ realm.

Lemma admin_base_realm issuer : is_Ok (_admin_base issuer) = true ↔ realm_issuer_of issuer.
Proof.
  unfold _admin_base, realm_issuer_of. destruct (rpartition_str _ _) as [[b f] t] eqn:E.
  apply rpartition_str_spec in E; [|done]. destruct f; cbn [negb orb].
  - destruct t as [|c t]; cbn [truthy negb is_Ok].
    + split; [done|]. intros _. exfalso.
      pose proof (rstrip_by_last (N.eqb 47) issuer 47%N) as Hl. fold rstrip_slash in Hl.
      change (rstrip_by (N.eqb 47) issuer) with (rstrip_slash issuer) in Hl.
      rewrite E, app_nil_r, last_app in Hl. by specialize (Hl eq_refl).
    + split; [|done]. intros _. by exists b, (c :: t).
  - cbn [is_Ok]. split; [done|]. intros (base & realm & _ & H). by apply E in H.
Qed.

Lemma realm_issuer_rstrip issuer : realm_issuer_of (rstrip_slash issuer) ↔ realm_issuer_of issuer.
Proof. unfold realm_issuer_of, rstrip_slash. by setoid_rewrite rstrip_by_idemp. Qed.

(** The verified owner behind a management request. *)
Record Caller := {
  subject : pystr;
  username : json;
  organizations : list pystr
}.

Record KeycloakClient := {
  kc_issuer : pystr;
  kc_admin_base : pystr;
  kc_client_id : pystr;
  kc_client_secret : pystr;
  kc_idp_alias : pystr
}.

Definition new_keycloak (realm_issuer admin_client_id admin_client_secret idp_alias : pystr)
    : res KeycloakClient :=
  let issuer := rstrip_slash realm_issuer in
  admin_base ← _admin_base issuer;
  Ok {| kc_issuer := issuer; kc_admin_base := admin_base; kc_client_id := admin_client_id;
        kc_client_secret := admin_client_secret; kc_idp_alias := idp_alias |}.

Definition not_subscriptable : exn := TypeError (u "object is not subscriptable").

(** [v == text] for a value that may be missing. *)
Definition is_text (v : option json) (text : pystr) : bool :=
  match v with Some (JStr t) => bool_decide (t = text) | _ => false end.

(** The loop over the links: whether the owner is linked already. *)
Fixpoint linked (idp_alias subject : pystr) (links : list json) : res bool :=
  match links with
  | [] => Ok false
  | JObj link :: links' =>
      if is_text (dict_get link (u "identityProvider")) idp_alias then
        if negb (is_text (dict_get link (u "userId")) subject)
        then Raise (LinkConflict (u "the owner is linked to the token issuer under another id"))
        else Ok true
      else linked idp_alias subject links'
  | _ => Raise (AttributeError (u "object has no attribute 'get'"))
  end.

Section Keycloak.
Context `{O : Outside, FR : FloatRepr} {X : Type}.
Implicit Types (kc : KeycloakClient) (caller : Caller) (s : state X).

Definition unreachable {A} (exc : exn) : io X A :=
  match exc with
  | HTTPError name _ => raise (ServerError (u "upstream unreachable: " ++ name))
  | _ => raise exc
  end.

Definition _post (url : pystr) (form : dict json) (headers : dict pystr)
    (auth : option (pystr * pystr)) : io X http_response :=
  try_io (send (PostForm url form headers auth)) is_HTTPError unreachable.

Definition http_failed {A} (what : pystr) (r : http_response) : io X A :=
  raise (ServerError (what ++ u " failed with HTTP " ++ str_of_Z (rsp_status r))).

Definition introspect kc (access_token : pystr) : io X json :=
  r ← _post (token_url (kc_issuer kc) ++ u "/introspect")
    [(u "token", JStr access_token); (u "token_type_hint", JStr (u "access_token"))] []
    (Some (kc_client_id kc, kc_client_secret kc));
  if negb (rsp_status r =? 200) then http_failed (u "token introspection") r
  else lift (response_json r).

Definition _admin_token kc : io X json :=
  r ← _post (token_url (kc_issuer kc)) [(u "grant_type", JStr (u "client_credentials"))] []
    (Some (kc_client_id kc, kc_client_secret kc));
  if negb (rsp_status r =? 200) then http_failed (u "admin client login") r
  else
    body ← lift (response_json r);
    match body with
    | JObj d => match dict_get d (u "access_token") with
                | Some v => mret v
                | None => raise (KeyError (u "access_token"))
                end
    | _ => raise not_subscriptable
    end.

Definition links_url kc caller : pystr :=
  kc_admin_base kc ++ u "/users/" ++ subject caller ++ u "/federated-identity".

Definition link_body kc caller : json := JObj [
  (u "identityProvider", JStr (kc_idp_alias kc));
  (u "userId", JStr (subject caller));
  (u "userName", if py_truthy (username caller) then username caller else JStr (subject caller))].

(** The body of the [try]: the reply to the creation, or nothing to create. *)
Definition link_calls kc caller (headers : dict pystr) : io X (option http_response) :=
  existing ← send (Get (links_url kc caller) headers);
  if negb (rsp_status existing =? 200)
  then http_failed (u "reading the owner's identity links") existing
  else
    reply ← lift (response_json existing);
    links ← lift (py_iter reply);
    already ← lift (linked (kc_idp_alias kc) (subject caller) links);
    if already : bool then mret None
    else
      created ← send (PostJson (links_url kc caller ++ u "/" ++ kc_idp_alias kc) headers
                        (link_body kc caller));
      mret (Some created).

Definition ensure_link kc caller : io X unit :=
  token ← _admin_token kc;
  let headers := [(u "Authorization", u "Bearer " ++ py_str token)] in
  created ← try_io (link_calls kc caller headers) is_HTTPError unreachable;
  match created with
  | None => mret tt
  | Some r =>
      if bool_decide (rsp_status r ∈ [201; 204]) then mret tt
      else http_failed (u "linking the owner") r
  end.

Definition jwt_bearer_form (client_id client_secret assertion scope : pystr) : dict json :=
  let form := [
    (u "grant_type", JStr JWT_BEARER);
    (u "assertion", JStr assertion);
    (u "client_id", JStr client_id);
    (u "client_secret", JStr client_secret)] in
  if truthy scope then dict_set form (u "scope") (JStr scope) else form.

Definition jwt_bearer_grant kc (client_id client_secret assertion scope : pystr) : io X http_response :=
  _post (token_url (kc_issuer kc)) (jwt_bearer_form client_id client_secret assertion scope)
    [(u "Accept", u "application/json")] None.
End Keycloak.

(** ** Lemmas *)

Section KeycloakLemmas.
Context `{O : Outside, FR : FloatRepr} {X : Type}.
Implicit Types (kc : KeycloakClient) (caller : Caller) (s : state X).

(** One request, and its reply or a [server_error]. *)
Lemma post_run url form headers auth s r s' :
  _post url form headers auth s = (r, s') →
  let req := PostForm url form headers auth in
  s' = (s.1, EvHttp req :: s.2) ∧
  match r with Ok y => o_http s.2 req = inr y | Raise e => ∃ d, e = ServerError d end.
Proof.
  unfold _post, send. io_run. destruct (o_http s.2 _) as [[n m]|y] eqn:E; io_run; cbn [is_HTTPError].
  - intros [<- <-]%pair_eq. split; [done|]. by eexists.
  - by intros [<- <-]%pair_eq.
Qed.

Lemma keeps_post P url form headers auth :
  (∀ r, P (EvHttp r)) → keeps (X := X) P (_post url form headers auth).
Proof.
  intros HP s r s' H. apply post_run in H as [-> _]. split; [done|].
  exists [EvHttp (PostForm url form headers auth)]. auto.
Qed.

Lemma keeps_send P req : (∀ r, P (EvHttp r)) → keeps (X := X) P (send req).
Proof. intros HP. unfold send. keeps_tac. Qed.

Lemma keeps_introspect P kc token : (∀ r, P (EvHttp r)) → keeps (X := X) P (introspect kc token).
Proof. intros HP. unfold introspect, http_failed. keeps_tac; by apply keeps_post. Qed.

Lemma keeps_unreachable {A} P e : keeps (X := X) (A := A) P (unreachable e).
Proof. unfold unreachable. keeps_tac. Qed.

Lemma keeps_ensure_link P kc caller : (∀ r, P (EvHttp r)) → keeps (X := X) P (ensure_link kc caller).
Proof.
  intros HP. unfold ensure_link, _admin_token, link_calls, http_failed.
  keeps_tac; first [by apply keeps_post|by apply keeps_send|apply keeps_unreachable].
Qed.

(** The owner is linked exactly when the first link of the identity provider
    names the owner. *)
Lemma linked_true idp_alias sub links :
  linked idp_alias sub links = Ok true →
  ∃ link, JObj link ∈ links ∧ dict_get link (u "identityProvider") = Some (JStr idp_alias) ∧
    dict_get link (u "userId") = Some (JStr sub).
Proof.
  assert (Ht : ∀ v t, is_text v t = true → v = Some (JStr t)).
  { intros [[]|] t; try done. cbn. by intros ->%bool_decide_eq_true. }
  induction links as [|[| | | | | |link] links IH]; cbn [linked]; try done.
  destruct (is_text _ idp_alias) eqn:Hi.
  - destruct (is_text _ sub) eqn:Hs; [|done]. intros _. exists link.
    split; [by left|]. by split; apply Ht.
  - intros (l & ? & ?)%IH. exists l. split; [by right|done].
Qed.

Lemma linked_false idp_alias sub links :
  linked idp_alias sub links = Ok false →
  ∀ j, j ∈ links → ∃ link, j = JObj link ∧
    dict_get link (u "identityProvider") ≠ Some (JStr idp_alias).
Proof.
  induction links as [|[| | | | | |link] links IH]; cbn [linked]; try done.
  { by intros _ j ?%elem_of_nil. }
  destruct (is_text _ idp_alias) eqn:Hi; [by destruct (negb _)|].
  intros H j [->|Hj]%elem_of_cons; [|by apply IH]. exists link. split; [done|].
  intros E. rewrite E in Hi. cbn in Hi. by rewrite bool_decide_true in Hi.
Qed.

Lemma admin_token_run kc s r s' :
  _admin_token kc s = (r, s') →
  s' = (s.1, EvHttp (PostForm (token_url (kc_issuer kc))
    [(u "grant_type", JStr (u "client_credentials"))] [] (Some (kc_client_id kc, kc_client_secret kc))) :: s.2) ∧
  ∀ e, r = Raise e → is_HTTPError e = false.
Proof.
  unfold _admin_token. unfold mbind, io_bind. destruct (_post _ _ _ _ s) as [r1 s1] eqn:E.
  apply post_run in E as [-> Hr]. destruct r1 as [y|e].
  2: { destruct Hr as [d ->]. intros [<- <-]%pair_eq. split; [done|]. by intros e [= <-]. }
  destruct (negb _); unfold http_failed, response_json; io_run.
  { intros [<- <-]%pair_eq. split; [done|]. by intros e [= <-]. }
  destruct (rsp_json y) as [[| | | | | |d]|]; io_run;
    try (intros [<- <-]%pair_eq; split; [done|]; by intros e [= <-]).
  destruct (dict_get d _); io_run; intros [<- <-]%pair_eq; (split; [done|]); by intros e [= <-].
Qed.

(** Linking an owner.  When [ensure_link] returns, it logged in as the admin
    client, read the owner's own links, and either found one of the proxy's
    identity provider that names the owner as the owner, and sent nothing more;
    or found none of that provider and created exactly that link -- this
    provider, this owner -- which Keycloak acknowledged.  It never touches a
    link that names somebody else. *)
Theorem ensure_link_spec kc caller s s' :
  ensure_link kc caller s = (Ok tt, s') →
  ∃ headers existing reply links,
    let login := PostForm (token_url (kc_issuer kc))
      [(u "grant_type", JStr (u "client_credentials"))] [] (Some (kc_client_id kc, kc_client_secret kc)) in
    let read := Get (links_url kc caller) headers in
    let link := PostJson (links_url kc caller ++ u "/" ++ kc_idp_alias kc) headers (link_body kc caller) in
    let t := EvHttp read :: EvHttp login :: s.2 in
    o_http (EvHttp login :: s.2) read = inr existing ∧ rsp_status existing = 200 ∧
    rsp_json existing = Some reply ∧ py_iter reply = Ok links ∧
    ((s' = (s.1, t) ∧ ∃ l, JObj l ∈ links ∧
        dict_get l (u "identityProvider") = Some (JStr (kc_idp_alias kc)) ∧
        dict_get l (u "userId") = Some (JStr (subject caller))) ∨
     (s' = (s.1, EvHttp link :: t) ∧
        (∃ created, o_http t link = inr created ∧ rsp_status created ∈ [201; 204]) ∧
        ∀ j, j ∈ links → ∃ l, j = JObj l ∧
          dict_get l (u "identityProvider") ≠ Some (JStr (kc_idp_alias kc)))).
Proof.
  unfold ensure_link. intros H. apply run_bind_Ok in H as (tok & s1 & Ht & H).
  apply admin_token_run in Ht as [-> _]. cbv beta zeta in H.
  set (headers := [(u "Authorization", _)]) in H. apply run_bind_Ok in H as (created & s2 & Hc & H).
  apply run_try_Ok in Hc as [Hc|(e & s3 & _ & He & Hc)].
  2: { destruct e; try discriminate He. by apply pair_eq in Hc as [? _]. }
  revert Hc H. unfold link_calls, send, response_json. io_run. set (t := EvHttp _ :: s.2).
  destruct (o_http t (Get _ _)) as [[n m]|existing] eqn:E1; io_run; [done|].
  destruct (Z.eqb_spec (rsp_status existing) 200) as [E2|]; cbn [negb]; unfold http_failed; io_run; [|done].
  destruct (rsp_json existing) as [reply|] eqn:E3; io_run; [|done].
  destruct (py_iter reply) as [links|] eqn:E4; io_run; [|done].
  destruct (linked _ _ links) as [[]|] eqn:E5; io_run; [..|done].
  - intros [<-%Ok_inj <-]%pair_eq [_ <-]%pair_eq. exists headers, existing, reply, links.
    split_and!; try done. left. split; [done|]. by apply linked_true in E5.
  - destruct (o_http _ (PostJson _ _ _)) as [[n m]|c] eqn:E6; io_run; [done|].
    intros [<-%Ok_inj <-]%pair_eq. case_bool_decide as E7; io_run; [|done].
    intros [_ <-]%pair_eq. exists headers, existing, reply, links. split_and!; try done. right.
    split; [done|]. split; [by exists c|]. by eapply linked_false.
Qed.
End KeycloakLemmas.

(** ** An owner is linked *)
Module KeycloakExamples.
#[local] Instance no_floats : FloatRepr := id.

Definition kc : KeycloakClient := {|
  kc_issuer := u "https://kc.example/realms/r"; kc_admin_base := u "https://kc.example/admin/realms/r";
  kc_client_id := u "admin"; kc_client_secret := u "s"; kc_idp_alias := u "proxy" |}.
Definition alice : Caller := {|
  subject := u "alice-id"; username := JStr (u "alice"); organizations := [u "acme"] |}.
Definition kc_world : Outside := sample_world 1000 (λ _, GaiError)
  (λ r, match r with
        | Get _ _ => inr (HttpResponse 200 (Some (JArr [])))
        | PostJson _ _ _ => inr (HttpResponse 204 None)
        | _ => inr (HttpResponse 200 (Some (JObj [(u "access_token", JStr (u "at"))]))) end)
  (λ _, inl ([], [])).

Example new_keycloak_sample :
  new_keycloak (u "https://kc.example/realms/r/") (u "admin") (u "s") (u "proxy") = Ok kc.
Proof. vm_compute. reflexivity. Qed.

Lemma ensure_link_spec_witness :
  let O := kc_world in
  ∃ s', ensure_link kc alice ((tt, []) : state unit) = (Ok tt, s') ∧ length s'.2 = 3%nat ∧
    ∃ headers existing, o_http s'.2 (Get (links_url kc alice) headers) = inr existing ∧
      rsp_status existing = 200.
Proof.
  intros O. eexists. split; [vm_compute; reflexivity|]. split; [reflexivity|].
  destruct (ensure_link_spec (O := O) kc alice ((tt, []) : state unit) _ ltac:(vm_compute; reflexivity))
    as (headers & existing & reply & links & H & H200 & _).
  exists headers, existing. split; [exact H|exact H200].
Defined.
End KeycloakExamples.
