(* ===== verification/Pat.v ===== *)
(** * Personal access tokens ([pat.py])

    [PatService]: authenticating the owner, parsing and performing a creation,
    listing, revoking, and the exchange of a token for a short-lived one.  The
    service is written against the store's interface, and proved against its
    specification. *)

From S2P Require Import Prelude PyStr Codec Digest Json Datetime World Errors Logging UrlLib.
From S2P Require Import Uuid Assertion Config Token PatFormat PatStore Keycloak.

Definition ACCESS_TOKEN_TYPE : pystr := u "urn:ietf:params:oauth:token-type:access_token".
Definition DEFAULT_LIFETIME_DAYS : Z := 90.
Definition LONG_LIFETIME_DAYS : Z := 365.

Definition is_ManagementError (e : exn) : bool :=
  match e with ManagementError _ _ _ => true | _ => false end.
Definition is_LinkConflict (e : exn) : bool :=
  match e with LinkConflict _ => true | _ => false end.

Definition management_error (status_code : Z) (error description : string) : exn :=
  ManagementError status_code (u error) (u description).

Record CreateRequest := {
  cr_name : pystr;
  cr_resources : list pystr;
  cr_scopes : list pystr;
  cr_lifetime_days : Z;
  cr_allow_long_lifetime : bool;
  cr_organization : option pystr;
  cr_all_permitted_scopes : bool
}.

(** ** Pure helpers *)

Section Helpers.
Context `{FR : FloatRepr}.

(** [dict.fromkeys(l)]: each once, in the order of first appearance. *)
Fixpoint from_keys (seen l : list pystr) : list pystr :=
  match l with
  | [] => []
  | x :: l' => if bool_decide (x ∈ seen) then from_keys seen l' else x :: from_keys (x :: seen) l'
  end.

Definition nonempty_text (j : json) : option pystr :=
  match j with JStr (c :: s) => Some (c :: s) | _ => None end.

Definition _string_list (value : option json) (field : pystr) : res (list pystr) :=
  match value with
  | Some (JArr l) =>
      match mapM nonempty_text l with
      | Some texts => Ok (from_keys [] texts)
      | None => Raise (ManagementError 400 (u "invalid_request") (field ++ u " must be a list of strings"))
      end
  | _ => Raise (ManagementError 400 (u "invalid_request") (field ++ u " must be a list of strings"))
  end.

Definition _lifetime (body : dict json) : res (Z * bool) :=
  match dict_get_default body (u "expires_in_days") (JInt DEFAULT_LIFETIME_DAYS) with
  | JInt days =>
      if days <? 1 then Raise (management_error 400 "invalid_request" "expires_in_days must be >= 1")
      else
        match dict_get_default body (u "allow_long_lifetime") (JBool false) with
        | JBool long_ok =>
            if (LONG_LIFETIME_DAYS <? days) && negb long_ok
            then Raise (management_error 400 "invalid_request"
                          "a lifetime above 365 days needs allow_long_lifetime: true")
            else Ok (days, long_ok)
        | _ => Raise (management_error 400 "invalid_request" "allow_long_lifetime must be a boolean")
        end
  | _ => Raise (management_error 400 "invalid_request" "expires_in_days must be >= 1")
  end.

Definition _tenant_for (caller : Caller) (requested : option pystr) : res pystr :=
  match requested with
  | Some r =>
      if bool_decide (r ∈ organizations caller) then Ok r
      else Raise (management_error 403 "insufficient_scope" "the owner is not a member of that organization")
  | None =>
      match organizations caller with
      | [] => Raise (management_error 403 "organization_required"
          "a personal access token is bound to an organization, and the owner belongs to none")
      | [o] => Ok o
      | _ => Raise (management_error 400 "invalid_request"
          "the owner belongs to several organizations; name one in 'organization'")
      end
  end.

Definition _organizations (claim : option json) : list pystr :=
  match claim with
  | Some (JArr l) => py_str <$> l
  | Some (JObj d) => d.*1
  | Some (JStr s) => if truthy s then [s] else []
  | _ => []
  end.

Definition _scope_param (scopes : list pystr) (tenant : pystr) : pystr :=
  join (u " ") (scopes ++ [u "organization:" ++ tenant]).

Definition _json (response : http_response) : res (dict json) :=
  match rsp_json response with
  | None => Raise (ServerError (u "upstream token response is not valid JSON"))
  | Some (JObj d) => Ok d
  | Some _ => Raise (ServerError (u "upstream token response is not a JSON object"))
  end.

(** [str(payload.get(key, default))]. *)
Definition get_str (payload : dict json) (key : pystr) (dflt : string) : pystr :=
  py_str (dict_get_default payload key (JStr (u dflt))).

Definition _UpstreamRefusal (status_code : Z) (payload : dict json) : exn :=
  OAuthError (get_str payload (u "error") "server_error")
    (get_str payload (u "error_description") "")
    (if (400 <=? status_code) && (status_code <? 500) then status_code else 502).
End Helpers.

(** ** The service *)

Record PatService `{R : Rsa} (X : Type) := {
  ps_config : ProxyConfig;
  ps_pat : PatConfig;
  ps_store : PatStore X;
  ps_keycloak : KeycloakClient
}.
Arguments ps_config {R X}.
Arguments ps_pat {R X}.
Arguments ps_store {R X}.
Arguments ps_keycloak {R X}.

Definition new_service `{R : Rsa} {X} (config : ProxyConfig) (store : PatStore X)
    (keycloak : KeycloakClient) : res (PatService X) :=
  match pat config with
  | None => Raise (ValueError (u "personal access tokens are not configured"))
  | Some p => Ok {| ps_config := config; ps_pat := p; ps_store := store; ps_keycloak := keycloak |}
  end.

Section Service.
Context `{O : Outside, R : Rsa, FR : FloatRepr} {X : Type}.
Implicit Types (svc : PatService X) (caller : Caller) (s : state X).

(** *** Management *)

Definition no_method (name : string) : exn := AttributeError (u "object has no attribute '" ++ u name ++ u "'").

(** The claims of an introspection reply that name the owner. *)
Definition caller_of svc (claims : dict json) : res Caller :=
  let get k := dict_get claims (u k) in
  let holds k := py_truthy (default JNull (get k)) in
  if negb (holds "active"%string)
  then Raise (management_error 401 "invalid_token" "the bearer token is not active")
  else
    match dict_get_default claims (u "iss") (JStr []) with
    | JStr iss =>
        if negb (bool_decide (rstrip_slash iss = pc_realm_issuer (ps_pat svc)))
        then Raise (management_error 401 "invalid_token" "the bearer token is from another realm")
        else if negb (is_text (get "typ"%string) (u "Bearer")) || negb (holds "sub"%string)
        then Raise (management_error 401 "invalid_token" "the bearer token is not an access token")
        else if negb (holds "sid"%string)
        then Raise (management_error 403 "insufficient_scope"
                      "managing tokens needs a token from an interactive sign-in")
        else
          match get "sub"%string with
          | Some (JStr sub) =>
              Ok {| subject := sub;
                    username := dict_get_default claims (u "preferred_username") (JStr []);
                    organizations := _organizations (get "organization"%string) |}
          | _ => Raise (TypeError (u "sub is not a string"))
          end
    | _ => Raise (no_method "rstrip")
    end.

Definition authenticate svc (authorization : option pystr) : io X Caller :=
  let '(scheme, _, credential) := partition 32 (default [] authorization) in
  if negb (bool_decide (lower scheme = u "bearer")) || negb (truthy (strip credential))
  then raise (management_error 401 "invalid_token" "a bearer token is required")
  else
    well_formed ← lift (is_well_formed (strip credential));
    if well_formed : bool
    then raise (management_error 403 "insufficient_scope"
                  "a personal access token cannot manage tokens; sign in interactively")
    else
      claims ← introspect (ps_keycloak svc) (strip credential);
      match claims with
      | JObj d => lift (caller_of svc d)
      | _ => raise (no_method "get")
      end.

Definition check_pat_resource svc (url : pystr) : res unit :=
  entry ← resource_by_url (ps_config svc) url;
  match entry with
  | Some e => if accepts_pat e then Ok tt
              else Raise (ManagementError 400 (u "invalid_target")
                     (u "resource " ++ repr url ++ u " does not accept personal tokens"))
  | None => Raise (ManagementError 400 (u "invalid_target")
                     (u "resource " ++ repr url ++ u " does not accept personal tokens"))
  end.

Definition canonical_url svc (url : pystr) : res pystr :=
  entry ← resource_by_url (ps_config svc) url;
  match entry with
  | Some e => Ok (re_url e)
  | None => Raise (AttributeError (u "'NoneType' object has no attribute 'url'"))
  end.

Definition parse_create svc (body : json) : res CreateRequest :=
  match body with
  | JObj d =>
      match dict_get d (u "name") with
      | Some (JStr name) =>
          if (length (strip name) <? 1)%nat || (100 <? length (strip name))%nat
          then Raise (management_error 400 "invalid_request" "name must be 1 to 100 characters")
          else
            resources ← _string_list (dict_get d (u "resources")) (u "resources");
            if bool_decide (resources = [])
            then Raise (management_error 400 "invalid_request" "resources must name at least one")
            else
              _ ← for_each (check_pat_resource svc) resources;
              scopes ← _string_list (Some (dict_get_default d (u "scopes") (JArr []))) (u "scopes");
              let outside := List.filter (λ x, negb (bool_decide (x ∈ pc_scopes (ps_pat svc)))) scopes in
              if negb (bool_decide (outside = []))
              then Raise (ManagementError 400 (u "invalid_scope")
                     (u "scopes not offered for personal tokens: " ++ repr_list outside))
              else
                match dict_get_default d (u "all_permitted_scopes") (JBool false) with
                | JBool all_permitted =>
                    if all_permitted && negb (bool_decide (scopes = []))
                    then Raise (management_error 400 "invalid_request"
                           "name scopes or ask for all_permitted_scopes, not both")
                    else
                      '(days, long_ok) ← _lifetime d;
                      organization ← match dict_get_default d (u "organization") JNull with
                        | JNull => Ok None
                        | JStr o => Ok (Some o)
                        | _ => Raise (management_error 400 "invalid_request" "organization must be a string")
                        end;
                      urls ← map_res (canonical_url svc) resources;
                      Ok {| cr_name := strip name; cr_resources := urls; cr_scopes := scopes;
                            cr_lifetime_days := days; cr_allow_long_lifetime := long_ok;
                            cr_organization := organization;
                            cr_all_permitted_scopes := all_permitted |}
                | _ => Raise (management_error 400 "invalid_request" "all_permitted_scopes must be a boolean")
                end
      | _ => Raise (management_error 400 "invalid_request" "name must be 1 to 100 characters")
      end
  | _ => Raise (management_error 400 "invalid_request" "the body must be a JSON object")
  end.

Definition _entry svc (url : pystr) : res ResourceEntry :=
  entry ← resource_by_url (ps_config svc) url;
  match entry with
  | Some e => Ok e
  | None => Raise (ServerError (u "resource " ++ repr url ++ u " is not configured"))
  end.

(** The set of granted scopes, as a list. *)
Definition _trial_exchange svc caller (entry : ResourceEntry) (scopes : list pystr) (tenant : pystr)
    : io X (list pystr) :=
  assertion ← sign (pc_signer (ps_pat svc)) (subject caller) (re_issuer entry) MAX_ASSERTION_LIFETIME;
  response ← jwt_bearer_grant (ps_keycloak svc) (re_pat_client_id entry) (re_pat_client_secret entry)
    assertion (_scope_param scopes tenant);
  payload ← lift (_json response);
  if negb (rsp_status response =? 200)
  then raise (ManagementError 502 (u "server_error")
         (u "the token issuer refused a trial exchange for " ++ repr (re_url entry) ++ u ": "
          ++ py_str (dict_get_default payload (u "error") JNull) ++ u ": "
          ++ py_str (dict_get_default payload (u "error_description") JNull)))
  else mret (split_words (get_str payload (u "scope") "")).

Definition not_in (granted : list pystr) (x : pystr) : bool := negb (bool_decide (x ∈ granted)).

(** The loop for a named set: granted whole at every resource. *)
Definition trial_named svc caller (tenant : pystr) (scopes : list pystr) (url : pystr) : io X unit :=
  entry ← lift (_entry svc url);
  granted ← _trial_exchange svc caller entry scopes tenant;
  let missing := List.filter (not_in granted) scopes in
  if negb (bool_decide (missing = []))
  then raise (ManagementError 403 (u "insufficient_scope")
         (u "the owner may not carry " ++ repr_list missing ++ u " at " ++ repr url))
  else mret tt.

(** The loop for [all_permitted_scopes]: what every resource granted. *)
Fixpoint trial_all svc caller (tenant : pystr) (urls permitted : list pystr) : io X (list pystr) :=
  match urls with
  | [] => mret permitted
  | url :: urls' =>
      entry ← lift (_entry svc url);
      granted ← _trial_exchange svc caller entry permitted tenant;
      trial_all svc caller tenant urls' (List.filter (λ x, bool_decide (x ∈ granted)) permitted)
  end.

Definition _granted_scopes svc caller (request : CreateRequest) (tenant : pystr) : io X (list pystr) :=
  if negb (cr_all_permitted_scopes request) then
    _ ← for_io (trial_named svc caller tenant (cr_scopes request)) (cr_resources request);
    mret (cr_scopes request)
  else
    permitted ← trial_all svc caller tenant (cr_resources request) (pc_scopes (ps_pat svc));
    if bool_decide (permitted = [])
    then raise (management_error 403 "insufficient_scope"
                  "the owner may carry none of the scopes offered for personal tokens")
    else mret permitted.

Definition create svc caller (request : CreateRequest) : io X (PatRecord * pystr) :=
  tenant ← lift (_tenant_for caller (cr_organization request));
  _ ← try_io (ensure_link (ps_keycloak svc) caller) is_LinkConflict
        (λ exc, raise (ManagementError 409 (u "link_conflict") (str_exn exc)));
  scopes ← _granted_scopes svc caller request tenant;
  now ← utc_now;
  id ← uuid4;
  expires ← lift (add_days (at_utc now) (cr_lifetime_days request));
  let record := {|
    pr_id := id; pr_tenant := tenant; pr_realm_issuer := pc_realm_issuer (ps_pat svc);
    pr_owner_sub := subject caller; pr_name := cr_name request; pr_resources := cr_resources request;
    pr_scopes := scopes; pr_created_at := at_utc now; pr_expires_at := expires;
    pr_last_used_at := None; pr_revoked_at := None |} in
  token ← generate;
  hash ← lift (token_hash token);
  _ ← store_insert (ps_store svc) record hash;
  _ ← log INFO [(u "event", JStr (u "pat.created")); (u "pat_id", JStr (str_uuid id));
                (u "tenant", JStr tenant)];
  mret (record, token).

Definition list_own svc caller : io X (list PatRecord) :=
  store_list_for_owner (ps_store svc) (pc_realm_issuer (ps_pat svc)) (subject caller).

Definition not_found : exn := management_error 404 "not_found" "no such token".

Definition revoke svc caller (token_id : pystr) : io X unit :=
  parsed ← lift (try_except (parse_uuid token_id) is_ValueError (λ _, Raise not_found));
  done ← store_revoke (ps_store svc) (pc_realm_issuer (ps_pat svc)) (subject caller) parsed;
  if negb done then raise not_found
  else log INFO [(u "event", JStr (u "pat.revoked")); (u "pat_id", JStr (str_uuid parsed))].

(** *** Exchange *)

Definition resolve_named svc (record : PatRecord) (resource : pystr) : res ResourceEntry :=
  entry ← resource_by_url (ps_config svc) resource;
  match entry with
  | None => Raise (InvalidTarget (u "the personal access token does not name this resource"))
  | Some e =>
      if negb (bool_decide (re_url e ∈ pr_resources record))
      then Raise (InvalidTarget (u "the personal access token does not name this resource"))
      else if negb (accepts_pat e) || negb (bool_decide (re_issuer e = pr_realm_issuer record))
      then Raise (InvalidTarget (u "this resource no longer accepts personal access tokens"))
      else Ok e
  end.

Definition _resolve_resource svc (record : PatRecord) (resource : option pystr) : res ResourceEntry :=
  match resource with
  | Some r => resolve_named svc record r
  | None =>
      match pr_resources record with
      | [r] => resolve_named svc record r
      | _ => Raise (InvalidTarget (u "resource is required: the token names more than one"))
      end
  end.

(** The checks on the row, in their order; [now] is read before them. *)
Definition check_record svc (record : PatRecord) (now : datetime) : res unit :=
  if negb (bool_decide (pr_revoked_at record = None))
  then Raise (InvalidGrant (u "the personal access token is revoked"))
  else if dt_leb (pr_expires_at record) now
  then Raise (InvalidGrant (u "the personal access token is expired"))
  else if negb (bool_decide (pr_realm_issuer record = pc_realm_issuer (ps_pat svc)))
  then Raise (InvalidGrant (u "the personal access token belongs to another realm"))
  else if negb (truthy (pr_tenant record))
  then Raise (InvalidGrant (u "the personal access token is not bound to an organization"))
  else Ok tt.

(** The checks on the parameters, before the database is asked. *)
Definition check_params (subject_token subject_token_type requested_token_type : option pystr)
    : res pystr :=
  match subject_token with
  | Some (c :: t) =>
      if negb (bool_decide (subject_token_type = Some ACCESS_TOKEN_TYPE))
      then Raise (InvalidRequest (u "subject_token_type must be " ++ ACCESS_TOKEN_TYPE))
      else if negb (bool_decide (requested_token_type ∈ [None; Some ACCESS_TOKEN_TYPE]))
      then Raise (InvalidRequest (u "requested_token_type must be " ++ ACCESS_TOKEN_TYPE))
      else
        well_formed ← is_well_formed (c :: t);
        if negb well_formed
        then Raise (InvalidGrant (u "subject_token is not a valid personal access token"))
        else Ok (c :: t)
  | _ => Raise (InvalidRequest (u "missing subject_token"))
  end.

(** What is left of the upstream's payload for the agent. *)
Definition short_token (payload : dict json) : dict json :=
  dict_set (dict_pop (dict_pop payload (u "refresh_token")) (u "refresh_expires_in"))
    (u "issued_token_type") (JStr ACCESS_TOKEN_TYPE).

(** The grant, and what becomes of its reply. *)
Definition present svc (record : PatRecord) (entry : ResourceEntry) (now : Z) (assertion : pystr)
    : io X (dict json) :=
  response ← jwt_bearer_grant (ps_keycloak svc) (re_pat_client_id entry)
    (re_pat_client_secret entry) assertion (_scope_param (pr_scopes record) (pr_tenant record));
  payload ← lift (_json response);
  if negb (rsp_status response =? 200) then
    _ ← log INFO [(u "event", JStr (u "pat.exchange_refused_upstream"));
          (u "pat_id", JStr (str_uuid (pr_id record)));
          (u "status_code", JInt (rsp_status response));
          (u "error", dict_get_default payload (u "error") JNull)];
    raise (_UpstreamRefusal (rsp_status response) payload)
  else
    let dropped := match dict_get payload (u "refresh_token") with
                   | None | Some JNull => false | Some _ => true end in
    _ ← store_touch (ps_store svc) (pr_id record) (at_utc now);
    _ ← log INFO [(u "event", JStr (u "pat.exchanged"));
          (u "pat_id", JStr (str_uuid (pr_id record)));
          (u "resource", JStr (re_url entry));
          (u "refresh_token_dropped", JBool dropped);
          (u "expires_in", dict_get_default (short_token payload) (u "expires_in") JNull)];
    mret (short_token payload).

Definition pat_exchange svc (subject_token subject_token_type requested_token_type resource : option pystr)
    : io X (dict json) :=
  token ← lift (check_params subject_token subject_token_type requested_token_type);
  hash ← lift (token_hash token);
  found ← store_find_by_hash (ps_store svc) hash;
  match found with
  | None => raise (InvalidGrant (u "subject_token is not a valid personal access token"))
  | Some record =>
      now ← utc_now;
      _ ← lift (check_record svc record (at_utc now));
      entry ← lift (_resolve_resource svc record resource);
      assertion ← sign (pc_signer (ps_pat svc)) (pr_owner_sub record) (re_issuer entry)
        MAX_ASSERTION_LIFETIME;
      present svc record entry now assertion
  end.

(** The service as the token endpoint sees it. *)
Definition exchange_service svc : ExchangeService X := {| exchange := pat_exchange svc |}.
End Service.

(** ** A service to run *)
Module PatSamples.
#[export] Instance no_floats : FloatRepr := id.
#[export] Existing Instance AssertionExamples.toy_rsa.
#[export] Existing Instance PatStoreExamples.only_db.

(** The upstream answers the grant with what was asked for, and knows the owner. *)
Definition issued : dict json :=
  [(u "access_token", JStr (u "at")); (u "token_type", JStr (u "Bearer"));
   (u "refresh_token", JStr (u "rt")); (u "scope", JStr (u "read write organization:acme"))].
Definition claims : dict json :=
  [(u "active", JBool true); (u "iss", JStr (u "https://kc.example/realms/main"));
   (u "typ", JStr (u "Bearer")); (u "sub", JStr (u "alice-id")); (u "sid", JStr (u "session"));
   (u "preferred_username", JStr (u "alice")); (u "organization", JArr [JStr (u "acme")])].
Definition answers (r : http_request) : (pystr * pystr) + http_response :=
  match r with
  | PostForm url _ _ _ =>
      if bool_decide (url = u "https://kc.example/realms/main/protocol/openid-connect/token/introspect")
      then inr (HttpResponse 200 (Some (JObj claims)))
      else inr (HttpResponse 200 (Some (JObj issued)))
  | PostJson _ _ _ => inr (HttpResponse 204 None)
  | _ => inr (HttpResponse 200 (Some (JArr [])))
  end.
#[export] Instance pat_world : Outside := sample_world 1000 (λ _, GaiError) answers (λ _, inl ([], [])).

Definition config : ProxyConfig := ConfigExamples.sample_config.
Definition keycloak : KeycloakClient := {|
  kc_issuer := u "https://kc.example/realms/main";
  kc_admin_base := u "https://kc.example/admin/realms/main";
  kc_client_id := u "admin"; kc_client_secret := u "admin-secret"; kc_idp_alias := u "proxy" |}.

Definition no_pat : PatConfig := {|
  pc_database_url := []; pc_database_schema := []; pc_realm_issuer := []; pc_idp_alias := [];
  pc_admin_client_id := []; pc_admin_client_secret := []; pc_scopes := [];
  pc_signer := {| signer_issuer := []; signer_keys := []; active_kid := [] |} |}.
Definition svc : PatService database := {|
  ps_config := config; ps_pat := default no_pat (pat config); ps_store := PostgresPatStore;
  ps_keycloak := keycloak |}.
#[export] Instance svc_spec : PatStoreSpec (ps_store svc) := postgres_spec.
Example svc_made : new_service config PostgresPatStore keycloak = Ok svc.
Proof. vm_compute. reflexivity. Qed.

(** A token in the table, until second 2000. *)
Definition sample_token : pystr := Eval vm_compute in PatFormatExamples.sample.
Definition hash : bytes := Eval vm_compute in sha256 sample_token.
Definition stored_row : row := {|
  row_id := 5; row_tenant := u "acme"; row_realm_issuer := u "https://kc.example/realms/main";
  row_owner_sub := u "alice-id"; row_name := u "ci"; row_token_hash := hash;
  row_resources := [u "https://r0.example"]; row_scopes := [u "read"];
  row_created_at := 900000000; row_expires_at := 2000000000;
  row_last_used_at := None; row_revoked_at := None |}.
Definition with_token : state database :=
  ({| tokens := [stored_row]; history := history PatStoreExamples.schema |}, []).
Definition empty_table : state database := (PatStoreExamples.schema, []).

Lemma with_token_ok : table_ok (tokens (db with_token.1)).
Proof. repeat split; repeat constructor; set_solver. Defined.
Definition alice : Caller := {|
  subject := u "alice-id"; username := JStr (u "alice"); organizations := [u "acme"] |}.
End PatSamples.
