(* ===== verification/PatExchange.v ===== *)
(** * The token exchange, proved

    [exchange_entitled]: what a token has to be for the upstream to be asked,
    and what is asked, to the words of the scope.  [exchange_refuses]: the errors, in their order.
    [revoked_token_is_dead] and [used_token_recorded] tie the exchange to the
    store; all of it holds for any store that meets [PatStoreSpec]. *)

From S2P Require Import Prelude PyStr Codec Digest Json Datetime World Errors UrlLib.
From S2P Require Import Uuid Assertion Config Token PatFormat PatStore Keycloak Pat.

(** An event that sends nothing over HTTP. *)
Definition no_request (e : event) : Prop := is_http e = false.

Lemma keeps_sign `{O : Outside, R : Rsa} {X} signer sub aud lifetime :
  keeps (X := X) no_request (sign signer sub aud lifetime).
Proof. unfold sign, uuid4. keeps_tac. Qed.

Lemma check_params_Ok st stt rtt token :
  check_params st stt rtt = Ok token ↔
  st = Some token ∧ token ≠ [] ∧ stt = Some ACCESS_TOKEN_TYPE ∧
  (rtt = None ∨ rtt = Some ACCESS_TOKEN_TYPE) ∧ is_well_formed token = Ok true.
Proof.
  unfold check_params. destruct st as [[|c t]|].
  { split; [done|]. by intros ([= <-] & ? & _). }
  2: { split; [done|]. by intros [? _]. }
  split.
  - repeat case_bool_decide; cbn [negb]; try done.
    destruct (is_well_formed (c :: t)) as [[]|] eqn:E; cbn; try done.
    intros <-%Ok_inj. split_and!; try done. set_solver.
  - intros ([= <-] & _ & -> & Hr & E). rewrite bool_decide_true by done. cbn [negb].
    rewrite bool_decide_true by (destruct Hr as [->| ->]; set_solver). cbn [negb]. by rewrite E.
Qed.

Lemma check_record_Ok `{R : Rsa} {X} (svc : PatService X) record now :
  check_record svc record now = Ok tt ↔
  pr_revoked_at record = None ∧ dt_instant now < dt_instant (pr_expires_at record) ∧
  pr_realm_issuer record = pc_realm_issuer (ps_pat svc) ∧ pr_tenant record ≠ [].
Proof.
  unfold check_record, dt_leb, truthy.
  repeat case_bool_decide; cbn [negb]; destruct (Z.leb_spec (dt_instant (pr_expires_at record)) (dt_instant now));
    destruct (pr_tenant record); cbn; try naive_solver lia.
Qed.

Section Resolve.
Context `{R : Rsa} {X : Type}.
Implicit Types (svc : PatService X).

(** The resource a token is exchanged for: a configured one that the record
    names, that still accepts tokens and belongs to the record's realm. *)
Definition resolves svc (record : PatRecord) (resource : option pystr) (e : ResourceEntry) : Prop :=
  (∃ r, (resource = Some r ∨ resource = None ∧ pr_resources record = [r]) ∧
        resource_by_url (ps_config svc) r = Ok (Some e)) ∧
  e ∈ resources (ps_config svc) ∧ re_url e ∈ pr_resources record ∧
  accepts_pat e = true ∧ re_issuer e = pr_realm_issuer record.

Lemma resolve_named_Ok svc record r e :
  resolve_named svc record r = Ok e →
  resource_by_url (ps_config svc) r = Ok (Some e) ∧ e ∈ resources (ps_config svc) ∧
  re_url e ∈ pr_resources record ∧ accepts_pat e = true ∧ re_issuer e = pr_realm_issuer record.
Proof.
  unfold resolve_named. destruct (resource_by_url _ r) as [[e'|]|] eqn:E; try done. cbn [mbind res_bind].
  case_bool_decide; cbn [negb]; [|done]. destruct (accepts_pat e') eqn:Ha; cbn [negb orb]; [|done].
  case_bool_decide; cbn [negb]; [|done]. intros [= <-]. split_and!; try done.
  by eapply resource_by_url_In.
Qed.

Lemma resolve_Ok svc record resource e :
  _resolve_resource svc record resource = Ok e → resolves svc record resource e.
Proof.
  unfold _resolve_resource, resolves. destruct resource as [r|].
  - intros H%resolve_named_Ok. destruct H as (?&?&?&?&?). split_and!; try done. exists r. eauto.
  - destruct (pr_resources record) as [|r [|]] eqn:Er; [done| |done].
    intros H%resolve_named_Ok. rewrite Er in H. destruct H as (?&?&?&?&?). split_and!; try done. exists r. eauto.
Qed.

Lemma resolve_named_intro svc record r e :
  resource_by_url (ps_config svc) r = Ok (Some e) → re_url e ∈ pr_resources record →
  accepts_pat e = true → re_issuer e = pr_realm_issuer record →
  _resolve_resource svc record (Some r) = Ok e.
Proof.
  intros E Hu Ha Hi. unfold _resolve_resource, resolve_named. rewrite E. cbn [mbind res_bind].
  by rewrite !bool_decide_true, Ha by done.
Qed.

(** The lookup fails with an OAuth error of status 400, or [urlsplit] does. *)
Lemma resolve_raises svc record resource e :
  _resolve_resource svc record resource = Raise e →
  (∃ d, e = InvalidTarget d) ∨ value_error e.
Proof.
  assert (Hn : ∀ r, resolve_named svc record r = Raise e → (∃ d, e = InvalidTarget d) ∨ value_error e).
  { intros r. unfold resolve_named, resource_by_url, _normalise_requested_url.
    destruct (truthy r); cbn [negb].
    - destruct (urlsplit r) as [parts|e1] eqn:E; cbn [mbind res_bind].
      + match goal with |- context [if ?b then Ok (urlunsplit _) else _] => destruct b end; cbn [mbind res_bind];
          repeat case_match; intros E'; first [discriminate E'|injection E' as <-; left; by eexists].
      + intros [= <-]. right. by eapply urlsplit_raises.
    - cbn [mbind res_bind]. repeat case_match; intros E'; first [discriminate E'|injection E' as <-; left; by eexists]. }
  unfold _resolve_resource. destruct resource as [r|]; [by apply Hn|].
  destruct (pr_resources record) as [|r [|]]; [|by apply Hn|]; intros [= <-]; left; by eexists.
Qed.
End Resolve.

(** ** The run of an exchange *)

Section Exchange.
Context `{O : Outside, R : Rsa, FR : FloatRepr} {X : Type}.
Implicit Types (svc : PatService X) (s : state X).

(** The trace when the clock is read: after the lookup. *)
Definition looked_up (hash : bytes) (t : trace) : trace := EvStore (SFindByHash hash) :: t.

(** The token a request may exchange, when the lookup answers from [v]. *)
Definition exchangeable svc (v : pats) (t : trace) (subject_token subject_token_type
    requested_token_type resource : option pystr) (token : pystr) (record : PatRecord)
    (entry : ResourceEntry) : Prop :=
  subject_token = Some token ∧ subject_token_type = Some ACCESS_TOKEN_TYPE ∧
  (requested_token_type = None ∨ requested_token_type = Some ACCESS_TOKEN_TYPE) ∧
  is_well_formed token = Ok true ∧ v !! sha256 token = Some record ∧
  pr_revoked_at record = None ∧
  o_now (looked_up (sha256 token) t) < dt_instant (pr_expires_at record) ∧
  pr_realm_issuer record = pc_realm_issuer (ps_pat svc) ∧ pr_tenant record ≠ [] ∧
  resolves svc record resource entry.

(** The grant an exchange asks the upstream for. *)
Definition grant_request svc (record : PatRecord) (entry : ResourceEntry) (assertion : pystr) : http_request :=
  PostForm (token_url (kc_issuer (ps_keycloak svc)))
    (jwt_bearer_form (re_pat_client_id entry) (re_pat_client_secret entry) assertion
       (_scope_param (pr_scopes record) (pr_tenant record)))
    [(u "Accept", u "application/json")] None.

Lemma token_hash_well_formed token :
  is_well_formed token = Ok true → token_hash token = Ok (sha256 token).
Proof.
  intros H%well_formed_ascii. unfold token_hash, encode_ascii. by rewrite H.
Qed.

(** An exchange that asked the upstream, and what came of it. *)
Definition asked svc `{P : !PatStoreSpec (ps_store svc)} (st stt rtt resource : option pystr) s
    (r : res (dict json)) (s' : state X) : Prop :=
  ∃ token record entry assertion s1 t2,
    let hash := sha256 token in
    let req := grant_request svc record entry assertion in
    exchangeable svc (st_view s.1) s.2 st stt rtt resource token record entry ∧
    s1.2 = EvNow :: looked_up hash s.2 ∧
    sign (pc_signer (ps_pat svc)) (pr_owner_sub record) (re_issuer entry) 60 s1 = (Ok assertion, (s1.1, t2)) ∧
    (∃ new, t2 = new ++ s1.2 ∧ Forall no_request new) ∧
    (∃ after, s'.2 = after ++ EvHttp req :: t2 ∧ Forall no_request after) ∧
    ∀ payload, r = Ok payload →
      ∃ reply d, o_http t2 req = inr reply ∧ rsp_status reply = 200 ∧ rsp_json reply = Some (JObj d) ∧
        payload = short_token d ∧
        st_view s'.1 = touch_record (pr_id record) (at_utc (o_now (looked_up hash s.2))) <$> st_view s.1.

(** An exchange that asked nobody. *)
Definition unasked svc `{P : !PatStoreSpec (ps_store svc)} s (r : res (dict json)) (s' : state X) : Prop :=
  (∃ e, r = Raise e) ∧ st_view s'.1 = st_view s.1 ∧ ∃ new, s'.2 = new ++ s.2 ∧ Forall no_request new.

(** After the signature: one request, and what is done with the reply. *)
Lemma asked_upstream svc `{P : !PatStoreSpec (ps_store svc)} record entry assertion now (x0 : X) t r s' :
  let req := grant_request svc record entry assertion in
  present svc record entry now assertion (x0, t) = (r, s') →
  st_inv x0 →
  st_inv s'.1 ∧ (∃ after, s'.2 = after ++ EvHttp req :: t ∧ Forall no_request after) ∧
  ∀ payload, r = Ok payload →
    ∃ reply d, o_http t req = inr reply ∧ rsp_status reply = 200 ∧ rsp_json reply = Some (JObj d) ∧
      payload = short_token d ∧
      st_view s'.1 = touch_record (pr_id record) (at_utc now) <$> st_view x0.
Proof.
  intros req H Hi. revert H. unfold present, jwt_bearer_grant. unfold mbind at 1, io_bind at 1.
  destruct (_post _ _ _ _ (x0, t)) as [rp s4] eqn:Epost.
  apply post_run in Epost as [-> Hrp]. cbn [fst snd] in *. fold (grant_request svc record entry assertion) in *.
  change (PostForm _ _ _ _) with req in *.
  destruct rp as [reply|e]; [|intros [<- <-]%pair_eq; split; [done|]; split; [by exists []|done]].
  unfold _json. destruct (rsp_json reply) as [[| | | | | |d]|] eqn:Ej; io_run;
    try (intros [<- <-]%pair_eq; split; [done|]; split; [by exists []|done]).
  destruct (Z.eqb_spec (rsp_status reply) 200) as [E200|]; cbn [negb]; io_run.
  2: { intros [<- <-]%pair_eq. split; [done|]. split; [|done]. eexists [_]. split; [done|].
       by repeat constructor. }
  destruct (store_touch _ _ _ _) as [rt s5] eqn:Et.
  destruct (do_touch _ _ _ _ _ _ Et Hi) as (Hi5 & Ht5 & Hv5). cbn [fst snd] in Ht5, Hv5.
  destruct rt as [[]|e]; intros [<- <-]%pair_eq; cbn [fst snd]; rewrite ?Ht5; (split; [done|]); split.
  - eexists [_; _]. split; [done|]. by repeat constructor.
  - intros payload <-%Ok_inj. by exists reply, d.
  - eexists [_]. split; [done|]. by repeat constructor.
  - done.
Qed.

Lemma exchange_run svc `{P : !PatStoreSpec (ps_store svc)} st stt rtt resource s r s' :
  st_inv s.1 → pat_exchange svc st stt rtt resource s = (r, s') →
  st_inv s'.1 ∧ (unasked svc s r s' ∨ asked svc st stt rtt resource s r s').
Proof.
  intros Hinv. unfold pat_exchange.
  assert (Hno : ∀ s1 e new, st_inv s1.1 → st_view s1.1 = st_view s.1 → s1.2 = new ++ s.2 →
    Forall no_request new → st_inv s1.1 ∧ (unasked svc s (Raise e) s1 ∨ asked svc st stt rtt resource s (Raise e) s1)).
  { intros s1 e new Hi Hv Ht Hq. split; [done|]. left. split; [by eexists|]. split; [done|]. by exists new. }
  destruct (check_params st stt rtt) as [token|e] eqn:Ep; io_run.
  2: { intros [<- <-]%pair_eq. by apply (Hno s e []). }
  apply check_params_Ok in Ep as (-> & Hne & -> & Hrtt & Hwf).
  rewrite (token_hash_well_formed _ Hwf). io_run.
  destruct (store_find_by_hash _ _ s) as [rf s1] eqn:Ef.
  destruct (do_find _ _ _ _ _ Ef Hinv) as (Hi1 & Ht1 & Hv1 & Hf).
  assert (Hq1 : Forall no_request [EvStore (SFindByHash (sha256 token))]) by by repeat constructor.
  destruct rf as [found|e]; [|intros [<- <-]%pair_eq; by apply (Hno s1 _ [EvStore (SFindByHash (sha256 token))])].
  destruct found as [record|]; io_run; [|intros [<- <-]%pair_eq; by apply (Hno s1 _ [EvStore (SFindByHash (sha256 token))])].
  rewrite Ht1. change (EvStore (SFindByHash (sha256 token)) :: s.2) with (looked_up (sha256 token) s.2).
  set (now := o_now _). set (s2 := (s1.1, EvNow :: looked_up (sha256 token) s.2)).
  assert (Hq2 : Forall no_request [EvNow; EvStore (SFindByHash (sha256 token))]) by by repeat constructor.
  destruct (check_record svc record (at_utc now)) as [[]|e] eqn:Ec; io_run.
  2: { intros [<- <-]%pair_eq. by apply (Hno s2 _ [EvNow; EvStore (SFindByHash (sha256 token))]). }
  apply check_record_Ok in Ec as (Hrev & Hexp & Hrealm & Hten).
  destruct (_resolve_resource svc record resource) as [entry|e] eqn:Er; io_run.
  2: { intros [<- <-]%pair_eq. by apply (Hno s2 _ [EvNow; EvStore (SFindByHash (sha256 token))]). }
  apply resolve_Ok in Er. unfold MAX_ASSERTION_LIFETIME.
  destruct (sign _ _ _ 60 s2) as [ra [x3 t3]] eqn:Es.
  destruct (keeps_sign _ _ _ _ _ _ _ Es) as (Hx3 & new & Ht3 & Hq3). cbn [fst snd] in Hx3, Ht3. subst x3.
  destruct ra as [assertion|e].
  2: { intros [<- <-]%pair_eq.
       apply (Hno (s1.1, t3) e (new ++ [EvNow; EvStore (SFindByHash (sha256 token))])); try done.
       - cbn. by rewrite Ht3, <-app_assoc.
       - by apply Forall_app. }
  intros H.
  cut (st_inv s'.1 ∧
    (∃ after, s'.2 = after ++ EvHttp (grant_request svc record entry assertion) :: t3 ∧ Forall no_request after) ∧
    ∀ payload, r = Ok payload →
      ∃ reply d, o_http t3 (grant_request svc record entry assertion) = inr reply ∧
        rsp_status reply = 200 ∧ rsp_json reply = Some (JObj d) ∧ payload = short_token d ∧
        st_view s'.1 = touch_record (pr_id record) (at_utc now) <$> st_view s.1).
  { intros (Hi & Hafter & Hp). split; [done|]. right. exists token, record, entry, assertion, s2, t3.
    split_and!; try done. by exists new. }
  rewrite <-Hv1. by apply (asked_upstream svc record entry assertion now s1.1 t3).
Qed.

(** ** The errors *)

Lemma check_params_raises st stt rtt e :
  check_params st stt rtt = Raise e → (∃ d, e = InvalidRequest d) ∨ ∃ d, e = InvalidGrant d.
Proof.
  unfold check_params. destruct st as [[|c t]|]; try (intros [= <-]; left; by eexists).
  repeat case_bool_decide; cbn [negb]; try (intros [= <-]; left; by eexists).
  destruct (well_formed_total (c :: t)) as [[] ->]; cbn; [done|]. intros [= <-]. right. by eexists.
Qed.

Lemma check_record_raises svc record now e :
  check_record svc record now = Raise e → ∃ d, e = InvalidGrant d.
Proof.
  unfold check_record. repeat case_match; try done; intros E; injection E as <-; by eexists.
Qed.

(** What the checks say of a request, before the upstream is asked. *)
Definition decision svc (v : pats) (t : trace) (st stt rtt resource : option pystr)
    : res (PatRecord * ResourceEntry) :=
  token ← check_params st stt rtt;
  match v !! sha256 token with
  | None => Raise (InvalidGrant (u "subject_token is not a valid personal access token"))
  | Some record =>
      _ ← check_record svc record (at_utc (o_now (looked_up (sha256 token) t)));
      entry ← _resolve_resource svc record resource;
      Ok (record, entry)
  end.

Lemma decision_raises svc v t st stt rtt resource e :
  decision svc v t st stt rtt resource = Raise e →
  (∃ d, e = InvalidRequest d) ∨ (∃ d, e = InvalidGrant d) ∨ (∃ d, e = InvalidTarget d) ∨ value_error e.
Proof.
  unfold decision. destruct (check_params st stt rtt) as [token|e1] eqn:E1; cbn [mbind res_bind].
  2: { intros [= <-]. apply check_params_raises in E1. naive_solver. }
  destruct (v !! sha256 token) as [record|]; [|intros [= <-]; right; left; by eexists].
  destruct (check_record _ _ _) as [[]|e1] eqn:E2; cbn [mbind res_bind].
  2: { intros [= <-]. apply check_record_raises in E2. by right; left. }
  destruct (_resolve_resource _ _ _) as [entry|e1] eqn:E3; cbn [mbind res_bind]; [done|].
  intros [= <-]. apply resolve_raises in E3. by right; right.
Qed.

Lemma decision_run svc `{P : !PatStoreSpec (ps_store svc)} st stt rtt resource s e r s' :
  st_inv s.1 → decision svc (st_view s.1) s.2 st stt rtt resource = Raise e →
  pat_exchange svc st stt rtt resource s = (r, s') →
  (r = Raise e ∨ ∃ m, r = Raise (DatabaseError m)) ∧ st_inv s'.1 ∧ unasked svc s r s' ∧
  (is_Ok (check_params st stt rtt) = false → s' = s).
Proof.
  intros Hinv. unfold decision, pat_exchange, unasked.
  destruct (check_params st stt rtt) as [token|e1] eqn:Ep; cbn [mbind res_bind]; io_run.
  2: { intros [= ->] [<- <-]%pair_eq. split_and!; [by left|done|by eexists|done|by exists []|done]. }
  apply check_params_Ok in Ep as (-> & Hne & -> & Hrtt & Hwf).
  rewrite (token_hash_well_formed _ Hwf). io_run. intros Hd.
  destruct (store_find_by_hash _ _ s) as [rf s1] eqn:Ef.
  destruct (do_find _ _ _ _ _ Ef Hinv) as (Hi1 & Ht1 & Hv1 & Hf).
  destruct rf as [found|e1].
  2: { destruct Hf as [m ->]. intros [<- <-]%pair_eq. split_and!; try done; [right|..]; try by eexists.
       eexists [_]. split; [exact Ht1|]. by repeat constructor. }
  subst found. destruct (st_view s.1 !! sha256 token) as [record|]; io_run.
  2: { injection Hd as <-. intros [<- <-]%pair_eq. split_and!; try done; [by left|by eexists|].
       eexists [_]. split; [exact Ht1|]. by repeat constructor. }
  rewrite Ht1. fold (looked_up (sha256 token) s.2). set (now := o_now _) in *.
  assert (Hq : ∃ new, EvNow :: looked_up (sha256 token) s.2 = new ++ s.2 ∧ Forall no_request new).
  { exists [EvNow; EvStore (SFindByHash (sha256 token))]. split; [done|]. by repeat constructor. }
  destruct (check_record svc record (at_utc now)) as [[]|e1] eqn:Ec; cbn [mbind res_bind] in Hd; io_run.
  2: { injection Hd as ->. intros [<- <-]%pair_eq. split_and!; try done; [by left|by eexists]. }
  destruct (_resolve_resource svc record resource) as [entry|e1] eqn:Er; cbn [mbind res_bind] in Hd; [done|].
  io_run. injection Hd as ->. intros [<- <-]%pair_eq. split_and!; try done; [by left|by eexists].
Qed.
End Exchange.

(** ** Revocation *)

Section Revocation.
Context `{O : Outside, R : Rsa, FR : FloatRepr} {X : Type}.
Implicit Types (svc : PatService X) (caller : Caller) (s : state X).

(** What a revocation that returned has done: the id named a token of the
    caller's, and it carries a time of revocation now. *)
Lemma revoke_run svc `{P : !PatStoreSpec (ps_store svc)} caller token_id s r s' :
  st_inv s.1 → revoke svc caller token_id s = (r, s') →
  st_inv s'.1 ∧ (∃ new, s'.2 = new ++ s.2 ∧ Forall no_request new) ∧
  match r with
  | Ok _ => ∃ id, parse_uuid token_id = Ok id ∧
      (∃ h x, st_view s.1 !! h = Some x ∧
         revocable (pc_realm_issuer (ps_pat svc)) (subject caller) id x = true) ∧
      st_view s'.1 = revoke_record (o_db_now s.2) (pc_realm_issuer (ps_pat svc)) (subject caller) id
        <$> st_view s.1
  | Raise e => e = not_found ∧ st_view s'.1 = st_view s.1 ∨ (∃ m, e = DatabaseError m) ∧
      (st_view s'.1 = st_view s.1 ∨ ∃ id, st_view s'.1 = revoke_record (o_db_now s.2)
         (pc_realm_issuer (ps_pat svc)) (subject caller) id <$> st_view s.1)
  end.
Proof.
  intros Hinv. unfold revoke, raise.
  assert (Hp : ∀ e, parse_uuid token_id = Raise e → is_ValueError e = true).
  { intros e. unfold parse_uuid. repeat case_match; try done; intros E; by injection E as <-. }
  destruct (parse_uuid token_id) as [id|e] eqn:Eu; cbn [try_except]; io_run.
  2: { rewrite (Hp e eq_refl). io_run. intros [<- <-]%pair_eq. split; [done|].
       split; [by exists []|]. by left. }
  destruct (store_revoke _ _ _ _ s) as [rr s1] eqn:Er.
  destruct (do_revoke _ _ _ _ _ _ _ Er Hinv) as (Hi1 & Ht1 & Hv).
  destruct rr as [done_|e].
  2: { intros [<- <-]%pair_eq. split; [done|]. split.
       - eexists [_]. split; [exact Ht1|]. by repeat constructor.
       - right. destruct Hv as [Hm [Hv|Hv]]; (split; [done|]); [by left|right; by exists id]. }
  destruct Hv as [Hv Hb]. destruct done_; cbn [negb]; io_run; intros [<- <-]%pair_eq; cbn [fst snd].
  - split; [done|]. split; [eexists [_; _]; split; [by rewrite Ht1|by repeat constructor]|].
    exists id. split; [done|]. split; [by apply Hb|done].
  - split; [done|]. split; [eexists [_]; split; [by rewrite Ht1|by repeat constructor]|].
    left. split; [done|]. rewrite Hv. apply map_eq. intros h. rewrite lookup_fmap.
    destruct (st_view s.1 !! h) as [x|] eqn:Ex; [|done]. cbn. f_equal. unfold revoke_record.
    destruct (revocable _ _ id x) eqn:Hx; [|done].
    assert (Hf : false = true); [apply Hb; by exists h, x|done].
Qed.

(** A token whose record carries a revocation is refused. *)
Lemma revoked_refused svc `{P : !PatStoreSpec (ps_store svc)} token record stt rtt resource s r s' :
  st_inv s.1 → st_view s.1 !! sha256 token = Some record → pr_revoked_at record ≠ None →
  pat_exchange svc (Some token) stt rtt resource s = (r, s') →
  (∃ e, r = Raise e ∧ is_Ok r = false) ∧ st_view s'.1 = st_view s.1 ∧
  ∃ new, s'.2 = new ++ s.2 ∧ Forall no_request new.
Proof.
  intros Hinv Hr Hn H. destruct (exchange_run svc _ _ _ _ _ _ _ Hinv H) as [_ [Hu|Ha]].
  - destruct Hu as ([e ->] & ? & ?). split_and!; try done. by exists e.
  - destruct Ha as (t & rec & en & a & s1 & t2 & He & _).
    destruct He as (E & _ & _ & _ & Hr' & Hrev & _). injection E as <-. congruence.
Qed.
End Revocation.

(** ** What is asked for, and what is handed on *)

Lemma join_last sep l x : join sep (l ++ [x]) = concat ((λ w, w ++ sep) <$> l) ++ x.
Proof.
  induction l as [|w l IH]; [done|]. cbn [app fmap list_fmap concat].
  rewrite <-app_assoc, <-IH. by destruct l; cbn [join app]; rewrite <-?app_assoc.
Qed.

(** The scope parameter: every scope and a blank, then the organization. *)
Lemma scope_param_text scopes tenant :
  _scope_param scopes tenant = concat ((λ w, w ++ [32%N]) <$> scopes) ++ u "organization:" ++ tenant.
Proof. unfold _scope_param. apply join_last. Qed.

Lemma scope_param_words scopes tenant :
  32%N ∉ tenant → (∀ w, w ∈ scopes → 32%N ∉ w) →
  split_char 32 (_scope_param scopes tenant) = scopes ++ [u "organization:" ++ tenant].
Proof.
  intros Ht Hs. rewrite scope_param_text. induction scopes as [|w l IH]; cbn [fmap list_fmap concat app].
  - apply split_char_notin. intros [H|H]%elem_of_app; [|done]. revert H. by apply (bool_decide_unpack (_ ∉ _)).
  - rewrite <-!app_assoc. cbn [app]. rewrite split_char_app by set_solver. f_equal. apply IH. set_solver.
Qed.

Lemma grant_request_text `{R : Rsa} {X} (svc : PatService X) record entry assertion :
  grant_request svc record entry assertion =
    PostForm (rstrip_slash (kc_issuer (ps_keycloak svc)) ++ u "/protocol/openid-connect/token")
      [(u "grant_type", JStr (u "urn:ietf:params:oauth:grant-type:jwt-bearer"));
       (u "assertion", JStr assertion); (u "client_id", JStr (re_pat_client_id entry));
       (u "client_secret", JStr (re_pat_client_secret entry));
       (u "scope", JStr (_scope_param (pr_scopes record) (pr_tenant record)))]
      [(u "Accept", u "application/json")] None.
Proof.
  unfold grant_request, jwt_bearer_form. assert (truthy (_scope_param (pr_scopes record) (pr_tenant record)) = true) as ->.
  { rewrite scope_param_text. by destruct (concat _). }
  reflexivity.
Qed.

(** A token response [d] without its refresh token, typed as RFC 8693 asks. *)
Definition trimmed (d payload : dict json) : Prop :=
  dict_get payload (u "refresh_token") = None ∧
  dict_get payload (u "refresh_expires_in") = None ∧
  dict_get payload (u "issued_token_type") = Some (JStr (u "urn:ietf:params:oauth:token-type:access_token")) ∧
  ∀ k, k ≠ u "refresh_token" → k ≠ u "refresh_expires_in" → k ≠ u "issued_token_type" →
    dict_get payload k = dict_get d k.

Lemma short_token_trims (d : dict json) : dict_wf d → trimmed d (short_token d).
Proof.
  intros Hd. unfold trimmed, short_token. rewrite dict_get_set_eq.
  rewrite !dict_get_set_ne by by apply (bool_decide_unpack _).
  rewrite dict_get_pop_ne by by apply (bool_decide_unpack _).
  rewrite !dict_get_pop_eq by auto with py. split_and!; try done.
  intros k H1 H2 H3. by rewrite dict_get_set_ne, !dict_get_pop_ne by done.
Qed.

(** ** Properties *)

Section Properties.
Context `{O : Outside, R : Rsa, FR : FloatRepr} {X : Type}.
Implicit Types (svc : PatService X) (caller : Caller) (s : state X).

(** C4. What a personal access token buys.  A token exchange either asks nobody
    over HTTP, leaves every stored token as it is and raises; or the presented
    token is well formed, its hash is stored, and the stored record is unrevoked,
    unexpired, of this realm and bound to an organization, and the request
    resolves to a configured resource that the record names.  Then exactly one
    request is sent: the JWT Authorization Grant at the realm's token endpoint,
    with that resource's client, an assertion that was just signed for the
    record's owner and the resource's issuer, valid for 60 seconds, and a scope
    that is the record's scopes, in order, and its organization, with blanks
    between -- read back at the blanks, exactly those words.  A payload that is
    returned is the upstream's own, of status 200, without its refresh token and
    with the type of RFC 8693, and the use is recorded on that token alone. *)
Theorem exchange_entitled svc `{P : !PatStoreSpec (ps_store svc)} st stt rtt resource s r s' :
  st_inv s.1 → pat_exchange svc st stt rtt resource s = (r, s') →
  ((∃ e, r = Raise e) ∧ st_view s'.1 = st_view s.1 ∧
     ∃ new, s'.2 = new ++ s.2 ∧ Forall no_request new) ∨
  ∃ token record entry assertion scope s1 t2,
    let hash := sha256 token in
    let req := PostForm (rstrip_slash (kc_issuer (ps_keycloak svc)) ++ u "/protocol/openid-connect/token")
      [(u "grant_type", JStr (u "urn:ietf:params:oauth:grant-type:jwt-bearer"));
       (u "assertion", JStr assertion); (u "client_id", JStr (re_pat_client_id entry));
       (u "client_secret", JStr (re_pat_client_secret entry)); (u "scope", JStr scope)]
      [(u "Accept", u "application/json")] None in
    exchangeable svc (st_view s.1) s.2 st stt rtt resource token record entry ∧
    scope = concat ((λ w, w ++ [32%N]) <$> pr_scopes record) ++ u "organization:" ++ pr_tenant record ∧
    (32%N ∉ pr_tenant record → (∀ w, w ∈ pr_scopes record → 32%N ∉ w) →
       split_char 32 scope = pr_scopes record ++ [u "organization:" ++ pr_tenant record]) ∧
    s1.2 = EvNow :: looked_up hash s.2 ∧
    sign (pc_signer (ps_pat svc)) (pr_owner_sub record) (re_issuer entry) 60 s1 = (Ok assertion, (s1.1, t2)) ∧
    (∃ new, t2 = new ++ s1.2 ∧ Forall no_request new) ∧
    (∃ after, s'.2 = after ++ EvHttp req :: t2 ∧ Forall no_request after) ∧
    ∀ payload, r = Ok payload →
      ∃ reply d, o_http t2 req = inr reply ∧ rsp_status reply = 200 ∧ rsp_json reply = Some (JObj d) ∧
        (dict_wf d → trimmed d payload) ∧
        st_view s'.1 = touch_record (pr_id record) (at_utc (o_now (looked_up hash s.2))) <$> st_view s.1.
Proof.
  intros Hi H. destruct (exchange_run svc _ _ _ _ _ _ _ Hi H) as [_ [?|Ha]]; [by left|right].
  destruct Ha as (token & record & entry & assertion & s1 & t2 & He & H1 & H2 & H3 & H4 & H5).
  rewrite grant_request_text in H4, H5.
  exists token, record, entry, assertion. eexists _, s1, t2. cbv zeta. split; [exact He|].
  split; [apply scope_param_text|]. split; [apply scope_param_words|].
  do 4 (split; [done|]). intros payload (reply & d & ? & ? & ? & -> & ?)%H5.
  exists reply, d. do 3 (split; [done|]). split; [apply short_token_trims|done].
Qed.

(** C38. The errors of an exchange, in their order: parameters, then the form of
    the token -- neither reaches the database --, then the record, then the
    resource.  The first check that fails decides: the exchange raises its error
    (unless the lookup itself failed), asks nobody over HTTP and changes nothing.
    Every such error is an OAuth error of status 400, but for a [resource] that
    [urlsplit] refuses. *)
Theorem exchange_refuses svc `{P : !PatStoreSpec (ps_store svc)} st stt rtt resource s e r s' :
  st_inv s.1 → decision svc (st_view s.1) s.2 st stt rtt resource = Raise e →
  pat_exchange svc st stt rtt resource s = (r, s') →
  (r = Raise e ∨ ∃ m, r = Raise (DatabaseError m)) ∧
  st_view s'.1 = st_view s.1 ∧ (∃ new, s'.2 = new ++ s.2 ∧ Forall no_request new) ∧
  (is_Ok (check_params st stt rtt) = false → s' = s) ∧
  ((∃ code d, e = OAuthError code d 400 ∧
      code ∈ [u "invalid_request"; u "invalid_grant"; u "invalid_target"]) ∨ value_error e).
Proof.
  intros Hi Hd H. destruct (decision_run svc _ _ _ _ _ _ _ _ Hi Hd H) as (Hr & _ & (_ & Hv & Ht) & Hs).
  split_and!; try done.
  destruct (decision_raises _ _ _ _ _ _ _ _ Hd) as [[d ->]|[[d ->]|[[d ->]|He]]]; [..|by right];
    left; eexists _, d; (split; [reflexivity|]).
  - apply list_elem_of_here.
  - apply list_elem_of_further, list_elem_of_here.
  - do 2 apply list_elem_of_further. apply list_elem_of_here.
Qed.

(** Revoking.  A revocation that returns named, by its id, an unrevoked token
    of the caller's own realm and subject, and sets the time of revocation on that
    token alone; somebody else's, an unknown and an already revoked token give
    the same [not_found], and so does a text that is no id; then nothing changes.
    Nobody is asked over HTTP. *)
Theorem revoke_own_token svc `{P : !PatStoreSpec (ps_store svc)} caller token_id s r s' :
  st_inv s.1 → revoke svc caller token_id s = (r, s') →
  (∃ new, s'.2 = new ++ s.2 ∧ Forall no_request new) ∧
  match r with
  | Ok _ => ∃ id, parse_uuid token_id = Ok id ∧
      (∃ h x, st_view s.1 !! h = Some x ∧
         revocable (pc_realm_issuer (ps_pat svc)) (subject caller) id x = true) ∧
      st_view s'.1 = revoke_record (o_db_now s.2) (pc_realm_issuer (ps_pat svc)) (subject caller) id
        <$> st_view s.1
  | Raise e => e = not_found ∧ st_view s'.1 = st_view s.1 ∨ ∃ m, e = DatabaseError m
  end.
Proof.
  intros Hi H. destruct (revoke_run svc _ _ _ _ _ Hi H) as (_ & Ht & Hr). split; [done|].
  destruct r; [done|]. destruct Hr as [?|[? _]]; auto.
Qed.

(** C13. A revoked token is dead.  Once a revocation returned, then whatever is done
    to the store, by whomever, no exchange of the revoked token ever returns, nor
    asks anybody over HTTP, nor changes the store. *)
Theorem revoked_token_is_dead svc `{P : !PatStoreSpec (ps_store svc)} caller token_id id s0 s1 s2
    token x stt rtt resource r s3 :
  st_inv s0.1 → revoke svc caller token_id s0 = (Ok tt, s1) → parse_uuid token_id = Ok id →
  st_view s0.1 !! sha256 token = Some x → pr_id x = id →
  owned (pc_realm_issuer (ps_pat svc)) (subject caller) x = true →
  rtc (step (ps_store svc)) s1 s2 →
  pat_exchange svc (Some token) stt rtt resource s2 = (r, s3) →
  (∃ e, r = Raise e) ∧ st_view s3.1 = st_view s2.1 ∧
  ∃ new, s3.2 = new ++ s2.2 ∧ Forall no_request new.
Proof.
  intros Hi Hrev Hid Hx Hxid Hown H12 He.
  destruct (revoke_run svc _ _ _ _ _ Hi Hrev) as (Hi1 & _ & id' & Hid' & _ & Hv).
  rewrite Hid in Hid'. apply Ok_inj in Hid' as <-.
  set (y := revoke_record (o_db_now s0.2) (pc_realm_issuer (ps_pat svc)) (subject caller) id x).
  assert (Hy : st_view s1.1 !! sha256 token = Some y) by by rewrite Hv, lookup_fmap, Hx.
  assert (Hyr : pr_revoked_at y ≠ None).
  { unfold y, revoke_record, revocable. rewrite Hxid, N.eqb_refl, Hown. cbn [andb].
    case_bool_decide; [done|done]. }
  destruct (steps_advance (ps_store svc) _ _ H12 Hi1) as [Hi2 Hev].
  destruct (Hev _ _ Hy) as (z & Hz & Hyz). assert (Hzr : pr_revoked_at z ≠ None).
  { destruct Hyz as (_&_&_&_&_&_&_&_&_&Hzr). by rewrite (Hzr Hyr). }
  destruct (revoked_refused svc token z stt rtt resource s2 r s3 Hi2 Hz Hzr He) as ((e & -> & _) & ? & ?).
  split_and!; try done. by eexists.
Qed.
End Properties.

(** ** A token is exchanged, then revoked *)
Module PatExchangeExamples.
Import PatSamples.

Lemma exchange_entitled_witness :
  ∃ payload s' url form headers, pat_exchange svc (Some sample_token) (Some ACCESS_TOKEN_TYPE) None
      (Some (u "https://r0.example/")) with_token = (Ok payload, s') ∧
    EvHttp (PostForm url form headers None) ∈ s'.2 ∧
    dict_get form (u "scope") = Some (JStr (join [32%N]
      (pr_scopes (_record stored_row) ++ [u "organization:" ++ pr_tenant (_record stored_row)]))).
Proof.
  destruct (pat_exchange svc (Some sample_token) (Some ACCESS_TOKEN_TYPE) None (Some (u "https://r0.example/")) with_token)
    as [r s'] eqn:E.
  assert (Hr : is_Ok r = true).
  { change r with (r, s').1. rewrite <-E. vm_compute. reflexivity. }
  destruct (exchange_entitled svc (Some sample_token) (Some ACCESS_TOKEN_TYPE) None
    (Some (u "https://r0.example/")) with_token r s')
    as [([e ->] & _)|(tok & record & entry & a & scope & s1 & t2 & He & Hscope & _ & _ & _ & _ & (after & Ht & _) & _)];
    [exact with_token_ok|exact E|discriminate Hr|].
  destruct r as [payload|]; [|discriminate Hr].
  exists payload, s'. eexists _, _, _. split; [reflexivity|]. split.
  { rewrite Ht. apply elem_of_app. right. left. }
  destruct He as (Ht' & _ & _ & _ & Hrec & _). injection Ht' as <-.
  assert (Hstored : st_view (S := ps_store svc) with_token.1 !! sha256 sample_token = Some (_record stored_row))
    by (vm_compute; reflexivity).
  rewrite Hstored in Hrec. injection Hrec as <-. rewrite join_last, <-Hscope. reflexivity.
Defined.

Lemma exchange_refuses_witness :
  (pat_exchange svc (Some (u "kmb_pat_forged")) (Some ACCESS_TOKEN_TYPE) None None with_token).2 = with_token.
Proof.
  destruct (pat_exchange svc (Some (u "kmb_pat_forged")) (Some ACCESS_TOKEN_TYPE) None None with_token)
    as [r s'] eqn:E.
  refine (proj1 (proj2 (proj2 (proj2 (exchange_refuses svc (Some (u "kmb_pat_forged")) (Some ACCESS_TOKEN_TYPE)
    None None with_token (InvalidGrant (u "subject_token is not a valid personal access token")) r s' _ _ E)))) _).
  - exact with_token_ok.
  - vm_compute. reflexivity.
  - vm_compute. reflexivity.
Defined.

Definition revocation : res unit * state database :=
  Eval vm_compute in revoke svc alice (str_uuid 5) with_token.

Lemma revocation_runs : revoke svc alice (str_uuid 5) with_token = (Ok tt, revocation.2).
Proof. vm_compute. reflexivity. Defined.

Lemma revoke_own_token_witness :
  ∃ id h x, parse_uuid (str_uuid 5) = Ok id ∧
    st_view (S := ps_store svc) with_token.1 !! h = Some x ∧ pr_owner_sub x = u "alice-id".
Proof.
  destruct (revoke_own_token svc alice (str_uuid 5) with_token (Ok tt) revocation.2)
    as [_ (id & Hid & (h & x & Hx & Hr) & _)].
  - exact with_token_ok.
  - apply revocation_runs.
  - exists id, h, x. split; [exact Hid|]. split; [exact Hx|].
    unfold revocable, owned in Hr. bool_hyps. assumption.
Defined.

Lemma revoked_token_is_dead_witness :
  ∃ e, (pat_exchange svc (Some sample_token) (Some ACCESS_TOKEN_TYPE) None None revocation.2).1 = Raise e.
Proof.
  destruct (pat_exchange svc (Some sample_token) (Some ACCESS_TOKEN_TYPE) None None revocation.2) as [r s3] eqn:E.
  refine (proj1 (revoked_token_is_dead svc alice (str_uuid 5) 5 with_token revocation.2 revocation.2
    sample_token (_record stored_row) (Some ACCESS_TOKEN_TYPE) None None r s3 _ revocation_runs _ _ _ _ _ E)).
  - exact with_token_ok.
  - vm_compute. reflexivity.
  - vm_compute. reflexivity.
  - reflexivity.
  - vm_compute. reflexivity.
  - apply rtc_refl.
Defined.
End PatExchangeExamples.
