(* ===== verification/PatCreate.v ===== *)
(** * Managing personal access tokens, proved

    Who may manage tokens ([authenticate_caller]), what a creation may ask for
    ([parse_create_spec]) and what it makes ([create_spec]). *)

From S2P Require Import Prelude PyStr Codec Digest Json Datetime World Errors UrlLib.
From S2P Require Import Uuid Assertion Config Token PatFormat PatStore Keycloak Pat PatExchange.

(** ** The body of a creation *)

Lemma from_keys_spec seen l :
  NoDup (from_keys seen l) ∧ ∀ x, x ∈ from_keys seen l ↔ x ∈ l ∧ x ∉ seen.
Proof.
  revert seen. induction l as [|a l IH]; intros seen; cbn [from_keys].
  { split; [constructor|]. intros x. split; [by intros ?%elem_of_nil|by intros [?%elem_of_nil _]]. }
  case_bool_decide as Ha.
  - destruct (IH seen) as [Hn Hx]. split; [done|]. intros x. rewrite Hx, elem_of_cons. naive_solver.
  - destruct (IH (a :: seen)) as [Hn Hx]. split.
    + apply NoDup_cons. split; [|done]. rewrite Hx, elem_of_cons. naive_solver.
    + intros x. rewrite !elem_of_cons, Hx, elem_of_cons. destruct (decide (x = a)); naive_solver.
Qed.

Lemma string_list_Ok value field l :
  _string_list value field = Ok l →
  NoDup l ∧ ∃ vs, value = Some (JArr vs) ∧ ∀ x, x ∈ l ↔ JStr x ∈ vs ∧ x ≠ [].
Proof.
  unfold _string_list. destruct value as [[| | | | |vs|]|]; try done.
  destruct (mapM nonempty_text vs) as [texts|] eqn:E; [|done]. intros [= <-].
  destruct (from_keys_spec [] texts) as [Hn Hx]. split; [done|]. exists vs. split; [done|].
  apply mapM_Some in E. intros x. rewrite Hx.
  assert (Ht : ∀ j y, nonempty_text j = Some y ↔ j = JStr y ∧ y ≠ []).
  { intros j y. destruct j as [| | | |[|c t]| |]; cbn; naive_solver. }
  assert (Hin : x ∈ texts ↔ JStr x ∈ vs ∧ x ≠ []).
  { clear Hn Hx. induction E as [|j y vs ys Hj _ IH].
    - split; [by intros ?%elem_of_nil|by intros [?%elem_of_nil _]].
    - apply Ht in Hj as [-> Hy]. rewrite !elem_of_cons, IH. naive_solver. }
  rewrite Hin. split; [by intros [? _]|]. intros ?. split; [done|]. by intros ?%elem_of_nil.
Qed.

Lemma string_list_raises value field e :
  _string_list value field = Raise e → ∃ d, e = ManagementError 400 (u "invalid_request") d.
Proof. unfold _string_list. repeat case_match; try done; intros E; injection E as <-; by eexists. Qed.

Section Parse.
Context `{R : Rsa} {X : Type}.
Implicit Types (svc : PatService X).

Lemma check_pat_resource_Ok svc url :
  check_pat_resource svc url = Ok tt →
  ∃ e, resource_by_url (ps_config svc) url = Ok (Some e) ∧ accepts_pat e = true ∧
    e ∈ resources (ps_config svc).
Proof.
  unfold check_pat_resource. destruct (resource_by_url _ url) as [[e|]|] eqn:E; cbn; try done.
  destruct (accepts_pat e) eqn:Ha; [|done]. intros _. exists e. split_and!; try done.
  by eapply resource_by_url_In.
Qed.

Lemma lifetime_Ok body days long_ok :
  _lifetime body = Ok (days, long_ok) → 1 <= days ∧ (days <= 365 ∨ long_ok = true).
Proof.
  unfold _lifetime, LONG_LIFETIME_DAYS. destruct (dict_get_default body _ _); try done.
  destruct (Z.ltb_spec z 1); [done|]. destruct (dict_get_default body _ _); try done.
  destruct (365 <? z) eqn:E; cbn [andb]; [destruct b; [|done]|]; intros [= <- <-]; split; try done;
    [by right|left; lia].
Qed.

(** A request that [parse_create] lets through. *)
Definition well_formed_request svc (r : CreateRequest) : Prop :=
  (1 <= length (cr_name r) <= 100)%nat ∧
  cr_resources r ≠ [] ∧
  Forall (λ url, ∃ e, e ∈ resources (ps_config svc) ∧ re_url e = url ∧ accepts_pat e = true) (cr_resources r) ∧
  NoDup (cr_scopes r) ∧ Forall (λ x, x ∈ pc_scopes (ps_pat svc)) (cr_scopes r) ∧
  (cr_all_permitted_scopes r = true → cr_scopes r = []) ∧
  1 <= cr_lifetime_days r ∧ (cr_lifetime_days r <= 365 ∨ cr_allow_long_lifetime r = true).

Lemma parse_create_Ok svc body r : parse_create svc body = Ok r → well_formed_request svc r.
Proof.
  unfold parse_create. destruct body as [| | | | | |d]; try done.
  destruct (dict_get d (u "name")) as [[| | | |name| |]|]; try done.
  destruct (_ || _) eqn:Hn; [done|]. intros H.
  apply bind_Ok in H as (urls & Hu & H). apply string_list_Ok in Hu as [_ _].
  case_bool_decide as Hne; [done|].
  apply bind_Ok in H as ([] & Hc & H). rewrite for_each_Ok in Hc.
  apply bind_Ok in H as (scopes & Hs & H). apply string_list_Ok in Hs as [Hnd _].
  case_bool_decide as Ho; cbn [negb] in H; [|done].
  destruct (dict_get_default d (u "all_permitted_scopes") _) as [|all| | | | |]; try done.
  destruct (all && _) eqn:Ha; [done|].
  apply bind_Ok in H as ([days long_ok] & Hl & H). apply lifetime_Ok in Hl as [Hl1 Hl2].
  apply bind_Ok in H as (org & _ & H). apply bind_Ok in H as (canon & Hm & H).
  apply Ok_inj in H as <-. unfold well_formed_request. cbn.
  apply orb_false_iff in Hn as [Hn1 Hn2]. apply map_res_Ok in Hm.
  split_and!; try done; [lia|lia|..].
  - intros ->. by inversion Hm; subst.
  - clear Hne. induction Hm as [|url c urls canon Hcan _ IH]; [constructor|].
    apply Forall_cons in Hc as [Hcu Hc]. constructor; [|by apply IH].
    apply check_pat_resource_Ok in Hcu as (e & He & Hap & Hin). unfold canonical_url in Hcan.
    rewrite He in Hcan. cbn in Hcan. apply Ok_inj in Hcan as <-. by exists e.
  - apply Forall_forall. intros x Hx. destruct (decide (x ∈ pc_scopes (ps_pat svc))) as [|Hno]; [done|].
    exfalso. assert (Hf : In x []); [|done]. rewrite <-Ho. apply filter_In.
    split; [by apply list_elem_of_In|]. by rewrite bool_decide_false.
  - intros ->. cbn [andb] in Ha. apply negb_false_iff in Ha. by apply bool_decide_eq_true in Ha.
Qed.

(** A refusal is a [ManagementError] of status 400, or [urlsplit]'s. *)
Lemma parse_create_raises svc body e :
  parse_create svc body = Raise e →
  (∃ code d, e = ManagementError 400 code d) ∨ value_error e ∨ ∃ m, e = AttributeError m.
Proof.
  assert (Hr : ∀ url e, resource_by_url (ps_config svc) url = Raise e → value_error e).
  { intros url e1. unfold resource_by_url, _normalise_requested_url.
    destruct (negb _); cbn [mbind res_bind]; [done|].
    destruct (urlsplit url) as [parts|e2] eqn:E; cbn [mbind res_bind].
    - by destruct (_ && _).
    - intros [= <-]. by eapply urlsplit_raises. }
  intros H. cut (raises_only (λ e, (∃ code d, e = ManagementError 400 code d) ∨ value_error e ∨
    ∃ m, e = AttributeError m) (parse_create svc body)); [intros Hc; by apply Hc|].
  clear H e. unfold parse_create, management_error.
  assert (Hs : ∀ v f, raises_only (λ e, (∃ code d, e = ManagementError 400 code d) ∨ value_error e ∨
    ∃ m, e = AttributeError m) (_string_list v f)).
  { intros v f e He. apply string_list_raises in He as [d ->]. left. by eexists _, _. }
  assert (Hl : ∀ v, raises_only (λ e, (∃ code d, e = ManagementError 400 code d) ∨ value_error e ∨
    ∃ m, e = AttributeError m) (_lifetime v)).
  { intros v e. unfold _lifetime, management_error. repeat case_match; try done; intros E; injection E as <-;
      left; by eexists _, _. }
  assert (Hu : ∀ v, raises_only (λ e, (∃ code d, e = ManagementError 400 code d) ∨ value_error e ∨
    ∃ m, e = AttributeError m) (resource_by_url (ps_config svc) v)).
  { intros v e He. right. left. by eapply Hr. }
  unfold check_pat_resource, canonical_url.
  repeat first [ progress intros | raises_pure_step | apply Hs | apply Hl | apply Hu
    | apply raises_only_for_each | apply raises_only_map_res ];
    first [left; by eexists _, _ | right; right; by eexists].
Qed.
End Parse.

(** ** Runs *)

Section Create.
Context `{O : Outside, R : Rsa, FR : FloatRepr} {X : Type}.
Implicit Types (svc : PatService X) (caller : Caller) (s : state X).

(** What introspection has to say of the bearer of a management request. *)
Definition signed_in svc (claims : dict json) (caller : Caller) : Prop :=
  py_truthy (default JNull (dict_get claims (u "active"))) = true ∧
  (∃ iss, dict_get_default claims (u "iss") (JStr []) = JStr iss ∧
     rstrip_slash iss = pc_realm_issuer (ps_pat svc)) ∧
  dict_get claims (u "typ") = Some (JStr (u "Bearer")) ∧
  dict_get claims (u "sub") = Some (JStr (subject caller)) ∧ subject caller ≠ [] ∧
  py_truthy (default JNull (dict_get claims (u "sid"))) = true ∧
  organizations caller = _organizations (dict_get claims (u "organization")).

Lemma caller_of_Ok svc claims caller : caller_of svc claims = Ok caller → signed_in svc claims caller.
Proof.
  unfold caller_of, signed_in. destruct (py_truthy (default JNull (dict_get claims (u "active")))); [|done].
  cbn [negb]. destruct (dict_get_default claims (u "iss") (JStr [])) as [| | | |iss| |]; try done.
  case_bool_decide as Hi; cbn [negb]; [|done].
  destruct (is_text _ _) eqn:Et; cbn [negb orb]; [|done].
  destruct (py_truthy (default JNull (dict_get claims (u "sub")))) eqn:Es; cbn [negb]; [|done].
  destruct (py_truthy (default JNull (dict_get claims (u "sid")))) eqn:Esid; cbn [negb]; [|done].
  destruct (dict_get claims (u "sub")) as [[| | | |sub| |]|] eqn:Esub; try done.
  intros <-%Ok_inj. cbn [subject organizations]. split_and!; try done.
  - by exists iss.
  - revert Et. unfold is_text. repeat case_match; try done. by intros ->%bool_decide_eq_true.
  - intros ->. done.
Qed.

Definition introspection svc (credential : pystr) : http_request :=
  PostForm (token_url (kc_issuer (ps_keycloak svc)) ++ u "/introspect")
    [(u "token", JStr credential); (u "token_type_hint", JStr (u "access_token"))] []
    (Some (kc_client_id (ps_keycloak svc), kc_client_secret (ps_keycloak svc))).

(** The credential of an [Authorization] header. *)
Definition bearer (authorization : option pystr) (credential : pystr) : Prop :=
  ∃ scheme sep rest, partition 32 (default [] authorization) = (scheme, sep, rest) ∧
    lower scheme = u "bearer" ∧ strip rest = credential ∧ credential ≠ [].

Lemma introspect_run kc token s r s' :
  introspect kc token s = (r, s') →
  let req := PostForm (token_url (kc_issuer kc) ++ u "/introspect")
    [(u "token", JStr token); (u "token_type_hint", JStr (u "access_token"))] []
    (Some (kc_client_id kc, kc_client_secret kc)) in
  s' = (s.1, EvHttp req :: s.2) ∧
  match r with
  | Ok j => ∃ reply, o_http s.2 req = inr reply ∧ rsp_status reply = 200 ∧ rsp_json reply = Some j
  | Raise e => is_ManagementError e = false
  end.
Proof.
  unfold introspect, mbind, io_bind. destruct (_post _ _ _ _ s) as [r1 s1] eqn:E.
  apply post_run in E as [-> Hr]. destruct r1 as [y|e].
  2: { destruct Hr as [d ->]. intros [<- <-]%pair_eq. by split. }
  destruct (Z.eqb_spec (rsp_status y) 200); cbn [negb]; unfold http_failed, response_json, lift, raise.
  - destruct (rsp_json y) as [j|] eqn:Ej; intros [<- <-]%pair_eq; (split; [done|]); [by exists y|done].
  - intros [<- <-]%pair_eq. by split.
Qed.

Lemma authenticate_run svc authorization s r s' :
  authenticate svc authorization s = (r, s') →
  (∀ cred, bearer authorization cred → is_well_formed cred = Ok true →
     (∃ d, r = Raise (ManagementError 403 (u "insufficient_scope") d)) ∧ s' = s) ∧
  (s' = s ∨ ∃ cred, bearer authorization cred ∧ is_well_formed cred = Ok false ∧
     s' = (s.1, EvHttp (introspection svc cred) :: s.2)) ∧
  ∀ caller, r = Ok caller → ∃ cred reply claims,
    bearer authorization cred ∧ is_well_formed cred = Ok false ∧
    o_http s.2 (introspection svc cred) = inr reply ∧ rsp_status reply = 200 ∧
    rsp_json reply = Some (JObj claims) ∧ signed_in svc claims caller ∧
    s' = (s.1, EvHttp (introspection svc cred) :: s.2).
Proof.
  unfold authenticate. destruct (partition 32 (default [] authorization)) as [[scheme sep] credential] eqn:Ep.
  case_bool_decide as Hs; cbn [negb orb].
  2: { unfold raise. intros [<- <-]%pair_eq. split; [|split; [by left|done]].
       intros cred (sc & sep' & rest & E & Hl & _). rewrite Ep in E.
       apply pair_eq in E as [[<- _]%pair_eq _]. done. }
  destruct (truthy (strip credential)) eqn:Ht; cbn [negb].
  2: { unfold raise. intros [<- <-]%pair_eq. split; [|split; [by left|done]].
       intros cred (sc & sep' & rest & E & _ & Hr & Hn). rewrite Ep in E. apply pair_eq in E as [_ <-].
       subst cred. by destruct (strip credential). }
  assert (Hb : bearer authorization (strip credential)).
  { exists scheme, sep, credential. split_and!; try done. intros E. by rewrite E in Ht. }
  assert (Hu : ∀ cred, bearer authorization cred → cred = strip credential).
  { intros cred (sc & sep' & rest & E & _ & <- & _). rewrite Ep in E. by apply pair_eq in E as [_ <-]. }
  destruct (well_formed_total (strip credential)) as [[] Hw]; rewrite Hw; io_run.
  { intros [<- <-]%pair_eq. split; [|split; [by left|done]]. intros cred _ _. split; [by eexists|done]. }
  destruct (introspect _ _ s) as [ri s1] eqn:Ei. apply introspect_run in Ei as [-> Hri].
  intros H. assert (Hs' : s' = (s.1, EvHttp (introspection svc (strip credential)) :: s.2)).
  { destruct ri as [[]|]; by apply pair_eq in H as [_ <-]. }
  split; [intros cred Hc Hc'; apply Hu in Hc as ->; congruence|].
  split; [right; by exists (strip credential)|]. intros caller ->.
  destruct ri as [[| | | | | |d]|]; try (by apply pair_eq in H as [? _]).
  destruct Hri as (reply & H1 & H2 & H3). apply pair_eq in H as [H _]. apply caller_of_Ok in H.
  by exists (strip credential), reply, d.
Qed.

(** ** Trial exchanges *)

(** The upstream was asked, in the trace [t'], to grant [asked] at [entry] for
    the owner and the organization, and granted [granted]. *)
Definition tried svc caller (tenant : pystr) (entry : ResourceEntry) (asked granted : list pystr)
    (t' : trace) : Prop :=
  ∃ assertion t after reply d,
    let req := PostForm (token_url (kc_issuer (ps_keycloak svc)))
      (jwt_bearer_form (re_pat_client_id entry) (re_pat_client_secret entry) assertion
         (_scope_param asked tenant)) [(u "Accept", u "application/json")] None in
    (∃ s1 : state X, sign (pc_signer (ps_pat svc)) (subject caller) (re_issuer entry) 60 s1
       = (Ok assertion, (s1.1, t))) ∧
    t' = after ++ EvHttp req :: t ∧ o_http t req = inr reply ∧ rsp_status reply = 200 ∧
    rsp_json reply = Some (JObj d) ∧ granted = split_words (get_str d (u "scope") "").

Lemma tried_app svc caller tenant entry asked granted new t :
  tried svc caller tenant entry asked granted t → tried svc caller tenant entry asked granted (new ++ t).
Proof.
  intros (a & t0 & after & reply & d & Hs & -> & H). exists a, t0, (new ++ after), reply, d.
  split; [done|]. split; [by rewrite <-app_assoc|done].
Qed.

(** Events that do not touch the store. *)
Definition no_store (e : event) : Prop := match e with EvStore _ => False | _ => True end.

Lemma keeps_trial svc caller entry scopes tenant :
  keeps (X := X) no_store (_trial_exchange svc caller entry scopes tenant).
Proof.
  unfold _trial_exchange, jwt_bearer_grant, sign, uuid4. keeps_tac; by apply keeps_post.
Qed.

Lemma trial_run svc caller entry scopes tenant s granted s' :
  _trial_exchange svc caller entry scopes tenant s = (Ok granted, s') →
  tried svc caller tenant entry scopes granted s'.2.
Proof.
  unfold _trial_exchange, MAX_ASSERTION_LIFETIME. intros H.
  apply run_bind_Ok in H as (assertion & s1 & Hs & H). cbv beta in H.
  destruct (keeps_sign _ _ _ _ _ _ _ Hs) as (Hx & _).
  apply run_bind_Ok in H as (reply & s2 & Hp & H). cbv beta in H.
  unfold jwt_bearer_grant in Hp. apply post_run in Hp as [-> Hr].
  unfold _json in H. destruct (rsp_json reply) as [[| | | | | |d]|] eqn:Ej;
    try (by apply pair_eq in H as [? _]). revert H. io_run.
  destruct (Z.eqb_spec (rsp_status reply) 200) as [E200|]; cbn [negb]; io_run; [|done].
  intros [<-%Ok_inj <-]%pair_eq. exists assertion, s1.2, [], reply, d.
  split; [|done]. exists s. destruct s1 as [x1 t1]. cbn in *. by subst x1.
Qed.

Lemma entry_Ok svc url e :
  _entry svc url = Ok e → resource_by_url (ps_config svc) url = Ok (Some e).
Proof. unfold _entry. destruct (resource_by_url _ url) as [[e'|]|]; cbn; try done. by intros <-%Ok_inj. Qed.

(** One trial per resource, and what it granted. *)
Definition trial_of svc caller tenant (t : trace) (url : pystr) (granted : list pystr) : Prop :=
  ∃ entry asked, resource_by_url (ps_config svc) url = Ok (Some entry) ∧
    tried svc caller tenant entry asked granted t.

Lemma trial_of_app svc caller tenant new t url g :
  trial_of svc caller tenant t url g → trial_of svc caller tenant (new ++ t) url g.
Proof. intros (e & a & ? & ?). exists e, a. split; [done|]. by apply tried_app. Qed.

Lemma trials_app svc caller tenant new t urls grants :
  Forall2 (trial_of svc caller tenant t) urls grants →
  Forall2 (trial_of svc caller tenant (new ++ t)) urls grants.
Proof. intros H. eapply Forall2_impl; [exact H|]. intros ??. apply trial_of_app. Qed.

Lemma keeps_for_io {A} P (f : A → io X unit) l : (∀ x, keeps P (f x)) → keeps P (for_io f l).
Proof. intros Hf. induction l; cbn [for_io]; keeps_tac; auto. Qed.

Lemma keeps_named svc caller tenant scopes url :
  keeps (X := X) no_store (trial_named svc caller tenant scopes url).
Proof. unfold trial_named. keeps_tac. apply keeps_trial. Qed.

Lemma keeps_all svc caller tenant urls permitted :
  keeps (X := X) no_store (trial_all svc caller tenant urls permitted).
Proof.
  revert permitted. induction urls as [|url urls IH]; intros permitted; cbn [trial_all];
    keeps_tac; apply keeps_trial.
Qed.

Lemma named_run svc caller tenant scopes urls s s' :
  for_io (trial_named svc caller tenant scopes) urls s = (Ok tt, s') →
  ∃ grants, Forall2 (trial_of svc caller tenant s'.2) urls grants ∧
    ∀ g, g ∈ grants → ∀ x, x ∈ scopes → x ∈ g.
Proof.
  revert s. induction urls as [|url urls IH]; intros s; cbn [for_io].
  { intros H. exists []. split; [constructor|]. by intros g ?%elem_of_nil. }
  intros H. apply run_bind_Ok in H as ([] & s1 & H1 & H). cbv beta in H.
  assert (Hk : keeps no_store (for_io (trial_named svc caller tenant scopes) urls)).
  { apply keeps_for_io, keeps_named. }
  destruct (Hk _ _ _ H) as (_ & new & Hn & _). apply IH in H as (grants & Hg & Hs).
  unfold trial_named in H1. apply run_bind_Ok in H1 as (entry & s0 & He & H1). cbv beta in H1.
  unfold lift in He. apply pair_eq in He as [He <-]. apply entry_Ok in He.
  apply run_bind_Ok in H1 as (granted & s2 & Ht & H1). cbv beta zeta in H1.
  apply trial_run in Ht. case_bool_decide as Hm; cbn [negb] in H1; [|done].
  unfold mret, io_ret in H1. apply pair_eq in H1 as [_ <-].
  exists (granted :: grants). split.
  - constructor; [|done]. rewrite Hn. apply trial_of_app. by exists entry, scopes.
  - intros g [->|Hin]%elem_of_cons; [|by apply Hs]. intros x Hx.
    destruct (decide (x ∈ granted)) as [|Hno]; [done|]. exfalso.
    assert (Hf : In x []); [|done]. rewrite <-Hm. apply filter_In. split; [by apply list_elem_of_In|].
    unfold not_in. by rewrite bool_decide_false.
Qed.

Lemma filter_filter {A} (f g : A → bool) l :
  List.filter f (List.filter g l) = List.filter (λ x, g x && f x) l.
Proof.
  induction l as [|a l IH]; [done|]. cbn [List.filter]. destruct (g a); cbn [List.filter andb]; by rewrite IH.
Qed.

Definition in_all (grants : list (list pystr)) (x : pystr) : bool :=
  forallb (λ g, bool_decide (x ∈ g)) grants.

Lemma all_run svc caller tenant urls permitted s scopes s' :
  trial_all svc caller tenant urls permitted s = (Ok scopes, s') →
  ∃ grants, Forall2 (trial_of svc caller tenant s'.2) urls grants ∧
    scopes = List.filter (in_all grants) permitted.
Proof.
  revert s permitted. induction urls as [|url urls IH]; intros s permitted; cbn [trial_all].
  { unfold mret, io_ret. intros [<-%Ok_inj _]%pair_eq. exists []. split; [constructor|].
    induction permitted as [|x l IH]; [done|]. cbn. by rewrite <-IH. }
  intros H. apply run_bind_Ok in H as (entry & s0 & He & H). cbv beta in H.
  unfold lift in He. apply pair_eq in He as [He <-]. apply entry_Ok in He.
  apply run_bind_Ok in H as (granted & s2 & Ht & H). cbv beta in H. apply trial_run in Ht.
  destruct (keeps_all _ _ _ _ _ _ _ _ H) as (_ & new & Hn & _).
  apply IH in H as (grants & Hg & ->). exists (granted :: grants). split.
  - constructor; [|done]. rewrite Hn. apply trial_of_app. by exists entry, permitted.
  - by rewrite filter_filter.
Qed.

(** The set a creation ends up with. *)
Definition granted_set svc caller (request : CreateRequest) tenant (scopes : list pystr) (t : trace) : Prop :=
  ∃ grants, Forall2 (trial_of svc caller tenant t) (cr_resources request) grants ∧
    if cr_all_permitted_scopes request
    then scopes ≠ [] ∧ scopes = List.filter (in_all grants) (pc_scopes (ps_pat svc))
    else scopes = cr_scopes request ∧ ∀ g, g ∈ grants → ∀ x, x ∈ scopes → x ∈ g.

Lemma keeps_granted svc caller request tenant :
  keeps (X := X) no_store (_granted_scopes svc caller request tenant).
Proof.
  unfold _granted_scopes. keeps_tac; [apply keeps_for_io, keeps_named|apply keeps_all].
Qed.

Lemma granted_run svc caller request tenant s scopes s' :
  _granted_scopes svc caller request tenant s = (Ok scopes, s') →
  granted_set svc caller request tenant scopes s'.2.
Proof.
  unfold _granted_scopes, granted_set. destruct (cr_all_permitted_scopes request); cbn [negb]; intros H.
  - apply run_bind_Ok in H as (permitted & s1 & H1 & H). cbv beta in H.
    case_bool_decide as Hne; [done|]. unfold mret, io_ret in H. apply pair_eq in H as [<-%Ok_inj <-].
    apply all_run in H1 as (grants & Hg & E). by exists grants.
  - apply run_bind_Ok in H as ([] & s1 & H1 & H). unfold mret, io_ret in H.
    apply pair_eq in H as [<-%Ok_inj <-]. apply named_run in H1 as (grants & Hg & E). by exists grants.
Qed.
End Create.

Section CreateRun.
Context `{O : Outside, !OutsideLaws O, R : Rsa, FR : FloatRepr} {X : Type}.
Implicit Types (svc : PatService X) (caller : Caller) (s : state X).

(** What a creation that returned has made. *)
Definition created svc `{P : !PatStoreSpec (ps_store svc)} caller (request : CreateRequest) s
    (record : PatRecord) (token : pystr) (s' : state X) : Prop :=
  pr_tenant record ∈ organizations caller ∧
  (∀ o, cr_organization request = Some o → pr_tenant record = o) ∧
  (cr_organization request = None → organizations caller = [pr_tenant record]) ∧
  pr_realm_issuer record = pc_realm_issuer (ps_pat svc) ∧ pr_owner_sub record = subject caller ∧
  pr_name record = cr_name request ∧ pr_resources record = cr_resources request ∧
  granted_set svc caller request (pr_tenant record) (pr_scopes record) s'.2 ∧
  dt_instant (pr_expires_at record)
    = dt_instant (pr_created_at record) + cr_lifetime_days request * us_per_day ∧
  is_well_formed token = Ok true ∧ st_view s.1 !! sha256 token = None ∧
  st_view s'.1 = <[sha256 token := stored record]> (st_view s.1) ∧
  admissible record (sha256 token) = true.

Lemma tenant_for_Ok caller requested tenant :
  _tenant_for caller requested = Ok tenant →
  tenant ∈ organizations caller ∧ (∀ o, requested = Some o → tenant = o) ∧
  (requested = None → organizations caller = [tenant]).
Proof.
  unfold _tenant_for. destruct requested as [o|].
  - case_bool_decide; [|done]. intros <-%Ok_inj. split_and!; try done. by intros o' [= ->].
  - destruct (organizations caller) as [|o [|]]; try done. intros <-%Ok_inj. split_and!; try done.
    apply list_elem_of_here.
Qed.

Lemma add_days_utc now days t :
  add_days (at_utc now) days = Ok t → dt_instant t = now + days * us_per_day.
Proof.
  unfold add_days, at_utc. cbn [dt_instant dt_offset]. repeat case_match; try done.
  by intros <-%Ok_inj.
Qed.

(** The last part of a creation: the token is drawn and stored. *)
Lemma store_new_run svc `{P : !PatStoreSpec (ps_store svc)} record fields s r s' :
  (token ← generate; hash ← lift (token_hash token); _ ← store_insert (ps_store svc) record hash;
   _ ← log INFO fields; mret (record, token)) s = (r, s') →
  st_inv s.1 →
  st_inv s'.1 ∧ (∃ new, s'.2 = new ++ s.2) ∧
  match r with
  | Ok (rec, token) => rec = record ∧ is_well_formed token = Ok true ∧
      st_view s.1 !! sha256 token = None ∧ st_view s'.1 = <[sha256 token := stored record]> (st_view s.1) ∧
      admissible record (sha256 token) = true
  | Raise e => (∃ m, e = DatabaseError m) ∧ (st_view s'.1 = st_view s.1 ∨
      ∃ h, st_view s.1 !! h = None ∧ st_view s'.1 = <[h := stored record]> (st_view s.1))
  end.
Proof.
  intros H Hi. revert H. destruct (generate_run s) as (d & c & Hg & Hl & Ha & _ & Hc).
  pose proof (well_formed_intro d c Hl Ha Hc) as Hw. set (token := (PREFIX ++ d) ++ c) in *.
  unfold mbind at 1, io_bind at 1. rewrite Hg, (token_hash_well_formed token Hw). io_run.
  destruct (store_insert _ _ _ _) as [ri s1] eqn:Ei.
  destruct (do_insert _ _ _ _ _ _ Ei Hi) as (Hi1 & Ht1 & Hv). cbn [fst snd] in *.
  destruct ri as [[]|e]; intros [<- <-]%pair_eq; cbn [fst snd]; (split; [done|]).
  - destruct Hv as (_ & Hf & _ & Hadm & Hv). split; [|by split_and!].
    eexists [_; _; _]. by rewrite Ht1.
  - split; [eexists [_; _]; by rewrite Ht1|]. destruct Hv as [Hm [->|Hv]]; (split; [done|]); [by left|].
    right. exists (sha256 token). destruct Hv as (_ & ? & _ & _ & ?). done.
Qed.

(** An insertion on behalf of a caller. *)
Definition inserted_for svc `{P : !PatStoreSpec (ps_store svc)} caller s (s' : state X) : Prop :=
  ∃ h record, pr_owner_sub record = subject caller ∧ pr_realm_issuer record = pc_realm_issuer (ps_pat svc) ∧
    pr_tenant record ∈ organizations caller ∧
    st_view s.1 !! h = None ∧ st_view s'.1 = <[h := stored record]> (st_view s.1).

Lemma create_run svc `{P : !PatStoreSpec (ps_store svc)} caller request s r s' :
  st_inv s.1 → create svc caller request s = (r, s') →
  st_inv s'.1 ∧
  match r with
  | Ok (record, token) => created svc caller request s record token s'
  | Raise e => st_view s'.1 = st_view s.1 ∨ (∃ m, e = DatabaseError m) ∧ inserted_for svc caller s s'
  end.
Proof.
  intros Hi. unfold create. intros H.
  assert (Hsame : ∀ s1 e, s1.1 = s.1 → st_inv s1.1 ∧
    (st_view s1.1 = st_view s.1 ∨ (∃ m, (e : exn) = DatabaseError m) ∧ inserted_for svc caller s s1)).
  { intros s1 e ->. split; [done|]. by left. }
  apply run_bind_cases in H as [(e & He & ->)|(tenant & s0 & He & H)];
    unfold lift in He; apply pair_eq in He as [Et <-]; [by apply Hsame|].
  apply tenant_for_Ok in Et as (T1 & T2 & T3). cbv beta in H.
  assert (Hk : keeps (X := X) no_store (try_io (ensure_link (ps_keycloak svc) caller) is_LinkConflict
    (λ exc, raise (ManagementError 409 (u "link_conflict") (str_exn exc))))).
  { apply keeps_try; [by apply keeps_ensure_link|]. intros e. apply keeps_raise. }
  apply run_bind_cases in H as [(e & He & ->)|(u0 & s1 & He & H)];
    destruct (Hk _ _ _ He) as (X1 & n1 & N1 & _); [by apply Hsame|]. clear Hk He. cbv beta in H.
  apply run_bind_cases in H as [(e & Eg & ->)|(scopes & s2 & Eg & H)];
    destruct (keeps_granted _ _ _ _ _ _ _ Eg) as (X2 & n2 & N2 & _); rewrite X1 in X2; [by apply Hsame|].
  apply granted_run in Eg. cbv beta in H.
  apply run_bind_cases in H as [(e & He & _)|(now & s3 & He & H)];
    unfold utc_now, ask in He; [by apply pair_eq in He as [? _]|].
  apply pair_eq in He as [<-%Ok_inj <-]. cbv beta in H.
  apply run_bind_cases in H as [(e & He & _)|(id & s3 & He & H)];
    unfold uuid4, random, ask, mbind, io_bind, mret, io_ret in He; [by apply pair_eq in He as [? _]|].
  apply pair_eq in He as [_ <-]. cbv beta in H.
  apply run_bind_cases in H as [(e & He & ->)|(expires & s3 & He & H)];
    unfold lift in He; apply pair_eq in He as [Ea <-]; [by apply Hsame|].
  apply add_days_utc in Ea. cbn [fst snd] in Ea, H. cbv beta zeta in H.
  destruct (store_new_run svc _ _ _ _ _ H) as (Hi' & (new & Hn) & Hr); cbn [fst snd] in *; [by rewrite X2|].
  rewrite X2 in Hr. split; [done|]. destruct r as [[rec token]|e].
  2: { destruct Hr as [Hm [Hr|(h & Hf & Hv)]]; [by left|]. right. split; [done|].
       eexists h, _. split_and!; [..|exact Hf|exact Hv]; done. }
  destruct Hr as (-> & Hw & Hf & Hv & Hadm). unfold created. cbn [pr_tenant pr_realm_issuer pr_owner_sub pr_name
    pr_resources pr_scopes pr_created_at pr_expires_at]. split_and!; try done.
  rewrite Hn. destruct Eg as (grants & Hg & Hs). exists grants. split; [|done].
  apply trials_app. apply (trials_app _ _ _ [_; _]). exact Hg.
Qed.

(** ** Properties *)

(** C23. Only an owner who is signed in manages tokens.  A personal access token
    that is presented as the bearer is refused before anybody is asked.  When
    [authenticate] returns, exactly one request was sent, the introspection of
    the bearer token at the realm, and its reply says that the token is active,
    of the configured realm, an access token, and of an interactive session; the
    caller is its subject, with the organizations it claims. *)
Theorem authenticate_caller svc authorization s r s' :
  authenticate svc authorization s = (r, s') →
  (∀ cred, bearer authorization cred → is_well_formed cred = Ok true →
     (∃ d, r = Raise (ManagementError 403 (u "insufficient_scope") d)) ∧ s' = s) ∧
  (s' = s ∨ ∃ cred, bearer authorization cred ∧ is_well_formed cred = Ok false ∧
     s' = (s.1, EvHttp (introspection svc cred) :: s.2)) ∧
  ∀ caller, r = Ok caller → ∃ cred reply claims,
    bearer authorization cred ∧ is_well_formed cred = Ok false ∧
    o_http s.2 (introspection svc cred) = inr reply ∧ rsp_status reply = 200 ∧
    rsp_json reply = Some (JObj claims) ∧ signed_in svc claims caller ∧
    s' = (s.1, EvHttp (introspection svc cred) :: s.2).
Proof. apply authenticate_run. Qed.

(** What a creation may ask for.  A body that is let through names the token
    with 1 to 100 characters, at least one resource, each of them configured and
    accepting personal tokens, only scopes that are offered, each once, and none
    together with [all_permitted_scopes], and a lifetime of at least a day, of at
    most a year unless a longer one is asked for expressly.  Any other body is
    refused with a status 400, but for a resource that [urlsplit] refuses. *)
Theorem parse_create_spec svc body :
  (∀ request, parse_create svc body = Ok request → well_formed_request svc request) ∧
  (∀ e, parse_create svc body = Raise e →
     (∃ code d, e = ManagementError 400 code d) ∨ value_error e ∨ ∃ m, e = AttributeError m).
Proof. split; [apply parse_create_Ok|apply parse_create_raises]. Qed.

(** C11. What a creation makes.  When [create] returns, the record names an
    organization the caller belongs to -- the one asked for, or the only one --,
    the caller as its owner, the resources asked for, and an expiry the requested
    number of days after its creation.  For each of its resources the upstream was
    asked in a trial exchange for that owner and organization, and every scope of
    the record was granted there: the record's scopes are exactly those asked
    for, or, with [all_permitted_scopes], exactly the offered ones that every
    resource granted, of which there is at least one.  The token is well formed,
    and the store gained exactly that record under its hash.  When it raises,
    nothing was stored, unless the insertion itself failed. *)
Theorem create_spec svc `{P : !PatStoreSpec (ps_store svc)} caller request s r s' :
  st_inv s.1 → create svc caller request s = (r, s') →
  match r with
  | Ok (record, token) => created svc caller request s record token s'
  | Raise e => (∃ m, e = DatabaseError m) ∨ st_view s'.1 = st_view s.1
  end.
Proof.
  intros Hi H. destruct (create_run svc _ _ _ _ _ Hi H) as [_ Hr]. destruct r as [[record token]|e]; [done|].
  destruct Hr as [?|[? _]]; auto.
Qed.
End CreateRun.

(** ** A token is created *)
Module PatCreateExamples.
Import PatSamples.

Definition request_body : json := JObj
  [(u "name", JStr (u " ci ")); (u "resources", JArr [JStr (u "https://r0.example/")]);
   (u "all_permitted_scopes", JBool true)].
Definition request : CreateRequest := {|
  cr_name := u "ci"; cr_resources := [u "https://r0.example"]; cr_scopes := [];
  cr_lifetime_days := 90; cr_allow_long_lifetime := false; cr_organization := None;
  cr_all_permitted_scopes := true |}.

Lemma parse_create_spec_witness : parse_create svc request_body = Ok request ∧ well_formed_request svc request.
Proof.
  assert (E : parse_create svc request_body = Ok request) by (vm_compute; reflexivity).
  split; [exact E|]. exact (proj1 (parse_create_spec svc request_body) request E).
Defined.

Lemma authenticate_caller_witness :
  ∃ caller s', authenticate svc (Some (u "Bearer opaque")) empty_table = (Ok caller, s') ∧
    ∃ claims, signed_in svc claims caller.
Proof.
  destruct (authenticate svc (Some (u "Bearer opaque")) empty_table) as [r s'] eqn:E.
  assert (Hr : is_Ok r = true).
  { change r with (r, s').1. rewrite <-E. vm_compute. reflexivity. }
  destruct r as [caller|]; [|discriminate Hr]. exists caller, s'. split; [reflexivity|].
  destruct (authenticate_caller svc (Some (u "Bearer opaque")) empty_table (Ok caller) s' E) as (_ & _ & H).
  destruct (H caller eq_refl) as (cred & reply & claims & _ & _ & _ & _ & _ & Hs & _).
  exists claims. exact Hs.
Defined.

Lemma create_spec_witness :
  ∃ record token s', create svc alice request empty_table = (Ok (record, token), s') ∧
    created svc alice request empty_table record token s'.
Proof.
  destruct (create svc alice request empty_table) as [r s'] eqn:E.
  assert (Hr : is_Ok r = true).
  { change r with (r, s').1. rewrite <-E. vm_compute. reflexivity. }
  destruct r as [[record token]|]; [|discriminate Hr]. exists record, token, s'. split; [reflexivity|].
  apply (create_spec svc alice request empty_table (Ok (record, token)) s').
  - exact PatStoreExamples.empty_ok.
  - exact E.
Defined.

(** A lifetime no calendar holds: the owner is linked and the trial is made, and
    then the date overflows. *)
Example lifetime_overflows :
  let asked := {| cr_name := u "ci"; cr_resources := [u "https://r0.example"]; cr_scopes := [u "read"];
    cr_lifetime_days := 4000000; cr_allow_long_lifetime := true; cr_organization := None;
    cr_all_permitted_scopes := false |} in
  (create svc alice asked empty_table).1 = Raise (OverflowError (u "date value out of range")) ∧
  length (List.filter is_http (create svc alice asked empty_table).2.2) = 4%nat.
Proof. vm_compute. split; reflexivity. Qed.

(** The same resource written twice, once with a slash: it is looked up twice and
    listed twice, and an exchange that names no resource is then refused. *)
Example resource_listed_twice :
  match parse_create svc (JObj [(u "name", JStr (u "ci"));
    (u "resources", JArr [JStr (u "https://r0.example"); JStr (u "https://r0.example/")]);
    (u "scopes", JArr [JStr (u "read")])]) with
  | Ok r => cr_resources r = [u "https://r0.example"; u "https://r0.example"]
  | Raise _ => False
  end.
Proof. vm_compute. reflexivity. Qed.

(** An owner whose only organization has an empty name: the table refuses the
    row, and that is no error the endpoint knows. *)
Example empty_organization_escapes :
  (create svc {| subject := u "bob"; username := JStr []; organizations := [[]] |}
     {| cr_name := u "ci"; cr_resources := [u "https://r0.example"]; cr_scopes := [u "read"];
        cr_lifetime_days := 90; cr_allow_long_lifetime := false; cr_organization := None;
        cr_all_permitted_scopes := false |} empty_table).1
    = Raise (DatabaseError (u "constraint violated")).
Proof. vm_compute. reflexivity. Qed.
End PatCreateExamples.
