(* ===== verification/PatApi.v ===== *)
(** * The management endpoints ([pat_api.py])

    POST, GET and DELETE under [/pat/tokens], and the JWKS.
    [management_effects] is what the three of them can do to the store. *)

From S2P Require Import Prelude PyStr Codec Digest Json Datetime World Errors Logging UrlLib.
From S2P Require Import Uuid Assertion Config Token PatFormat PatStore Keycloak Pat PatExchange PatCreate.

(** [except (ManagementError, OAuthError)]. *)
Definition is_refusal (e : exn) : bool := is_ManagementError e || is_OAuthError e.

Definition www_authenticate : pystr := u "Bearer error=" ++ [dquote] ++ u "invalid_token" ++ [dquote].

Section Api.
Context `{O : Outside, R : Rsa, FR : FloatRepr} {X : Type}.
Implicit Types (svc : PatService X).

Definition _refusal (exc : exn) : io X response :=
  match exc with
  | ManagementError status_code error description | OAuthError error description status_code =>
      let headers := if status_code =? 401 then [(u "WWW-Authenticate", www_authenticate)] else [] in
      _ ← log WARNING [(u "event", JStr (u "pat.management_refused")); (u "error", JStr error)];
      mret (JSONResponse status_code (as_dict error description) headers)
  | _ => raise exc
  end.

(** [body] is what [request.json()] returns, [None] when it raises [ValueError]. *)
Definition create_token svc (authorization : option pystr) (body : option json) : io X response :=
  try_io
    (caller ← authenticate svc authorization;
     request ← lift (parse_create svc (default JNull body));
     '(record, token) ← create svc caller request;
     mret (JSONResponse 201 (JObj ((u "token", JStr token) :: public_view record))
             [(u "Cache-Control", u "no-store")]))
    is_refusal _refusal.

Definition list_tokens svc (authorization : option pystr) : io X response :=
  try_io
    (caller ← authenticate svc authorization;
     records ← list_own svc caller;
     mret (JSONResponse 200 (JObj [(u "tokens", JArr ((λ r, JObj (public_view r)) <$> records))]) []))
    is_refusal _refusal.

Definition revoke_token svc (token_id : pystr) (authorization : option pystr) : io X response :=
  try_io
    (caller ← authenticate svc authorization;
     _ ← revoke svc caller token_id;
     mret (EmptyResponse 204))
    is_refusal _refusal.
End Api.

(** [request.app.state.config.pat.signer.jwks()]. *)
Definition pat_jwks `{R : Rsa} (config : ProxyConfig) : res response :=
  match pat config with
  | Some p => Ok (JSONResponse 200 (jwks (pc_signer p)) [])
  | None => Raise (AttributeError (u "'NoneType' object has no attribute 'signer'"))
  end.

(** ** Lemmas *)

Section Lemmas.
Context `{O : Outside, !OutsideLaws O, R : Rsa, FR : FloatRepr} {X : Type}.
Implicit Types (svc : PatService X) (caller : Caller) (s : state X).

(** The caller of a management request, as introspection answered at [t]. *)
Definition acts_as svc (authorization : option pystr) caller (t : trace) : Prop :=
  ∃ cred reply claims, bearer authorization cred ∧ is_well_formed cred = Ok false ∧
    o_http t (introspection svc cred) = inr reply ∧ rsp_status reply = 200 ∧
    rsp_json reply = Some (JObj claims) ∧ signed_in svc claims caller.

Lemma authenticated svc authorization s caller s' :
  authenticate svc authorization s = (Ok caller, s') → acts_as svc authorization caller s.2 ∧ s'.1 = s.1.
Proof.
  intros H. apply authenticate_run in H as (_ & _ & H).
  destruct (H caller eq_refl) as (cred & reply & claims & ? & ? & ? & ? & ? & ? & ->).
  split; [|done]. by exists cred, reply, claims.
Qed.

Lemma authenticate_state svc authorization s r s' :
  authenticate svc authorization s = (r, s') → s'.1 = s.1.
Proof. intros H. by apply authenticate_run in H as (_ & [->|(c & _ & _ & ->)] & _). Qed.

(** What the [try] of the endpoints makes of a run: it answers a refusal with
    its own status, and lets the rest through. *)
Lemma refusal_run (m : io X response) s r s' :
  try_io m is_refusal _refusal s = (r, s') →
  ∃ r1 s1, m s = (r1, s1) ∧ s'.1 = s1.1 ∧
    match r with
    | Ok y => r1 = Ok y ∧ s' = s1 ∨ ∃ error description status_code headers,
        y = JSONResponse status_code (as_dict error description) headers ∧
        (r1 = Raise (OAuthError error description status_code) ∨
         r1 = Raise (ManagementError status_code error description)) ∧
        (status_code = 401 ↔ headers = [(u "WWW-Authenticate", www_authenticate)])
    | Raise e => r1 = Raise e ∧ is_refusal e = false
    end.
Proof.
  unfold try_io. destruct (m s) as [[y|e] s1] eqn:E; intros H; exists (match m s with (r1, _) => r1 end), s1;
    rewrite E; (split; [done|]).
  - apply pair_eq in H as [<- <-]. split; [done|]. by left.
  - destruct (is_refusal e) eqn:He.
    + assert (Hc : ∀ c : Z, c = 401 ↔ (if c =? 401 then [(u "WWW-Authenticate", www_authenticate)] else [])
        = [(u "WWW-Authenticate", www_authenticate)]).
      { intros c. destruct (Z.eqb_spec c 401); split; try done. }
      destruct e; try discriminate He; revert H; unfold _refusal; io_run; intros [<- <-]%pair_eq;
        (split; [done|]); right; eexists _, _, _, _; (split; [reflexivity|]); (split; [auto|apply Hc]).
    + apply pair_eq in H as [<- <-]. by split.
Qed.

(** A revocation on behalf of a caller. *)
Definition revoked_for svc `{P : !PatStoreSpec (ps_store svc)} caller s (s' : state X) : Prop :=
  ∃ now id, st_view s'.1 = revoke_record now (pc_realm_issuer (ps_pat svc)) (subject caller) id
              <$> st_view s.1.

(** The three endpoints. *)
Inductive management svc (authorization : option pystr) : io X response → Prop :=
  | management_create body : management svc authorization (create_token svc authorization body)
  | management_list : management svc authorization (list_tokens svc authorization)
  | management_revoke id : management svc authorization (revoke_token svc id authorization).

Lemma management_run svc `{P : !PatStoreSpec (ps_store svc)} authorization m s r s' :
  management svc authorization m → st_inv s.1 → m s = (r, s') →
  st_inv s'.1 ∧
  (st_view s'.1 = st_view s.1 ∨ ∃ caller, acts_as svc authorization caller s.2 ∧
     (inserted_for svc caller s s' ∨ revoked_for svc caller s s')).
Proof.
  intros Hm Hi H.
  assert (Hgo : ∀ (body : Caller → io X response),
    (∀ caller s0 r0 s1, acts_as svc authorization caller s.2 → s0.1 = s.1 → body caller s0 = (r0, s1) →
       st_inv s1.1 ∧ (st_view s1.1 = st_view s.1 ∨ inserted_for svc caller s s1 ∨ revoked_for svc caller s s1)) →
    try_io (caller ← authenticate svc authorization; body caller) is_refusal _refusal s = (r, s') →
    st_inv s'.1 ∧ (st_view s'.1 = st_view s.1 ∨ ∃ caller, acts_as svc authorization caller s.2 ∧
      (inserted_for svc caller s s' ∨ revoked_for svc caller s s'))).
  { intros body Hbody Ht. apply refusal_run in Ht as (r1 & s1 & E & Es & _).
    unfold inserted_for, revoked_for. rewrite Es.
    apply run_bind_cases in E as [(e & E & _)|(caller & s0 & E & Hb)].
    - apply authenticate_state in E. rewrite E. split; [done|by left].
    - apply authenticated in E as [Ha E0]. destruct (Hbody _ _ _ _ Ha E0 Hb) as [? [?|?]].
      + split; [done|by left].
      + split; [done|]. right. by exists caller. }
  destruct Hm as [body| |id].
  - eapply Hgo; [|exact H]. intros caller s0 r0 s1 Ha E Hb. rewrite <-E in Hi.
    apply run_bind_cases in Hb as [(e & Hb & _)|(request & s2 & Hb & Hc)];
      unfold lift in Hb; apply pair_eq in Hb as [_ <-]; [rewrite E in *; split; [done|by left]|].
    assert (Hs : ∃ rc sc, create svc caller request s0 = (rc, sc) ∧ sc.1 = s1.1).
    { apply run_bind_cases in Hc as [(e & Hc & _)|([rec tok] & s3 & Hc & Hc')].
      - by exists (Raise e), s1.
      - exists (Ok (rec, tok)), s3. split; [done|]. by apply pair_eq in Hc' as [_ <-]. }
    destruct Hs as (rc & sc & Hcr & Esc). destruct (create_run svc _ _ _ _ _ Hi Hcr) as [Hi' Hr].
    rewrite Esc in Hi'. split; [done|]. unfold inserted_for. rewrite <-Esc.
    destruct rc as [[rec tok]|e].
    + right. left. exists (sha256 tok), rec.
      destruct Hr as (T1 & _ & _ & ? & ? & _ & _ & _ & _ & _ & Hf & Hv & _). rewrite E in *. split_and!; done.
    + destruct Hr as [Hr|[_ (h & rec & ? & ? & ? & Hf & Hv)]]; [left; by rewrite Hr, E|].
      right. left. exists h, rec. rewrite E in *. split_and!; done.
  - eapply Hgo; [|exact H]. intros caller s0 r0 s1 Ha E Hb. rewrite <-E in Hi.
    assert (Hs : ∃ rc sc, list_own svc caller s0 = (rc, sc) ∧ sc.1 = s1.1).
    { apply run_bind_cases in Hb as [(e & Hb & _)|(l & s3 & Hb & Hc')].
      - by exists (Raise e), s1.
      - exists (Ok l), s3. split; [done|]. by apply pair_eq in Hc' as [_ <-]. }
    destruct Hs as (rc & sc & Hl & Esc). unfold list_own in Hl.
    destruct (do_list _ _ _ _ _ _ Hl Hi) as (Hi' & _ & Hv & _). rewrite Esc in Hi', Hv.
    split; [done|]. left. by rewrite Hv, E.
  - eapply Hgo; [|exact H]. intros caller s0 r0 s1 Ha E Hb. rewrite <-E in Hi.
    assert (Hs : ∃ rc sc, revoke svc caller id s0 = (rc, sc) ∧ sc.1 = s1.1).
    { apply run_bind_cases in Hb as [(e & Hb & _)|(l & s3 & Hb & Hc')].
      - by exists (Raise e), s1.
      - exists (Ok l), s3. split; [done|]. by apply pair_eq in Hc' as [_ <-]. }
    destruct Hs as (rc & sc & Hl & Esc).
    destruct (revoke_run svc _ _ _ _ _ Hi Hl) as (Hi' & _ & Hr). rewrite Esc in *.
    split; [done|]. unfold revoked_for. destruct rc as [v|e].
    + destruct Hr as (i & _ & _ & Hv). right. right. rewrite E in Hv. by eexists _, i.
    + destruct Hr as [[_ Hv]|[_ [Hv|(i & Hv)]]]; rewrite E in Hv; [by left|by left|].
      right. right. by eexists _, i.
Qed.
End Lemmas.

(** ** Properties *)

Section ApiProperties.
Context `{O : Outside, !OutsideLaws O, R : Rsa, FR : FloatRepr} {X : Type}.
Implicit Types (svc : PatService X) (caller : Caller) (s : state X).

(** C32. What the management endpoints can do to the store.  Whichever of the three
    is called, with whatever header and body, and whether it answers or raises:
    the store is as it was, or introspection named the bearer a signed-in caller,
    and either one token was added, which that caller owns, in the configured
    realm and an organization of the caller's; or an unrevoked token of that
    caller's was marked revoked.  Nobody's else token is touched. *)
Theorem management_effects svc `{P : !PatStoreSpec (ps_store svc)} authorization m s r s' :
  management svc authorization m → st_inv s.1 → m s = (r, s') →
  st_view s'.1 = st_view s.1 ∨
  ∃ caller, acts_as svc authorization caller s.2 ∧
    ((∃ h record, pr_owner_sub record = subject caller ∧
        pr_realm_issuer record = pc_realm_issuer (ps_pat svc) ∧ pr_tenant record ∈ organizations caller ∧
        st_view s.1 !! h = None ∧ st_view s'.1 = <[h := stored record]> (st_view s.1)) ∨
     (∃ now id, st_view s'.1 = revoke_record now (pc_realm_issuer (ps_pat svc)) (subject caller) id
                  <$> st_view s.1)).
Proof. intros Hm Hi H. by destruct (management_run svc _ _ _ _ _ Hm Hi H) as [_ ?]. Qed.

(** How the management endpoints refuse.  No [ManagementError] and no OAuth
    error leaves a handler: each becomes the JSON body with its own status, and
    exactly a 401 carries the challenge.  Without a signed-in owner -- no bearer
    token, a personal access token, a token introspection does not vouch for --
    the refusal of [authenticate] is the answer and the program state is as it
    was. *)
Theorem management_refuses svc authorization m s r s' :
  management svc authorization m → m s = (r, s') →
  match r with
  | Ok y => (∃ content headers, y = JSONResponse 200 content headers ∨ y = JSONResponse 201 content headers)
      ∨ y = EmptyResponse 204 ∨
      ∃ error description status_code headers,
        y = JSONResponse status_code (as_dict error description) headers ∧
        (status_code = 401 ↔ headers = [(u "WWW-Authenticate", www_authenticate)])
  | Raise e => is_refusal e = false
  end ∧
  ∀ error description status_code s1,
    authenticate svc authorization s = (Raise (ManagementError status_code error description), s1) →
    s'.1 = s.1 ∧ ∃ headers, r = Ok (JSONResponse status_code (as_dict error description) headers).
Proof.
  intros Hm H.
  assert (Hgo : ∀ (body : Caller → io X response),
    (∀ caller s0 y s1, body caller s0 = (Ok y, s1) →
       (∃ content headers, y = JSONResponse 200 content headers ∨ y = JSONResponse 201 content headers)
       ∨ y = EmptyResponse 204) →
    try_io (caller ← authenticate svc authorization; body caller) is_refusal _refusal s = (r, s') →
    match r with
    | Ok y => (∃ content headers, y = JSONResponse 200 content headers ∨ y = JSONResponse 201 content headers)
        ∨ y = EmptyResponse 204 ∨
        ∃ error description status_code headers,
          y = JSONResponse status_code (as_dict error description) headers ∧
          (status_code = 401 ↔ headers = [(u "WWW-Authenticate", www_authenticate)])
    | Raise e => is_refusal e = false
    end ∧
    ∀ error description status_code s1,
      authenticate svc authorization s = (Raise (ManagementError status_code error description), s1) →
      s'.1 = s.1 ∧ ∃ headers, r = Ok (JSONResponse status_code (as_dict error description) headers)).
  { intros body Hbody Ht. apply refusal_run in Ht as (r1 & s1 & E & Es & Hr). split.
    - destruct r as [y|e]; [|by destruct Hr]. destruct Hr as [[-> _]|(er & d & st & h & -> & _ & Hh)].
      + apply run_bind_Ok in E as (caller & s0 & _ & E). destruct (Hbody _ _ _ _ E); auto.
      + right. right. by exists er, d, st, h.
    - intros er d st s2 Ha. apply run_bind_cases in E as [(e & E & ->)|(c & s0 & E & _)].
      + rewrite Ha in E. apply pair_eq in E as [E <-]. injection E as <-.
        split; [rewrite Es; by eapply authenticate_state|]. destruct r as [y|e].
        * destruct Hr as [[? _]|(er' & d' & st' & h & -> & Hr & _)]; [done|].
          destruct Hr as [Hr|Hr]; [done|]. injection Hr as -> -> ->. by exists h.
        * destruct Hr as [Hr He]. injection Hr as <-. discriminate He.
      + rewrite Ha in E. by apply pair_eq in E as [? _]. }
  destruct Hm as [body| |id]; (eapply Hgo; [|exact H]); intros caller s0 y s1 E.
  - apply run_bind_Ok in E as (request & s2 & _ & E). apply run_bind_Ok in E as ([rec tok] & s3 & _ & E).
    apply pair_eq in E as [<-%Ok_inj _]. left. eexists _, _. by right.
  - apply run_bind_Ok in E as (l & s3 & _ & E). apply pair_eq in E as [<-%Ok_inj _].
    left. eexists _, _. by left.
  - apply run_bind_Ok in E as ([] & s3 & _ & E). apply pair_eq in E as [<-%Ok_inj _].
    by right.
Qed.

(** A creation shows the token once, and stores its hash.  When POST
    [/pat/tokens] answers 201, the body is the token and the public view of a
    record that [create] made for the signed-in caller and a body that
    [parse_create] let through, marked not to be stored; GET [/pat/tokens]
    answers 200 with the public views of exactly the caller's records, each once,
    in the order of their creation. *)
Theorem endpoints_answer svc `{P : !PatStoreSpec (ps_store svc)} authorization s s' content headers :
  st_inv s.1 →
  (∀ body, create_token svc authorization body s = (Ok (JSONResponse 201 content headers), s') →
     (∃ caller request record token s1, acts_as svc authorization caller s.2 ∧ s1.1 = s.1 ∧
        well_formed_request svc request ∧ created svc caller request s1 record token s' ∧
        content = JObj ((u "token", JStr token) :: public_view record) ∧
        headers = [(u "Cache-Control", u "no-store")]) ∨
     ∃ error description, content = as_dict error description) ∧
  (list_tokens svc authorization s = (Ok (JSONResponse 200 content headers), s') →
     (∃ caller l, acts_as svc authorization caller s.2 ∧
        content = JObj [(u "tokens", JArr ((λ r, JObj (public_view r)) <$> l))] ∧
        Sorted.Sorted listed_before l ∧ NoDup (pr_id <$> l) ∧
        ∀ x, x ∈ l ↔ owned (pc_realm_issuer (ps_pat svc)) (subject caller) x = true ∧
                       ∃ h, st_view s.1 !! h = Some x) ∨
     ∃ error description, content = as_dict error description).
Proof.
  intros Hi. split.
  - intros body H. apply refusal_run in H as (r1 & s1 & E & _ & [[-> ->]|(er & d & st & h & Ey & _)]).
    2: { injection Ey as _ -> _. right. by eexists _, _. }
    left. apply run_bind_Ok in E as (caller & s2 & E & H). apply authenticated in E as [Ha E2].
    apply run_bind_Ok in H as (request & s3 & Hp & H). unfold lift in Hp. apply pair_eq in Hp as [Hp <-].
    apply parse_create_Ok in Hp. apply run_bind_Ok in H as ([rec tok] & s4 & Hc & H).
    apply pair_eq in H as [H <-]. apply Ok_inj in H. injection H as <- <-.
    rewrite <-E2 in Hi. destruct (create_run svc _ _ _ _ _ Hi Hc) as [_ Hcr].
    by exists caller, request, rec, tok, s2.
  - intros H. apply refusal_run in H as (r1 & s1 & E & _ & [[-> ->]|(er & d & st & h & Ey & _)]).
    2: { injection Ey as _ -> _. right. by eexists _, _. }
    left. apply run_bind_Ok in E as (caller & s2 & E & H). apply authenticated in E as [Ha E2].
    apply run_bind_Ok in H as (l & s3 & Hl & H). apply pair_eq in H as [H _]. apply Ok_inj in H.
    injection H as <- _. rewrite <-E2 in Hi. destruct (do_list _ _ _ _ _ _ Hl Hi) as (_ & _ & _ & Hv).
    rewrite E2 in Hv. by exists caller, l.
Qed.
End ApiProperties.

(** ** The endpoints run *)
Module PatApiExamples.
Import PatSamples.

Definition authorization : option pystr := Some (u "bearer opaque").

Lemma management_effects_witness :
  ∃ r s', revoke_token svc (str_uuid 5) authorization with_token = (r, s') ∧ r = Ok (EmptyResponse 204) ∧
    (st_view (S := ps_store svc) s'.1 = st_view (S := ps_store svc) with_token.1 ∨
     ∃ caller, acts_as svc authorization caller []).
Proof.
  destruct (revoke_token svc (str_uuid 5) authorization with_token) as [r s'] eqn:E.
  exists r, s'. split; [reflexivity|]. split.
  - change r with (r, s').1. rewrite <-E. vm_compute. reflexivity.
  - destruct (management_effects svc authorization (revoke_token svc (str_uuid 5) authorization)
      with_token r s') as [H|(caller & Ha & _)].
    + apply management_revoke.
    + exact with_token_ok.
    + exact E.
    + left. exact H.
    + right. exists caller. exact Ha.
Defined.

(** A personal access token as the bearer. *)
Definition pat_bearer : option pystr := Some (u "Bearer " ++ sample_token).
Lemma management_refuses_witness :
  ∃ error description headers,
    (list_tokens svc pat_bearer with_token).1 = Ok (JSONResponse 403 (as_dict error description) headers).
Proof.
  destruct (list_tokens svc pat_bearer with_token) as [r s'] eqn:E.
  assert (Ha : ∃ s1, authenticate svc pat_bearer with_token = (Raise (ManagementError 403
    (u "insufficient_scope") (u "a personal access token cannot manage tokens; sign in interactively")), s1)).
  { eexists. vm_compute. reflexivity. }
  destruct Ha as [s1 Ha].
  destruct (proj2 (management_refuses svc pat_bearer (list_tokens svc pat_bearer) with_token r s'
    (management_list _ _) E) _ _ _ _ Ha) as [_ [headers ->]].
  eexists _, _, headers. reflexivity.
Defined.

Lemma endpoints_answer_witness :
  ∃ content s', list_tokens svc authorization with_token = (Ok (JSONResponse 200 content []), s') ∧
    ((∃ caller l, acts_as svc authorization caller [] ∧
        content = JObj [(u "tokens", JArr ((λ r, JObj (public_view r)) <$> l))]) ∨
     ∃ error description, content = as_dict error description).
Proof.
  destruct (list_tokens svc authorization with_token) as [r s'] eqn:E.
  assert (Hr : ∃ content, r = Ok (JSONResponse 200 content [])).
  { change r with (r, s').1. rewrite <-E. vm_compute. eexists. reflexivity. }
  destruct Hr as [content ->]. exists content, s'. split; [reflexivity|].
  destruct (endpoints_answer svc authorization with_token s' content []) as [_ Hl]; [exact with_token_ok|].
  destruct (Hl E) as [(caller & l & Ha & Hc & _)|H].
  - left. exists caller, l. split; [exact Ha|exact Hc].
  - right. exact H.
Defined.

Example jwks_served : pat_jwks config = Ok (JSONResponse 200 (jwks (pc_signer (ps_pat svc))) []).
Proof. vm_compute. reflexivity. Qed.
End PatApiExamples.
