(* ===== verification/PatFlow.v ===== *)
(** * A personal access token, from creation to use

    [created_token_exchanges] puts the management endpoint, the table and the
    token endpoint together: a token that was created, and not revoked since,
    buys a short-lived token at [/token]. *)

From S2P Require Import Prelude PyStr Codec Digest Json Datetime World Errors UrlLib Envelope.
From S2P Require Import Uuid Assertion Config Token PatFormat PatStore Keycloak Pat PatExchange PatCreate.

(** The statements run when the database lets them. *)
Section Statements.
Context `{O : Outside} {X : Type} `{D : HasDb X}.
Implicit Types (s : state X).

Lemma find_runs h s :
  o_db s.2 (SFindByHash h) = DbRuns → db_inv s.1 →
  ∃ s1, pg_find_by_hash h s = (Ok (db_view s.1 !! h), s1) ∧ s1.2 = EvStore (SFindByHash h) :: s.2 ∧
    db_inv s1.1 ∧ db_view s1.1 = db_view s.1.
Proof.
  intros Ho Hi. destruct (pg_find_by_hash h s) as [r s1] eqn:E.
  destruct (do_find PostgresPatStore (P := postgres_spec) h s r s1 E Hi) as (Hi1 & Ht & Hv & Hr).
  exists s1. split; [|done]. destruct r as [o|e]; [by rewrite Hr|]. exfalso. revert E.
  unfold pg_find_by_hash, statement. io_run. rewrite Ho. io_run. by intros [? _]%pair_eq.
Qed.

Lemma touch_runs id t s :
  o_db s.2 (STouch id t) = DbRuns →
  ∃ s1, pg_touch id t s = (Ok tt, s1).
Proof.
  intros Ho. unfold pg_touch, statement. io_run. rewrite Ho. io_run. by eexists.
Qed.
End Statements.

Section Flow.
Context `{O : Outside, !OutsideLaws O, R : Rsa, !RsaLaws R, F : Fernet, FR : FloatRepr}.
Context {X : Type} `{D : HasDb X}.
Implicit Types (s : state X) (key : fkey).

(** The service over PostgreSQL. *)
Context (config : ProxyConfig) (p : PatConfig) (kc : KeycloakClient).
Let svc : PatService X :=
  {| ps_config := config; ps_pat := p; ps_store := PostgresPatStore; ps_keycloak := kc |}.
Let spec : PatStoreSpec (ps_store svc) := postgres_spec.
#[local] Existing Instance spec.

(** What the configuration is made of can be written into a token, and the
    active key exists; see [load_config_ok]. *)
Definition signer_text : Prop :=
  signer_ok (pc_signer p) ∧ Forall (λ k, str_ok (kid k) = true) (signer_keys (pc_signer p)) ∧
  str_ok (signer_issuer (pc_signer p)) = true.

Lemma sign_succeeds sub aud s :
  signer_text → str_ok sub = true → str_ok aud = true → 0 <= o_time s.2 < 2 ^ 63 →
  ∃ assertion t, sign (pc_signer p) sub aud 60 s = (Ok assertion, (s.1, t)).
Proof.
  intros (H1 & H2 & H3) Hs Ha Ht. destruct (sign (pc_signer p) sub aud 60 s) as [r s1] eqn:E.
  apply sign_run in E; try done. rewrite decide_True in E by lia.
  destruct E as (tok & k & h & c & -> & _ & _ & _ & _ & _ & ->). by eexists _, _.
Qed.

(** The upstream grants at [entry]: whatever assertion is presented, the answer
    is [d]. *)
Definition grants (record : PatRecord) (entry : ResourceEntry) (d : dict json) : Prop :=
  ∀ t assertion, o_http t (grant_request svc record entry assertion)
    = inr (HttpResponse 200 (Some (JObj d))).

Lemma exchange_succeeds token x resource entry d s :
  db_inv s.1 → (∀ t c, o_db t c = DbRuns) → (∀ t, 0 <= o_time t < 2 ^ 63) →
  signer_text → str_ok (pr_owner_sub x) = true → str_ok (re_issuer entry) = true →
  is_well_formed token = Ok true → db_view s.1 !! sha256 token = Some x →
  pr_revoked_at x = None →
  o_now (looked_up (sha256 token) s.2) < dt_instant (pr_expires_at x) →
  pr_realm_issuer x = pc_realm_issuer p → pr_tenant x ≠ [] →
  resource_by_url config resource = Ok (Some entry) → re_url entry ∈ pr_resources x →
  accepts_pat entry = true → re_issuer entry = pr_realm_issuer x →
  grants x entry d →
  ∃ s', pat_exchange svc (Some token) (Some ACCESS_TOKEN_TYPE) None (Some resource) s
    = (Ok (short_token d), s').
Proof.
  intros Hi Hdb Htime Hsig Hsub Hiss Hw Hx Hrev Hexp Hrealm Hten Hres Hin Hacc Hei Hg.
  assert (Hne : token ≠ []) by by intros ->.
  unfold pat_exchange. unfold mbind, io_bind, lift.
  rewrite (proj2 (check_params_Ok (Some token) (Some ACCESS_TOKEN_TYPE) None token)) by eauto 10.
  rewrite (token_hash_well_formed token Hw).
  destruct (find_runs (sha256 token) s (Hdb _ _) Hi) as (s1 & Hf & Ht1 & Hi1 & Hv1).
  cbn [ps_store svc PostgresPatStore store_find_by_hash]. rewrite Hf, Hx.
  unfold utc_now, ask. rewrite Ht1. change (EvStore (SFindByHash (sha256 token)) :: s.2) with (looked_up (sha256 token) s.2).
  rewrite (proj2 (check_record_Ok svc x (at_utc (o_now (looked_up (sha256 token) s.2)))))
    by (split_and!; done).
  rewrite (resolve_named_intro svc x resource entry Hres Hin Hacc Hei).
  destruct (sign_succeeds (pr_owner_sub x) (re_issuer entry) (s1.1, EvNow :: looked_up (sha256 token) s.2))
    as (assertion & t & Hs); try done.
  unfold MAX_ASSERTION_LIFETIME. cbn [ps_pat svc]. rewrite Hs. unfold present, mbind, io_bind, lift.
  unfold jwt_bearer_grant, _post, send. io_run.
  pose proof (Hg t assertion) as Hgt. unfold grant_request in Hgt. cbn [ps_keycloak svc] in *. rewrite Hgt. io_run.
  cbn [_json rsp_json rsp_status negb]. io_run.
  change (negb (200 =? 200)) with false. cbv beta iota.
  match goal with |- context [store_touch ?S ?i ?n ?st] => destruct (touch_runs i n st (Hdb _ _)) as (s3 & E3) end.
  cbn [ps_store svc PostgresPatStore store_touch].
  rewrite E3. io_run. by eexists.
Qed.

(** C5. A token that was created works until it is revoked or expires.  Say a
    creation returned a token, and whatever was done to the table since, its
    record carries no revocation and its expiry lies ahead.  Then a token exchange
    at [/token] that presents the token and names one of its resources -- still
    configured, with a client for personal tokens, in the same realm -- is
    answered with status 200, not to be stored: the payload with which the
    upstream answers the grant, without a refresh token.  The database answers
    and the upstream grants, by hypothesis. *)
Theorem created_token_exchanges key caller request record token resource entry d f s0 s1 s2 :
  db_inv s0.1 → create svc caller request s0 = (Ok (record, token), s1) →
  rtc (step PostgresPatStore) s1 s2 →
  (∀ x, db_view s2.1 !! sha256 token = Some x → pr_revoked_at x = None) →
  o_now (looked_up (sha256 token) s2.2) < dt_instant (pr_expires_at record) →
  resource_by_url config resource = Ok (Some entry) → re_url entry ∈ cr_resources request →
  accepts_pat entry = true → re_issuer entry = pc_realm_issuer p →
  signer_text → str_ok (subject caller) = true → str_ok (re_issuer entry) = true →
  (∀ t c, o_db t c = DbRuns) → (∀ t, 0 <= o_time t < 2 ^ 63) →
  (∀ x, pr_scopes x = pr_scopes record → pr_tenant x = pr_tenant record → grants x entry d) →
  tf_grant_type f = Some TOKEN_EXCHANGE → tf_subject_token f = Some token →
  tf_subject_token_type f = Some ACCESS_TOKEN_TYPE → tf_requested_token_type f = None →
  tf_resource f = Some resource →
  ∃ s3, Token.token config key (Some (exchange_service svc)) f s2
    = (Ok (JSONResponse 200 (JObj (short_token d)) [(u "Cache-Control", u "no-store")]), s3).
Proof.
  intros Hi Hc H12 Hrev Hexp Hres Hin Hacc Hiss Hsig Hsub Hiok Hdb Htime Hg Fg Ft Ftt Frt Fr.
  destruct (create_run svc (P := spec) _ _ _ _ _ Hi Hc) as [Hi1 Hcr].
  destruct Hcr as (_ & _ & _ & Hrealm & Hown & _ & Hrs & _ & _ & Hw & _ & Hv & Hadm).
  destruct (steps_advance PostgresPatStore (P := postgres_spec) _ _ H12 Hi1) as [Hi2 Hev].
  destruct (Hev (sha256 token) (stored record)) as (x & Hx & Hxe).
  { cbn in Hv |- *. by rewrite Hv, lookup_insert_eq. }
  destruct Hxe as (_ & Ht & Hr & Ho & _ & Hres' & Hsc & _ & He & _). cbn in Ht, Hr, Ho, Hres', Hsc, He.
  destruct (exchange_succeeds token x resource entry d s2) as [s3 H3]; try done.
  - by rewrite <-Ho, Hown.
  - by apply Hrev.
  - by rewrite <-He.
  - by rewrite <-Hr, Hrealm.
  - rewrite <-Ht. intros E. unfold admissible in Hadm. rewrite E in Hadm. discriminate Hadm.
  - by rewrite <-Hres', Hrs.
  - by rewrite Hiss, <-Hr, Hrealm.
  - by apply Hg.
  - exists s3. apply token_exchange_run; [done|]. cbn [exchange_service exchange].
    by rewrite Ft, Ftt, Frt, Fr.
Qed.
End Flow.

(** ** Created at the management endpoint, used at the token endpoint *)
Module PatFlowExamples.
Import PatSamples.
#[local] Existing Instance ToyFernet.fernet.
#[local] Existing Instance AssertionExamples.toy_rsa_laws.

Definition request : CreateRequest := {|
  cr_name := u "ci"; cr_resources := [u "https://r0.example"]; cr_scopes := [u "read"];
  cr_lifetime_days := 90; cr_allow_long_lifetime := false; cr_organization := None;
  cr_all_permitted_scopes := false |}.
Definition key : fkey := true.
Definition p : PatConfig := default no_pat (pat config).
Definition made : res (PatRecord * pystr) * state database :=
  Eval vm_compute in create svc alice request empty_table.
Definition record : PatRecord :=
  match made.1 with Ok (r, _) => r | Raise _ => PatStoreExamples.sample_record end.
Lemma made_runs : create svc alice request empty_table = (Ok (record, sample_token), made.2).
Proof. vm_compute. reflexivity. Qed.

Definition sample_entry : ResourceEntry :=
  match resource_by_url config (u "https://r0.example") with
  | Ok (Some e) => e
  | _ => {| re_url := []; re_issuer := []; re_client_id := []; re_client_secret := [];
            re_pat_client_id := []; re_pat_client_secret := [] |}
  end.
Definition form : TokenForm := {|
  tf_grant_type := Some TOKEN_EXCHANGE; tf_code := None; tf_code_verifier := None;
  tf_redirect_uri := None; tf_client_id := None; tf_refresh_token := None; tf_scope := None;
  tf_subject_token := Some sample_token; tf_subject_token_type := Some ACCESS_TOKEN_TYPE;
  tf_requested_token_type := None; tf_resource := Some (u "https://r0.example") |}.

Lemma created_token_exchanges_witness :
  ∃ s3, Token.token config key (Some (exchange_service svc)) form made.2
    = (Ok (JSONResponse 200 (JObj (short_token issued)) [(u "Cache-Control", u "no-store")]), s3).
Proof.
  apply (created_token_exchanges config p keycloak key alice request record sample_token
    (u "https://r0.example") sample_entry issued form empty_table made.2 made.2).
  - exact PatStoreExamples.empty_ok.
  - exact made_runs.
  - apply rtc_refl.
  - intros x Hx. assert (E : db_view made.2.1 !! sha256 sample_token = Some (stored record)) by (vm_compute; reflexivity).
    rewrite E in Hx. by injection Hx as <-.
  - vm_compute. reflexivity.
  - vm_compute. reflexivity.
  - apply (bool_decide_unpack _). vm_compute. exact I.
  - vm_compute. reflexivity.
  - vm_compute. reflexivity.
  - split; [|split].
    + eexists. vm_compute. reflexivity.
    + apply (bool_decide_unpack _). vm_compute. exact I.
    + vm_compute. reflexivity.
  - vm_compute. reflexivity.
  - vm_compute. reflexivity.
  - reflexivity.
  - intros t. split; vm_compute; [discriminate|reflexivity].
  - intros x _ _ t a. vm_compute. reflexivity.
  - reflexivity.
  - reflexivity.
  - reflexivity.
  - reflexivity.
  - reflexivity.
Defined.
End PatFlowExamples.
