(* ===== verification/Interleave.v ===== *)
(** * Requests that interleave

    An [await] lets other requests run.  What they share is the document cache
    and the token table; this file takes the two operations apart at the awaits
    in their middle.

    [obtain] is two sections with a fetch between them ([obtain_sections]); any
    number of calls, their sections interleaved in any order, keep the cache in
    order ([interleaved_documents]).  A store is [busy] when before each of its
    statements others may have run; [interleaved_exchange] is what a token
    exchange over such a store still guarantees. *)

From S2P Require Import Prelude PyStr Codec Digest Json Datetime World Errors Assertion Cache Fetcher.
From S2P Require Import CimdService Config PatFormat PatStore Keycloak Pat PatExchange.

(** ** Documents *)

Section Documents.
Context `{O : Outside} {X : Type} `{HC : HasCache X}.
Implicit Types (svc : CimdService) (s : state X).

(** Up to the reply: a hit in the cache, or what was fetched. *)
Definition obtain_start svc (url : pystr) : io X (CimdDocument + FetchResult) :=
  cached ← service_get url;
  match cached with
  | Some d => mret (inl d)
  | None => result ← fetch (cs_fetcher svc) url; mret (inr result)
  end.

(** What is done once it is there. *)
Definition obtain_end svc (url : pystr) (got : CimdDocument + FetchResult) : io X CimdDocument :=
  match got with
  | inl d => mret d
  | inr result =>
      let ttl := choose_ttl (doc_cache_control (fr_document result))
                   (cache_ttl_min svc) (cache_ttl_max svc) None in
      _ ← service_put url (fr_document result) ttl;
      mret (fr_document result)
  end.

(** Without anything in between the two sections are [obtain]. *)
Lemma obtain_sections svc url s :
  obtain svc url s = (got ← obtain_start svc url; obtain_end svc url got) s.
Proof.
  unfold obtain, obtain_start, obtain_end, mbind, io_bind.
  destruct (service_get url s) as [[[d|]|e] s1]; try done.
  by destruct (fetch (cs_fetcher svc) url s1) as [[res|e] s2].
Qed.

(** A call under way, or one that has returned. *)
Inductive call := Waiting (url : pystr) (got : CimdDocument + FetchResult)
  | Returned (url : pystr) (d : CimdDocument).

Inductive docs_step svc : state X * list call → state X * list call → Prop :=
  | docs_start url s got s' calls :
      obtain_start svc url s = (Ok got, s') → docs_step svc (s, calls) (s', Waiting url got :: calls)
  | docs_refused url s e s' calls :
      obtain_start svc url s = (Raise e, s') → docs_step svc (s, calls) (s', calls)
  | docs_end before url got after s d s' :
      obtain_end svc url got s = (Ok d, s') →
      docs_step svc (s, before ++ Waiting url got :: after) (s', before ++ Returned url d :: after)
  | docs_other s s' calls :
      the_cache s'.1 = the_cache s.1 → docs_step svc (s, calls) (s', calls).

Context {HL : HasCacheLaws HC}.

Definition got_valid (url : pystr) (got : CimdDocument + FetchResult) : Prop :=
  valid_document url match got with inl d => d | inr result => fr_document result end.
Definition call_valid (c : call) : Prop :=
  match c with Waiting url got => got_valid url got | Returned url d => valid_document url d end.

Lemma obtain_start_run svc url s r s' :
  cache_valid (the_cache s.1) → obtain_start svc url s = (r, s') →
  cache_valid (the_cache s'.1) ∧ ∀ got, r = Ok got → got_valid url got.
Proof.
  intros Hinv. unfold obtain_start, service_get. io_run.
  destruct (cache_get_valid _ (o_monotonic s.2) url Hinv) as [Hc Hv].
  destruct (cache_get (the_cache s.1) (o_monotonic s.2) url) as [v c]. cbn [fst snd] in *. io_run.
  destruct v as [d|]; io_run.
  { intros [<- <-]%pair_eq. cbn [fst snd]. rewrite the_cache_with. split; [done|].
    intros got <-%Ok_inj. by apply Hv. }
  destruct (fetch (cs_fetcher svc) url _) as [[res|e] s1] eqn:Hf; intros [<- <-]%pair_eq;
    apply fetch_run in Hf as [Hs1 Hd]; cbn [fst snd] in *; rewrite Hs1, the_cache_with; (split; [done|]); [|done].
  intros got <-%Ok_inj. destruct Hd as [(?&_&_&?)|(?&?&?&_&_&_&_&_&Hd)]; [done|]. by apply Hd.
Qed.

Lemma obtain_end_run svc url got s r s' :
  cache_valid (the_cache s.1) → got_valid url got → obtain_end svc url got s = (r, s') →
  cache_valid (the_cache s'.1) ∧ ∀ d, r = Ok d → valid_document url d.
Proof.
  intros Hinv Hg. unfold obtain_end, service_put. destruct got as [d|res].
  { intros [<- <-]%pair_eq. split; [done|]. by intros d' <-%Ok_inj. }
  destruct (_ <=? 0); io_run; intros [<- <-]%pair_eq; cbn [fst snd].
  - split; [done|]. by intros d <-%Ok_inj.
  - rewrite the_cache_with. split; [by apply cache_put_valid|]. by intros d <-%Ok_inj.
Qed.

Lemma docs_step_valid svc c c' :
  docs_step svc c c' → cache_valid (the_cache c.1.1) ∧ Forall call_valid c.2 →
  cache_valid (the_cache c'.1.1) ∧ Forall call_valid c'.2.
Proof.
  intros [url s got s' calls H|url s e s' calls H|before url got after s d s' H|s s' calls E] [Hc Hf];
    cbn [fst snd] in *.
  - apply obtain_start_run in H as [? Hg]; [|done]. split; [done|]. constructor; [by apply Hg|done].
  - by apply obtain_start_run in H as [? _].
  - apply Forall_app in Hf as [Hb [Hg Ha]%Forall_cons].
    apply (obtain_end_run _ _ _ _ _ _ Hc Hg) in H as [? Hd]. split; [done|].
    apply Forall_app. split; [done|]. constructor; [by apply Hd|done].
  - by rewrite E.
Qed.

(** C21. Documents under concurrent requests.  Let any number of calls of
    [obtain] be under way, for equal or different URLs, each at its own point:
    before the lookup, waiting for its fetch, or back.  However their sections
    interleave and whatever time passes in between, the cache holds only
    validated documents, each under its own URL, and every call that has
    returned has returned a validated document for the URL it was asked for. *)
Theorem interleaved_documents svc s s' calls :
  cache_valid (the_cache s.1) → rtc (docs_step svc) (s, []) (s', calls) →
  cache_valid (the_cache s'.1) ∧
  ∀ url d, Returned url d ∈ calls → valid_document url d ∧
    Forall (λ uri, RedirectUri.accept_registered uri = Ok tt) (doc_redirect_uris d).
Proof.
  intros Hc H. cut (cache_valid (the_cache s'.1) ∧ Forall call_valid calls).
  - intros [? Hf]. split; [done|]. intros url d Hd. rewrite Forall_forall in Hf.
    pose proof (Hf _ Hd) as Hv. split; [done|]. by eapply valid_document_uris.
  - change (cache_valid (the_cache (s', calls).1.1) ∧ Forall call_valid (s', calls).2).
    revert H. generalize (s', calls). intros c H. apply (rtc_ind_r (λ c, cache_valid (the_cache c.1.1) ∧
      Forall call_valid c.2) (s, []) (ltac:(done)) (λ c1 c2 _ H12 IH, docs_step_valid _ _ _ H12 IH) c H).
Qed.
End Documents.

(** ** The token table *)

Section BusyStore.
Context `{O : Outside} {X : Type}.
Implicit Types (s : state X).

(** What others do while a statement is awaited. *)
Definition others (env : state X → state X) : io X unit := λ s, (Ok tt, env s).

(** A store whose statements run after others had their turn. *)
Definition busy (env : state X → state X) (S : PatStore X) : PatStore X := {|
  store_insert record hash := _ ← others env; store_insert S record hash;
  store_find_by_hash hash := _ ← others env; store_find_by_hash S hash;
  store_list_for_owner issuer owner := _ ← others env; store_list_for_owner S issuer owner;
  store_revoke issuer owner id := _ ← others env; store_revoke S issuer owner id;
  store_touch id t := _ ← others env; store_touch S id t
|}.

(** The others go through the store, and time passes. *)
Definition fair (S : PatStore X) (env : state X → state X) : Prop := ∀ s, rtc (step S) s (env s).
End BusyStore.

Section BusyExchange.
Context `{O : Outside, R : Rsa, FR : FloatRepr} {X : Type}.
Implicit Types (svc : PatService X) (s : state X).

Definition among env svc : PatService X := {|
  ps_config := ps_config svc; ps_pat := ps_pat svc; ps_store := busy env (ps_store svc);
  ps_keycloak := ps_keycloak svc |}.

Context svc `{P : !PatStoreSpec (ps_store svc)} (env : state X → state X)
  (Henv : fair (ps_store svc) env).
Notation moves := (rtc (step (ps_store svc))).

Lemma moves_env s s' : moves s s' → moves s (env s').
Proof using Henv. intros H. etrans; [exact H|apply Henv]. Qed.

Lemma moves_call c s s1 r s' : moves s s1 → store_do (ps_store svc) c s1 = (r, s') → moves s s'.
Proof. intros H Hc. etrans; [exact H|]. eapply rtc_once, step_call, Hc. Qed.

Lemma moves_other s s1 s' : moves s s1 → s'.1 = s1.1 → moves s s'.
Proof. intros H E. etrans; [exact H|]. by apply rtc_once, step_other. Qed.

(** The grant among others: the store only moves on, and a payload is the
    trimmed reply to the request. *)
Lemma present_among record entry now assertion s s1 r s' :
  moves s s1 → present (among env svc) record entry now assertion s1 = (r, s') →
  moves s s' ∧ ∀ payload, r = Ok payload →
    ∃ reply d, o_http s1.2 (grant_request svc record entry assertion) = inr reply ∧
      rsp_status reply = 200 ∧ rsp_json reply = Some (JObj d) ∧ payload = short_token d.
Proof using Henv.
  intros Hm. unfold present, jwt_bearer_grant. unfold mbind at 1, io_bind at 1.
  destruct (_post _ _ _ _ s1) as [rp s2] eqn:Epost. apply post_run in Epost as [-> Hrp].
  cbn [among ps_keycloak] in Hrp |- *. fold (grant_request svc record entry assertion) in *.
  assert (Hm2 : ∀ t, moves s (s1.1, t)) by (intros t; by eapply moves_other).
  destruct rp as [reply|e]; [|intros [<- <-]%pair_eq; by split].
  unfold _json. destruct (rsp_json reply) as [[| | | | | |d]|] eqn:Ej; io_run;
    try (intros [<- <-]%pair_eq; by split).
  destruct (Z.eqb_spec (rsp_status reply) 200) as [E200|]; cbn [negb]; io_run;
    [|intros [<- <-]%pair_eq; by split].
  cbn [among ps_store busy store_touch]. unfold others, mbind at 1, io_bind at 1.
  set (s3 := env _). assert (Hm3 : moves s s3) by apply moves_env, Hm2.
  destruct (store_touch (ps_store svc) _ _ s3) as [rt s4] eqn:Et.
  assert (Hm4 : moves s s4).
  { eapply (moves_call (STouch (pr_id record) (at_utc now)) _ _ (match rt with Ok _ => Ok AUnit | Raise e => Raise e end)).
    - exact Hm3.
    - cbn [store_do]. unfold fmap, io_fmap. rewrite Et. by destruct rt. }
  destruct rt as [[]|e]; intros [<- <-]%pair_eq; (split; [|]).
  - by eapply moves_other.
  - intros payload <-%Ok_inj. by exists reply, d.
  - done.
  - done.
Qed.

Lemma exchange_among st stt rtt resource s r s' :
  st_inv s.1 → pat_exchange (among env svc) st stt rtt resource s = (r, s') →
  moves s s' ∧ ∀ payload, r = Ok payload →
    ∃ s1 token record entry assertion t2 reply d,
      moves s s1 ∧
      exchangeable svc (st_view s1.1) s1.2 st stt rtt resource token record entry ∧
      o_http t2 (grant_request svc record entry assertion) = inr reply ∧
      rsp_status reply = 200 ∧ rsp_json reply = Some (JObj d) ∧ payload = short_token d ∧ moves s1 s'.
Proof using Henv.
  intros Hinv. unfold pat_exchange.
  destruct (check_params st stt rtt) as [token|e] eqn:Ep; io_run; [|by intros [<- <-]%pair_eq].
  apply check_params_Ok in Ep as (-> & Hne & -> & Hrtt & Hwf).
  rewrite (token_hash_well_formed _ Hwf). io_run.
  change (store_find_by_hash (ps_store (among env svc)) (sha256 token) s)
    with (store_find_by_hash (ps_store svc) (sha256 token) (env s)).
  set (s1 := env s). assert (Hm1 : moves s s1) by apply Henv.
  destruct (steps_advance (ps_store svc) _ _ Hm1 Hinv) as [Hi1 _].
  destruct (store_find_by_hash _ _ s1) as [rf s2] eqn:Ef.
  assert (Hm12 : moves s1 s2).
  { eapply (moves_call (SFindByHash (sha256 token)) _ _ (match rf with Ok o => Ok (ARecord o) | Raise e => Raise e end)).
    - apply rtc_refl.
    - cbn [store_do]. unfold fmap, io_fmap. rewrite Ef. by destruct rf. }
  assert (Hm2 : moves s s2) by (etrans; [exact Hm1|exact Hm12]).
  destruct (do_find _ _ _ _ _ Ef Hi1) as (Hi2 & Ht2 & _ & Hf).
  destruct rf as [found|e]; [|by intros [<- <-]%pair_eq].
  destruct found as [record|]; io_run; [|by intros [<- <-]%pair_eq].
  rewrite Ht2. fold (looked_up (sha256 token) s1.2).
  set (now := o_now _).
  change (check_record (among env svc)) with (check_record svc).
  change (_resolve_resource (among env svc)) with (_resolve_resource svc).
  destruct (check_record svc record (at_utc now)) as [[]|e] eqn:Ec; io_run;
    [|intros [<- <-]%pair_eq; split; [by eapply moves_other|done]].
  apply check_record_Ok in Ec as (Hrev & Hexp & Hrealm & Hten).
  destruct (_resolve_resource svc record resource) as [entry|e] eqn:Er; io_run;
    [|intros [<- <-]%pair_eq; split; [by eapply moves_other|done]].
  apply resolve_Ok in Er.
  destruct (sign _ _ _ _ _) as [ra s3] eqn:Es.
  destruct (keeps_sign _ _ _ _ _ _ _ Es) as (Hx3 & _).
  assert (Hm13 : moves s1 s3) by (eapply moves_other; [exact Hm12|exact Hx3]).
  destruct ra as [assertion|e]; [|intros [<- <-]%pair_eq; split; [etrans; [exact Hm1|exact Hm13]|done]].
  intros H. destruct (present_among record entry now assertion s1 s3 r s' Hm13 H) as [Hm Hp].
  split; [etrans; [exact Hm1|exact Hm]|]. intros payload (reply & d & ? & ? & ? & ?)%Hp.
  exists s1, token, record, entry, assertion, s3.2, reply, d. split_and!; try done.
Qed.
End BusyExchange.

Section Interleaved.
Context `{O : Outside, R : Rsa, FR : FloatRepr} {X : Type}.
Implicit Types (svc : PatService X) (s : state X).

(** C14. An exchange among others.  Before each of its statements other requests
    and other processes may have run any statements of their own.  Still the
    store only moves on: its invariant holds, no token is lost or changed, no
    revocation undone -- not by this exchange's own use of the record either.  A
    payload is returned only if at some moment of the run the token's record was
    stored, unrevoked, unexpired and entitled to the resource, and it is the
    trimmed reply of status 200 to the grant for exactly that record.  And a
    token that was revoked before the exchange began gets none. *)
Theorem interleaved_exchange svc `{P : !PatStoreSpec (ps_store svc)} env st stt rtt resource s r s' :
  fair (ps_store svc) env → st_inv s.1 →
  pat_exchange (among env svc) st stt rtt resource s = (r, s') →
  st_inv s'.1 ∧ pats_evolve (st_view s.1) (st_view s'.1) ∧
  (∀ payload, r = Ok payload →
    ∃ s1 token record entry assertion t2 reply d x,
      rtc (step (ps_store svc)) s s1 ∧
      exchangeable svc (st_view s1.1) s1.2 st stt rtt resource token record entry ∧
      o_http t2 (grant_request svc record entry assertion) = inr reply ∧
      rsp_status reply = 200 ∧ rsp_json reply = Some (JObj d) ∧ payload = short_token d ∧
      st_view s'.1 !! sha256 token = Some x ∧ evolves record x) ∧
  (∀ token x, st = Some token → st_view s.1 !! sha256 token = Some x → pr_revoked_at x ≠ None →
    ∃ e, r = Raise e).
Proof.
  intros Henv Hinv H. destruct (exchange_among svc env Henv _ _ _ _ _ _ _ Hinv H) as [Hm Hp].
  destruct (steps_advance (ps_store svc) _ _ Hm Hinv) as [Hi' Hev].
  split; [exact Hi'|]. split; [exact Hev|]. split.
  - intros payload (s1 & token & record & entry & a & t2 & reply & d & Hm1 & He & ? & ? & ? & ? & Hm2)%Hp.
    destruct (steps_advance (ps_store svc) _ _ Hm1 Hinv) as [Hi1 _].
    destruct (steps_advance (ps_store svc) _ _ Hm2 Hi1) as [_ Hev1].
    pose proof He as (_ & _ & _ & _ & Hr & _). destruct (Hev1 _ _ Hr) as (x & Hx & Hex).
    exists s1, token, record, entry, a, t2, reply, d, x. by split_and!.
  - intros token x -> Hx Hrev. destruct r as [payload|e]; [|by exists e]. exfalso.
    destruct (Hp payload eq_refl) as (s1 & tok & record & entry & a & t2 & reply & d & Hm1 & He & _).
    destruct (steps_advance (ps_store svc) _ _ Hm1 Hinv) as [_ Hev1].
    destruct He as (E & _ & _ & _ & Hr & Hnone & _). injection E as ->.
    destruct (Hev1 _ _ Hx) as (y & Hy & Hxy). rewrite Hr in Hy. injection Hy as <-.
    destruct Hxy as (_&_&_&_&_&_&_&_&_&Hxr). by rewrite (Hxr Hrev) in Hnone.
Qed.
End Interleaved.

(** ** Runs *)
Module InterleaveExamples.
Import PatSamples.

(** Somebody revokes the token as soon as the upstream was asked: after the
    lookup, before the use is recorded. *)
Definition revoke_late (s : state database) : state database :=
  if existsb is_http s.2
  then (store_do PostgresPatStore (SRevoke (u "https://kc.example/realms/main") (u "alice-id") 5) s).2
  else s.

Lemma revoke_late_fair : fair (ps_store svc) revoke_late.
Proof.
  intros s. unfold revoke_late. destruct (existsb is_http s.2); [|apply rtc_refl].
  destruct (store_do PostgresPatStore _ s) as [r s'] eqn:E. eapply rtc_once, step_call. exact E.
Qed.

(** The exchange completes, and the revocation stays. *)
Lemma interleaved_exchange_witness :
  ∃ payload s' x, pat_exchange (among revoke_late svc) (Some sample_token) (Some ACCESS_TOKEN_TYPE) None None
      with_token = (Ok payload, s') ∧
    st_view s'.1 !! sha256 sample_token = Some x ∧ pr_revoked_at x ≠ None ∧ pr_last_used_at x ≠ None ∧
    st_inv s'.1.
Proof.
  assert (Hr : match pat_exchange (among revoke_late svc) (Some sample_token) (Some ACCESS_TOKEN_TYPE) None None
      with_token with
    | (Ok _, s') => match st_view s'.1 !! hash with
                    | Some x => bool_decide (pr_revoked_at x ≠ None ∧ pr_last_used_at x ≠ None)
                    | None => false
                    end
    | _ => false end = true) by (vm_compute; reflexivity).
  destruct (pat_exchange (among revoke_late svc) _ _ _ _ with_token) as [[payload|e] s'] eqn:E; [|discriminate Hr].
  destruct (st_view s'.1 !! hash) as [x|] eqn:Ex; [|discriminate Hr].
  apply bool_decide_eq_true in Hr as [Hrev Hused].
  exists payload, s', x. split; [reflexivity|]. split; [exact Ex|]. split; [exact Hrev|]. split; [exact Hused|].
  refine (proj1 (interleaved_exchange svc revoke_late _ _ _ _ _ _ _ revoke_late_fair _ E)).
  exact with_token_ok.
Defined.

(** Two calls for one URL, both fetching before either is back. *)
Definition docs : CimdService :=
  {| cs_fetcher := FetchExamples.fetcher; cache_ttl_min := 300; cache_ttl_max := 86400 |}.
Definition started (s : state (dict (entry CimdDocument))) :=
  obtain_start (O := FetchExamples.world) docs FetchExamples.url s.
Definition ended (got : CimdDocument + FetchResult) (s : state (dict (entry CimdDocument))) :=
  obtain_end (O := FetchExamples.world) docs FetchExamples.url got s.

Lemma two_calls g1 s1 g2 s2 d1 s3 d2 s4 :
  started ([], []) = (Ok g1, s1) → started s1 = (Ok g2, s2) →
  ended g1 s2 = (Ok d1, s3) → ended g2 s3 = (Ok d2, s4) →
  rtc (docs_step (O := FetchExamples.world) docs) (([], []), [])
    (s4, [Returned FetchExamples.url d2; Returned FetchExamples.url d1]).
Proof.
  intros H1 H2 H3 H4. eapply rtc_l; [exact (docs_start _ _ _ _ _ _ H1)|].
  eapply rtc_l; [exact (docs_start _ _ _ _ _ _ H2)|].
  eapply rtc_l; [exact (docs_end _ [_] _ _ [] _ _ _ H3)|].
  eapply rtc_l; [exact (docs_end _ [] _ _ [_] _ _ _ H4)|apply rtc_refl].
Qed.

Lemma interleaved_documents_witness :
  ∃ g1 s1 g2 s2 d1 s3 d2 s4,
    started ([], []) = (Ok g1, s1) ∧ started s1 = (Ok g2, s2) ∧
    ended g1 s2 = (Ok d1, s3) ∧ ended g2 s3 = (Ok d2, s4) ∧
    length (the_cache s4.1) = 1%nat ∧ cache_valid (the_cache s4.1) ∧ valid_document FetchExamples.url d1.
Proof.
  assert (H : match started ([], []) with
    | (Ok g1, s1) => match started s1 with
      | (Ok g2, s2) => match ended g1 s2 with
        | (Ok d1, s3) => match ended g2 s3 with
          | (Ok d2, s4) => Nat.eqb (length (the_cache s4.1)) 1
          | _ => false end
        | _ => false end
      | _ => false end
    | _ => false end = true) by (vm_compute; reflexivity).
  destruct (started ([], [])) as [[g1|] s1] eqn:E1; [|discriminate H].
  destruct (started s1) as [[g2|] s2] eqn:E2; [|discriminate H].
  destruct (ended g1 s2) as [[d1|] s3] eqn:E3; [|discriminate H].
  destruct (ended g2 s3) as [[d2|] s4] eqn:E4; [|discriminate H].
  assert (Hempty : cache_valid (the_cache (([], []) : state (dict (entry CimdDocument))).1))
    by (split; [apply NoDup_nil_2|done]).
  destruct (interleaved_documents (O := FetchExamples.world) docs ([], []) s4 _
    Hempty (two_calls _ _ _ _ _ _ _ _ E1 E2 E3 E4)) as [Hc Hd].
  exists g1, s1, g2, s2, d1, s3, d2, s4. apply Nat.eqb_eq in H. 
  split_and!; try assumption; try reflexivity.
  apply (Hd FetchExamples.url d1). right. left.
Defined.
End InterleaveExamples.
