(* ===== verification/App.v ===== *)
(** * The application ([app.py])

    [create_app]: the parts built from the configuration, the routes over their
    handlers, the lifespan around the serving.  [AppState] is the program state
    of a process: the document cache and the database.

    [app_reachable]: the invariants of the cache and of the token table in every
    state the application reaches, with other processes at work on the same
    table; [lifespan_guards]: nothing is served on a schema behind the code, and
    the pool is closed; [announced_grants]: the discovery document and the token
    endpoint agree; [loaded_config_builds]: which configurations yield an
    application; [main_starts]: what starting the proxy does ([__main__.py]). *)

From S2P Require Import Prelude PyStr Codec Digest Json Datetime World Errors Discovery Logging.
From S2P Require Import Pkce Envelope UrlLib RedirectUri Cache Fetcher CimdService Assertion Config.
From S2P Require Import Register Authorize Callback Token PatFormat PatStore Keycloak Uuid.
From S2P Require Import Pat PatExchange PatCreate PatApi.

(** ** The state of a process *)

Record AppState := { st_cache : dict (entry CimdDocument); st_db : database }.

#[export] Instance app_has_cache : HasCache AppState :=
  {| the_cache := st_cache; with_cache x c := {| st_cache := c; st_db := st_db x |} |}.
#[export] Instance app_has_cache_laws : HasCacheLaws app_has_cache.
Proof. by split. Qed.
#[export] Program Instance app_has_db : HasDb AppState := {|
  db := st_db;
  set_tokens l x := {| st_cache := st_cache x;
                       st_db := {| tokens := l; history := history (st_db x) |} |}
|}.
Next Obligation. done. Qed.

(** ** [create_app] *)

Record App `{R : Rsa, F : Fernet} (X : Type) := {
  app_config : ProxyConfig;
  app_codec : fkey;
  app_cimd : CimdService;
  app_pat : option (PatService X);
  app_owned : bool                       (* the store is the application's own *)
}.
Arguments app_config {R F X}.
Arguments app_codec {R F X}.
Arguments app_cimd {R F X}.
Arguments app_pat {R F X}.
Arguments app_owned {R F X}.

(** The routes, with what the framework makes of a request. *)
Inductive app_request :=
  | GetDiscovery | GetOpenidConfiguration | GetHealthz
  | GetAuthorize (params : AuthorizeParams)
  | GetCallback (code state error error_description : option pystr)
  | PostToken (form : TokenForm)
  | PostRegister (body : pystr + json)
  | PostPatTokens (authorization : option pystr) (body : option json)
  | GetPatTokens (authorization : option pystr)
  | DeletePatToken (token_id : pystr) (authorization : option pystr)
  | GetPatJwks
  | OtherPath.

(** [CimdFetcher.__init__]. *)
Definition new_fetcher (max_bytes : Z) (timeout_seconds : pyfloat) : res CimdFetcher :=
  if max_bytes <=? 0 then Raise (ValueError (u "max_bytes must be positive"))
  else if float_le_zero timeout_seconds then Raise (ValueError (u "timeout_seconds must be positive"))
  else Ok {| max_bytes := max_bytes; user_agent := u "cimd-proxy/0.2" |}.

Section App.
Context `{O : Outside, R : Rsa, F : Fernet, FR : FloatRepr} {X : Type} `{HasCache X, HasDb X}.

(** The service, with the store and the client of a production start; tests
    pass their own. *)
Definition build_service (config : ProxyConfig) (p : PatConfig) (pat_store : option (PatStore X))
    (keycloak : option KeycloakClient) : res (PatService X) :=
  client ← match keycloak with
    | Some k => Ok k
    | None => new_keycloak (pc_realm_issuer p) (pc_admin_client_id p) (pc_admin_client_secret p)
                (pc_idp_alias p)
    end;
  new_service config (default PostgresPatStore pat_store) client.

(** The first step is [Logging.configure_logging], as far as it may raise. *)
Definition create_app (config : ProxyConfig) (pat_store : option (PatStore X))
    (keycloak : option KeycloakClient) : res (App X) :=
  _ ← level_of (log_level config);
  fetcher ← new_fetcher (cimd_max_bytes config) (cimd_fetch_timeout config);
  let cimd := {|
    cs_fetcher := fetcher; cache_ttl_min := cimd_cache_ttl_min config; cache_ttl_max := cimd_cache_ttl_max config |} in
  codec ← from_key_string (secret_key config);
  match pat config with
  | None => Ok {| app_config := config; app_codec := codec; app_cimd := cimd; app_pat := None;
                  app_owned := false |}
  | Some p =>
      service ← build_service config p pat_store keycloak;
      Ok {| app_config := config; app_codec := codec; app_cimd := cimd; app_pat := Some service;
            app_owned := match pat_store with None => true | Some _ => false end |}
  end.

Implicit Types (app : App X).

Definition extra_grants app : list pystr :=
  match app_pat app with Some _ => [TOKEN_EXCHANGE] | None => [] end.
Definition discovery app : response :=
  JSONResponse 200 (JObj (build_discovery_document (public_url (app_config app))
    (scopes_supported (app_config app)) true (extra_grants app))) [].
Definition not_found_response : response := JSONResponse 404 (JObj [(u "error", JStr (u "not_found"))]) [].

(** A route of [pat_api.py], which is included when there is a service. *)
Definition pat_route app (h : PatService X → io X response) : io X response :=
  match app_pat app with Some svc => h svc | None => mret not_found_response end.

Definition handle app (r : app_request) : io X response :=
  let config := app_config app in
  match r with
  | GetDiscovery | GetOpenidConfiguration => mret (discovery app)
  | GetHealthz => mret (PlainText 200 (u "ok"))
  | GetAuthorize params => authorize config (app_cimd app) (app_codec app) params
  | GetCallback code state error description =>
      callback config (app_codec app) code state error description
  | PostToken form => token config (app_codec app) (exchange_service <$> app_pat app) form
  | PostRegister body => register (app_codec app) body
  | PostPatTokens authorization body => pat_route app (λ svc, create_token svc authorization body)
  | GetPatTokens authorization => pat_route app (λ svc, list_tokens svc authorization)
  | DeletePatToken id authorization => pat_route app (λ svc, revoke_token svc id authorization)
  | GetPatJwks => pat_route app (λ _, lift (pat_jwks config))
  | OtherPath => mret not_found_response
  end.

(** [PostgresPatStore.open] and [close]. *)
Definition pool_open : io X unit :=
  failure ← ask o_pool EvPoolOpen;
  match failure with Some m => raise (DatabaseError m) | None => mret tt end.
Definition pool_close : io X unit := emit EvPoolClose.

(** The lifespan, around what the server does while it runs. *)
Definition lifespan {A} (names : list pystr) (pg_integer : pystr → option Z) app (serving : io X A)
    : io X A :=
  _ ← (if app_owned app then
         _ ← pool_open;
         try_io (check_schema names pg_integer) (λ _, true) (λ e, _ ← pool_close; raise e)
       else mret tt);
  let finally : io X unit := if app_owned app then pool_close else mret tt in
  a ← try_io serving (λ _, true) (λ e, _ ← finally; raise e);
  _ ← finally;
  mret a.

(** [__main__.main]: from the arguments, the environment and the key files to
    [uvicorn.run], which is given the application, the address, the port and
    the log level. *)
Definition main {FS : pystr → pystr + bytes} {A} (args : list pystr) (environ : dict pystr)
    (uvicorn_run : App X → pystr → Z → pystr → io X A) : io X A :=
  match args with
  | _ :: _ => raise (SystemExit (u "unknown arguments " ++ py_repr (JArr (JStr <$> args))
      ++ u "; the proxy takes none (schema migrations run from the cimd-proxy-migrations image)"))
  | [] =>
      config ← lift (load_config (FS := FS) environ);
      app ← lift (create_app config None None);
      uvicorn_run app (bind_host config) (cfg_port config) (lower (log_level config))
  end.
End App.

(** ** The invariants of a process *)

Section Invariants.
Context `{O : Outside, R : Rsa, F : Fernet, FR : FloatRepr}.
Implicit Types (app : App AppState) (s : state AppState).

(** The cache holds validated documents, the table meets its constraints, and
    every token of [v] is still there, unchanged but for uses and a revocation. *)
Definition app_inv (v : pats) (x : AppState) : Prop :=
  cache_valid (st_cache x) ∧ db_inv x ∧ pats_evolve v (db_view x).

Context (v : pats).
Notation I := (app_inv v).

(** Any of the five calls of the store. *)
Lemma statement_cache {A} c (f : Z → list row → option (A * list row)) s r s' :
  statement c f s = (r, s') → st_cache s'.1 = st_cache s.1.
Proof.
  unfold statement. io_run. destruct (f _ _) as [[a l]|]; [|by intros [_ <-]%pair_eq].
  destruct (o_db s.2 c) as [|[] m]; by intros [_ <-]%pair_eq.
Qed.

Lemma store_do_cache c s r s' :
  store_do PostgresPatStore c s = (r, s') → st_cache s'.1 = st_cache s.1.
Proof.
  intros H. assert (Hp : preserves (λ x, st_cache x = st_cache s.1) (store_do PostgresPatStore c)); [|by eapply Hp].
  clear H. assert (Hs : ∀ A c (f : Z → list row → option (A * list row)),
    preserves (λ x, st_cache x = st_cache s.1) (statement c f)).
  { intros A c' f s1 r1 s2 E H1. by rewrite (statement_cache _ _ _ _ _ H1). }
  destruct c; cbn [store_do PostgresPatStore store_insert store_find_by_hash store_list_for_owner
    store_revoke store_touch]; unfold pg_insert, pg_find_by_hash, pg_list_for_owner, pg_revoke, pg_touch;
    preserves_tac; apply Hs.
Qed.

Lemma store_do_preserves c : preserves I (store_do PostgresPatStore c).
Proof.
  intros s r s' (Hc & Hi & Hv) H.
  pose proof (store_do_advances (P := postgres_spec) PostgresPatStore c s r s' H) as Ha.
  destruct (Ha Hi) as [Hi' He].
  split; [by rewrite (store_do_cache _ _ _ _ H)|]. split; [exact Hi'|by etrans].
Qed.

Lemma store_preserves :
  (∀ rec h, preserves I (store_insert PostgresPatStore rec h)) ∧
  (∀ h, preserves I (store_find_by_hash PostgresPatStore h)) ∧
  (∀ i o, preserves I (store_list_for_owner PostgresPatStore i o)) ∧
  (∀ i o id, preserves I (store_revoke PostgresPatStore i o id)) ∧
  (∀ id t, preserves I (store_touch PostgresPatStore id t)).
Proof.
  split_and!; intros; eapply preserves_fmap_inv.
  - apply (store_do_preserves (SInsert rec h)).
  - apply (store_do_preserves (SFindByHash h)).
  - apply (store_do_preserves (SListForOwner i o)).
  - apply (store_do_preserves (SRevoke i o id)).
  - apply (store_do_preserves (STouch id t)).
Qed.

(** *** The handlers *)

Lemma obtain_preserves cimd url : preserves I (obtain cimd url).
Proof.
  intros s r s' (Hc & Hd) H. split; [pose proof H as H1; apply obtain_run in H1 as [H1 _]; [exact H1|exact Hc]|].
  assert (E : st_db s'.1 = st_db s.1); [|unfold db_inv, db_view in *; cbn [db app_has_db] in *; by rewrite E].
  assert (Hp : preserves (λ x, st_db x = st_db s.1) (obtain cimd url)); [|by eapply Hp].
  clear. unfold obtain. apply preserves_bind; [|intros [d|]; [apply preserves_ret|]].
  { intros s1 r s' E. unfold service_get. io_run.
    destruct (cache_get (the_cache s1.1) (o_monotonic s1.2) url) as [o c]. io_run.
    by intros [_ <-]%pair_eq. }
  apply preserves_bind; [|intros result; apply preserves_bind; [|intros []; apply preserves_ret]].
  - intros s1 r s' E H. by apply fetch_run in H as [-> _].
  - intros s1 r s' E. unfold service_put. destruct (_ <=? 0); io_run; by intros [_ <-]%pair_eq.
Qed.

Ltac by_keeps := eapply keeps_preserves; solve [eauto 2 with keeps].
Lemma any_event (e : event) : (λ _, True) e.
Proof. done. Qed.

Lemma authorize_preserves config cimd key params : preserves I (authorize config cimd key params).
Proof.
  unfold authorize, new_correlation_id, token_urlsafe, _validate, registered_uris, _validate_cimd,
    _load_document, _validate_dcr, _build_upstream_url, make_verifier, token_urlsafe, pack_authorize.
  preserves_tac; first
    [ apply obtain_preserves
    | eapply keeps_preserves; apply open_registration_keeps
    | eapply keeps_preserves; apply _pack_keeps ].
Qed.

Lemma callback_preserves config key code st error description :
  preserves I (callback config key code st error description).
Proof.
  unfold callback, pack_code. preserves_tac; eapply keeps_preserves;
    first [apply open_authorize_keeps|apply _pack_keeps].
Qed.

Lemma register_preserves key body : preserves I (register key body).
Proof.
  unfold register, new_correlation_id, token_urlsafe, pack_registration.
  preserves_tac. eapply keeps_preserves. apply _pack_keeps.
Qed.

Section Service.
Context (svc : PatService AppState) (Hsvc : ps_store svc = PostgresPatStore).

Lemma create_preserves caller request : preserves I (create svc caller request).
Proof.
  destruct store_preserves as (Hins & _).
  unfold create, uuid4, generate. rewrite Hsvc. preserves_tac; first
    [ apply Hins
    | apply (keeps_preserves _ (λ _, True)), keeps_ensure_link; done
    | eapply keeps_preserves; apply keeps_granted ].
Qed.

Lemma authenticate_preserves authorization : preserves I (authenticate svc authorization).
Proof.
  intros s r s' Hi H. apply authenticate_state in H. by rewrite H.
Qed.

Lemma exchange_preserves st stt rtt resource : preserves I (pat_exchange svc st stt rtt resource).
Proof.
  destruct store_preserves as (_ & Hfind & _ & _ & Htouch).
  unfold pat_exchange, present, jwt_bearer_grant. rewrite Hsvc. preserves_tac; first
    [ apply Hfind | apply Htouch
    | eapply keeps_preserves; apply keeps_sign
    | apply (keeps_preserves _ (λ _, True)), keeps_post; done ].
Qed.

Lemma refusal_preserves e : preserves I (PatApi._refusal e).
Proof. unfold PatApi._refusal. preserves_tac. Qed.

Lemma management_preserves authorization m : management svc authorization m → preserves I m.
Proof.
  destruct store_preserves as (_ & _ & Hlist & Hrev & _).
  intros [body| |id]; unfold create_token, list_tokens, revoke_token, list_own, revoke;
    rewrite ?Hsvc; preserves_tac;
    first [apply authenticate_preserves|apply create_preserves|apply refusal_preserves|apply Hlist|apply Hrev].
Qed.
End Service.

Lemma token_preserves config key service form :
  (∀ svc, service = Some svc → ps_store svc = PostgresPatStore) →
  preserves I (token config key (exchange_service <$> service) form).
Proof.
  intros Hs. unfold token, grant, _handle_auth_code, _handle_refresh, _post_form.
  apply preserves_try; [|intros e; preserves_tac].
  destruct (bool_decide (tf_grant_type form = Some (u "authorization_code"))).
  { preserves_tac; first [ eapply keeps_preserves; apply open_code_keeps
      | eapply keeps_preserves; apply finalise_keeps
      | apply (keeps_preserves _ (λ _, True)), keeps_send; done | eapply keeps_preserves; apply keeps_unreachable ]. }
  destruct (bool_decide (tf_grant_type form = Some (u "refresh_token"))).
  { preserves_tac; first [ eapply keeps_preserves; apply open_refresh_keeps
      | eapply keeps_preserves; apply finalise_keeps
      | apply (keeps_preserves _ (λ _, True)), keeps_send; done ]. }
  destruct (bool_decide _), service as [svc|]; cbn [fmap option_fmap option_map exchange exchange_service];
    preserves_tac.
  apply exchange_preserves. by apply Hs.
Qed.

(** The token service, if any, works on the process's own database. *)
Definition own_store app : Prop := ∀ svc, app_pat app = Some svc → ps_store svc = PostgresPatStore.

Lemma handle_preserves app r : own_store app → preserves I (handle app r).
Proof.
  intros Hown. assert (Hroute : ∀ h, (∀ svc, ps_store svc = PostgresPatStore → preserves I (h svc)) →
    preserves I (pat_route app h)).
  { intros h Hh. unfold pat_route. destruct (app_pat app) as [svc|] eqn:E; [|apply preserves_ret].
    apply Hh. by apply Hown. }
  destruct r; cbn [handle]; try apply preserves_ret.
  - apply authorize_preserves.
  - apply callback_preserves.
  - by apply token_preserves.
  - apply register_preserves.
  - apply Hroute. intros svc Hs. eapply management_preserves; [done|apply management_create].
  - apply Hroute. intros svc Hs. eapply management_preserves; [done|apply management_list].
  - apply Hroute. intros svc Hs. eapply management_preserves; [done|apply management_revoke].
  - apply Hroute. intros svc _. apply preserves_lift.
Qed.
End Invariants.

Lemma create_app_Ok `{O : Outside, R : Rsa, F : Fernet, FR : FloatRepr} config keycloak (app : App AppState) :
  create_app config None keycloak = Ok app →
  own_store app ∧ app_config app = config ∧ (is_Some (app_pat app) ↔ is_Some (pat config)) ∧
  (app_owned app = true ↔ is_Some (pat config)).
Proof.
  unfold create_app, build_service. intros (level & _ & H)%bind_Ok.
  apply bind_Ok in H as (fetcher & _ & H). cbv zeta in H.
  apply bind_Ok in H as (codec & _ & H). destruct (pat config) as [p|] eqn:Ep.
  - apply bind_Ok in H as (service & Hs & <-%Ok_inj). apply bind_Ok in Hs as (client & _ & Hs).
    unfold new_service in Hs. rewrite Ep in Hs. apply Ok_inj in Hs as <-.
    split; [|cbn; split; [done|by split]]. by intros svc [= <-].
  - apply Ok_inj in H as <-. split; [by intros svc|]. cbn [app_config app_pat app_owned].
    split; [done|]. split; [done|]. split; [done|by intros [? ?]].
Qed.

(** ** Properties *)

Section AppProperties.
Context `{O : Outside, R : Rsa, F : Fernet, FR : FloatRepr}.
Implicit Types (app : App AppState) (s : state AppState).

(** A process serves requests, whatever becomes of them, while other processes
    -- with caches of their own -- call the store on the same database, and
    time passes. *)
Inductive app_step app : state AppState → state AppState → Prop :=
  | step_request r s y s' : handle app r s = (y, s') → app_step app s s'
  | step_process c (x : AppState) t y x' t' s s' :
      st_db x = st_db s.1 → store_do PostgresPatStore c (x, t) = (y, (x', t')) →
      s'.1 = {| st_cache := st_cache s.1; st_db := st_db x' |} → app_step app s s'
  | step_time s s' : s'.1 = s.1 → app_step app s s'.

Lemma app_steps app s s' v :
  own_store app → rtc (app_step app) s s' → app_inv v s.1 → app_inv v s'.1.
Proof.
  intros Hown. induction 1 as [|s1 s2 s3 H12 _ IH]; [done|]. intros Hi. apply IH.
  destruct H12 as [r s y s' H|c x t y x' t' s s' E H E'|s s' E].
  - by eapply handle_preserves.
  - destruct Hi as (Hc & Hd & Hv).
    pose proof (store_do_advances (P := postgres_spec) PostgresPatStore c _ _ _ H) as Ha.
    unfold advances in Ha. cbn [st_inv st_view postgres_spec fst] in Ha. rewrite E'.
    unfold app_inv, db_inv, db_view in *. cbn [db app_has_db st_cache st_db fst] in *.
    rewrite E in Ha. destruct (Ha Hd) as [Hd' He]. split; [done|]. split; [done|by etrans].
  - by rewrite E.
Qed.

(** C8. The invariants of the whole application.  Start a process on a
    configuration, with a cache that is in order (an empty one, say) and a table
    that meets its constraints; let it serve any requests, however each of them
    ends, while other processes call the store on the same database.  Then in
    every state it reaches the cache holds only validated documents, each under
    its own URL; the table meets its constraints; and every token that was there
    at the start is still there, with every column as it was but the last use
    and the revocation, and revoked if it was revoked. *)
Theorem app_reachable config keycloak app s s' :
  create_app config None keycloak = Ok app →
  cache_valid (st_cache s.1) → db_inv s.1 →
  rtc (app_step app) s s' →
  cache_valid (st_cache s'.1) ∧ db_inv s'.1 ∧ pats_evolve (db_view s.1) (db_view s'.1).
Proof.
  intros (Hown & _)%create_app_Ok Hc Hd H. by eapply app_steps.
Qed.

(** C34. When requests are served, and what is left behind.  The lifespan of a
    process with its own store, around whatever is served: either the pool does
    not open, and nothing else happens; or the schema check refuses -- the
    history is behind the code's migrations, or could not be read -- the pool is
    closed and nothing is served; or the schema is at least at the version of
    the code, serving starts after the check, and however it ends, with a result
    or an exception, that is the outcome and the pool is closed last.  Without a
    store of its own it only serves. *)
Theorem lifespan_guards {A} names pg_integer app (serving : io AppState A) s r s' :
  lifespan names pg_integer app serving s = (r, s') →
  if app_owned app then
    let opened := (s.1, EvPoolOpen :: s.2) in
    let checked := (s.1, EvSchema :: EvPoolOpen :: s.2) in
    (∃ m, o_pool s.2 = Some m ∧ r = Raise (DatabaseError m) ∧ s' = opened) ∨
    (∃ e, check_schema names pg_integer opened = (Raise e, checked) ∧ r = Raise e ∧
       s' = (s.1, EvPoolClose :: checked.2)) ∨
    (∃ s1 n v, latest_version names = Ok n ∧ n <= v ∧
       match history (db s.1) with None => v = 0 | Some l => history_version pg_integer l = Some v end ∧
       serving checked = (r, s1) ∧ s' = (s1.1, EvPoolClose :: s1.2))
  else serving s = (r, s').
Proof.
  unfold lifespan. destruct (app_owned app).
  2: { io_run. destruct (serving s) as [[a|e] s1]; by intros [<- <-]%pair_eq. }
  unfold pool_open, pool_close. io_run. destruct (o_pool s.2) as [m|]; io_run.
  { intros [<- <-]%pair_eq. left. by exists m. }
  set (opened := (s.1, EvPoolOpen :: s.2)).
  destruct (check_schema names pg_integer opened) as [[[]|e] s1] eqn:E; io_run;
    pose proof (check_schema_run _ _ _ _ _ E) as [-> Hr].
  2: { intros [<- <-]%pair_eq. right. left. by exists e. }
  destruct (proj1 Hr eq_refl) as (_ & n & v & Hn & Hle & Hh). right. right. revert H.
  destruct (serving _) as [[a|e] s2] eqn:Es; io_run; intros [<- <-]%pair_eq; by exists s2, n, v.
Qed.

Lemma discovery_grants url scopes extra :
  dict_get (build_discovery_document url scopes true extra) (u "grant_types_supported") =
    Some (strings ([u "authorization_code"; u "refresh_token"] ++ extra)).
Proof. by destruct scopes. Qed.

(** The discovery document and the token endpoint agree on the grants.  The
    grant types announced are the two interactive ones and, exactly with a token
    service, the exchange; a request for any other is refused with
    [unsupported_grant_type], and nobody is asked. *)
Theorem announced_grants config keycloak app form s g :
  create_app config None keycloak = Ok app →
  tf_grant_type form = Some g → g ≠ [] →
  ∃ doc, handle app GetDiscovery s = (Ok (JSONResponse 200 (JObj doc) []), s) ∧
    ∃ announced, dict_get doc (u "grant_types_supported") = Some (strings announced) ∧
      (TOKEN_EXCHANGE ∈ announced ↔ is_Some (pat config)) ∧
      (g ∈ announced ∨
       ∃ d t, handle app (PostToken form) s =
           (Ok (JSONResponse 400 (as_dict (u "unsupported_grant_type") d) []), (s.1, t ++ s.2)) ∧
         Forall inward t).
Proof.
  intros (_ & Hcfg & Hpat & _)%create_app_Ok Hg Hne.
  eexists. split; [reflexivity|].
  exists ([u "authorization_code"; u "refresh_token"] ++ extra_grants app).
  split; [apply discovery_grants|]. unfold extra_grants. split.
  { rewrite <-Hpat. destruct (app_pat app) as [svc|].
    - split; [by eexists|]. intros _. by apply (bool_decide_unpack (_ ∈ _)).
    - split; [|by intros [? ?]]. intros Hin. exfalso. revert Hin. by apply (bool_decide_unpack (_ ∉ _)). }
  cbn [handle]. unfold token, grant. rewrite Hg.
  destruct (bool_decide_reflect (Some g = Some (u "authorization_code"))) as [E|N1].
  { left. injection E as ->. by left. }
  destruct (bool_decide_reflect (Some g = Some (u "refresh_token"))) as [E|N2].
  { left. injection E as ->. right. by left. }
  destruct (bool_decide_reflect (Some g = Some TOKEN_EXCHANGE)) as [E|N3], (app_pat app) as [svc|];
    cbn [fmap option_fmap option_map].
  1: { left. injection E as ->. do 2 right. by left. }
  all: right; destruct g as [|c g]; [done|]; cbn [truthy default negb]; unfold UnsupportedGrantType;
    io_run; cbn [is_OAuthError].
  all: eexists _, [_]; split; [reflexivity|by repeat constructor].
Qed.

(** When an application is built, its own bounds being in order. *)
Lemma create_app_iff config :
  0 < cimd_max_bytes config → float_le_zero (cimd_fetch_timeout config) = false →
  (∃ app : App AppState, create_app config None None = Ok app) ↔
  (∃ n, level_of (log_level config) = Ok n) ∧ (∃ k, from_key_string (secret_key config) = Ok k) ∧
  ∀ p, pat config = Some p → realm_issuer_of (pc_realm_issuer p).
Proof.
  intros Hmax Htime. rewrite <-!is_Ok_spec. unfold create_app, new_fetcher.
  replace (cimd_max_bytes config <=? 0) with false by lia. rewrite Htime.
  unfold build_service, new_service, new_keycloak.
  destruct (level_of (log_level config)) as [n|e]; cbn [mbind res_bind is_Ok]; [|naive_solver].
  destruct (from_key_string (secret_key config)) as [k|e]; cbn [mbind res_bind is_Ok]; [|naive_solver].
  destruct (pat config) as [p|]; [|naive_solver].
  assert (Hp : (∀ p', Some p = Some p' → realm_issuer_of (pc_realm_issuer p')) ↔
               is_Ok (_admin_base (rstrip_slash (pc_realm_issuer p))) = true).
  { rewrite admin_base_realm, realm_issuer_rstrip. naive_solver. }
  rewrite Hp. destruct (_admin_base _); cbn [mbind res_bind is_Ok]; naive_solver.
Qed.

(** What an application is built of. *)
Lemma create_app_parts config (app : App AppState) :
  create_app config None None = Ok app →
  from_key_string (secret_key config) = Ok (app_codec app) ∧
  max_bytes (cs_fetcher (app_cimd app)) = cimd_max_bytes config ∧
  cache_ttl_min (app_cimd app) = cimd_cache_ttl_min config ∧
  cache_ttl_max (app_cimd app) = cimd_cache_ttl_max config.
Proof.
  unfold create_app. intros (level & _ & H)%bind_Ok.
  apply bind_Ok in H as (fetcher & Hf & H). cbv zeta in H.
  apply bind_Ok in H as (codec & Hc & H).
  assert (Hm : max_bytes fetcher = cimd_max_bytes config).
  { revert Hf. unfold new_fetcher. destruct (_ <=? 0); [done|]. destruct (float_le_zero _); [done|].
    by intros <-%Ok_inj. }
  destruct (pat config); [apply bind_Ok in H as (service & _ & H)|]; by apply Ok_inj in H as <-.
Qed.

(** C39. What loads can be built.  For a configuration that [load_config] let
    through, the application is built exactly when three things hold: the log
    level is not one of the two names that [logging] refuses (they name a
    format string and a table of that module); the secret is ASCII and a Fernet key;
    and the token realm, when tokens are on, is an address, ["/realms/"] and a
    realm's name.  No other guard -- of the fetcher, of the token service --
    ever fires.  The application built then has that configuration, that key and
    the bounds of the configuration for its documents, and a token service
    exactly when one is configured. *)
Theorem loaded_config_builds {FS : pystr → pystr + bytes} env config :
  load_config (FS := FS) env = Ok config →
  ((∃ app : App AppState, create_app config None None = Ok app) ↔
   (upper (log_level config) ≠ u "BASIC_FORMAT" ∧ upper (log_level config) ≠ u "_STYLES") ∧
   (isascii (secret_key config) = true ∧ is_Some (fernet_key (secret_key config))) ∧
   ∀ p, pat config = Some p → ∃ base realm, realm ≠ [] ∧
     rstrip_slash (pc_realm_issuer p) = base ++ u "/realms/" ++ realm) ∧
  ∀ app : App AppState, create_app config None None = Ok app →
    app_config app = config ∧ fernet_key (secret_key config) = Some (app_codec app) ∧
    max_bytes (cs_fetcher (app_cimd app)) = cimd_max_bytes config ∧
    cache_ttl_min (app_cimd app) = cimd_cache_ttl_min config ∧
    cache_ttl_max (app_cimd app) = cimd_cache_ttl_max config ∧
    (is_Some (app_pat app) ↔ is_Some (pat config)).
Proof.
  intros (_ & _ & _ & Hmax & Htime & _)%load_config_inv. split.
  - rewrite create_app_iff by done. rewrite <-is_Ok_spec, level_of_spec.
    setoid_rewrite from_key_string_Ok. unfold realm_issuer_of. firstorder.
  - intros app Happ. pose proof (create_app_Ok _ _ _ Happ) as (_ & ? & ? & _).
    pose proof (create_app_parts _ _ Happ) as (Hk & ? & ? & ?).
    apply from_key_string_Ok in Hk as [_ Hk]. done.
Qed.

(** Starting the proxy.  Given an argument it exits; otherwise, if the
    configuration does not load or the application cannot be built, it raises
    and nothing has happened; and if both succeed the server runs once, on the
    application of that configuration, whose store is the process's own exactly
    when the token service is configured. *)
Theorem main_starts {FS : pystr → pystr + bytes} {A} args environ
    (uvicorn_run : App AppState → pystr → Z → pystr → io AppState A) s :
  match args with
  | _ :: _ => ∃ m, main (FS := FS) args environ uvicorn_run s = (Raise (SystemExit m), s)
  | [] =>
      (∃ e, main (FS := FS) args environ uvicorn_run s = (Raise e, s)) ∨
      ∃ config app, load_config (FS := FS) environ = Ok config ∧ create_app config None None = Ok app ∧
        (app_owned app = true ↔ is_Some (pat config)) ∧
        main (FS := FS) args environ uvicorn_run s =
          uvicorn_run app (bind_host config) (cfg_port config) (lower (log_level config)) s
  end.
Proof.
  destruct args as [|a args]; [|by eexists]. unfold main. io_run.
  destruct (load_config environ) as [config|e] eqn:E; io_run; [|left; by eexists].
  destruct (create_app config None None) as [app|e] eqn:Ea; io_run; [|left; by eexists].
  right. exists config, app. split; [done|]. split; [done|]. split; [|done].
  by apply create_app_Ok in Ea as (_ & _ & _ & ?).
Qed.
End AppProperties.

(** ** A process at work *)
Module AppExamples.
#[local] Existing Instance ToyFernet.fernet.
#[local] Existing Instance AssertionExamples.toy_rsa.
#[local] Instance no_floats : FloatRepr := id.
#[local] Instance world : Outside := silent_world 1000.

(** A table with one token, behind an empty cache. *)
Definition start : state AppState :=
  ({| st_cache := []; st_db := PatSamples.with_token.1 |}, []).
Definition revoke_it : store_call :=
  SRevoke (u "https://kc.example/realms/main") (u "alice-id") 5.

Lemma app_builds : ∃ app : App AppState, create_app ConfigExamples.sample_config None None = Ok app.
Proof.
  destruct (create_app (X := AppState) ConfigExamples.sample_config None None) as [app|e] eqn:E.
  - by exists app.
  - exfalso. assert (H : is_Ok (create_app (X := AppState) ConfigExamples.sample_config None None) = true)
      by (vm_compute; reflexivity). by rewrite E in H.
Qed.

Lemma pat_configured : is_Some (pat ConfigExamples.sample_config).
Proof.
  assert (H : match pat ConfigExamples.sample_config with Some _ => true | None => false end = true)
    by (vm_compute; reflexivity).
  destruct (pat ConfigExamples.sample_config) as [p|]; [by exists p|discriminate H].
Qed.

Lemma with_token_inv : db_inv start.1.
Proof. exact PatSamples.with_token_ok. Qed.

(** A request is served; then another process revokes the token. *)
Lemma app_reachable_witness :
  ∃ (app : App AppState) s', rtc (app_step app) start s' ∧
    (pr_revoked_at <$> db_view s'.1 !! PatSamples.hash) = Some (Some {| dt_instant := 1000000000; dt_offset := 0 |}) ∧
    db_inv s'.1 ∧ pats_evolve (db_view start.1) (db_view s'.1).
Proof.
  destruct app_builds as [app Happ].
  destruct (store_do PostgresPatStore revoke_it start) as [y [x' t']] eqn:E.
  assert (Hrun : rtc (app_step app) start ({| st_cache := []; st_db := st_db x' |}, [])).
  { eapply rtc_l; [apply (step_request app GetHealthz start (Ok (PlainText 200 (u "ok"))) start eq_refl)|].
    eapply rtc_l; [|apply rtc_refl]. eapply step_process; [reflexivity|exact E|reflexivity]. }
  exists app, ({| st_cache := []; st_db := st_db x' |}, []). split; [exact Hrun|]. split.
  - assert (Hx : x' = (store_do PostgresPatStore revoke_it start).2.1) by by rewrite E.
    rewrite Hx. vm_compute. reflexivity.
  - refine (proj2 (app_reachable ConfigExamples.sample_config None app start _ Happ _ _ Hrun)).
    + split; [apply NoDup_nil_2|done].
    + exact with_token_inv.
Defined.

Definition cast (s : pystr) : option Z := match py_int s with Ok z => Some z | Raise _ => None end.

(** A schema behind the code: nothing is served, and the pool is closed. *)
Lemma lifespan_guards_witness :
  ∃ (app : App AppState) e s', app_owned app = true ∧
    lifespan [u "V1__a.sql"; u "V2__b.sql"] cast app (mret tt) start = (Raise e, s') ∧
    s'.2 = [EvPoolClose; EvSchema; EvPoolOpen].
Proof.
  destruct app_builds as [app Happ].
  assert (Hown : app_owned app = true).
  { apply (proj2 (proj2 (proj2 (create_app_Ok _ _ _ Happ)))), pat_configured. }
  destruct (lifespan [u "V1__a.sql"; u "V2__b.sql"] cast app (mret tt) start) as [r s'] eqn:E.
  assert (Hr : is_Ok r = false).
  { change r with (r, s').1. rewrite <-E. unfold lifespan. rewrite Hown. vm_compute. reflexivity. }
  pose proof (lifespan_guards _ _ _ _ _ _ _ E) as H. rewrite Hown in H.
  destruct H as [(m & Hm & _)|[(e & _ & -> & ->)|(s1 & n & v & _ & _ & _ & Hs & _)]].
  - discriminate Hm.
  - exists app, e. eexists. split; [exact Hown|]. split; [exact E|reflexivity].
  - apply pair_eq in Hs as [<- _]. discriminate Hr.
Defined.

(** A grant nobody announced. *)
Definition password_form : TokenForm := {|
  tf_grant_type := Some (u "password"); tf_code := None; tf_code_verifier := None;
  tf_redirect_uri := None; tf_client_id := None; tf_refresh_token := None; tf_scope := None;
  tf_subject_token := None; tf_subject_token_type := None; tf_requested_token_type := None;
  tf_resource := None |}.
Lemma announced_grants_witness :
  ∃ (app : App AppState) doc, handle app GetDiscovery start = (Ok (JSONResponse 200 (JObj doc) []), start).
Proof.
  destruct app_builds as [app Happ]. exists app.
  destruct (announced_grants _ _ app password_form start (u "password") Happ eq_refl) as (doc & H & _);
    [discriminate|]. by exists doc.
Defined.

Lemma loaded_config_builds_witness :
  (∃ app : App AppState, create_app ConfigExamples.sample_config None None = Ok app) ∧
  ∀ p, pat ConfigExamples.sample_config = Some p → ∃ base realm, realm ≠ [] ∧
    rstrip_slash (pc_realm_issuer p) = base ++ u "/realms/" ++ realm.
Proof.
  assert (Hload : load_config (FS := ConfigExamples.files) ConfigExamples.sample_env =
                  Ok ConfigExamples.sample_config) by (vm_compute; reflexivity).
  destruct (loaded_config_builds _ _ Hload) as [H _].
  split; [exact app_builds|]. exact (proj2 (proj2 (proj1 H app_builds))).
Defined.

End AppExamples.
