(* ===== verification/Agreement.v ===== *)
(** * What a request that succeeds says of the requests before it

    The proxy keeps no session, so nothing in its memory ties the request that
    redeems a code to the one that asked for it.  What ties them is the sealing.
    A [served_history] is a list of requests, each served by some process -- several at
    a time, restarted, with other configurations -- that holds one key; what is
    assumed of everybody else is that they have no key: a token that is presented
    and that Fernet accepts says what a token said that was handed out before
    ([genuine]).

    [code_agreement]: a code that is redeemed goes back to one [/callback], and
    that to one [/authorize], which agree with it in client, redirect URI, PKCE
    challenge, resource and time.  [refresh_agreement]: a refresh token that is
    used was the upstream's for that resource.  [registration_agreement]: a
    registered client was registered. *)

From S2P Require Import Prelude PyStr Codec Digest Json Datetime World Errors Logging Pkce Envelope.
From S2P Require Import UrlLib RedirectUri Assertion Cache Fetcher CimdService Config Register.
From S2P Require Import Authorize Callback Token PatStore App.

(** ** Histories *)

Section Histories.
Context `{O : Outside, R : Rsa, F : Fernet, FR : FloatRepr}.

Record served := {
  sv_app : App AppState;
  sv_request : app_request;
  sv_before : state AppState;
  sv_answer : res response;
  sv_after : state AppState
}.
Implicit Types (r : served) (h : list served) (key : fkey) (tok : pystr).

(** A parameter of the location the browser is sent to. *)
Definition query_value (url k : pystr) : option pystr :=
  form_parse (rpartition 63 url).2 ≫= λ d, dict_get d k.

(** The tokens of a request, and the one of its answer. *)
Definition presented (q : app_request) tok : Prop :=
  match q with
  | GetAuthorize p => ap_client_id p = Some tok
  | GetCallback _ st _ _ => st = Some tok
  | PostToken f => tf_code f = Some tok ∨ tf_refresh_token f = Some tok
  | _ => False
  end.

Definition is_sealed_grant (f : TokenForm) : Prop :=
  tf_grant_type f = Some (u "authorization_code") ∨ tf_grant_type f = Some (u "refresh_token").

Definition hands_out r tok : Prop :=
  match sv_request r, sv_answer r with
  | GetAuthorize _, Ok (Redirect url) => query_value url (u "state") = Some tok
  | GetCallback _ _ _ _, Ok (Redirect url) => query_value url (u "code") = Some tok
  | PostToken f, Ok (JSONResponse status (JObj d) _) =>
      is_sealed_grant f ∧ status < 400 ∧ dict_get d (u "refresh_token") = Some (JStr tok)
  | PostRegister _, Ok (JSONResponse 201 (JObj d) _) => dict_get d (u "client_id") = Some (JStr tok)
  | _, _ => False
  end.

(** Whatever Fernet makes of the token, it makes of one that was handed out. *)
Definition genuine key h tok : Prop := ∀ ttl now m,
  fernet_decrypt key ttl now tok = Some m →
  ∃ r tok0, r ∈ h ∧ hands_out r tok0 ∧ fernet_decrypt key ttl now tok0 = Some m.

(** The texts of a request came as text. *)
Definition request_ok (q : app_request) : Prop :=
  match q with
  | GetAuthorize p => params_text p
  | GetCallback code _ _ _ => ∀ c, code = Some c → str_ok c = true
  | PostRegister body => ∀ uris m name t, admitted body = Ok (uris, m, name) →
      env_ok (Registration {| rg_redirect_uris := uris; rg_token_endpoint_auth_method := m;
        rg_client_id_issued_at := o_time t; rg_client_name := name |})
  | _ => True
  end.

(** A GET [/authorize] that passed validation. *)
Definition let_through key r (p : AuthorizeParams) (v : Validated) : Prop :=
  authorized (app_config (sv_app r)) key p (validating (sv_before r)) (sv_after r) v.

Definition ran r : Prop := handle (sv_app r) (sv_request r) (sv_before r) = (sv_answer r, sv_after r).

(** The latest request first. *)
Inductive served_history key : list served → Prop :=
  | history_nil : served_history key []
  | history_cons r h :
      served_history key h → ran r → app_codec (sv_app r) = key →
      config_text (app_config (sv_app r)) → cache_valid (st_cache (sv_before r).1) →
      request_ok (sv_request r) → (∀ tok, presented (sv_request r) tok → genuine key h tok) →
      served_history key (r :: h).
End Histories.

Section Minting.
Context `{O : Outside, !OutsideLaws O, !ClockLaws O, R : Rsa, F : Fernet, !FernetLaws F, FR : FloatRepr}.
(** A refresh token of the upstream is JSON text. *)
Context (Hreplies : ∀ t rq reply d x, o_http t rq = inr reply → rsp_json reply = Some (JObj d) →
  dict_get d (u "refresh_token") = Some x → json_ok x).
Implicit Types (r : served) (h : list served) (key : fkey) (tok : pystr).

(** ** What the answers carry *)

Lemma query_value_app base query params k :
  63%N ∉ query → form_parse query = Some params →
  query_value (base ++ u "?" ++ query) k = dict_get params k.
Proof using Type.
  intros Hq Hp. unfold query_value. change (base ++ u "?" ++ query) with (base ++ 63%N :: query).
  rewrite rpartition_app by done. cbn [snd]. by rewrite Hp.
Qed.

(** The resource that the code or the refresh token of a request names. *)
Definition source key r (f : TokenForm) (url : pystr) : Prop :=
  (tf_grant_type f = Some (u "authorization_code") ∧ ∃ tok env s1,
     tf_code f = Some tok ∧ open_code key tok (sv_before r) = (Ok env, s1) ∧ url = cd_resource env) ∨
  (tf_grant_type f = Some (u "refresh_token") ∧ ∃ tok env s1,
     tf_refresh_token f = Some tok ∧ open_refresh key tok (sv_before r) = (Ok env, s1) ∧ url = rt_resource env).

(** The request that asked the upstream of [entry], the entry of that resource,
    and received [x] as a refresh token. *)
Definition received key r (f : TokenForm) (entry : ResourceEntry) (x : json) : Prop :=
  sv_request r = PostToken f ∧ ∃ url form t new mid reply d,
    source key r f url ∧ resource_by_url (app_config (sv_app r)) url = Ok (Some entry) ∧
    t = mid ++ (sv_before r).2 ∧
    (sv_after r).2 = new ++ EvHttp (PostForm (token_url (re_issuer entry)) form token_headers None) :: t ∧
    o_http t (PostForm (token_url (re_issuer entry)) form token_headers None) = inr reply ∧
    rsp_json reply = Some (JObj d) ∧ dict_get d (u "refresh_token") = Some x.

(** The request that made an envelope, sealed at [t]. *)
Definition made key r (e : envelope) (t : Z) : Prop :=
  match e with
  | Authorize env => ∃ p v cid tr url new,
      sv_request r = GetAuthorize p ∧ sv_answer r = Ok (Redirect url) ∧
      let_through key r p v ∧
      env = sealed_envelope v cid tr ∧ t = o_time (drawn_trace tr) ∧
      (sv_after r).2 = new ++ drawn_trace tr ∧
      query_value url (u "code_challenge") = Some (b64url (sha256 (az_upstream_verifier env)))
  | Code env => ∃ c st d aenv s1 query,
      sv_request r = GetCallback (Some c) (Some st) None d ∧
      sv_answer r = Ok (Redirect (az_redirect_uri aenv ++ u "?" ++ query)) ∧
      open_authorize key st (sv_before r) = (Ok aenv, s1) ∧
      env = code_envelope aenv c (o_time (EvBind (az_correlation_id aenv) :: s1.2))
  | Refresh env => ∃ f entry, received key r f entry (rt_upstream_refresh_token env) ∧
      rt_resource env = re_url entry
  | Registration env => ∃ body, sv_request r = PostRegister body ∧
      admitted body = Ok (rg_redirect_uris env, rg_token_endpoint_auth_method env, rg_client_name env)
  end.

Definition minted key r tok : Prop :=
  ∃ e t iv, tok = token_of key e t iv ∧ env_ok e ∧ made key r e t.

Lemma authorize_mints key r p tok :
  ran r → app_codec (sv_app r) = key → config_text (app_config (sv_app r)) →
  cache_valid (st_cache (sv_before r).1) → params_text p →
  sv_request r = GetAuthorize p → hands_out r tok → minted key r tok.
Proof using OutsideLaws0 ClockLaws0 FernetLaws0.
  unfold ran, hands_out. intros Hran <- Hcfg Hc Hp Hq. rewrite Hq in *. cbn [handle] in Hran.
  destruct (sv_answer r) as [[|url| |]|] eqn:Ea; try done. intros Hst.
  change (cache_valid (the_cache (sv_before r).1)) in Hc.
  destruct (authorize_sealed _ _ _ _ _ _ _ Hc Hp Hcfg Hran)
    as (_ & v & t & query & fields & Hauth & -> & Hq1 & Hm & Hnew & _ & _ & _ & Henv & _). cbv zeta in *.
  rewrite (query_value_app _ _ _ _ Hm Hq1) in Hst. injection Hst as <-.
  exists (Authorize (sealed_envelope v (drawn_cid (sv_before r).2) t)). eexists _, _.
  split; [reflexivity|]. split; [done|]. eexists p, v, _, t, _, [_; _; _].
  split; [done|]. split; [exact Ea|]. split; [exact Hauth|]. split; [done|]. split; [done|].
  split; [exact Hnew|]. by rewrite (query_value_app _ _ _ _ Hm Hq1).
Qed.

Lemma error_params_no_code config env err d : dict_get (error_params config env err d) (u "code") = None.
Proof using Type.
  unfold error_params, set_truthy. rewrite dict_get_set_ne by discriminate.
  destruct (truthy (az_state env)); rewrite ?dict_get_set_ne by discriminate;
    (destruct (truthy (default [] d)); [by rewrite ?dict_get_set_ne by discriminate|done]).
Qed.

(** A callback that hands out a code had opened its state. *)
Lemma callback_mints key r code st err d tok :
  ran r → app_codec (sv_app r) = key → request_ok (sv_request r) →
  (∀ st0 aenv s1, st = Some st0 → open_authorize key st0 (sv_before r) = (Ok aenv, s1) → env_ok (Authorize aenv)) →
  sv_request r = GetCallback code st err d → hands_out r tok → minted key r tok.
Proof using ClockLaws0 FernetLaws0.
  unfold ran, hands_out, request_ok. intros Hran <- Hok Hopen Hq. rewrite Hq in *. cbn [handle] in Hran.
  destruct (sv_answer r) as [[|url| |]|] eqn:Ea; try done. intros Hcode.
  destruct st as [st|]; [|done].
  destruct (open_authorize (app_codec (sv_app r)) st (sv_before r)) as [[aenv|e] s1] eqn:Ho.
  2: { exfalso. revert Hran. unfold callback. io_run. rewrite Ho. io_run. by destruct (is_EnvelopeError e). }
  specialize (Hopen st aenv s1 eq_refl Ho).
  destruct err as [err|]; [|destruct code as [c|]].
  - rewrite (callback_run _ _ _ _ _ _ _ _ _ Ho) in Hran. apply pair_eq in Hran as [H _].
    apply back_to_client_Ok in H as (query & -> & Hq1 & Hm); [|apply dict_set_nonempty].
    rewrite (query_value_app _ _ _ _ Hm Hq1), error_params_no_code in Hcode. done.
  - destruct (callback_code_run _ _ _ _ _ _ _ _ _ _ Ho Hopen (Hok c eq_refl) Hran)
      as (query & -> & Hq1 & Hm & _). rewrite (query_value_app _ _ _ _ Hm Hq1) in Hcode.
    assert (E : sealed_code (app_codec (sv_app r)) aenv c (EvBind (az_correlation_id aenv) :: s1.2) = tok).
    { revert Hcode. unfold code_params, set_truthy. by destruct (truthy _); intros [= <-]. }
    subst tok. eexists _, _, _. split; [reflexivity|]. split.
    { apply code_envelope_ok; [done|by apply Hok|apply o_time_machine]. }
    by exists c, st, d, aenv, s1, query.
  - rewrite (callback_run _ _ _ _ _ _ _ _ _ Ho) in Hran. done.
Qed.
(** A refresh token that is handed out seals the upstream's. *)
Lemma finalise_seals key reply resource (s : state AppState) status d' hs tok s' :
  str_ok resource = true →
  (∀ d x, rsp_json reply = Some (JObj d) → dict_get d (u "refresh_token") = Some x → json_ok x) →
  _finalise_upstream_response reply key resource s = (Ok (JSONResponse status (JObj d') hs), s') →
  status < 400 → dict_get d' (u "refresh_token") = Some (JStr tok) →
  ∃ d x t iv new, rsp_json reply = Some (JObj d) ∧ dict_get d (u "refresh_token") = Some x ∧ json_ok x ∧
    tok = token_of key (Refresh {| rt_resource := resource; rt_upstream_refresh_token := x |}) t iv ∧
    s'.2 = new ++ s.2.
Proof using FernetLaws0.
  intros Hres Hj H Hst Htok. unfold _finalise_upstream_response, response_json in H.
  destruct (rsp_json reply) as [[| | | | |l|d]|] eqn:Ej; revert H; io_run;
    try (destruct (400 <=? rsp_status reply); io_run; intros H; io_inv; fail).
  destruct (400 <=? rsp_status reply) eqn:E4.
  { io_run. intros [H _]%pair_eq. apply Ok_inj in H. injection H as <- <- <-. lia. }
  destruct (dict_get d (u "refresh_token")) as [x|] eqn:Hx.
  2: { io_run. intros [H _]%pair_eq. apply Ok_inj in H. injection H as <- <- <-. congruence. }
  specialize (Hj _ _ eq_refl Hx). unfold pack_refresh.
  assert (Hok : env_ok (Refresh {| rt_resource := resource; rt_upstream_refresh_token := x |}))
    by by apply refresh_env_ok.
  io_run. rewrite pack_run by done. io_run.
  intros [H <-]%pair_eq. apply Ok_inj in H. injection H as <- <- <-.
  rewrite dict_get_set_eq in Htok. injection Htok as <-.
  exists d, x. eexists _, _, [_; _; _]. by split_and!.
Qed.

(** The grants over sealed tokens, when they return. *)
Lemma code_grant_posts config key code verifier uri client (s : state AppState) resp s' :
  _handle_auth_code config key code verifier uri client s = (Ok resp, s') →
  ∃ tok env s0 entry form (s1 : state AppState) mid, code = Some tok ∧ open_code key tok s = (Ok env, s0) ∧
    resource_by_url config (cd_resource env) = Ok (Some entry) ∧ s1.2 = mid ++ s.2 ∧
    (reply ← _post_form (token_url (re_issuer entry)) form;
     _finalise_upstream_response reply key (re_url entry)) s1 = (Ok resp, s').
Proof using Type.
  unfold _handle_auth_code. destruct code as [c|], verifier as [v|]; try done. intros H.
  apply run_bind_Ok in H as (env & s1 & Ho & H). apply run_bind_Ok in H as ([] & s2 & [_ <-]%pair_eq & H).
  apply run_try_Ok in Ho as [Ho|(? & ? & _ & _ & ?)]; [|done].
  destruct (open_code_keeps _ _ _ _ _ Ho) as (_ & new & E & _).
  apply run_bind_Ok in H as (now & s3 & [_ <-]%pair_eq & H).
  repeat (match type of H with (if ?b then _ else _) _ = _ => destruct b; [done|] end).
  apply run_bind_Ok in H as (ok & s4 & [_ <-]%pair_eq & H). destruct ok; cbn [negb] in H; [|done].
  apply run_bind_Ok in H as (o & s5 & [He <-]%pair_eq & H). destruct o as [entry|]; [|done].
  exists c, env, s1, entry. eexists _, _, (EvTime :: EvBind (cd_correlation_id env) :: new).
  do 3 (split; [done|]). split; [|exact H]. cbn [fst snd app]. by rewrite E.
Qed.

Lemma refresh_grant_posts config key refresh_token scope (s : state AppState) resp s' :
  _handle_refresh config key refresh_token scope s = (Ok resp, s') →
  ∃ tok env s0 entry form (s1 : state AppState) mid, refresh_token = Some tok ∧
    open_refresh key tok s = (Ok env, s0) ∧
    resource_by_url config (rt_resource env) = Ok (Some entry) ∧ s1.2 = mid ++ s.2 ∧
    (reply ← _post_form (token_url (re_issuer entry)) form;
     _finalise_upstream_response reply key (re_url entry)) s1 = (Ok resp, s').
Proof using Type.
  unfold _handle_refresh. destruct refresh_token as [t|]; [|done]. intros H.
  apply run_bind_Ok in H as (env & s1 & Ho & H).
  apply run_try_Ok in Ho as [Ho|(? & ? & _ & _ & ?)]; [|done].
  destruct (open_refresh_keeps _ _ _ _ _ Ho) as (_ & new & E & _).
  apply run_bind_Ok in H as (o & s5 & [He <-]%pair_eq & H). destruct o as [entry|]; [|done].
  exists t, env, s1, entry. eexists _, _, new. do 3 (split; [done|]). by split; [|exact H].
Qed.

Lemma sealed_grant_posts r f resp :
  ran r → sv_request r = PostToken f → is_sealed_grant f → sv_answer r = Ok resp →
  (∀ e d code, resp ≠ JSONResponse code (as_dict e d) []) →
  ∃ url entry form (s1 : state AppState) mid, source (app_codec (sv_app r)) r f url ∧
    resource_by_url (app_config (sv_app r)) url = Ok (Some entry) ∧ s1.2 = mid ++ (sv_before r).2 ∧
    (reply ← _post_form (token_url (re_issuer entry)) form;
     _finalise_upstream_response reply (app_codec (sv_app r)) (re_url entry)) s1 = (Ok resp, sv_after r).
Proof using Type.
  unfold ran. intros Hran Hq Hg Ha Hn. rewrite Hq, Ha in Hran. cbn [handle] in Hran.
  unfold token in Hran. apply run_try_Ok in Hran as [Hran|(e & s1 & _ & _ & Hran)].
  2: { destruct e; try done. revert Hran. io_run. intros [H _]%pair_eq. apply Ok_inj in H.
       by destruct (Hn error description status_code). }
  unfold grant in Hran. destruct Hg as [Hg|Hg]; rewrite Hg in Hran.
  - rewrite bool_decide_true in Hran by done.
    apply code_grant_posts in Hran as (tok & env & s0 & entry & form & s1 & mid & ? & ? & ? & ? & ?).
    exists (cd_resource env), entry, form, s1, mid. split; [left; split; [done|]; by eexists _, _, _|done].
  - rewrite bool_decide_false in Hran by (by apply (bool_decide_unpack _)).
    rewrite bool_decide_true in Hran by done.
    apply refresh_grant_posts in Hran as (tok & env & s0 & entry & form & s1 & mid & ? & ? & ? & ? & ?).
    exists (rt_resource env), entry, form, s1, mid. split; [right; split; [done|]; by eexists _, _, _|done].
Qed.

Lemma token_mints key r f tok :
  ran r → app_codec (sv_app r) = key → config_text (app_config (sv_app r)) →
  sv_request r = PostToken f → hands_out r tok → minted key r tok.
Proof using FernetLaws0 Hreplies.
  intros Hran <- Hcfg Hq. unfold hands_out. rewrite Hq.
  destruct (sv_answer r) as [[| |status [| | | | | |d'] hs|]|] eqn:Ea; try done. intros (Hg & Hst & Htok).
  destruct (sealed_grant_posts r f _ Hran Hq Hg Ea) as (url & entry & form & s1 & mid & Hsrc & Hres & Hmid & H).
  { intros e d code [= _ -> _]. done. }
  apply run_bind_Ok in H as (reply & s2 & Hp & H).
  unfold _post_form in Hp. apply run_try_Ok in Hp as [Hp|(? & ? & _ & _ & ?)]; [|done].
  unfold send in Hp. apply run_bind_Ok in Hp as (x & s3 & [<-%Ok_inj <-]%pair_eq & Hp).
  destruct (o_http s1.2 _) as [[n m]|reply'] eqn:Ehttp; [done|]. apply pair_eq in Hp as [<-%Ok_inj <-].
  assert (Htext : str_ok (re_url entry) = true).
  { unfold config_text, texts in Hcfg. rewrite !Forall_cons, Forall_forall in Hcfg.
    apply Hcfg, list_elem_of_fmap_2. by eapply resource_by_url_In. }
  destruct (finalise_seals _ _ _ _ _ _ _ _ _ Htext (λ d x, Hreplies _ _ _ d x Ehttp) H Hst Htok)
    as (d & x & t & iv & new & Hj & Hx & Hok & -> & Hnew). cbn [snd] in Hnew.
  eexists _, t, iv. split; [reflexivity|]. split; [by apply refresh_env_ok|].
  exists f, entry. split; [|done]. split; [done|]. by exists url, form, s1.2, new, mid, reply', d.
Qed.

Lemma register_mints key r body tok :
  ran r → app_codec (sv_app r) = key → request_ok (sv_request r) →
  sv_request r = PostRegister body → hands_out r tok → minted key r tok.
Proof using FernetLaws0.
  unfold ran, hands_out, request_ok. intros Hran <- Hok Hq. rewrite Hq in *. cbn [handle] in Hran.
  revert Hran. unfold register, new_correlation_id, token_urlsafe. io_run.
  destruct (admitted body) as [[[uris m] name]|e] eqn:E.
  - io_run. unfold pack_registration. rewrite pack_run by (by eapply Hok). io_run.
    intros [<- _]%pair_eq. intros Htok.
    assert (Ht : dict_get (registered_body (token_of (app_codec (sv_app r)) _ _ _) _ uris m name) (u "client_id") = Some (JStr tok))
      by exact Htok. clear Htok.
    unfold registered_body in Ht. eexists _, _, _. split; [|split; [by eapply Hok|by exists body]].
    revert Ht. by destruct (truthy name); intros [= <-].
  - destruct e; io_run; intros [<- _]%pair_eq H; try done. exfalso. repeat (case_match; try done).
Qed.
(** ** What is opened was made *)

Definition all_minted key h : Prop := ∀ r tok, r ∈ h → hands_out r tok → minted key r tok.

Lemma open_genuine key h tok tag ttl (s : state AppState) d s' :
  all_minted key h → genuine key h tok → _open key tok tag ttl s = (Ok d, s') →
  ∃ r e t, r ∈ h ∧ env_ok e ∧ made key r e t ∧ TAG e = tag ∧ d = read_payload e ∧
    (∀ n, ttl = Some n → o_time s.2 <= t + n) ∧
    s' = match ttl with Some _ => (s.1, EvTime :: s.2) | None => s end.
Proof using FernetLaws0.
  intros Hall Hg (m & Hm & Hs & He)%open_vouched. apply Hg in Hm as (r & tok0 & Hr & Hout & Hm).
  destruct (Hall _ _ Hr Hout) as (e & t & iv & -> & Hok & Hmade).
  apply decrypt_sealed in Hm as [-> Ht]. destruct (He e Hok eq_refl) as [Htag ->].
  exists r, e, t. split_and!; try done. intros n ->. by apply Ht.
Qed.

Lemma open_authorize_genuine key h tok (s : state AppState) env s1 :
  all_minted key h → genuine key h tok → open_authorize key tok s = (Ok env, s1) →
  ∃ r t, r ∈ h ∧ env_ok (Authorize env) ∧ made key r (Authorize env) t ∧
    o_time s.2 <= t + 600 ∧ s1 = (s.1, EvTime :: s.2).
Proof using FernetLaws0.
  intros Hall Hg H. unfold open_authorize in H. apply run_bind_Ok in H as (d & s2 & H & [Hd <-]%pair_eq).
  destruct (open_genuine _ _ _ _ _ _ _ _ Hall Hg H) as (r & e & t & Hr & Hok & Hm & Htag & -> & Ht & ->).
  destruct e; try (exfalso; revert Htag; by apply (bool_decide_unpack (_ ≠ _))).
  rewrite authorize_of_read in Hd. apply Ok_inj in Hd as ->. exists r, t. split_and!; try done. by apply Ht.
Qed.

Lemma open_code_genuine key h tok (s : state AppState) env s1 :
  all_minted key h → genuine key h tok → open_code key tok s = (Ok env, s1) →
  ∃ r t, r ∈ h ∧ env_ok (Code env) ∧ made key r (Code env) t ∧ s1 = s.
Proof using FernetLaws0.
  intros Hall Hg H. unfold open_code in H. apply run_bind_Ok in H as (d & s2 & H & [Hd <-]%pair_eq).
  destruct (open_genuine _ _ _ _ _ _ _ _ Hall Hg H) as (r & e & t & Hr & Hok & Hm & Htag & -> & _ & ->).
  destruct e; try (exfalso; revert Htag; by apply (bool_decide_unpack (_ ≠ _))).
  rewrite code_of_read in Hd. apply Ok_inj in Hd as ->. by exists r, t.
Qed.

Lemma open_refresh_genuine key h tok (s : state AppState) env s1 :
  all_minted key h → genuine key h tok → open_refresh key tok s = (Ok env, s1) →
  ∃ r t x, r ∈ h ∧ made key r (Refresh {| rt_resource := rt_resource env; rt_upstream_refresh_token := x |}) t ∧
    rt_upstream_refresh_token env = sort_json x ∧ s1 = s.
Proof using FernetLaws0.
  intros Hall Hg H. unfold open_refresh in H. apply run_bind_Ok in H as (d & s2 & H & [Hd <-]%pair_eq).
  destruct (open_genuine _ _ _ _ _ _ _ _ Hall Hg H) as (r & e & t & Hr & Hok & Hm & Htag & -> & _ & ->).
  destruct e as [| |e|]; try (exfalso; revert Htag; by apply (bool_decide_unpack (_ ≠ _))).
  pose proof (refresh_of_read e) as Hread. rewrite Hd in Hread. cbn [fmap res_fmap reread] in Hread.
  apply Ok_inj in Hread. injection Hread as ->. cbn [rt_resource rt_upstream_refresh_token].
  exists r, t, (rt_upstream_refresh_token e). split_and!; try done.
Qed.

Lemma open_registration_genuine key h tok (s : state AppState) env s1 :
  all_minted key h → genuine key h tok → open_registration key tok s = (Ok env, s1) →
  ∃ r t, r ∈ h ∧ made key r (Registration env) t ∧ s1 = s.
Proof using FernetLaws0.
  intros Hall Hg H. unfold open_registration in H. apply run_bind_Ok in H as (d & s2 & H & [Hd <-]%pair_eq).
  destruct (open_genuine _ _ _ _ _ _ _ _ Hall Hg H) as (r & e & t & Hr & Hok & Hm & Htag & -> & _ & ->).
  destruct e; try (exfalso; revert Htag; by apply (bool_decide_unpack (_ ≠ _))).
  rewrite registration_of_read in Hd. apply Ok_inj in Hd as ->. by exists r, t.
Qed.

(** Every token that was handed out was made by the request it answered. *)
Lemma history_minted key h : served_history key h → all_minted key h.
Proof using OutsideLaws0 ClockLaws0 FernetLaws0 Hreplies.
  induction 1 as [|r h Hh IH Hran Hkey Hcfg Hc Hok Hg]; [by intros r tok ?%elem_of_nil|].
  intros r' tok [->|Hin]%elem_of_cons Hout; [|by apply IH].
  destruct (sv_request r) as [| | |p|code st err d|f|body| | | | |] eqn:Eq;
    try (unfold hands_out in Hout; by rewrite Eq in Hout).
  - by eapply authorize_mints.
  - eapply callback_mints; [done|done| |  |done|done].
    + by rewrite Eq.
    + intros st0 aenv s1 -> Ho.
      destruct (open_authorize_genuine _ _ _ _ _ _ IH (Hg st0 eq_refl) Ho) as (_ & _ & _ & ? & _). done.
  - by eapply token_mints.
  - eapply register_mints; [done|done| |done|done]. by rewrite Eq.
Qed.

Lemma history_app key newer h : served_history key (newer ++ h) → served_history key h.
Proof using Type. induction newer as [|r newer IH]; [done|]. intros H. apply IH. by inversion H. Qed.
End Minting.

(** ** Properties *)

Section Agreements.
Context `{O : Outside, !OutsideLaws O, !ClockLaws O, R : Rsa, F : Fernet, !FernetLaws F, FR : FloatRepr}.
Context (Hreplies : ∀ t rq reply d x, o_http t rq = inr reply → rsp_json reply = Some (JObj d) →
  dict_get d (u "refresh_token") = Some x → json_ok x).
Implicit Types (r : served) (h : list served) (key : fkey).

(** The two requests before a redemption at [url] with [form]: an authorization
    [ra] for [p], validated as [v], and after it the callback [rc] that brought
    the upstream's code. *)
Definition code_agrees key h (config : ProxyConfig) (now : trace) (f : TokenForm) (url : pystr)
    (form : dict json) : Prop :=
  ∃ newer rc older ra p v url_a verifier tr c st description query cid entry cv,
    h = newer ++ rc :: older ∧ ra ∈ older ∧
    (* the authorization *)
    sv_request ra = GetAuthorize p ∧ sv_answer ra = Ok (Redirect url_a) ∧
    let_through key ra p v ∧
    query_value url_a (u "code_challenge") = Some (b64url (sha256 verifier)) ∧
    (∃ new, (sv_after ra).2 = new ++ drawn_trace tr) ∧
    (* the callback, within 600 seconds *)
    sv_request rc = GetCallback (Some c) (Some st) None description ∧
    sv_answer rc = Ok (Redirect (v_redirect_uri v ++ u "?" ++ query)) ∧
    o_time (sv_before rc).2 <= o_time (drawn_trace tr) + 600 ∧
    (* the redemption, less than 60 seconds later, by the same client *)
    o_time (EvBind cid :: now) < o_time (EvBind cid :: EvTime :: (sv_before rc).2) + 60 ∧
    (∀ x, tf_redirect_uri f = Some x → ap_redirect_uri p = Some x) ∧
    (∀ x, tf_client_id f = Some x → ap_client_id p = Some x) ∧
    tf_code_verifier f = Some cv ∧ verify_challenge cv (v_code_challenge v) = Ok true ∧
    (* and what is posted: the code of the callback, the verifier of the authorization *)
    resource_by_url config (re_url (v_resource_entry v)) = Ok (Some entry) ∧
    url = token_url (re_issuer entry) ∧
    dict_get form (u "code") = Some (JStr c) ∧
    dict_get form (u "code_verifier") = Some (JStr verifier).

Lemma code_form_members config env entry :
  dict_get (code_form config env entry) (u "code") = Some (JStr (cd_upstream_code env)) ∧
  dict_get (code_form config env entry) (u "code_verifier") = Some (JStr (cd_upstream_verifier env)).
Proof. unfold code_form. by destruct (truthy _). Qed.

Lemma redeemable_agrees key h config f (s : state AppState) url form :
  served_history key h → (∀ tok, tf_code f = Some tok → genuine key h tok) →
  redeemable config key s (tf_code f) (tf_code_verifier f) (tf_redirect_uri f) (tf_client_id f) url form →
  code_agrees key h config s.2 f url form.
Proof using OutsideLaws0 ClockLaws0 FernetLaws0 Hreplies.
  intros Hh Hg (tok & cv & env & entry & s1 & Htok & Hcv & Ho & Htime & Huri & Hclient & Hpkce & Hres & Hin & Hurl & Hform).
  destruct (open_code_genuine _ _ _ _ _ _ (history_minted Hreplies _ _ Hh) (Hg _ Htok) Ho)
    as (rc & t & Hrc & _ & (c & st & d & aenv & s2 & query & Erc & Arc & Hst & ->) & ->).
  apply list_elem_of_split in Hrc as (newer & older & ->).
  pose proof (history_app _ _ _ Hh) as Hh2. inversion Hh2 as [|r1 h1 Hh3 Hran Hkey Hcfg Hc Hok Hg3]. subst r1 h1.
  destruct (open_authorize_genuine _ _ _ _ _ _ (history_minted Hreplies _ _ Hh3)
    (Hg3 st (ltac:(by rewrite Erc))) Hst) as (ra & t2 & Hra & _ &
    (p & v & cid & tr & url_a & new & Era & Ara & Hauth & -> & -> & Hnew & Hch) & Ht & ->).
  pose proof Hauth as (_ & _ & Ecl & Eru & Ech & _). cbn [snd] in *.
  destruct (code_form_members config (code_envelope (sealed_envelope v cid tr) c
    (o_time (EvBind cid :: EvTime :: (sv_before rc).2))) entry) as [Hf1 Hf2].
  exists newer, rc, older, ra, p, v, url_a, (drawn_verifier tr), tr, c, st, d, query, cid, entry, cv.
  split_and!; try done; try (by eexists).
  - intros x Hx. rewrite Eru. f_equal. symmetry. exact (Huri x Hx).
  - intros x Hx. rewrite Ecl. f_equal. symmetry. exact (Hclient x Hx).
  - by rewrite Hform.
  - by rewrite Hform.
Qed.
(** A URL found under another one in some configuration. *)
Definition finds (url url' : pystr) : Prop :=
  ∃ config entry, resource_by_url config url = Ok (Some entry) ∧ url' = re_url entry.

(** The authorization a resource goes back to. *)
Definition authorized_before key h (url : pystr) : Prop :=
  ∃ ra p v, ra ∈ h ∧ sv_request ra = GetAuthorize p ∧ is_redirect <$> sv_answer ra = Ok true ∧
    let_through key ra p v ∧
    rtc finds (re_url (v_resource_entry v)) url.

(** The request before a refresh at [url] with [form]: it received the refresh
    token that is now presented, for the same resource. *)
Definition refresh_agrees key h (config : ProxyConfig) (url : pystr) (form : dict json) : Prop :=
  ∃ rr fr before x entry, rr ∈ h ∧ received key rr fr before x ∧
    authorized_before key h (re_url before) ∧
    resource_by_url config (re_url before) = Ok (Some entry) ∧
    url = token_url (re_issuer entry) ∧
    dict_get form (u "refresh_token") = Some (sort_json x).

Lemma refresh_form_token env entry scope :
  dict_get (refresh_form env entry scope) (u "refresh_token") = Some (rt_upstream_refresh_token env).
Proof using Type.
  unfold refresh_form. destruct (truthy (re_client_secret entry)), (truthy (default [] scope)); done.
Qed.

Lemma answered_impl (Q Q' : pystr → dict json → Prop) (s : state AppState) (r : res response) s' :
  (∀ url form, Q url form → Q' url form) → answered Q s r s' → answered Q' s r s'.
Proof using Type.
  intros HQ [E [H|(url & form & before & after & Hq & H)]]; (split; [exact E|]); [by left|right].
  exists url, form, before, after. split; [by apply HQ|exact H].
Qed.

(** Behind what a request names there is an authorization of that resource. *)
Lemma source_authorized key r h f url :
  served_history key (r :: h) → sv_request r = PostToken f → source key r f url → authorized_before key h url.
Proof using OutsideLaws0 ClockLaws0 FernetLaws0 Hreplies.
  remember (length h) as n eqn:Hn. revert r h f url Hn.
  induction n as [n IH] using lt_wf_ind. intros r h f url -> Hh Hq Hsrc.
  inversion Hh as [|r1 h1 Hh1 Hran Hkey Hcfg Hc Hok Hg]. subst r1 h1.
  destruct Hsrc as [(Hgrant & tok & env & s1 & Htok & Ho & ->)|(Hgrant & tok & env & s1 & Htok & Ho & ->)].
  - destruct (open_code_genuine _ _ _ _ _ _ (history_minted Hreplies _ _ Hh1) (Hg tok (ltac:(rewrite Hq; by left))) Ho)
      as (rc & t & Hrc & _ & (c & st & d & aenv & s2 & query & Erc & Arc & Hst & ->) & ->).
    apply list_elem_of_split in Hrc as (newer & older & ->).
    pose proof (history_app _ _ _ Hh1) as Hh2. inversion Hh2 as [|r1 h1 Hh3 _ _ _ _ _ Hg3]. subst r1 h1.
    destruct (open_authorize_genuine _ _ _ _ _ _ (history_minted Hreplies _ _ Hh3)
      (Hg3 st (ltac:(by rewrite Erc))) Hst) as (ra & t2 & Hra & _ &
      (p & v & cid & tr & url_a & new & Era & Ara & Hauth & -> & _) & _).
    exists ra, p, v. split; [by apply elem_of_app; right; right|]. split; [done|].
    split; [by rewrite Ara|]. split; [done|]. apply rtc_refl.
  - destruct (open_refresh_genuine _ _ _ _ _ _ (history_minted Hreplies _ _ Hh1) (Hg tok (ltac:(rewrite Hq; by right))) Ho)
      as (rr & t & x & Hrr & (fr & before & (Hqr & url' & form & t' & new & mid & reply & d & Hsrc & Hres & _) & Hbefore) & _).
    cbn [rt_resource] in Hbefore. apply list_elem_of_split in Hrr as (newer & older & ->).
    pose proof (history_app _ _ _ Hh1) as Hh2.
    destruct (IH (length older) (ltac:(rewrite length_app; simpl; lia)) rr older fr url' eq_refl Hh2 Hqr Hsrc)
      as (ra & p & v & Hra & Era & Ara & Hauth & Hf).
    exists ra, p, v. split; [by apply elem_of_app; right; right|]. do 3 (split; [done|]).
    eapply rtc_r; [exact Hf|]. exists (app_config (sv_app rr)), before. by rewrite Hbefore.
Qed.

Lemma refreshable_agrees key h config f (s : state AppState) url form :
  served_history key h → (∀ tok, tf_refresh_token f = Some tok → genuine key h tok) →
  refreshable config key s (tf_refresh_token f) (tf_scope f) url form →
  refresh_agrees key h config url form.
Proof using OutsideLaws0 ClockLaws0 FernetLaws0 Hreplies.
  intros Hh Hg (tok & env & entry & s1 & Htok & Ho & Hres & Hin & Hurl & Hform).
  destruct (open_refresh_genuine _ _ _ _ _ _ (history_minted Hreplies _ _ Hh) (Hg _ Htok) Ho)
    as (rr & t & x & Hrr & (fr & before & Hrec & Hbefore) & Hx & _).
  cbn [rt_resource rt_upstream_refresh_token] in *.
  exists rr, fr, before, x, entry. split; [done|]. split; [done|]. split.
  - apply list_elem_of_split in Hrr as (newer & older & ->). pose proof (history_app _ _ _ Hh) as Hh2.
    destruct Hrec as (Hqr & url' & form' & t' & new & mid & reply & d & Hsrc & Hr & _).
    destruct (source_authorized _ _ _ _ _ Hh2 Hqr Hsrc) as (ra & p & v & Hra & Era & Ara & Hauth & Hf).
    exists ra, p, v. split; [by apply elem_of_app; right; right|]. do 3 (split; [done|]).
    eapply rtc_r; [exact Hf|]. by exists (app_config (sv_app rr)), before.
  - rewrite <-Hbefore. split; [done|]. split; [done|]. by rewrite Hform, refresh_form_token, Hx.
Qed.

(** C2. A code that is redeemed was given to this client, for this login.  Take
    any history of requests over one key -- any number of processes, restarted
    and reconfigured, clients and browsers that present whatever tokens they have
    seen, to whomever -- that ends in a POST [/token] with the grant
    [authorization_code].  Either it contacts nobody and answers with an error.
    Or it posts exactly once, and before it there was one GET [/callback], less
    than 60 seconds ago, and before that one GET [/authorize], whose state was at
    most 600 seconds old, such that: the code that is posted is the one that
    callback received, and it sent the browser to the redirect URI of that
    authorization; the verifier that is posted belongs to the challenge that
    authorization sent upstream; and the one presented passes the challenge of
    its client.  Redirect URI and client id, where named, are those of that
    authorization, and the upstream is the one configured for its resource. *)
Theorem code_agreement key r h f :
  served_history key (r :: h) → sv_request r = PostToken f → tf_grant_type f = Some (u "authorization_code") →
  answered (code_agrees key h (app_config (sv_app r)) (sv_before r).2 f) (sv_before r) (sv_answer r) (sv_after r).
Proof using OutsideLaws0 ClockLaws0 FernetLaws0 Hreplies.
  intros Hh Hq Hgrant. inversion Hh as [|r1 h1 Hh1 Hran Hkey Hcfg Hc Hok Hg]. subst r1 h1.
  unfold ran in Hran. rewrite Hq in Hran. cbn [handle] in Hran. rewrite Hkey in Hran.
  assert (Hans : answered (redeemable (app_config (sv_app r)) key (sv_before r) (tf_code f) (tf_code_verifier f)
    (tf_redirect_uri f) (tf_client_id f)) (sv_before r) (sv_answer r) (sv_after r)).
  { eapply token_outcome; [|exact Hran]. intros r' s'' H. eapply handle_auth_code_run. revert H.
    unfold grant. rewrite Hgrant. by rewrite bool_decide_true. }
  eapply answered_impl; [|exact Hans]. intros url form. apply redeemable_agrees; [done|].
  intros tok Htok. apply Hg. rewrite Hq. by left.
Qed.

(** C6. A refresh token that is used came from the upstream for the same
    resource.  In any such history that ends in a POST [/token] with the grant
    [refresh_token]: either it contacts nobody and answers with an error, or it
    posts exactly once, the refresh token that an earlier request of this history
    received from the upstream -- for the resource under which it is now used,
    however often the client refreshed in between --, and at the beginning there
    was a GET [/authorize] of that resource that was let through. *)
Theorem refresh_agreement key r h f :
  served_history key (r :: h) → sv_request r = PostToken f → tf_grant_type f = Some (u "refresh_token") →
  answered (refresh_agrees key h (app_config (sv_app r))) (sv_before r) (sv_answer r) (sv_after r).
Proof using OutsideLaws0 ClockLaws0 FernetLaws0 Hreplies.
  intros Hh Hq Hgrant. inversion Hh as [|r1 h1 Hh1 Hran Hkey Hcfg Hc Hok Hg]. subst r1 h1.
  unfold ran in Hran. rewrite Hq in Hran. cbn [handle] in Hran. rewrite Hkey in Hran.
  assert (Hans : answered (refreshable (app_config (sv_app r)) key (sv_before r) (tf_refresh_token f) (tf_scope f))
    (sv_before r) (sv_answer r) (sv_after r)).
  { eapply token_outcome; [|exact Hran]. intros r' s'' H. eapply handle_refresh_run. revert H.
    unfold grant. rewrite Hgrant. rewrite bool_decide_false by (by apply (bool_decide_unpack _)).
    by rewrite bool_decide_true. }
  eapply answered_impl; [|exact Hans]. intros url form. apply refreshable_agrees; [done|].
  intros tok Htok. apply Hg. rewrite Hq. by right.
Qed.

(** C22. A registered client was registered.  When GET [/authorize] sends the
    browser on for a [client_id] that is not an https URL, then an earlier POST
    [/register] of the history admitted a body whose redirect URIs -- every one
    within the policy -- include one that the redirect URI of this request
    matches. *)
Theorem registration_agreement key r h p client_id url :
  served_history key (r :: h) → sv_request r = GetAuthorize p → sv_answer r = Ok (Redirect url) →
  ap_client_id p = Some client_id → startswith client_id (u "https://") = false →
  ∃ rr body uris m name redirect_uri registered, rr ∈ h ∧ sv_request rr = PostRegister body ∧
    admitted body = Ok (uris, m, name) ∧ Forall (λ uri, accept_registered uri = Ok tt) uris ∧
    ap_redirect_uri p = Some redirect_uri ∧ registered ∈ uris ∧
    uri_matches_registration redirect_uri registered = Ok true.
Proof using OutsideLaws0 ClockLaws0 FernetLaws0 Hreplies.
  intros Hh Hq Ha Hcl Hhttps. inversion Hh as [|r1 h1 Hh1 Hran Hkey Hcfg Hc Hok Hg]. subst r1 h1.
  unfold ran in Hran. rewrite Hq in Hran, Hg, Hok. rewrite Ha in Hran. cbn [handle] in Hran.
  change (cache_valid (the_cache (sv_before r).1)) in Hc.
  destruct (authorize_sealed _ _ _ _ _ _ _ Hc Hok Hcfg Hran) as (_ & v & t & query & fields & Hauth & _).
  destruct Hauth as (_ & _ & Ecl & Eru & _ & _ & _ & _ & _ & Hent). rewrite Hcl in Ecl. injection Ecl as ->.
  destruct Hent as [[H _]|(_ & env & registered & s1 & Ho & Hin & Hm)]; [congruence|].
  rewrite Hkey in Ho.
  destruct (open_registration_genuine _ _ _ _ _ _ (history_minted Hreplies _ _ Hh1) (Hg _ Hcl) Ho)
    as (rr & t' & Hrr & (body & Hqr & Hadm) & _).
  exists rr, body. eexists _, _, _, (v_redirect_uri v), registered. split; [done|]. split; [done|].
  split; [exact Hadm|]. split; [|done]. apply bind_Ok in Hadm as (payload & _ & Hv).
  by apply validate_iff in Hv as (_ & _ & _ & _ & Hall & _).
Qed.
End Agreements.

(** ** A client from its registration to its second token *)
Module AgreementExamples.
#[local] Existing Instance ToyFernet.fernet.
#[local] Existing Instance ToyFernet.fernet_laws.
#[local] Existing Instance AssertionExamples.toy_rsa.
#[local] Instance no_floats : FloatRepr := id.
#[local] Existing Instance TokenExamples.world.

Definition key : fkey := true.
Definition app : App AppState := {| app_config := ConfigExamples.sample_config; app_codec := key;
  app_cimd := AuthorizeExamples.service; app_pat := None; app_owned := false |}.
Definition start : state AppState := ({| st_cache := []; st_db := {| tokens := []; history := None |} |}, []).

Definition run_on (q : app_request) (s : state AppState) : served :=
  let '(a, s') := handle app q s in
  {| sv_app := app; sv_request := q; sv_before := s; sv_answer := a; sv_after := s' |}.
(** Compare requests before serving them. *)
Strategy 1000 [run_on].

Lemma serve_ran q s : ran (run_on q s).
Proof. unfold run_on, ran. by destruct (handle app q s) eqn:E. Qed.
Lemma serve_request q s : sv_request (run_on q s) = q ∧ sv_app (run_on q s) = app ∧ sv_before (run_on q s) = s.
Proof. unfold run_on. by destruct (handle app q s). Qed.

(** What the client and its browser find in an answer. *)
Definition found (r : served) : pystr :=
  match sv_request r, sv_answer r with
  | GetAuthorize _, Ok (Redirect url) => default [] (query_value url (u "state"))
  | GetCallback _ _ _ _, Ok (Redirect url) => default [] (query_value url (u "code"))
  | PostToken f, Ok (JSONResponse 200 (JObj d) _) =>
      match dict_get d (u "refresh_token") with Some (JStr t) => t | _ => [] end
  | PostRegister _, Ok (JSONResponse 201 (JObj d) _) =>
      match dict_get d (u "client_id") with Some (JStr t) => t | _ => [] end
  | _, _ => []
  end.
Definition grants (q : app_request) : bool :=
  match q with PostToken f => bool_decide (tf_grant_type f = Some (u "authorization_code"))
                              || bool_decide (tf_grant_type f = Some (u "refresh_token")) | _ => true end.

Lemma found_handed r : found r ≠ [] → grants (sv_request r) = true → hands_out r (found r).
Proof.
  unfold found, hands_out, grants, is_sealed_grant.
  repeat (case_match; subst; simplify_eq; try done).
  - by destruct (query_value _ _).
  - by destruct (query_value _ _).
  - intros _ Hg. split; [|done]. apply orb_true_iff in Hg as [Hg|Hg]; apply bool_decide_eq_true in Hg; auto.
Qed.

(** A token found in an earlier answer is genuine, and so is one that is none. *)
Lemma found_genuine h r : r ∈ h → found r ≠ [] → grants (sv_request r) = true → genuine key h (found r).
Proof. intros Hr Hf Hg ttl now m Hm. exists r, (found r). split; [done|]. split; [by apply found_handed|done]. Qed.

Definition body : pystr + json := inr (JObj [(u "redirect_uris", JArr [JStr (u "http://127.0.0.1/cb")])]).
Definition r0 := run_on (PostRegister body) start.
Definition params : AuthorizeParams := {|
  ap_response_type := Some (u "code"); ap_client_id := Some (found r0);
  ap_redirect_uri := Some (u "http://127.0.0.1:51004/cb");
  ap_code_challenge := Some (u "E9Melhoa2OwvFrEMTJguCHaoeK1t8URWbuGJSstw-cM");
  ap_code_challenge_method := Some (u "S256"); ap_state := Some (u "xyz");
  ap_resource := Some (u "https://r0.example/"); ap_scope := None |}.
Definition r1 := run_on (GetAuthorize params) (sv_after r0).
Definition r2 := run_on (GetCallback (Some (u "upstream-code")) (Some (found r1)) None None) (sv_after r1).
Definition form (grant_type : pystr) (code refresh : option pystr) : TokenForm := {|
  tf_grant_type := Some grant_type; tf_code := code;
  tf_code_verifier := Some TokenExamples.verifier; tf_redirect_uri := ap_redirect_uri params;
  tf_client_id := Some (found r0); tf_refresh_token := refresh; tf_scope := None;
  tf_subject_token := None; tf_subject_token_type := None; tf_requested_token_type := None;
  tf_resource := None |}.
Definition code_request := form (u "authorization_code") (Some (found r2)) None.
Definition r3 := run_on (PostToken code_request) (sv_after r2).
Definition refresh_request := form (u "refresh_token") None (Some (found r3)).
Definition r4 := run_on (PostToken refresh_request) (sv_after r3).

(** Every answer brought what the next request presents, and none of them
    touched the cache. *)
Lemma all_found : forallb (λ r, truthy (found r) && bool_decide (st_cache (sv_after r).1 = [])) [r0; r1; r2; r3; r4] = true.
Proof. vm_compute. reflexivity. Qed.

Lemma step_found r : r ∈ [r0; r1; r2; r3; r4] → found r ≠ [] ∧ st_cache (sv_after r).1 = [].
Proof.
  intros Hr%list_elem_of_In. pose proof all_found as H. rewrite forallb_forall in H. apply H in Hr.
  apply andb_true_iff in Hr as [Hf Hc]. apply bool_decide_eq_true in Hc. split; [|exact Hc].
  intros E. by rewrite E in Hf.
Qed.

Lemma serve_history q s h :
  served_history key h → st_cache s.1 = [] → request_ok q →
  (∀ tok, presented q tok → genuine key h tok) → served_history key (run_on q s :: h).
Proof.
  intros Hh Hc Hq Hg. pose proof (serve_ran q s) as Hran.
  destruct (serve_request q s) as (Eq & Ea & Eb). constructor; rewrite ?Eq, ?Ea, ?Eb; try done.
  - apply AuthorizeExamples.texts_check. vm_compute. reflexivity.
  - rewrite Hc. split; [apply NoDup_nil_2|done].
Qed.

Lemma found_before q s h : found (run_on q s) ≠ [] → grants q = true → genuine key (run_on q s :: h) (found (run_on q s)).
Proof.
  intros Hf Hg. apply found_genuine; [by left|done|]. by destruct (serve_request q s) as (-> & _).
Qed.

Lemma Some_inj' {A} (x y : A) : Some x = Some y → y = x.
Proof. by intros [= ->]. Qed.

Lemma registered : served_history key [r0].
Proof.
  apply serve_history; [constructor|reflexivity| |done].
  intros uris m name t H. apply (f_equal (λ r, match r with Ok x => Some x | _ => None end)) in H.
  vm_compute in H. injection H as <- <- <-. apply json_okb_ok. reflexivity.
Qed.

Lemma params_ok : params_text params.
Proof. apply AuthorizeExamples.texts_check. vm_compute. reflexivity. Qed.

Lemma in0 : r0 ∈ [r0; r1; r2; r3; r4].
Proof. left. Qed.
Lemma in1 : r1 ∈ [r0; r1; r2; r3; r4].
Proof. right. left. Qed.
Lemma in2 : r2 ∈ [r0; r1; r2; r3; r4].
Proof. right. right. left. Qed.
Lemma in3 : r3 ∈ [r0; r1; r2; r3; r4].
Proof. right. right. right. left. Qed.

Lemma authorized_ : served_history key [r1; r0].
Proof.
  apply serve_history; [exact registered|exact (proj2 (step_found r0 in0))|exact params_ok|].
  intros tok E. apply Some_inj' in E as ->.
  exact (found_before (PostRegister body) start [] (proj1 (step_found r0 in0)) eq_refl).
Qed.

Lemma called_back : served_history key [r2; r1; r0].
Proof.
  apply serve_history; [exact authorized_|exact (proj2 (step_found r1 in1))|by intros c [= <-]|].
  intros tok E. apply Some_inj' in E as ->.
  exact (found_before (GetAuthorize params) (sv_after r0) [r0] (proj1 (step_found r1 in1)) eq_refl).
Qed.

Lemma redeemed : served_history key [r3; r2; r1; r0].
Proof.
  apply serve_history; [exact called_back|exact (proj2 (step_found r2 in2))|done|].
  intros tok [E|E]; [apply Some_inj' in E as ->|discriminate E].
  exact (found_before (GetCallback (Some (u "upstream-code")) (Some (found r1)) None None) (sv_after r1) [r1; r0]
           (proj1 (step_found r2 in2)) eq_refl).
Qed.

Lemma refreshed : served_history key [r4; r3; r2; r1; r0].
Proof.
  apply serve_history; [exact redeemed|exact (proj2 (step_found r3 in3))|done|].
  intros tok [E|E]; [discriminate E|apply Some_inj' in E as ->].
  exact (found_before (PostToken code_request) (sv_after r2) [r2; r1; r0] (proj1 (step_found r3 in3)) eq_refl).
Qed.

Lemma replies_ok t rq reply d x :
  o_http t rq = inr reply → rsp_json reply = Some (JObj d) → dict_get d (u "refresh_token") = Some x → json_ok x.
Proof. intros [= <-] [= <-] [= <-]. by apply json_okb_ok. Qed.

(** The kinds of the answers: a token object from [/token], a location from
    [/authorize]. *)
Definition fine (r : served) : bool :=
  match sv_request r, sv_answer r with
  | PostToken _, Ok resp => response_status resp <? 400
  | GetAuthorize _, Ok resp => is_redirect resp
  | _, _ => false
  end.
Lemma answers_fine : forallb fine [r1; r3; r4] = true.
Proof. vm_compute. reflexivity. Qed.

Lemma answered_fine (Q : pystr → dict json → Prop) r f :
  fine r = true → sv_request r = PostToken f → answered Q (sv_before r) (sv_answer r) (sv_after r) →
  ∃ url form, Q url form.
Proof.
  unfold fine. intros Hf Eq. rewrite Eq in Hf. intros [_ [(new & _ & _ & H)|(url & form & _ & _ & HQ & _)]]; [|by exists url, form].
  destruct (sv_answer r) as [resp|]; [|done]. specialize (H resp eq_refl). lia.
Qed.

Lemma fine_at r : r ∈ [r1; r3; r4] → fine r = true.
Proof. intros Hr%list_elem_of_In. pose proof answers_fine as H. rewrite forallb_forall in H. by apply H. Qed.

Lemma code_agreement_witness :
  ∃ url form, code_agrees key [r2; r1; r0] (app_config (sv_app r3)) (sv_before r3).2 code_request url form.
Proof.
  destruct (serve_request (PostToken code_request) (sv_after r2)) as (Eq & _).
  apply (answered_fine _ r3 code_request (fine_at r3 (ltac:(right; left))) Eq).
  exact (code_agreement replies_ok key r3 [r2; r1; r0] code_request redeemed Eq eq_refl).
Defined.

Lemma refresh_agreement_witness :
  ∃ url form, refresh_agrees key [r3; r2; r1; r0] (app_config (sv_app r4)) url form.
Proof.
  destruct (serve_request (PostToken refresh_request) (sv_after r3)) as (Eq & _).
  apply (answered_fine _ r4 refresh_request (fine_at r4 (ltac:(right; right; left))) Eq).
  exact (refresh_agreement replies_ok key r4 [r3; r2; r1; r0] refresh_request refreshed Eq eq_refl).
Defined.

Lemma registration_agreement_witness :
  ∃ rr body uris m name registered, rr ∈ [r0] ∧ sv_request rr = PostRegister body ∧
    admitted body = Ok (uris, m, name) ∧ registered ∈ uris ∧
    uri_matches_registration (u "http://127.0.0.1:51004/cb") registered = Ok true.
Proof.
  destruct (serve_request (GetAuthorize params) (sv_after r0)) as (Eq & _).
  pose proof (fine_at r1 (ltac:(left))) as Hf. unfold fine in Hf.
  fold r1 in Eq. rewrite Eq in Hf.
  destruct (sv_answer r1) as [[|url| |]|] eqn:Ea; try discriminate Hf.
  destruct (registration_agreement replies_ok key r1 [r0] params (found r0) url authorized_ Eq Ea eq_refl)
    as (rr & body' & uris & m & name & ruri & registered & H1 & H2 & H3 & _ & H5 & H6 & H7).
  - vm_compute. reflexivity.
  - injection H5 as <-. exists rr, body', uris, m, name, registered. split_and!; assumption.
Defined.
End AgreementExamples.
