(* ===== verification/Cli.v ===== *)
(** * The command line ([pat_cli.py])

    [pat-create], [pat-list] and [pat-revoke]: discovery of the proxy, the
    loopback receiver, the sign-in and the three commands, from the parsed
    options ([Namespace]) to the exit code.  This file holds the definitions;
    [CliSpec] has the theorems.

    The listener's threads meet in [_accept], which takes a lock: what was
    received when the wait ends is what the requests handled so far leave, in
    the order in which they took it ([serve]). *)

From S2P Require Import Prelude PyStr Codec Digest Json World Errors IpAddr UrlLib.
From S2P Require Import QueryString Pkce Text.

Definition ENV_PROXY : pystr := u "CIMD_PAT_PROXY".
Definition ENV_RESOURCE : pystr := u "CIMD_PAT_RESOURCE".
Definition DEFAULT_LOGIN_SCOPE : pystr := u "openid".
Definition CALLBACK_PATH : pystr := u "/callback".
Definition CLIENT_NAME : pystr := u "cimd-proxy pat command line".

Definition is_CliError (e : exn) : bool := match e with CliError _ => true | _ => false end.

(** ** Values *)

Record Endpoints := {
  ep_issuer : pystr;
  ep_authorization : pystr;
  ep_token : pystr;
  ep_registration : pystr
}.
Definition pat_tokens (e : Endpoints) : pystr := ep_issuer e ++ u "/pat/tokens".

Record SignedIn := { si_endpoints : Endpoints; si_access_token : pystr }.
Definition bearer_headers (s : SignedIn) : dict pystr :=
  [(u "Authorization", u "Bearer " ++ si_access_token s)].

(** The options after [parse_args]; [ns_timeout] is how the number of seconds
    prints ([:g]), [ns_proxy] and [ns_resource] as the parser leaves them. *)
Record Namespace := {
  ns_resource : option (list pystr);
  ns_proxy : option pystr;
  ns_login_scope : pystr;
  ns_timeout : pystr;
  ns_no_browser : bool
}.
Record CreateNamespace := {
  cn_common : Namespace;
  cn_name : pystr;
  cn_sets : list pystr;
  cn_expires_in_days : option Z;
  cn_allow_long_lifetime : bool;
  cn_organization : option pystr
}.

(** What the terminal's machine answers: the port of the listener, and the
    request targets that reached it when the wait ends. *)
Class Terminal := {
  t_port : trace → Z;
  t_redirects : trace → list pystr
}.

(** ** The loopback receiver *)

Definition loopback_uri (port : Z) : pystr :=
  u "http://127.0.0.1:" ++ str_of_Z port ++ CALLBACK_PATH.

(** [_accept], under its lock: the first redirect is kept. *)
Definition _accept (received : option (dict pystr)) (params : dict pystr)
    : bool * option (dict pystr) :=
  match received with
  | Some _ => (false, received)
  | None => (true, Some params)
  end.

(** [{k: v[0] for k, v in parse_qs(q).items()}]. *)
Definition first_values (q : pystr) : dict pystr :=
  (λ '(k, vs), (k, default [] (head vs))) <$> parse_qs q.

Definition html_escape (s : pystr) : pystr :=
  s ≫= λ c,
    if (c =? 38)%N then u "&amp;" else if (c =? 60)%N then u "&lt;"
    else if (c =? 62)%N then u "&gt;" else if (c =? dquote)%N then u "&quot;"
    else if (c =? 39)%N then u "&#x27;" else [c].

Record answer := { an_status : Z; an_headers : dict pystr; an_body : bytes }.

Definition _answer (status : Z) (text : pystr) : res answer :=
  body ← encode_utf8 (u "<!doctype html><meta charset=utf-8><title>pat</title><p>"
                      ++ html_escape text ++ u "</p>");
  Ok {| an_status := status;
        an_headers := [(u "Content-Type", u "text/html; charset=utf-8");
                       (u "Content-Length", str_of_Z (Z.of_nat (length body)));
                       (u "Cache-Control", u "no-store");
                       (u "Referrer-Policy", u "no-referrer")];
        an_body := body |}.

(** One request: its answer, and what is received afterwards.  An exception of
    [urlsplit] ends the thread without an answer. *)
Definition do_GET (received : option (dict pystr)) (target : pystr)
    : res answer * option (dict pystr) :=
  match urlsplit target with
  | Raise e => (Raise e, received)
  | Ok parts =>
      if negb (bool_decide (path parts = CALLBACK_PATH)) then (_answer 404 (u "Not found."), received)
      else
        let '(accepted, received') := _accept received (first_values (query parts)) in
        (if accepted : bool then _answer 200 (u "Sign-in received. Return to the terminal.")
         else _answer 409 (u "This sign-in has already been answered."), received')
  end.

(** The requests of a listener's life, in the order they were handled: the
    answers, and what was received. *)
Fixpoint serve (received : option (dict pystr)) (targets : list pystr)
    : list (res answer) * option (dict pystr) :=
  match targets with
  | [] => ([], received)
  | target :: targets' =>
      let '(a, received') := do_GET received target in
      let '(answers, last) := serve received' targets' in (a :: answers, last)
  end.

(** ** Checks that need nobody *)

Definition _is_loopback (host : option pystr) : bool :=
  bool_decide (host = Some (u "localhost")) ||
  match ip_address (default [] host) with Ok addr => ip_is is_loopback addr | Raise _ => false end.

(** [https], or [http] on a loopback address. *)
Definition _require_secure (url what : pystr) : res pystr :=
  parts ← urlsplit url;
  if bool_decide (scheme parts = u "https") && truthy (default [] (hostname parts))
  then Ok (rstrip_slash url)
  else if bool_decide (scheme parts = u "http") && _is_loopback (hostname parts)
  then Ok (rstrip_slash url)
  else Raise (CliError (what ++ u " " ++ repr url ++ u " must be an https URL")).

(** [t in v] for a value of a reply. *)
Definition py_in (t : pystr) (v : json) : res bool :=
  match v with
  | JArr l => Ok (existsb (λ j, match j with JStr s => bool_decide (s = t) | _ => false end) l)
  | JObj d => Ok (dict_mem d t)
  | JStr s => Ok (contains s t)
  | _ => Raise (TypeError (u "argument is not iterable"))
  end.

(** [response.json().get(k)]. *)
Definition reply_get (r : http_response) (k : pystr) : res (option json) :=
  j ← response_json r;
  match j with JObj d => Ok (dict_get d k) | _ => Raise no_get end.

Definition _refusal (r : http_response) : pystr :=
  let status := u "HTTP " ++ str_of_Z (rsp_status r) in
  match rsp_json r with
  | Some (JObj body) =>
      match dict_get body (u "error") with
      | Some (JStr error) =>
          status ++ u " " ++ error ++
            match dict_get body (u "error_description") with
            | Some (JStr (c :: description)) => u ": " ++ c :: description
            | _ => []
            end
      | _ => status
      end
  | _ => status
  end.

Definition check_redirect (received : dict pystr) (state issuer : pystr) : res pystr :=
  mine ← compare_digest (dict_get_default received (u "state") []) state;
  if negb mine then
    Raise (CliError (u "the sign-in came back with a foreign state; nothing was created"))
  else if negb (bool_decide (rstrip_slash (dict_get_default received (u "iss") []) = issuer)) then
    Raise (CliError (u "the sign-in came back from another issuer; nothing was created"))
  else
    match dict_get received (u "error") with
    | Some error =>
        let detail := dict_get_default received (u "error_description") [] in
        Raise (CliError (u "the sign-in was refused: " ++ error
                         ++ (if truthy detail then u ": " ++ detail else [])
                         ++ u "; nothing was created"))
    | None =>
        match dict_get received (u "code") with
        | Some (c :: code) => Ok (c :: code)
        | _ => Raise (CliError (u "the sign-in came back without a code; nothing was created"))
        end
    end.

Section Formatting.
Context `{FR : FloatRepr}.

(** [_require_secure] on a value of a document: [urlsplit] looks its argument
    up in a cache, takes a false value for the empty text and decodes others. *)
Definition require_secure_value (v : json) (what : pystr) : res pystr :=
  match v with
  | JStr url => _require_secure url what
  | JArr _ => Raise (TypeError (u "unhashable type: 'list'"))
  | JObj _ => Raise (TypeError (u "unhashable type: 'dict'"))
  | _ =>
      if py_truthy v then Raise (AttributeError (u "object has no attribute 'decode'"))
      else Raise (CliError (what ++ u " " ++ py_repr v ++ u " must be an https URL"))
  end.

Definition endpoint_of (document : dict json) (key what : pystr) : res pystr :=
  match dict_get document key with
  | Some v => require_secure_value v what
  | None => Raise (KeyError key)
  end.

Definition is_lack (e : exn) : bool := match e with KeyError _ | TypeError _ => true | _ => false end.

(** The [try] of [read_endpoints]. *)
Definition endpoints_of (issuer : pystr) (document : dict json) : res Endpoints :=
  try_except
    (authorization ← endpoint_of document (u "authorization_endpoint") (u "authorization");
     token ← endpoint_of document (u "token_endpoint") (u "token endpoint");
     registration ← endpoint_of document (u "registration_endpoint") (u "registration");
     Ok {| ep_issuer := issuer; ep_authorization := authorization; ep_token := token;
           ep_registration := registration |})
    is_lack
    (λ exc, Raise (CliError (u "the metadata of " ++ issuer ++ u " lacks an endpoint: " ++ str_exn exc))).

(** [sep.join(v)]. *)
Definition join_values (sep : pystr) (v : json) : res pystr :=
  items ← py_iter v;
  texts ← map_res (λ j, match j with
                        | JStr s => Ok s
                        | _ => Raise (TypeError (u "sequence item: expected str instance"))
                        end) items;
  Ok (join sep texts).

Definition describe (created : dict json) : res pystr :=
  joined ← join_values (u ", ") (dict_get_default created (u "scopes") (JArr []));
  let sets := or_str (Some joined) (u "(none)") in
  resources ← join_values (u ", ") (dict_get_default created (u "resources") (JArr []));
  Ok (u "created personal access token " ++ repr_get (dict_get created (u "name"))
      ++ u " (id " ++ format_get (dict_get created (u "id")) ++ u ") "
      ++ u "for organization " ++ format_get (dict_get created (u "tenant"))
      ++ u ": permission sets " ++ sets ++ u "; "
      ++ u "resources " ++ resources ++ u "; "
      ++ u "expires " ++ format_get (dict_get created (u "expires_at"))).

Definition table_header : list pystr :=
  [u "ID"; u "NAME"; u "ORGANIZATION"; u "SETS"; u "EXPIRES"; u "LAST USED"; u "STATE"].

Definition table_row (t : json) : res (list pystr) :=
  match t with
  | JObj d =>
      sets ← join_values (u ",") (dict_get_default d (u "scopes") (JArr []));
      Ok [format_get (dict_get d (u "id")); format_get (dict_get d (u "name"));
          format_get (dict_get d (u "tenant")); or_str (Some sets) (u "-");
          format_get (dict_get d (u "expires_at"));
          (match dict_get d (u "last_used_at") with
           | Some v => if py_truthy v then py_str v else u "-"
           | None => u "-"
           end);
          (if py_truthy (default JNull (dict_get d (u "revoked_at"))) then u "revoked" else u "active")]
  | _ => Raise no_get
  end.

Definition max_width (column : list pystr) : nat := foldr Nat.max 0%nat (length <$> column).
Definition widths (rows : list (list pystr)) : list nat :=
  (λ i, max_width ((λ r, nth i r []) <$> rows)) <$> seq 0 (length table_header).
Definition table_line (ws : list nat) (row : list pystr) : pystr :=
  join (u "  ") (zip_with ljust ws row).

Definition _table (tokens : list json) : res pystr :=
  listed ← map_res table_row tokens;
  let rows := table_header :: listed in
  Ok (join newline (table_line (widths rows) <$> rows)).
End Formatting.

(** ** Requests *)

Section Commands.
Context `{O : Outside, T : Terminal, FR : FloatRepr} {X : Type}.

Definition print_stderr (text : pystr) : io X unit := emit (EvStderr (text ++ newline)).

Definition _get_json (url : pystr) : io X (option (dict json)) :=
  response ← send (Get url [(u "Accept", u "application/json")]);
  if rsp_status response =? 404 then mret None
  else if negb (rsp_status response =? 200)
  then raise (CliError (url ++ u " answered HTTP " ++ str_of_Z (rsp_status response)))
  else
    document ← lift (try_except (response_json response) is_ValueError
                       (λ _, Raise (CliError (url ++ u " did not answer with JSON"))));
    match document with
    | JObj d => mret (Some d)
    | _ => raise (CliError (url ++ u " did not answer with a JSON object"))
    end.

Definition well_known_paths (path : pystr) : list pystr :=
  (u "/.well-known/oauth-protected-resource" ++ path)
    :: (if truthy path then [u "/.well-known/oauth-protected-resource"] else []).

(** The one authorization server a resource names. *)
Definition named_server (resource : pystr) (document : dict json) : res pystr :=
  match dict_get document (u "authorization_servers") with
  | Some (JArr [JStr server]) => Ok server
  | _ => Raise (CliError (resource ++ u " does not name exactly one authorization server; pass --proxy"))
  end.

Definition named_as (document : dict json) (key : pystr) : pystr :=
  rstrip_slash (py_str (dict_get_default document key (JStr []))).

(** The loop over the places of RFC 9728. *)
Fixpoint try_candidates (resource : pystr) (parts : SplitResult) (candidates : list pystr)
    : io X pystr :=
  match candidates with
  | [] => raise (CliError (resource ++ u " publishes no protected resource metadata; pass --proxy"))
  | well_known :: rest =>
      document ← _get_json (urlunsplit {| scheme := scheme parts; netloc := netloc parts;
                                          path := well_known; query := []; fragment := [] |});
      match document with
      | None => try_candidates resource parts rest
      | Some d =>
          if negb (bool_decide (named_as d (u "resource") = rstrip_slash resource))
          then raise (CliError (u "the protected resource metadata at " ++ netloc parts ++ well_known
                                ++ u " names another resource; pass --proxy"))
          else lift (named_server resource d)
      end
  end.

Definition discover_proxy (resource : pystr) : io X pystr :=
  parts ← lift (urlsplit resource);
  try_candidates resource parts (well_known_paths (rstrip_slash (path parts))).

Definition metadata_url (issuer : pystr) : pystr :=
  issuer ++ u "/.well-known/oauth-authorization-server".

Definition read_endpoints (proxy : pystr) : io X Endpoints :=
  issuer ← lift (_require_secure proxy (u "the proxy URL"));
  document ← _get_json (metadata_url issuer);
  match document with
  | None => raise (CliError (issuer ++ u " publishes no authorization server metadata"))
  | Some d =>
      if negb (bool_decide (named_as d (u "issuer") = issuer))
      then raise (CliError (u "the metadata of " ++ issuer ++ u " names another issuer"))
      else
        offered ← lift (py_in (u "S256")
                          (dict_get_default d (u "code_challenge_methods_supported") (JArr [])));
        if negb offered then raise (CliError (issuer ++ u " does not offer PKCE S256"))
        else lift (endpoints_of issuer d)
  end.

Definition _pkce_pair : io X (pystr * pystr) :=
  verifier ← token_urlsafe 64;
  ascii ← lift (encode_ascii verifier);
  mret (verifier, b64url (sha256 ascii)).

(** ** The sign-in *)

Definition registration_body (redirect_uri : pystr) : json := JObj [
  (u "redirect_uris", JArr [JStr redirect_uri]);
  (u "token_endpoint_auth_method", JStr (u "none"));
  (u "grant_types", JArr [JStr (u "authorization_code")]);
  (u "response_types", JArr [JStr (u "code")]);
  (u "client_name", JStr CLIENT_NAME)].

Definition register (endpoints : Endpoints) (redirect_uri : pystr) : io X pystr :=
  response ← send (PostJson (ep_registration endpoints) [] (registration_body redirect_uri));
  if negb (rsp_status response =? 201)
  then raise (CliError (u "registration refused: " ++ _refusal response))
  else
    client_id ← lift (reply_get response (u "client_id"));
    match client_id with
    | Some (JStr (c :: s)) => mret (c :: s)
    | _ => raise (CliError (u "registration returned no client_id"))
    end.

Definition sign_in_query (client_id redirect_uri challenge state resource login_scope : pystr)
    : dict pystr :=
  let query := [
    (u "response_type", u "code");
    (u "client_id", client_id);
    (u "redirect_uri", redirect_uri);
    (u "code_challenge", challenge);
    (u "code_challenge_method", u "S256");
    (u "state", state);
    (u "resource", resource)] in
  if truthy login_scope then dict_set query (u "scope") login_scope else query.

Definition redeem_form (code verifier redirect_uri client_id : pystr) : dict json := [
  (u "grant_type", JStr (u "authorization_code"));
  (u "code", JStr code);
  (u "code_verifier", JStr verifier);
  (u "redirect_uri", JStr redirect_uri);
  (u "client_id", JStr client_id)].

(** The code is redeemed; a refresh token is not looked at. *)
Definition redeem (endpoints : Endpoints) (code verifier redirect_uri client_id : pystr)
    : io X SignedIn :=
  response ← send (PostForm (ep_token endpoints) (redeem_form code verifier redirect_uri client_id)
                     [(u "Accept", u "application/json")] None);
  if negb (rsp_status response =? 200)
  then raise (CliError (u "the token endpoint refused the code: " ++ _refusal response))
  else
    access_token ← lift (reply_get response (u "access_token"));
    match access_token with
    | Some (JStr (c :: s)) => mret {| si_endpoints := endpoints; si_access_token := c :: s |}
    | _ => raise (CliError (u "the token endpoint returned no access token"))
    end.

Definition wait : io X (option (dict pystr)) := ask (λ t, (serve None (t_redirects t)).2) EvWait.

Definition sign_in (endpoints : Endpoints) (resource login_scope timeout : pystr)
    (open_browser : pystr → io X unit) : io X SignedIn :=
  port ← ask t_port EvListen;
  let redirect_uri := loopback_uri port in
  client_id ← register endpoints redirect_uri;
  '(verifier, challenge) ← _pkce_pair;
  state ← token_urlsafe 32;
  query ← lift (urlencode (sign_in_query client_id redirect_uri challenge state resource login_scope));
  _ ← open_browser (ep_authorization endpoints ++ u "?" ++ query);
  received ← wait;
  match received with
  | None => raise (CliError (u "no sign-in arrived within " ++ timeout ++ u " seconds; nothing was created"))
  | Some params =>
      code ← lift (check_redirect params state (ep_issuer endpoints));
      redeem endpoints code verifier redirect_uri client_id
  end.

(** ** The three calls *)

Definition create_token (session : SignedIn) (body : json) : io X (dict json * pystr) :=
  response ← send (PostJson (pat_tokens (si_endpoints session)) (bearer_headers session) body);
  if negb (rsp_status response =? 201)
  then raise (CliError (u "the proxy refused the token: " ++ _refusal response))
  else
    created ← lift (response_json response);
    match created with
    | JObj d =>
        match dict_get d (u "token") with
        | Some (JStr token) => mret (d, token)
        | _ => raise (CliError (u "the proxy answered without a token"))
        end
    | _ => raise no_get
    end.

Definition list_tokens (session : SignedIn) : io X (list json) :=
  response ← send (Get (pat_tokens (si_endpoints session)) (bearer_headers session));
  if negb (rsp_status response =? 200)
  then raise (CliError (u "the proxy refused the listing: " ++ _refusal response))
  else
    tokens ← lift (reply_get response (u "tokens"));
    lift (py_iter (default (JArr []) tokens)).

Definition revoke_token (session : SignedIn) (token_id : pystr) : io X unit :=
  response ← send (Delete (pat_tokens (si_endpoints session) ++ u "/" ++ token_id)
                     (bearer_headers session));
  if negb (rsp_status response =? 204)
  then raise (CliError (u "the proxy refused the revocation: " ++ _refusal response))
  else mret tt.

(** ** Command lines *)

Definition _default_browser (url : pystr) : io X unit :=
  _ ← print_stderr (u "Sign in to continue. If no browser opens, visit:" ++ newline ++ u "  " ++ url);
  emit (EvBrowser url).
Definition _print_only (url : pystr) : io X unit :=
  print_stderr (u "Sign in at:" ++ newline ++ u "  " ++ url).

(** The default of [--proxy]. *)
Definition default_proxy (environ : dict pystr) : option pystr :=
  match dict_get environ ENV_PROXY with Some (c :: s) => Some (c :: s) | _ => None end.

Definition _resources (environ : dict pystr) (args : Namespace) : res (list pystr) :=
  let resources :=
    match ns_resource args with
    | Some (r :: rs) => r :: rs
    | _ => List.filter truthy (split_words (dict_get_default environ ENV_RESOURCE []))
    end in
  match resources with
  | [] => Raise (CliError (u "name the protected resource with --resource or " ++ ENV_RESOURCE))
  | _ => map_res (λ r, _require_secure r (u "the resource")) resources
  end.

Definition _session (environ : dict pystr) (args : Namespace) (open_browser : option (pystr → io X unit))
    : io X (SignedIn * list pystr) :=
  resources ← lift (_resources environ args);
  let resource := default [] (head resources) in
  proxy ← match ns_proxy args with Some (c :: p) => mret (c :: p) | _ => discover_proxy resource end;
  endpoints ← read_endpoints proxy;
  let browser := match open_browser with
                 | Some b => b
                 | None => if ns_no_browser args then _print_only else _default_browser
                 end in
  session ← sign_in endpoints resource (ns_login_scope args) (ns_timeout args) browser;
  mret (session, resources).

(** [_run], given the parsed options: the exit code. *)
Definition is_reported (e : exn) : bool := is_CliError e || is_HTTPError e.
Definition report (prog : pystr) (e : exn) : io X Z :=
  _ ← print_stderr (prog ++ u ": " ++
        match e with
        | HTTPError name _ => u "the proxy could not be reached: " ++ name
        | _ => str_exn e
        end);
  mret 1.
Definition _run (prog : pystr) (action : io X unit) : io X Z :=
  try_io (_ ← action; mret 0) is_reported (report prog).

Definition create_body (args : CreateNamespace) (resources : list pystr) : dict json :=
  let body := [(u "name", JStr (cn_name args)); (u "resources", JArr (JStr <$> resources))] in
  let body := match cn_sets args with
              | [] => dict_set body (u "all_permitted_scopes") (JBool true)
              | sets => dict_set body (u "scopes") (JArr (JStr <$> sets))
              end in
  let body := match cn_expires_in_days args with
              | Some days => dict_set body (u "expires_in_days") (JInt days)
              | None => body
              end in
  let body := if cn_allow_long_lifetime args
              then dict_set body (u "allow_long_lifetime") (JBool true) else body in
  match cn_organization args with
  | Some (c :: o) => dict_set body (u "organization") (JStr (c :: o))
  | _ => body
  end.

Definition create_action (environ : dict pystr) (args : CreateNamespace)
    (open_browser : option (pystr → io X unit)) : io X unit :=
  '(session, resources) ← _session environ (cn_common args) open_browser;
  '(created, token) ← create_token session (JObj (create_body args resources));
  line ← lift (describe created);
  _ ← print_stderr line;
  emit (EvStdout (token ++ newline)).

Definition create_main (environ : dict pystr) (args : CreateNamespace)
    (open_browser : option (pystr → io X unit)) : io X Z :=
  _run (u "pat-create") (create_action environ args open_browser).

Definition list_action (environ : dict pystr) (args : Namespace)
    (open_browser : option (pystr → io X unit)) : io X unit :=
  '(session, _) ← _session environ args open_browser;
  tokens ← list_tokens session;
  table ← lift (_table tokens);
  emit (EvStdout (table ++ newline)).
Definition list_main (environ : dict pystr) (args : Namespace)
    (open_browser : option (pystr → io X unit)) : io X Z :=
  _run (u "pat-list") (list_action environ args open_browser).

Definition revoke_action (environ : dict pystr) (args : Namespace) (id : pystr)
    (open_browser : option (pystr → io X unit)) : io X unit :=
  '(session, _) ← _session environ args open_browser;
  _ ← revoke_token session id;
  print_stderr (u "revoked " ++ id).
Definition revoke_main (environ : dict pystr) (args : Namespace) (id : pystr)
    (open_browser : option (pystr → io X unit)) : io X Z :=
  _run (u "pat-revoke") (revoke_action environ args id open_browser).
End Commands.
