(* ===== verification/CliSpec.v ===== *)
(** * What the command line guarantees

    [serve_receives_once]: the listener keeps the first redirect and no other.
    [check_redirect_spec]: whose redirect yields a code.  [sign_in_spec]: what a
    sign-in that returns has sent and received, parameter by parameter.
    [bearer_only_to_proxy]: the access token travels to the management endpoint
    of the session's secure issuer, once, and nothing after that depends on it
    but through the reply.  [create_prints_once]: the created token is written on standard
    output, once, and nowhere else. *)

From S2P Require Import Prelude PyStr Codec Digest Json World Errors IpAddr UrlLib.
From S2P Require Import QueryString Pkce Cli.

(** ** The receiver *)

(** The answer to a request, by the place it asks for and by what was received
    before it. *)
Lemma do_GET_cases received target a received' :
  do_GET received target = (a, received') →
  (received' = received ∧
     (∀ r, a = Ok r → an_status r = 404 ∨ an_status r = 409 ∧ received ≠ None)) ∨
  (received = None ∧ ∃ p r, urlsplit target = Ok p ∧ path p = CALLBACK_PATH ∧
     received' = Some (first_values (query p)) ∧ a = Ok r ∧ an_status r = 200).
Proof.
  assert (Ha : ∀ status r, (∃ text, _answer status text = Ok r) → an_status r = status).
  { intros status r (text & H). unfold _answer in H. by apply bind_Ok in H as (? & _ & <-%Ok_inj). }
  unfold do_GET. destruct (urlsplit target) as [p|e].
  2: { intros [<- <-]%pair_eq. by left. }
  destruct (bool_decide_reflect (path p = CALLBACK_PATH)) as [Hp|]; cbn [negb].
  2: { intros [<- <-]%pair_eq. left. split; [done|]. intros r Hr. left. apply Ha. by eexists. }
  unfold _accept. destruct received as [ps|].
  - intros [<- <-]%pair_eq. left. split; [done|]. intros r Hr. right. split; [apply Ha; by eexists|done].
  - destruct (_answer 200 _) as [r|e] eqn:E; [|exfalso; by vm_compute in E].
    intros [<- <-]%pair_eq. right. split; [done|]. exists p, r. split; [done|]. split; [done|].
    split; [done|]. split; [done|]. apply Ha. by eexists.
Qed.

Definition status_in (l : list Z) (a : res answer) : Prop := ∀ r, a = Ok r → an_status r ∈ l.

(** Once something was received, it stays. *)
Lemma serve_received params targets answers last :
  serve (Some params) targets = (answers, last) →
  last = Some params ∧ length answers = length targets ∧ Forall (status_in [404; 409]) answers.
Proof.
  revert answers last. induction targets as [|t targets IH]; intros answers last; cbn [serve].
  - intros [<- <-]%pair_eq. by repeat constructor.
  - destruct (do_GET (Some params) t) as [a received'] eqn:E.
    apply do_GET_cases in E as [[-> Ha]|[? _]]; [|done].
    destruct (serve (Some params) targets) as [answers' last'] eqn:E'.
    destruct (IH _ _ eq_refl) as (-> & Hl & Hf).
    intros [<- <-]%pair_eq. split; [done|]. split; [simpl; by rewrite Hl|]. constructor; [|done].
    intros r Hr. apply Ha in Hr as [->|[-> _]]; set_solver.
Qed.

Lemma serve_run targets answers last :
  serve None targets = (answers, last) →
  length answers = length targets ∧
  match last with
  | None => Forall (status_in [404]) answers
  | Some params => ∃ before target after p r,
      targets = before ++ target :: after ∧
      urlsplit target = Ok p ∧ path p = CALLBACK_PATH ∧ params = first_values (query p) ∧
      answers !! length before = Some (Ok r) ∧ an_status r = 200 ∧
      Forall (status_in [404]) (take (length before) answers) ∧
      Forall (status_in [404; 409]) (drop (S (length before)) answers)
  end.
Proof.
  revert answers last. induction targets as [|t targets IH]; intros answers last; cbn [serve].
  - intros [<- <-]%pair_eq. split; [done|constructor].
  - destruct (do_GET None t) as [a received'] eqn:E.
    apply do_GET_cases in E as [[-> Ha]|(_ & p & r & Hs & Hp & -> & -> & Hr)].
    + destruct (serve None targets) as [answers' last'] eqn:E'.
      destruct (IH _ _ eq_refl) as [Hl H]. intros [<- <-]%pair_eq. split; [simpl; by rewrite Hl|].
      assert (H404 : status_in [404] a).
      { intros r ->. destruct (Ha r eq_refl) as [->|[_ ?]]; [set_solver|done]. }
      destruct last' as [params|]; [|by constructor].
      destruct H as (before & target & after & p & r & -> & ? & ? & ? & ? & ? & ? & ?).
      exists (t :: before), target, after, p, r. by repeat (split; [done||by constructor|]).
    + destruct (serve (Some (first_values (query p))) targets) as [answers' last'] eqn:E'.
      apply serve_received in E' as (-> & Hl & Hf). intros [<- <-]%pair_eq.
      split; [simpl; by rewrite Hl|]. exists [], t, targets, p, r. cbn [length take drop app lookup].
      by repeat (split; [done||by constructor|]).
Qed.

(** The loopback listener receives at most one redirect.  Whatever
    requests reach it, in the order in which they are handled: every one is
    answered or fails on its own; if nothing is received, every answer is a
    404; otherwise what is received are the parameters of the first request for
    the callback path, that request alone is answered 200, those before it 404
    and those after it 404 or 409. *)
Theorem serve_receives_once targets answers last :
  serve None targets = (answers, last) →
  length answers = length targets ∧
  match last with
  | None => Forall (status_in [404]) answers
  | Some params => ∃ before target after p r,
      targets = before ++ target :: after ∧
      urlsplit target = Ok p ∧ path p = CALLBACK_PATH ∧ params = first_values (query p) ∧
      answers !! length before = Some (Ok r) ∧ an_status r = 200 ∧
      Forall (status_in [404]) (take (length before) answers) ∧
      Forall (status_in [404; 409]) (drop (S (length before)) answers)
  end.
Proof. apply serve_run. Qed.

(** ** The redirect *)

(** Which redirects yield a code, and what the others raise. *)
Lemma check_redirect_cases received state issuer :
  isascii state = true →
  (∀ code, check_redirect received state issuer = Ok code ↔
     dict_get_default received (u "state") [] = state ∧
     rstrip_slash (dict_get_default received (u "iss") []) = issuer ∧
     dict_get received (u "error") = None ∧
     dict_get received (u "code") = Some code ∧ code ≠ []) ∧
  (∀ e, check_redirect received state issuer = Raise e →
     is_CliError e = true ∨
     isascii (dict_get_default received (u "state") []) = false ∧ ∃ m, e = TypeError m).
Proof.
  intros Hs. unfold check_redirect, compare_digest. rewrite Hs.
  set (st := dict_get_default received (u "state") []). setoid_rewrite andb_true_r.
  destruct (isascii st) eqn:Ha; cbn [mbind res_bind].
  2: { split; [|intros e <-%Raise_inj; right; eauto]. intros code. split; [done|]. intros (E & _).
       rewrite E in Ha. congruence. }
  destruct (bool_decide_reflect (st = state)); cbn [negb].
  2: { split; [|intros e <-%Raise_inj; by left]. intros code. by split; [|intros (? & _)]. }
  destruct (bool_decide_reflect (rstrip_slash (dict_get_default received (u "iss") []) = issuer)); cbn [negb].
  2: { split; [|intros e1 <-%Raise_inj; by left]. intros code. by split; [|intros (_ & ? & _)]. }
  destruct (dict_get received (u "error")) as [err|].
  { split; [|intros e1 <-%Raise_inj; by left]. intros code. by split; [|intros (_ & _ & ? & _)]. }
  destruct (dict_get received (u "code")) as [[|c s]|].
  - split; [|intros e1 <-%Raise_inj; by left]. intros code.
    split; [done|]. intros (_ & _ & _ & [= <-] & ?). done.
  - split; [|done]. intros code. split; [intros <-%Ok_inj; done|]. by intros (_ & _ & _ & [= <-] & _).
  - split; [|intros e1 <-%Raise_inj; by left]. intros code. by split; [|intros (_ & _ & _ & ? & _)].
Qed.

Lemma check_redirect_code received state issuer code :
  isascii state = true → check_redirect received state issuer = Ok code →
  dict_get_default received (u "state") [] = state ∧
  rstrip_slash (dict_get_default received (u "iss") []) = issuer ∧
  dict_get received (u "error") = None ∧
  dict_get received (u "code") = Some code ∧ code ≠ [].
Proof. intros Hs. apply check_redirect_cases, Hs. Qed.

(** A redirect yields a code exactly when it answers this sign-in: it
    carries the very [state] that was sent, the proxy's [iss] (up to final
    slashes), no [error] and a [code] that is not empty -- and then that is the
    code.  Every other redirect is refused with a [CliError], but for one whose
    [state] is not ASCII: there the comparison itself raises. *)
Theorem check_redirect_spec received state issuer :
  isascii state = true →
  (∀ code, check_redirect received state issuer = Ok code ↔
     dict_get_default received (u "state") [] = state ∧
     rstrip_slash (dict_get_default received (u "iss") []) = issuer ∧
     dict_get received (u "error") = None ∧
     dict_get received (u "code") = Some code ∧ code ≠ []) ∧
  (∀ e, check_redirect received state issuer = Raise e →
     is_CliError e = true ∨
     isascii (dict_get_default received (u "state") []) = false ∧ ∃ m, e = TypeError m).
Proof. apply check_redirect_cases. Qed.

(** ** Endpoints *)

(** A URL under which a bearer token may travel: it was read from one with the
    scheme [https] and a host, or [http] and a loopback host. *)
Definition secure (url : pystr) : Prop := ∃ raw parts,
  url = rstrip_slash raw ∧ urlsplit raw = Ok parts ∧
  (scheme parts = u "https" ∧ hostname parts ≠ None ∨
   scheme parts = u "http" ∧ _is_loopback (hostname parts) = true).

Lemma require_secure_Ok raw what url : _require_secure raw what = Ok url → secure url.
Proof.
  unfold _require_secure. intros (parts & Hp & H)%bind_Ok. exists raw, parts.
  destruct (bool_decide (scheme parts = u "https") && _) eqn:E1.
  { apply Ok_inj in H as <-. bool_hyps. split; [done|]. split; [done|]. left. split; [done|].
    intros E. by rewrite E in *. }
  destruct (bool_decide (scheme parts = u "http") && _) eqn:E2; [|discriminate H].
  apply Ok_inj in H as <-. bool_hyps. split; [done|]. split; [done|]. by right.
Qed.

(** The loopback hosts: the name, 127.0.0.0/8 and ::1 (and the former mapped). *)
Lemma is_loopback_spec h :
  _is_loopback (Some h) = true ↔
    h = u "localhost" ∨ ∃ a, ip_address h = Ok a ∧ ip_is is_loopback a = true.
Proof.
  unfold _is_loopback. rewrite orb_true_iff, bool_decide_eq_true. change (default [] (Some h)) with h.
  split; intros [H|H].
  - left. by injection H.
  - right. destruct (ip_address h) as [a|]; [|done]. by exists a.
  - left. by rewrite H.
  - right. by destruct H as (a & -> & ?).
Qed.

Section EndpointLemmas.
Context `{O : Outside, T : Terminal, FR : FloatRepr} {X : Type}.
Implicit Types (s : state X).

Lemma require_secure_value_Ok v what url : require_secure_value v what = Ok url → secure url.
Proof.
  destruct v; cbn [require_secure_value]; try (by repeat case_match). apply require_secure_Ok.
Qed.

Lemma endpoint_of_Ok document key what url :
  endpoint_of document key what = Ok url → secure url ∧
  ∃ v, dict_get document key = Some v ∧ require_secure_value v what = Ok url.
Proof.
  unfold endpoint_of. destruct (dict_get document key) as [v|]; [|done]. intros H.
  split; [by eapply require_secure_value_Ok|eauto].
Qed.

Definition endpoints_secure (e : Endpoints) : Prop :=
  secure (ep_issuer e) ∧ secure (ep_authorization e) ∧ secure (ep_token e) ∧
  secure (ep_registration e).

Lemma endpoints_of_Ok issuer document e :
  secure issuer → endpoints_of issuer document = Ok e → ep_issuer e = issuer ∧ endpoints_secure e.
Proof.
  unfold endpoints_of. intros Hi H. apply try_except_Ok in H as [H|(? & _ & _ & ?)]; [|done].
  apply bind_Ok in H as (a & [Ha _]%endpoint_of_Ok & H).
  apply bind_Ok in H as (t & [Ht _]%endpoint_of_Ok & H).
  apply bind_Ok in H as (r & [Hr _]%endpoint_of_Ok & <-%Ok_inj). done.
Qed.

(** One document: the request, and the object it was answered with. *)
Lemma get_json_run url s d s' :
  _get_json url s = (Ok d, s') →
  let r := Get url [(u "Accept", u "application/json")] in
  s' = (s.1, EvHttp r :: s.2) ∧
  ∃ reply, o_http s.2 r = inr reply ∧
    match d with
    | Some doc => rsp_status reply = 200 ∧ rsp_json reply = Some (JObj doc)
    | None => rsp_status reply = 404
    end.
Proof.
  unfold _get_json. intros H. apply run_bind_Ok in H as (reply & s1 & Hs & H). cbv beta in H.
  unfold send in Hs. apply run_bind_Ok in Hs as (x & s2 & Hx & Hs). cbv beta in Hs.
  apply pair_eq in Hx as [<-%Ok_inj <-]. destruct (o_http s.2 _) as [[n m]|y] eqn:E; [done|].
  apply pair_eq in Hs as [<-%Ok_inj <-].
  destruct (Z.eqb_spec (rsp_status y) 404).
  { apply pair_eq in H as [<-%Ok_inj <-]. split; [done|]. by exists y. }
  destruct (Z.eqb_spec (rsp_status y) 200); cbn [negb] in H; [|done].
  apply run_bind_Ok in H as (j & s3 & Hj & H). cbv beta in H. unfold lift in Hj.
  apply pair_eq in Hj as [Hj <-].
  apply try_except_Ok in Hj as [Hj|(? & _ & _ & ?)]; [|done].
  unfold response_json in Hj. destruct (rsp_json y) as [j'|] eqn:Ej; [|done].
  apply Ok_inj in Hj as ->.
  destruct j; try done. apply pair_eq in H as [<-%Ok_inj <-]. split; [done|]. by exists y.
Qed.

Lemma get_json_keeps (P : event → Prop) url :
  P (EvHttp (Get url [(u "Accept", u "application/json")])) → keeps P (_get_json (X := X) url).
Proof. intros HP. unfold _get_json, send. keeps_tac; exact HP. Qed.

Lemma read_endpoints_run proxy s e s' :
  read_endpoints proxy s = (Ok e, s') →
  endpoints_secure e ∧ _require_secure proxy (u "the proxy URL") = Ok (ep_issuer e) ∧
  let r := Get (metadata_url (ep_issuer e)) [(u "Accept", u "application/json")] in
  s' = (s.1, EvHttp r :: s.2) ∧
  ∃ reply d, o_http s.2 r = inr reply ∧ rsp_status reply = 200 ∧ rsp_json reply = Some (JObj d) ∧
    named_as d (u "issuer") = ep_issuer e ∧
    py_in (u "S256") (dict_get_default d (u "code_challenge_methods_supported") (JArr [])) = Ok true ∧
    endpoints_of (ep_issuer e) d = Ok e.
Proof.
  unfold read_endpoints. intros H. apply run_bind_Ok in H as (issuer & s1 & Hi & H). cbv beta in H.
  unfold lift in Hi. apply pair_eq in Hi as [Hi <-].
  apply run_bind_Ok in H as (d & s2 & (-> & reply & Hr & Hd)%get_json_run & H). cbv beta in H.
  destruct d as [d|]; [|done].
  destruct (bool_decide_reflect (named_as d (u "issuer") = issuer)) as [Hn|]; cbn [negb] in H; [|done].
  apply run_bind_Ok in H as (b & s3 & Hb & H). cbv beta in H. unfold lift in Hb, H.
  apply pair_eq in Hb as [Hb <-]. destruct b; cbn [negb] in H; [|done].
  apply pair_eq in H as [He <-]. destruct Hd as [? ?].
  destruct (endpoints_of_Ok _ _ _ (require_secure_Ok _ _ _ Hi) He) as [Ei ?]. rewrite Ei. split; [done|].
  split; [done|]. split; [done|]. by exists reply, d.
Qed.

(** Endpoints are read with a single request, to the metadata document of
    the proxy that was named, and they are used only if that document names
    this issuer and offers PKCE with S256; the issuer and every endpoint are
    then secure: [https] with a host, or [http] on a loopback address. *)
Theorem endpoints_are_secure proxy s e s' :
  read_endpoints proxy s = (Ok e, s') →
  endpoints_secure e ∧ _require_secure proxy (u "the proxy URL") = Ok (ep_issuer e) ∧
  let r := Get (metadata_url (ep_issuer e)) [(u "Accept", u "application/json")] in
  s' = (s.1, EvHttp r :: s.2) ∧
  ∃ reply d, o_http s.2 r = inr reply ∧ rsp_status reply = 200 ∧ rsp_json reply = Some (JObj d) ∧
    named_as d (u "issuer") = ep_issuer e ∧
    py_in (u "S256") (dict_get_default d (u "code_challenge_methods_supported") (JArr [])) = Ok true ∧
    endpoints_of (ep_issuer e) d = Ok e.
Proof. apply read_endpoints_run. Qed.
End EndpointLemmas.

(** ** The sign-in *)

(** What showing the sign-in URL may do: print on standard error, start a
    browser. *)
Definition by_browser (e : event) : Prop :=
  match e with EvBrowser _ | EvStderr _ => True | _ => False end.

Section SignInLemmas.
Context `{O : Outside, T : Terminal, FR : FloatRepr} {X : Type}.
Implicit Types (s : state X).

Lemma default_browser_keeps url : keeps by_browser (_default_browser (X := X) url).
Proof. unfold _default_browser, print_stderr. keeps_tac; by apply keeps_emit. Qed.
Lemma print_only_keeps url : keeps by_browser (_print_only (X := X) url).
Proof. by apply keeps_emit. Qed.

Lemma send_run r s y s' :
  send r s = (Ok y, s') → s' = (s.1, EvHttp r :: s.2) ∧ o_http s.2 r = inr y.
Proof.
  unfold send. intros H. apply run_bind_Ok in H as (x & s2 & Hx & H). cbv beta in H.
  apply pair_eq in Hx as [<-%Ok_inj <-]. destruct (o_http s.2 r) as [[n m]|y'] eqn:E; [done|].
  by apply pair_eq in H as [<-%Ok_inj <-].
Qed.

Lemma run_lift_Ok {A} (r : res A) s a s' : lift r s = (Ok a, s') → r = Ok a ∧ s' = s.
Proof. unfold lift. by intros [-> ->]%pair_eq. Qed.

Lemma reply_get_Ok y k v :
  reply_get y k = Ok v → ∃ d, rsp_json y = Some (JObj d) ∧ v = dict_get d k.
Proof.
  unfold reply_get, response_json. destruct (rsp_json y) as [j|]; [|done].
  cbn [mbind res_bind]. destruct j; try done. intros <-%Ok_inj. by eexists.
Qed.

(** A reply of the expected status with a non-empty text under a key. *)
Definition replied (t : trace) (r : http_request) (status : Z) (key text : pystr) : Prop :=
  ∃ y d, o_http t r = inr y ∧ rsp_status y = status ∧ rsp_json y = Some (JObj d) ∧
    dict_get d key = Some (JStr text) ∧ text ≠ [].

Lemma register_run e uri s client_id s' :
  register e uri s = (Ok client_id, s') →
  let r := PostJson (ep_registration e) [] (registration_body uri) in
  s' = (s.1, EvHttp r :: s.2) ∧ replied s.2 r 201 (u "client_id") client_id.
Proof.
  unfold register. intros H. apply run_bind_Ok in H as (y & s1 & [-> Hy]%send_run & H). cbv beta in H.
  destruct (Z.eqb_spec (rsp_status y) 201); cbn [negb] in H; [|done].
  apply run_bind_Ok in H as (v & s2 & [(d & Hd & ->)%reply_get_Ok ->]%run_lift_Ok & H). cbv beta in H.
  destruct (dict_get d _) as [[| | | |[|c i]| |]|] eqn:E; try done.
  apply pair_eq in H as [<-%Ok_inj <-]. split; [done|]. by exists y, d.
Qed.

Lemma cli_redeem_run e code verifier uri client_id s session s' :
  redeem e code verifier uri client_id s = (Ok session, s') →
  let r := PostForm (ep_token e) (redeem_form code verifier uri client_id)
             [(u "Accept", u "application/json")] None in
  s' = (s.1, EvHttp r :: s.2) ∧ si_endpoints session = e ∧
  replied s.2 r 200 (u "access_token") (si_access_token session).
Proof.
  unfold redeem. intros H. apply run_bind_Ok in H as (y & s1 & [-> Hy]%send_run & H). cbv beta in H.
  destruct (Z.eqb_spec (rsp_status y) 200); cbn [negb] in H; [|done].
  apply run_bind_Ok in H as (v & s2 & [(d & Hd & ->)%reply_get_Ok ->]%run_lift_Ok & H). cbv beta in H.
  destruct (dict_get d _) as [[| | | |[|c i]| |]|] eqn:E; try done.
  apply pair_eq in H as [<-%Ok_inj <-]. split; [done|]. split; [done|]. by exists y, d.
Qed.

Lemma pkce_pair_run `{!OutsideLaws O} s p s' :
  _pkce_pair s = (Ok p, s') →
  s' = (s.1, EvRandom 64 :: s.2) ∧ p.1 = b64url (o_random s.2 64) ∧
  p.2 = b64url (sha256 p.1) ∧ length p.1 = 86%nat ∧ verify_challenge p.1 p.2 = Ok true.
Proof.
  unfold _pkce_pair, token_urlsafe. io_run. set (v := b64url _).
  assert (Hv : isascii v = true) by apply b64url_ascii, o_random_ok.
  unfold encode_ascii. rewrite Hv. intros [<-%Ok_inj <-]%pair_eq. cbn [fst snd].
  split; [done|]. split; [done|]. split; [done|]. split.
  { unfold v. by rewrite b64url_length, o_random_length. }
  unfold verify_challenge. rewrite derive_challenge_ascii by done. cbn [mbind res_bind].
  unfold compare_digest. rewrite challenge_is_ascii. by rewrite bool_decide_true.
Qed.

(** A sign-in that returned, event by event, with what was sent spelt out. *)
Definition signed_in (e : Endpoints) (resource login_scope : pystr) (browser : pystr → io X unit)
    (session : SignedIn) (s s' : state X) : Prop :=
  let uri := u "http://127.0.0.1:" ++ str_of_Z (t_port s.2) ++ u "/callback" in
  let registration := PostJson (ep_registration e) [] (JObj [
    (u "redirect_uris", JArr [JStr uri]); (u "token_endpoint_auth_method", JStr (u "none"));
    (u "grant_types", JArr [JStr (u "authorization_code")]);
    (u "response_types", JArr [JStr (u "code")]); (u "client_name", JStr CLIENT_NAME)]) in
  let t1 := EvHttp registration :: EvListen :: s.2 in
  let verifier := b64url (o_random t1 64) in
  let t2 := EvRandom 64 :: t1 in
  let nonce := b64url (o_random t2 32) in
  ∃ client_id query shown params code,
    replied (EvListen :: s.2) registration 201 (u "client_id") client_id ∧
    length verifier = 86%nat ∧ length nonce = 43%nat ∧
    form_parse query = Some ([
      (u "response_type", u "code"); (u "client_id", client_id); (u "redirect_uri", uri);
      (u "code_challenge", b64url (sha256 verifier)); (u "code_challenge_method", u "S256");
      (u "state", nonce); (u "resource", resource)]
      ++ if decide (login_scope = []) then [] else [(u "scope", login_scope)]) ∧
    Forall by_browser shown ∧
    let t3 := shown ++ EvRandom 32 :: t2 in
    browser (ep_authorization e ++ u "?" ++ query) (s.1, EvRandom 32 :: t2) = (Ok tt, (s.1, t3)) ∧
    (serve None (t_redirects t3)).2 = Some params ∧
    dict_get_default params (u "state") [] = nonce ∧
    rstrip_slash (dict_get_default params (u "iss") []) = ep_issuer e ∧
    dict_get params (u "error") = None ∧ dict_get params (u "code") = Some code ∧
    let redemption := PostForm (ep_token e) [
        (u "grant_type", JStr (u "authorization_code")); (u "code", JStr code);
        (u "code_verifier", JStr verifier); (u "redirect_uri", JStr uri);
        (u "client_id", JStr client_id)] [(u "Accept", u "application/json")] None in
    s' = (s.1, EvHttp redemption :: EvWait :: t3) ∧
    si_endpoints session = e ∧
    replied (EvWait :: t3) redemption 200 (u "access_token") (si_access_token session).

Lemma sign_in_query_text client_id uri challenge nonce resource login_scope :
  sign_in_query client_id uri challenge nonce resource login_scope = [
    (u "response_type", u "code"); (u "client_id", client_id); (u "redirect_uri", uri);
    (u "code_challenge", challenge); (u "code_challenge_method", u "S256");
    (u "state", nonce); (u "resource", resource)]
    ++ if decide (login_scope = []) then [] else [(u "scope", login_scope)].
Proof. unfold sign_in_query. by destruct login_scope. Qed.

(** The token comes with the reply to the last request of the sign-in. *)
Lemma signed_in_last e resource login_scope browser session s s' :
  signed_in e resource login_scope browser session s s' →
  ∃ form before, let redemption := PostForm (ep_token e) form [(u "Accept", u "application/json")] None in
    s'.2 = EvHttp redemption :: before ++ s.2 ∧ si_endpoints session = e ∧
    replied (before ++ s.2) redemption 200 (u "access_token") (si_access_token session).
Proof.
  intros (client_id & query & shown & params & code & _ & _ & _ & _ & _ & _ & _ & _ & _ & _ & _ & -> & He & Hrep).
  eexists _, (EvWait :: shown ++ [_; _; _; _]). cbn [snd app]. rewrite <-app_assoc. cbn [app].
  split; [reflexivity|]. split; [exact He|exact Hrep].
Qed.

Lemma sign_in_run `{!OutsideLaws O} e resource login_scope timeout browser s session s' :
  (∀ url, keeps by_browser (browser url)) →
  sign_in e resource login_scope timeout browser s = (Ok session, s') →
  signed_in e resource login_scope browser session s s'.
Proof.
  intros Hb. unfold sign_in. intros H.
  apply run_bind_Ok in H as (port & s1 & [<-%Ok_inj <-]%pair_eq & H). cbv beta zeta in H.
  apply run_bind_Ok in H as (client_id & s2 & [-> Hreg]%register_run & H). cbv beta in H. cbn [fst snd] in *.
  apply run_bind_Ok in H as ([verifier challenge] & s3 & Hp & H). cbv beta iota in H.
  apply pkce_pair_run in Hp as (-> & Hv & Hc & Hlen & Hver). cbn [fst snd] in *. subst verifier.
  apply run_bind_Ok in H as (nonce & s4 & Hn & H). cbv beta in H.
  pose proof (token_urlsafe_run _ _ _ _ Hn) as (_ & Hnl & _ & Hna).
  unfold token_urlsafe in Hn. apply run_bind_Ok in Hn as (raw & s5 & [<-%Ok_inj <-]%pair_eq & Hn).
  apply pair_eq in Hn as [<-%Ok_inj <-]. cbn [fst snd] in *.
  apply run_bind_Ok in H as (query & s6 & [Hq ->]%run_lift_Ok & H). cbv beta in H.
  apply run_bind_Ok in H as ([] & s7 & Hbr & H). cbv beta in H.
  pose proof (Hb _ _ _ _ Hbr) as (Hx & shown & Ht & Hshown). cbn [fst snd] in *.
  destruct s7 as [x7 t7]. cbn [fst snd] in *. subst x7 t7.
  apply run_bind_Ok in H as (received & s8 & [<-%Ok_inj <-]%pair_eq & H). cbv beta in H. cbn [fst snd] in *.
  destruct (serve None _).2 as [params|] eqn:Es; [|done].
  apply run_bind_Ok in H as (code & s9 & [Hcode ->]%run_lift_Ok & H). cbv beta in H.
  apply cli_redeem_run in H as (-> & He & Hrep). cbn [fst snd] in *.
  apply check_redirect_code in Hcode as (? & ? & ? & ? & ?); [|done].
  exists client_id, query, shown, params, code.
  apply parse_urlencode in Hq; [|unfold sign_in_query; destruct (truthy login_scope); done].
  rewrite sign_in_query_text in Hq. subst challenge.
  split; [exact Hreg|]. split; [done|]. split; [exact Hnl|]. by split.
Qed.

(** C17. A sign-in that ends in an access token: one registration with the
    redirect URI of its own listener on 127.0.0.1; a URL of the proxy's
    authorization endpoint whose query decodes to exactly: the code flow, the
    returned [client_id], that redirect URI, the SHA-256 challenge of 64 bytes
    drawn in this sign-in with the method S256, a [state] of 32 bytes drawn in
    this sign-in, the resource, and the scope if there is one; a first redirect
    that carries this very state, the proxy's issuer, no error and a code; and one
    request to the token endpoint with that code, the verifier of the challenge,
    the same redirect URI and client, whose answer of status 200 holds the access
    token.  Nothing else is sent. *)
Theorem sign_in_spec `{!OutsideLaws O} e resource login_scope timeout browser s session s' :
  (∀ url, keeps by_browser (browser url)) →
  sign_in e resource login_scope timeout browser s = (Ok session, s') →
  signed_in e resource login_scope browser session s s'.
Proof. apply sign_in_run. Qed.
End SignInLemmas.

(** ** The commands *)

Definition request_headers (r : http_request) : dict pystr :=
  match r with
  | PostForm _ _ h _ | PostJson _ h _ | Get _ h | Delete _ h | StreamGet _ h _
  | Request _ _ _ h _ => h
  end.
Definition request_url (r : http_request) : pystr :=
  match r with
  | PostForm url _ _ _ | PostJson url _ _ | Get url _ | Delete url _ | StreamGet url _ _
  | Request _ url _ _ _ => url
  end.

(** Events without an [Authorization] header that write nothing on standard
    output.  That no token hides in a URL or a body before it is known is not
    said by this, but by the order of the events. *)
Definition quiet (e : event) : Prop :=
  match e with
  | EvStdout _ => False
  | EvHttp r => dict_mem (request_headers r) (u "Authorization") = false
  | _ => True
  end.
Definition printing (e : event) : Prop :=
  match e with EvStdout _ | EvStderr _ => True | _ => False end.

Lemma by_browser_quiet e : by_browser e → quiet e.
Proof. by destruct e. Qed.

Section CommandLemmas.
Context `{O : Outside, T : Terminal, FR : FloatRepr} {X : Type}.
Implicit Types (s : state X).

(** [_session] uses no token, writes nothing on standard output. *)
Lemma send_quiet rq :
  dict_mem (request_headers rq) (u "Authorization") = false → keeps quiet (send (X := X) rq).
Proof. intros H. unfold send. keeps_tac; exact H. Qed.

Lemma discover_quiet resource : keeps quiet (discover_proxy (X := X) resource).
Proof.
  unfold discover_proxy. keeps_tac. induction (well_known_paths _) as [|w l IH];
    cbn [try_candidates]; keeps_tac; try apply IH. by apply get_json_keeps.
Qed.

Lemma sign_in_quiet e resource scope timeout (browser : pystr → io X unit) :
  (∀ url, keeps by_browser (browser url)) → keeps quiet (sign_in e resource scope timeout browser).
Proof.
  intros Hb. unfold sign_in, register, redeem, _pkce_pair, token_urlsafe, wait.
  keeps_tac; try (by apply send_quiet); try exact I.
  intros s r s' H. apply Hb in H as (? & new & ? & Hf). split; [done|]. exists new. split; [done|].
  eapply Forall_impl; [exact Hf|]. apply by_browser_quiet.
Qed.

(** A browser callback, when one is given. *)
Definition browser_ok (open_browser : option (pystr → io X unit)) : Prop :=
  ∀ b, open_browser = Some b → ∀ url, keeps by_browser (b url).

Lemma chosen_browser open_browser (args : Namespace) :
  browser_ok open_browser →
  ∀ url, keeps by_browser (match open_browser with
                           | Some b => b
                           | None => if ns_no_browser args then _print_only else _default_browser
                           end url).
Proof.
  intros Hb url. destruct open_browser as [b|]; [by apply Hb|].
  destruct (ns_no_browser args); [apply print_only_keeps|apply default_browser_keeps].
Qed.

Lemma session_quiet environ args open_browser :
  browser_ok open_browser → keeps quiet (_session (X := X) environ args open_browser).
Proof.
  intros Hb. unfold _session, read_endpoints. keeps_tac; try apply discover_quiet.
  - by apply get_json_keeps.
  - apply sign_in_quiet. by apply chosen_browser.
Qed.

(** A session is a sign-in at endpoints that were read. *)
Lemma session_run `{!OutsideLaws O} environ args open_browser s session resources s' :
  browser_ok open_browser →
  _session environ args open_browser s = (Ok (session, resources), s') →
  endpoints_secure (si_endpoints session) ∧ _resources environ args = Ok resources ∧
  ∃ s1 browser, (∃ new, s1.2 = new ++ s.2) ∧
    signed_in (si_endpoints session) (default [] (head resources))
      (ns_login_scope args) browser session s1 s'.
Proof.
  intros Hb. unfold _session. intros H.
  apply run_bind_Ok in H as (rs & s1 & [Hrs ->]%run_lift_Ok & H). cbv beta zeta in H.
  apply run_bind_Ok in H as (proxy & s2 & Hproxy & H). cbv beta in H.
  apply run_bind_Ok in H as (e & s3 & (He & _ & -> & _)%read_endpoints_run & H). cbv beta in H.
  apply run_bind_Ok in H as (si & s4 & Hs & H). cbv beta in H.
  apply pair_eq in H as [[<- <-]%Ok_inj%pair_eq <-].
  apply sign_in_run in Hs; [|by apply chosen_browser].
  assert (si_endpoints si = e) as <-.
  { unfold signed_in in Hs. destruct Hs as (?&?&?&?&?&?&?&?&?&?&?&?&?&?&?&?&?&?&?). done. }
  split; [done|]. split; [done|]. eexists _, _. split; [|exact Hs].
  assert (Hq : ∃ new, s2.2 = new ++ s.2).
  { destruct (ns_proxy args) as [[|c p]|]; [|by apply pair_eq in Hproxy as [_ <-]; exists []|];
      apply discover_quiet in Hproxy as (_ & new & ? & _); by exists new. }
  destruct Hq as [new E]. eexists (_ :: new). cbn [snd]. by rewrite E.
Qed.

(** *** [pat-create] *)

Lemma state_pair s (x : X) (t : trace) : s.1 = x → s.2 = t → s = (x, t).
Proof. destruct s. by intros <- <-. Qed.

Lemma describe_pop created :
  describe created = describe (dict_pop created (u "token")).
Proof.
  unfold describe, dict_get_default.
  by rewrite !dict_get_pop_ne by by apply (bool_decide_unpack (_ ≠ _)).
Qed.

Lemma create_token_run session body s d token s' :
  create_token session body s = (Ok (d, token), s') →
  let rq := PostJson (pat_tokens (si_endpoints session)) (bearer_headers session) body in
  s' = (s.1, EvHttp rq :: s.2) ∧ dict_get d (u "token") = Some (JStr token) ∧
  ∃ y, o_http s.2 rq = inr y ∧ rsp_status y = 201 ∧ rsp_json y = Some (JObj d).
Proof.
  unfold create_token. intros H. apply run_bind_Ok in H as (y & s1 & [-> Hy]%send_run & H). cbv beta in H.
  destruct (Z.eqb_spec (rsp_status y) 201); cbn [negb] in H; [|done].
  apply run_bind_Ok in H as (j & s2 & [Hj ->]%run_lift_Ok & H). cbv beta in H.
  unfold response_json in Hj. destruct (rsp_json y) as [j'|] eqn:Ej; [|done]. apply Ok_inj in Hj as ->.
  destruct j; try done. destruct (dict_get d0 _) as [[| | | |tok| |]|] eqn:Et; try done.
  apply pair_eq in H as [[<- <-]%Ok_inj%pair_eq <-]. split; [done|]. split; [done|]. by exists y.
Qed.

Definition unspoken (e : event) : Prop := match e with EvStdout _ => False | _ => True end.
Lemma keeps_weaken {A} (P Q : event → Prop) (m : io X A) :
  (∀ e, P e → Q e) → keeps P m → keeps Q m.
Proof.
  intros HPQ Hm s r s' H. apply Hm in H as (? & new & ? & Hf). split; [done|]. exists new.
  split; [done|]. by eapply Forall_impl.
Qed.
Lemma quiet_unspoken e : quiet e → unspoken e.
Proof. by destruct e. Qed.

(** What a successful creation leaves behind. *)
Definition created_and_printed (environ : dict pystr) (args : CreateNamespace)
    (open_browser : option (pystr → io X unit)) (s s' : state X) : Prop :=
  ∃ session resources t y d token line,
    _session environ (cn_common args) open_browser s = (Ok (session, resources), (s.1, t ++ s.2)) ∧
    Forall quiet t ∧
    let rq := PostJson (pat_tokens (si_endpoints session)) (bearer_headers session)
                (JObj (create_body args resources)) in
    o_http (t ++ s.2) rq = inr y ∧ rsp_status y = 201 ∧ rsp_json y = Some (JObj d) ∧
    dict_get d (u "token") = Some (JStr token) ∧
    describe (dict_pop d (u "token")) = Ok line ∧
    s' = (s.1, EvStdout (token ++ newline) :: EvStderr (line ++ newline) :: EvHttp rq :: t ++ s.2).

Lemma create_action_run environ args open_browser s r s' :
  browser_ok open_browser →
  create_action environ args open_browser s = (r, s') →
  match r with
  | Ok _ => created_and_printed environ args open_browser s s'
  | Raise _ => ∃ t, s' = (s.1, t ++ s.2) ∧ Forall unspoken t
  end.
Proof.
  intros Hb H. unfold create_action in H.
  pose proof (session_quiet environ (cn_common args) open_browser Hb) as Hq.
  apply run_bind_cases in H as [(e & H & ->)|([session resources] & s1 & Hs & H)].
  { apply (keeps_weaken _ _ _ quiet_unspoken) in Hq. apply Hq in H as (Hx & t & Ht & ?).
    exists t. split; [by apply state_pair|done]. }
  pose proof (Hq _ _ _ Hs) as (Hx & t & Ht & Hquiet).
  apply (state_pair s1 _ _ Hx) in Ht. subst s1.
  cbv beta iota in H.
  apply run_bind_cases in H as [(e & H & ->)|([d token] & s2 & Hc & H)].
  { assert (Hk : ∀ body, keeps unspoken (create_token (X := X) session body))
      by (intros body; unfold create_token, send; keeps_tac).
    apply Hk in H as (Hx' & t' & Ht' & ?). exists (t' ++ t). cbn [fst snd] in *. split.
    - rewrite <-app_assoc. by apply state_pair.
    - apply Forall_app. split; [done|]. eapply Forall_impl; [exact Hquiet|apply quiet_unspoken]. }
  apply create_token_run in Hc as (-> & Htok & y & Hy & H201 & Hj). cbn [fst snd] in *.
  cbv beta iota in H.
  apply run_bind_cases in H as [(e & H & ->)|(line & s3 & [Hl ->]%run_lift_Ok & H)].
  { unfold lift in H. apply pair_eq in H as [_ <-]. exists (EvHttp (PostJson (pat_tokens (si_endpoints session))
      (bearer_headers session) (JObj (create_body args resources))) :: t). split; [done|].
    constructor; [done|]. eapply Forall_impl; [exact Hquiet|apply quiet_unspoken]. }
  rewrite describe_pop in Hl. revert H. unfold print_stderr. io_run. intros [<- <-]%pair_eq.
  by exists session, resources, t, y, d, token, line.
Qed.

(** C24. [pat-create] writes the created token on standard output, once, and
    nowhere else.  If it ends with code 0: a session was opened without a token
    being used or anything being written there; one request carried the
    session's token to the management endpoint; its answer of status 201 named
    the token; the line on standard error is a function of the rest of that
    answer; and the last thing done was to write the token.  If it ends with
    code 1, it said why on standard error; an exception it does not report is
    neither a refusal nor a transport error; and in both cases nothing was
    written on standard output. *)
Theorem create_prints_once environ args open_browser s r s' :
  browser_ok open_browser →
  create_main environ args open_browser s = (r, s') →
  match r with
  | Ok code =>
      code = 0 ∧ created_and_printed environ args open_browser s s' ∨
      code = 1 ∧ ∃ why t, s' = (s.1, EvStderr (u "pat-create: " ++ why ++ newline) :: t ++ s.2) ∧
        Forall unspoken t
  | Raise e => is_reported e = false ∧ ∃ t, s' = (s.1, t ++ s.2) ∧ Forall unspoken t
  end.
Proof.
  intros Hb H. unfold create_main, _run, try_io in H.
  destruct ((_ ← create_action environ args open_browser; mret 0) s) as [[z|e] s1] eqn:E.
  - apply pair_eq in H as [<- <-]. apply run_bind_Ok in E as ([] & s2 & Ha & E).
    apply pair_eq in E as [<-%Ok_inj <-]. left. split; [done|].
    by apply (create_action_run _ _ _ _ (Ok tt)) in Ha.
  - apply run_bind_Raise in E as [Ha|(? & ? & _ & ?)]; [|done].
    apply (create_action_run _ _ _ _ (Raise e)) in Ha as (t & -> & Ht); [|done].
    destruct (is_reported e) eqn:Er; [|apply pair_eq in H as [<- <-]; eauto].
    revert H. unfold report, print_stderr. io_run. intros [<- <-]%pair_eq. right. split; [done|].
    set (why := match e with HTTPError name _ => _ | _ => _ end). exists why, t. split; [|exact Ht].
    change (u "pat-create: ") with (u "pat-create" ++ u ": "). by rewrite !app_assoc.
Qed.

(** *** All three commands *)

(** What a command is run for. *)
Inductive purpose :=
  | Creation (args : CreateNamespace)
  | Listing (args : Namespace)
  | Revocation (args : Namespace) (id : pystr).

Definition purpose_args (p : purpose) : Namespace :=
  match p with Creation args => cn_common args | Listing args | Revocation args _ => args end.

Definition command environ open_browser (p : purpose) : io X Z :=
  match p with
  | Creation args => create_main environ args open_browser
  | Listing args => list_main environ args open_browser
  | Revocation args id => revoke_main environ args id open_browser
  end.

(** The request it makes of the proxy [issuer] with an access token. *)
Definition management_request (p : purpose) (issuer token : pystr) (resources : list pystr) : http_request :=
  let headers := [(u "Authorization", u "Bearer " ++ token)] in
  match p with
  | Creation args => PostJson (issuer ++ u "/pat/tokens") headers (JObj (create_body args resources))
  | Listing _ => Get (issuer ++ u "/pat/tokens") headers
  | Revocation _ id => Delete (issuer ++ u "/pat/tokens" ++ u "/" ++ id) headers
  end.

(** [m] only prints; what it prints and how it ends do not depend on the state. *)
Definition prints {A} (m : io X A) : Prop :=
  ∃ (r : res A) printed, Forall printing printed ∧ ∀ s, m s = (r, (s.1, printed ++ s.2)).

Lemma prints_ret {A} (a : A) : prints (mret a).
Proof. exists (Ok a), []. split; [constructor|]. by intros []. Qed.
Lemma prints_raise {A} e : prints (raise (A := A) e).
Proof. exists (Raise e), []. split; [constructor|]. by intros []. Qed.
Lemma prints_lift {A} (r : res A) : prints (lift r).
Proof. exists r, []. split; [constructor|]. by intros []. Qed.
Lemma prints_emit e : printing e → prints (emit e).
Proof. intros H. exists (Ok tt), [e]. split; [by constructor|]. by intros []. Qed.
Lemma prints_stderr text : prints (print_stderr text).
Proof. by apply prints_emit. Qed.
Lemma prints_bind {A B} (m : io X A) (f : A → io X B) : prints m → (∀ a, prints (f a)) → prints (m ≫= f).
Proof.
  intros (r & p & Hp & Hm) Hf. unfold prints, mbind, io_bind. destruct r as [a|e].
  - destruct (Hf a) as (r2 & p2 & Hp2 & H2). exists r2, (p2 ++ p). split; [by apply Forall_app|].
    intros s. rewrite Hm, H2. cbn [fst snd]. by rewrite <-app_assoc.
  - exists (Raise e), p. split; [done|]. intros s. by rewrite Hm.
Qed.
Lemma prints_try {A} (m : io X A) caught h : prints m → (∀ e, prints (h e)) → prints (try_io m caught h).
Proof.
  intros (r & p & Hp & Hm) Hh. unfold prints, try_io. destruct r as [a|e].
  - exists (Ok a), p. split; [done|]. intros s. by rewrite Hm.
  - destruct (caught e) eqn:Hc.
    + destruct (Hh e) as (r2 & p2 & Hp2 & H2). exists r2, (p2 ++ p). split; [by apply Forall_app|].
      intros s. rewrite Hm, Hc, H2. cbn [fst snd]. by rewrite <-app_assoc.
    + exists (Raise e), p. split; [done|]. intros s. by rewrite Hm, Hc.
Qed.

Ltac prints_tac :=
  repeat first
    [ progress intros | apply prints_ret | apply prints_raise | apply prints_lift | apply prints_stderr
    | apply prints_emit; exact I | apply prints_bind
    | match goal with |- prints (match ?x with _ => _ end) => destruct x end ].

Lemma run_prints prog m : prints m → prints (_run prog m).
Proof.
  intros Hm. unfold _run. apply prints_try; [apply prints_bind; [done|]; prints_tac|].
  intros e. unfold report. prints_tac.
Qed.

(** [_run] looks at its action only through the action's run. *)
Lemma run_same prog (m m' : io X unit) s s1 : m s = m' s1 → _run prog m s = _run prog m' s1.
Proof. intros E. unfold _run, try_io, mbind, io_bind. by rewrite E. Qed.

Lemma bind_assoc {A B C} (m : io X A) (f : A → io X B) (g : B → io X C) s :
  ((m ≫= f) ≫= g) s = (m ≫= λ a, f a ≫= g) s.
Proof. unfold mbind, io_bind. by destruct (m s) as [[a|e] s1]. Qed.

(** The reply to a request, or the transport error. *)
Definition given (x : (pystr * pystr) + http_response) : io X http_response :=
  match x with inl (n, m) => raise (HTTPError n m) | inr y => mret y end.
Lemma send_given rq s : send rq s = given (o_http s.2 rq) (s.1, EvHttp rq :: s.2).
Proof. unfold send, given. io_run. by destruct (o_http s.2 rq) as [[n m]|y]. Qed.

(** Every command is [_run] of a session and one request, after which it only
    prints, and knows no more than the reply. *)
Lemma command_shape environ open_browser p :
  ∃ prog rest (after : http_response → io X unit),
    command environ open_browser p =
      _run prog ('(session, resources) ← _session environ (purpose_args p) open_browser; rest session resources) ∧
    (∀ y, prints (after y)) ∧
    ∀ session resources s,
      rest session resources s =
        (send (management_request p (ep_issuer (si_endpoints session)) (si_access_token session) resources)
           ≫= after) s.
Proof.
  destruct p as [args|args|args id].
  - eexists (u "pat-create"), _, _. split; [reflexivity|]. split.
    2: { intros session resources s. unfold create_token. rewrite bind_assoc. reflexivity. }
    intros y. cbv beta. prints_tac.
  - eexists (u "pat-list"), (λ session _, _), _. split; [reflexivity|]. split.
    2: { intros session resources s. unfold list_tokens. rewrite bind_assoc. reflexivity. }
    intros y. cbv beta. prints_tac.
  - eexists (u "pat-revoke"), (λ session _, _), _. split; [reflexivity|]. split.
    2: { intros session resources s. unfold revoke_token. rewrite bind_assoc. unfold pat_tokens.
         rewrite <-app_assoc. reflexivity. }
    intros y. cbv beta. prints_tac.
Qed.

(** C30. The access token of a sign-in goes to the proxy that issued it, in one
    [Authorization] header, and nowhere else.  A command ([pat-create], [pat-list],
    [pat-revoke]) whose sign-in fails has sent no [Authorization] header and
    then only prints.  If the sign-in succeeds, the access token is in the reply
    to the last request of the sign-in -- whatever was sent, shown or written
    before was so before it was known --; there follows exactly one request, to
    [/pat/tokens] of the session's secure issuer, with the token as its bearer
    and a path and body that are given by the command line; and what is printed
    after that, and how the command ends, is a function of the reply to that
    request alone ([afterwards], the same for every run). *)
Theorem bearer_only_to_proxy `{!OutsideLaws O} environ open_browser p :
  browser_ok open_browser →
  ∃ afterwards : (pystr * pystr) + http_response → io X Z, (∀ reply, prints (afterwards reply)) ∧
  ∀ s r s', command environ open_browser p s = (r, s') →
    (∃ e t printed, _session environ (purpose_args p) open_browser s = (Raise e, (s.1, t ++ s.2)) ∧
       Forall quiet t ∧ Forall printing printed ∧ s' = (s.1, printed ++ t ++ s.2)) ∨
    ∃ session resources t form,
      let token := si_access_token session in
      let redemption := PostForm (ep_token (si_endpoints session)) form [(u "Accept", u "application/json")] None in
      let received := EvHttp redemption :: t ++ s.2 in
      let rq := management_request p (ep_issuer (si_endpoints session)) token resources in
      _session environ (purpose_args p) open_browser s = (Ok (session, resources), (s.1, received)) ∧
      endpoints_secure (si_endpoints session) ∧ Forall quiet (EvHttp redemption :: t) ∧
      replied (t ++ s.2) redemption 200 (u "access_token") token ∧
      (r, s') = afterwards (o_http received rq) (s.1, EvHttp rq :: received).
Proof.
  intros Hb. destruct (command_shape environ open_browser p) as (prog & rest & after & -> & Hafter & Hrest).
  exists (λ reply, _run prog (given reply ≫= after)). split.
  { intros reply. apply run_prints, prints_bind; [|done]. unfold given. prints_tac. }
  intros s r s' H. pose proof (session_quiet environ (purpose_args p) open_browser Hb) as Hq.
  destruct (_session environ (purpose_args p) open_browser s) as [[[session resources]|e] s1] eqn:Hs.
  - right. pose proof (Hq _ _ _ Hs) as (Hx & t & Ht & Hquiet).
    destruct (session_run _ _ _ _ _ _ _ Hb Hs) as (Hsec & _ & s2 & browser & (t2 & Ht2) & Hsi).
    apply signed_in_last in Hsi as (form & before & E & _ & Hrep). cbv zeta in *.
    rewrite Ht2, app_assoc in E, Hrep.
    assert (t = EvHttp (PostForm (ep_token (si_endpoints session)) form
      [(u "Accept", u "application/json")] None) :: before ++ t2) as ->
      by (apply (app_inv_tail s.2); by rewrite <-Ht, E).
    assert (Es1 : s1 = (s.1, s1.2)) by (destruct s1; cbn [fst snd] in *; by subst).
    exists session, resources, (before ++ t2), form. cbv zeta. rewrite <-E.
    split; [f_equal; exact Es1|]. split; [done|]. split; [exact Hquiet|]. split; [exact Hrep|].
    rewrite <-H. rewrite Es1 in Hs. apply run_same. unfold mbind at 1, io_bind at 1. rewrite Hs. cbv iota beta.
    rewrite Hrest. unfold mbind, io_bind. by rewrite send_given.
  - left. pose proof (Hq _ _ _ Hs) as (Hx & t & Ht & Hquiet). apply (state_pair s1 _ _ Hx) in Ht. subst s1.
    assert (Ha : ('(session, resources) ← _session environ (purpose_args p) open_browser; rest session resources) s
      = (Raise e, (s.1, t ++ s.2))) by (unfold mbind, io_bind; by rewrite Hs).
    assert (Hp : prints (_run prog (raise e))) by apply run_prints, prints_raise.
    destruct Hp as (r' & printed & Hprinted & Hp). exists e, t, printed. split; [done|]. split; [done|].
    split; [done|]. rewrite (run_same _ _ (raise e) _ (s.1, t ++ s.2) Ha), Hp in H. by apply pair_eq in H as [_ <-].
Qed.
End CommandLemmas.
