(* ===== verification/Receiver.v ===== *)
(** * The loopback receiver as it runs ([LoopbackReceiver] in [pat_cli.py])

    A thread for every connection, the lock around the received parameters, the
    event that wakes the main thread, and the main thread between the start and
    the shutdown of the server: a small-step relation over all interleavings.
    [Cli.serve], which handles one request after the other, is its specification.

    [receiver_linearizable]: whatever the interleaving, answers and received
    parameters are those of [serve] in the order in which the threads took effect,
    and the main thread reads what [serve] had received at some point of it.
    [receiver_drains]: no interleaving is stuck and none goes on for ever. *)

From stdpp Require Import relations.
From S2P Require Import Prelude PyStr Codec Json World Errors UrlLib QueryString Pkce Cli CliSpec.

(** ** Threads *)

(** Where a handler thread is. *)
Inductive handler :=
  | HStart                                  (* do_GET is about to look at the path *)
  | HLock (params : dict pystr)             (* before [with self._lock] *)
  | HTest (params : dict pystr)             (* holds the lock *)
  | HWrite (params : dict pystr)            (* holds it, nothing was received *)
  | HLeave (accepted : bool)                (* holds it, about to release it *)
  | HSignal                                 (* before [self._done.set()] *)
  | HAnswer (a : res answer)                (* before the answer is sent *)
  | HDone (a : res answer).

(** The main thread in [sign_in]. [woken]: the event was set, no timeout. *)
Inductive main_thread :=
  | MBusy                                   (* in the body of the [with], before [wait] *)
  | MWait
  | MRead (woken : bool)                    (* before [return self._received] *)
  | MGot (woken : bool) (received : option (dict pystr))
  | MClosed.

Record listener := Listener {
  l_received : option (dict pystr);
  l_done : bool;
  l_lock : option nat;                      (* the thread that holds it *)
  l_threads : list (pystr * handler);       (* request target and position *)
  l_main : main_thread
}.

(** [__init__] and [__enter__]. *)
Definition started : listener := Listener None false None [] MBusy.

Definition goto (i : nat) (target : pystr) (h : handler) (l : listener) : listener :=
  Listener (l_received l) (l_done l) (l_lock l) (<[i := (target, h)]> (l_threads l)) (l_main l).
Definition set_lock (o : option nat) (l : listener) : listener :=
  Listener (l_received l) (l_done l) o (l_threads l) (l_main l).
Definition set_received (params : dict pystr) (l : listener) : listener :=
  Listener (Some params) (l_done l) (l_lock l) (l_threads l) (l_main l).
Definition set_done (l : listener) : listener :=
  Listener (l_received l) true (l_lock l) (l_threads l) (l_main l).
Definition set_main (m : main_thread) (l : listener) : listener :=
  Listener (l_received l) (l_done l) (l_lock l) (l_threads l) m.
Definition connect (target : pystr) (l : listener) : listener :=
  Listener (l_received l) (l_done l) (l_lock l) (l_threads l ++ [(target, HStart)]) (l_main l).

Definition not_found : res answer := _answer 404 (u "Not found.").
Definition received_answer : res answer := _answer 200 (u "Sign-in received. Return to the terminal.").
Definition late_answer : res answer := _answer 409 (u "This sign-in has already been answered.").

(** One step of thread [i]; [None] when it is blocked or at its end. *)
Definition handler_step (i : nat) (l : listener) : option listener :=
  match l_threads l !! i with
  | None | Some (_, HDone _) => None
  | Some (target, HStart) =>
      Some (goto i target
        (match urlsplit target with
         | Raise e => HDone (Raise e)
         | Ok parts =>
             if negb (bool_decide (path parts = CALLBACK_PATH)) then HAnswer not_found
             else HLock (first_values (query parts))
         end) l)
  | Some (target, HLock params) =>
      match l_lock l with
      | Some _ => None
      | None => Some (goto i target (HTest params) (set_lock (Some i) l))
      end
  | Some (target, HTest params) =>
      Some (goto i target (match l_received l with Some _ => HLeave false | None => HWrite params end) l)
  | Some (target, HWrite params) => Some (goto i target (HLeave true) (set_received params l))
  | Some (target, HLeave accepted) =>
      Some (goto i target (if accepted : bool then HSignal else HAnswer late_answer) (set_lock None l))
  | Some (target, HSignal) => Some (goto i target (HAnswer received_answer) (set_done l))
  | Some (target, HAnswer a) => Some (goto i target (HDone a) l)
  end.

(** The server takes connections until it is shut down. *)
Inductive listener_step : listener → listener → Prop :=
  | step_connect target l : l_main l ≠ MClosed → listener_step l (connect target l)
  | step_handler i l l' : handler_step i l = Some l' → listener_step l l'
  | step_wait l : l_main l = MBusy → listener_step l (set_main MWait l)
  | step_woken l : l_main l = MWait → l_done l = true → listener_step l (set_main (MRead true) l)
  | step_timeout l : l_main l = MWait → listener_step l (set_main (MRead false) l)
  | step_read woken l : l_main l = MRead woken → listener_step l (set_main (MGot woken (l_received l)) l)
  | step_close l : listener_step l (set_main MClosed l).

(** ** Invariants *)

(** The answer of a thread that has taken effect. *)
Definition settled (h : handler) : option (res answer) :=
  match h with
  | HLeave true | HSignal => Some received_answer
  | HLeave false => Some late_answer
  | HAnswer a | HDone a => Some a
  | _ => None
  end.

Definition critical (h : handler) : bool :=
  match h with HTest _ | HWrite _ | HLeave _ => true | _ => false end.

(** A target of the callback path, and its parameters. *)
Definition asks (target : pystr) (params : dict pystr) : Prop :=
  ∃ parts, urlsplit target = Ok parts ∧ path parts = CALLBACK_PATH ∧ params = first_values (query parts).

Definition handler_ok (received : option (dict pystr)) (target : pystr) (h : handler) : Prop :=
  match h with
  | HLock params | HTest params => asks target params
  | HWrite params => asks target params ∧ received = None
  | HLeave true | HSignal => received ≠ None
  | _ => True
  end.

Definition main_ok (received : option (dict pystr)) (done : bool) (m : main_thread) : Prop :=
  match m with
  | MRead true => received ≠ None
  | MGot woken r => (woken = true → r ≠ None) ∧ (r ≠ None → r = received)
  | _ => True
  end.

(** What holds between any two steps: mutual exclusion, and what each position
    knows. *)
Record listener_ok (l : listener) : Prop := {
  ok_lock i : l_lock l = Some i ↔ ∃ target h, l_threads l !! i = Some (target, h) ∧ critical h = true;
  ok_threads i target h : l_threads l !! i = Some (target, h) → handler_ok (l_received l) target h;
  ok_done : l_done l = true → l_received l ≠ None;
  ok_main : main_ok (l_received l) (l_done l) (l_main l)
}.

(** *** Handler steps *)

Implicit Types (i j : nat) (l : listener).

Lemma lookup_goto i target h l j :
  (i < length (l_threads l))%nat →
  l_threads (goto i target h l) !! j = if decide (j = i) then Some (target, h) else l_threads l !! j.
Proof.
  intros Hi. cbn. case_decide as E; [subst; by apply list_lookup_insert_eq|by apply list_lookup_insert_ne].
Qed.

Lemma started_ok : listener_ok started.
Proof. split; cbn; try done. intros i. split; [done|]. by intros (? & ? & H & _). Qed.

(** At most one thread is in the critical section. *)
Lemma critical_unique l i j ti tj hi hj :
  listener_ok l → l_threads l !! i = Some (ti, hi) → l_threads l !! j = Some (tj, hj) →
  critical hi = true → critical hj = true → i = j.
Proof.
  intros Hok Hi Hj Ci Cj. assert (Ei : l_lock l = Some i) by (apply (ok_lock _ Hok); eauto).
  assert (Ej : l_lock l = Some j) by (apply (ok_lock _ Hok); eauto). congruence.
Qed.

(** Thread [i] moves, and the lock goes with it. *)
Lemma goto_ok i target h h' lock l :
  listener_ok l → l_threads l !! i = Some (target, h) →
  handler_ok (l_received l) target h' →
  (∀ j, lock = Some j ↔ (j = i ∧ critical h' = true) ∨ (j ≠ i ∧ l_lock l = Some j)) →
  listener_ok (goto i target h' (set_lock lock l)).
Proof.
  intros [Hl Ht Hd Hm] Hi Ho Hlock. pose proof (lookup_lt_Some _ _ _ Hi) as Hlt. split; [|..|exact Hd|exact Hm].
  - intros j. cbn [l_lock goto set_lock]. rewrite Hlock. setoid_rewrite lookup_goto; [|done].
    case_decide as E; [subst j|].
    + split; [intros [[_ Hc]|[? _]]; [eauto|done]|]. intros (t & h0 & [= <- <-] & Hc). by left.
    + rewrite Hl. split; [by intros [[? _]|[_ H]]|]. intros H. by right.
  - intros j t h0. rewrite lookup_goto by done. case_decide; [intros [= <- <-]; exact Ho|apply Ht].
Qed.

(** A move that neither enters nor leaves the critical section. *)
Lemma move_ok i target h h' l :
  listener_ok l → l_threads l !! i = Some (target, h) → critical h' = critical h →
  handler_ok (l_received l) target h' → listener_ok (goto i target h' l).
Proof.
  intros Hok Hi Hc Ho. replace l with (set_lock (l_lock l) l) at 1 by by destruct l.
  eapply goto_ok; [done..|]. intros j. rewrite Hc. split.
  - intros Hj. destruct (decide (j = i)) as [->|]; [left|by right]. split; [done|].
    apply (ok_lock _ Hok) in Hj as (t & h0 & H0 & Hcr). congruence.
  - intros [[-> Hcr]|[_ Hj]]; [|done]. apply (ok_lock _ Hok). eauto.
Qed.

Lemma set_done_ok l : listener_ok l → l_received l ≠ None → listener_ok (set_done l).
Proof. intros [Hl Ht Hd Hm] Hr. split; [exact Hl|exact Ht|by intros _|]. cbn. by destruct (l_main l) as [| |[]| |]. Qed.

(** The first redirect is written while no other thread is about to. *)
Lemma set_received_ok i target params l :
  listener_ok l → l_threads l !! i = Some (target, HWrite params) →
  listener_ok (goto i target (HLeave true) (set_received params l)).
Proof.
  intros Hok Hi. pose proof (ok_threads _ Hok _ _ _ Hi) as [_ Hnone].
  assert (Hw : listener_ok (goto i target (HLeave false) l)) by by eapply move_ok.
  pose proof (lookup_lt_Some _ _ _ Hi) as Hlt. split.
  - intros j. pose proof (ok_lock _ Hw j) as Hj. cbn [l_lock goto set_received] in *. rewrite Hj.
    change (l_threads (goto i target (HLeave true) (set_received params l)))
      with (l_threads (goto i target (HLeave true) l)).
    setoid_rewrite lookup_goto; [|done..]. case_decide; [|done].
    split; intros (t & h & [= <- <-] & _); by eexists _, _.
  - intros j t h Hj. change (l_threads (goto i target (HLeave true) l) !! j = Some (t, h)) in Hj.
    rewrite lookup_goto in Hj by done. case_decide as E; [by injection Hj as <- <-|].
    pose proof (ok_threads _ Hok _ _ _ Hj) as Ho. destruct h as [| | |p|[]| | |]; try done.
    destruct E. by apply (critical_unique _ _ _ _ _ _ _ Hok Hj Hi).
  - done.
  - pose proof (ok_main _ Hok) as Hm. cbn. rewrite Hnone in Hm.
    destruct (l_main l) as [| |[]|w r|]; try done. destruct Hm as [Hw1 Hr]. split; [done|].
    intros Hne. by rewrite (Hr Hne) in Hne.
Qed.

Lemma handler_step_ok i l l' : listener_ok l → handler_step i l = Some l' → listener_ok l'.
Proof.
  intros Hok. unfold handler_step. destruct (l_threads l !! i) as [[target h]|] eqn:Hi; [|done].
  pose proof (ok_threads _ Hok _ _ _ Hi) as Ho.
  destruct h as [|params|params|params|accepted| |a|a]; cbn [handler_ok] in Ho.
  - intros [= <-]. eapply move_ok; [done..| |]; destruct (urlsplit target) as [parts|e] eqn:E; try done;
      destruct (bool_decide_reflect (path parts = CALLBACK_PATH)); cbn [negb]; try done.
    by exists parts.
  - destruct (l_lock l) as [k|] eqn:Hk; [done|]. intros [= <-]. eapply goto_ok; [done..|].
    intros j. rewrite Hk. naive_solver.
  - intros [= <-]. eapply move_ok; [done..| |]; by destruct (l_received l).
  - intros [= <-]. by apply set_received_ok.
  - intros [= <-]. assert (Hk : l_lock l = Some i) by (apply (ok_lock _ Hok); eauto).
    eapply goto_ok; [done..| |]; [by destruct accepted|]. intros j. rewrite Hk.
    destruct accepted; cbn [critical]; naive_solver.
  - intros [= <-]. eapply move_ok; [by apply set_done_ok|exact Hi|done|done].
  - intros [= <-]. by eapply move_ok.
  - done.
Qed.

Lemma connect_ok target l : listener_ok l → listener_ok (connect target l).
Proof.
  intros [Hl Ht Hd Hm]. split; [|..|exact Hd|exact Hm].
  - intros i. cbn. rewrite Hl. split; intros (t & h & H & Hc); exists t, h; (split; [|done]).
    + by apply lookup_app_l_Some.
    + apply lookup_app_Some in H as [H|[_ H]]; [done|]. apply list_lookup_singleton_Some in H as [_ H].
      injection H as <- <-. discriminate Hc.
  - intros i t h H. cbn in H. apply lookup_app_Some in H as [H|[_ H]]; [by eapply Ht|].
    apply list_lookup_singleton_Some in H as [_ H]. by injection H as <- <-.
Qed.

Lemma listener_step_ok l l' : listener_ok l → listener_step l l' → listener_ok l'.
Proof.
  intros Hok H. inversion H as [target l0 _|i l0 l1 Hs|l0 _|l0 _ Hd|l0 _|woken l0 Hm|l0]; subst.
  - by apply connect_ok.
  - by eapply handler_step_ok.
  - destruct Hok; by split.
  - pose proof (ok_done _ Hok Hd). destruct Hok; by split.
  - destruct Hok; by split.
  - pose proof (ok_main _ Hok) as Hw. rewrite Hm in Hw. destruct Hok; split; try done. cbn.
    split; [|done]. intros ->. exact Hw.
  - destruct Hok; by split.
Qed.

(** ** The order in which threads take effect *)

(** [h] lists the threads that have taken effect, with target and answer; [serve]
    gives these answers, and has received what is received. *)
Definition history (threads : list (pystr * handler)) (received : option (dict pystr))
    (h : list (nat * (pystr * res answer))) : Prop :=
  NoDup h.*1 ∧
  (∀ i target a, (i, (target, a)) ∈ h ↔ ∃ p, threads !! i = Some (target, p) ∧ settled p = Some a) ∧
  serve None h.*2.*1 = (h.*2.*2, received).

Lemma serve_app received ts ts' :
  serve received (ts ++ ts') =
    let '(answers, r) := serve received ts in
    let '(answers', r') := serve r ts' in (answers ++ answers', r').
Proof.
  revert received. induction ts as [|t ts IH]; intros received; cbn [app serve].
  { by destruct (serve received ts'). }
  destruct (do_GET received t) as [a r]. rewrite IH. destruct (serve r ts) as [as1 r1].
  by destruct (serve r1 ts').
Qed.

Lemma history_move threads received h i target p p' :
  history threads received h → threads !! i = Some (target, p) → settled p' = settled p →
  history (<[i := (target, p')]> threads) received h.
Proof.
  intros (Hn & Hh & Hs) Hi Hp. split; [done|]. split; [|done]. intros j t a. rewrite Hh.
  pose proof (lookup_lt_Some _ _ _ Hi) as Hlt. destruct (decide (j = i)) as [->|Hj].
  - rewrite list_lookup_insert_eq, Hi by done. split; intros (q & [= <- <-] & Hq); eexists; (split; [done|]); congruence.
  - by rewrite list_lookup_insert_ne by done.
Qed.

(** Thread [i] takes effect. *)
Lemma history_settle threads received received' h i target p p' a :
  history threads received h → threads !! i = Some (target, p) → settled p = None → settled p' = Some a →
  do_GET received target = (a, received') →
  history (<[i := (target, p')]> threads) received' (h ++ [(i, (target, a))]).
Proof.
  intros (Hn & Hh & Hs) Hi Hp Hp' Hget. pose proof (lookup_lt_Some _ _ _ Hi) as Hlt.
  assert (Hfresh : i ∉ h.*1).
  { intros (x & -> & Hx)%list_elem_of_fmap. destruct x as [j [t b]]. apply Hh in Hx as (q & Hq & Hb).
    cbn [fst] in Hi. rewrite Hi in Hq. injection Hq as <- <-. congruence. }
  split; [|split].
  - rewrite fmap_app. apply NoDup_app. split; [done|]. split; [|apply NoDup_singleton].
    intros j Hj ->%list_elem_of_singleton. by apply Hfresh.
  - intros j t b. rewrite elem_of_app, list_elem_of_singleton, Hh. destruct (decide (j = i)) as [->|Hj].
    + rewrite list_lookup_insert_eq by done. split.
      * intros [(q & Hq & Hb)|[= -> ->]]; [|by exists p']. rewrite Hi in Hq. injection Hq as <- <-. congruence.
      * intros (q & [= <- <-] & Hb). right. congruence.
    + rewrite list_lookup_insert_ne by done. split; [intros [H|[= ? _ _]]; [exact H|done]|by left].
  - rewrite !fmap_app. cbn [fmap list_fmap]. rewrite serve_app, Hs. cbn [serve snd fst].
    by rewrite Hget.
Qed.

(** The three ways to take effect. *)
Lemma get_elsewhere received target :
  (∀ parts, urlsplit target = Ok parts → path parts ≠ CALLBACK_PATH) →
  do_GET received target = (match urlsplit target with Raise e => Raise e | Ok _ => not_found end, received).
Proof.
  intros H. unfold do_GET. destruct (urlsplit target) as [parts|e]; [|done].
  rewrite bool_decide_false by by apply H. done.
Qed.
Lemma get_callback received target params :
  asks target params →
  do_GET received target = match received with
                           | Some _ => (late_answer, received)
                           | None => (received_answer, Some params)
                           end.
Proof.
  intros (parts & Hs & Hp & ->). unfold do_GET. rewrite Hs, bool_decide_true by done. cbn [negb].
  by destruct received.
Qed.

Lemma handler_step_history i l l' h :
  listener_ok l → handler_step i l = Some l' → history (l_threads l) (l_received l) h →
  ∃ more, history (l_threads l') (l_received l') (h ++ more).
Proof.
  intros Hok. unfold handler_step. destruct (l_threads l !! i) as [[target p]|] eqn:Hi; [|done].
  pose proof (ok_threads _ Hok _ _ _ Hi) as Ho.
  assert (Hmove : ∀ p', settled p' = settled p → history (l_threads l) (l_received l) h →
    ∃ more, history (<[i := (target, p')]> (l_threads l)) (l_received l) (h ++ more)).
  { intros p' Hp Hh. exists []. rewrite app_nil_r. by eapply history_move. }
  assert (Hsettle : ∀ p' a received', settled p = None → settled p' = Some a →
    do_GET (l_received l) target = (a, received') → history (l_threads l) (l_received l) h →
    ∃ more, history (<[i := (target, p')]> (l_threads l)) received' (h ++ more)).
  { intros p' a r Hp Hp' Hg Hh. eexists. by eapply history_settle. }
  destruct p as [|params|params|params|accepted| |a|a]; cbn [handler_ok] in Ho.
  - intros [= <-]. destruct (urlsplit target) as [parts|e] eqn:E.
    + destruct (bool_decide_reflect (path parts = CALLBACK_PATH)) as [Hp|Hp]; cbn [negb].
      * by apply Hmove.
      * eapply Hsettle; [done|done|]. rewrite get_elsewhere, E; [done|]. rewrite E. by intros ? [= <-].
    + eapply Hsettle; [done|done|]. rewrite get_elsewhere, E; [done|]. by rewrite E.
  - destruct (l_lock l); [done|]. intros [= <-]. by apply Hmove.
  - intros [= <-]. pose proof (get_callback (l_received l) target params Ho) as Hg.
    cbn [goto l_threads l_received].
    clear Ho. revert Hg Hsettle Hmove. destruct (l_received l); intros Hg Hsettle Hmove;
      [by eapply (Hsettle (HLeave false))|by apply Hmove].
  - intros [= <-]. destruct Ho as [Ha Hr]. assert (Hg : do_GET (l_received l) target = (received_answer, Some params))
      by (by rewrite (get_callback _ _ _ Ha), Hr). cbn [goto set_received l_threads l_received].
    by eapply (Hsettle (HLeave true)).
  - intros [= <-]. apply Hmove. by destruct accepted.
  - intros [= <-]. by apply Hmove.
  - intros [= <-]. by apply Hmove.
  - done.
Qed.

(** Connections and the main thread leave the history alone. *)
Lemma connect_history target l h :
  history (l_threads l) (l_received l) h → history (l_threads (connect target l)) (l_received l) h.
Proof.
  intros (Hn & Hh & Hs). split; [done|]. split; [|done]. intros i t a. rewrite Hh. cbn [connect l_threads].
  split; intros (p & Hp & Hq); exists p; (split; [|done]).
  - by apply lookup_app_l_Some.
  - apply lookup_app_Some in Hp as [Hp|[_ Hp]]; [done|]. apply list_lookup_singleton_Some in Hp as [_ Hp].
    injection Hp as <- <-. discriminate Hq.
Qed.

(** What the main thread has read is what [serve] had received after some of
    these requests. *)
Definition read_from (m : main_thread) (targets : list pystr) : Prop :=
  match m with
  | MGot woken r => ∃ k, r = (serve None (take k targets)).2 ∧ (woken = true → r ≠ None)
  | _ => True
  end.

Lemma read_from_app m targets more : read_from m targets → read_from m (targets ++ more).
Proof.
  destruct m as [| | |woken r|]; try done. intros (k & Hr & Hw). exists (k `min` length targets)%nat.
  split; [|done]. rewrite Hr. do 2 f_equal. rewrite take_app_le by lia.
  destruct (Nat.le_ge_cases k (length targets)); [by rewrite Nat.min_l|by rewrite Nat.min_r, !take_ge].
Qed.

Lemma listener_step_history l l' h :
  listener_ok l → listener_step l l' → history (l_threads l) (l_received l) h → read_from (l_main l) h.*2.*1 →
  ∃ h', history (l_threads l') (l_received l') h' ∧ read_from (l_main l') h'.*2.*1.
Proof.
  intros Hok H Hh Hr.
  inversion H as [target l0 _|i l0 l1 Hs|l0 _|l0 _ Hd|l0 _|woken l0 Hm|l0]; subst; try (by exists h).
  - exists h. split; [by apply (connect_history target l)|done].
  - destruct (handler_step_history _ _ _ _ Hok Hs Hh) as [more Hmore]. exists (h ++ more). split; [done|].
    rewrite !fmap_app. apply read_from_app. enough (l_main l' = l_main l) as -> by done.
    revert Hs. unfold handler_step. repeat case_match; by intros [= <-].
  - exists h. split; [done|]. cbn [set_main l_main read_from]. exists (length h).
    rewrite take_ge by by rewrite !length_fmap. destruct Hh as (_ & _ & ->). split; [done|].
    intros ->. pose proof (ok_main _ Hok) as Hw. by rewrite Hm in Hw.
Qed.

Lemma reachable_history l :
  rtc listener_step started l →
  listener_ok l ∧ ∃ h, history (l_threads l) (l_received l) h ∧ read_from (l_main l) h.*2.*1.
Proof.
  revert l. apply rtc_ind_r; [|intros l1 l2 _ H12 [Hok (h & Hh & Hr)]].
  - split; [apply started_ok|]. exists []. split; [|done]. split; [constructor|]. split; [|done].
    intros i t a. split; [by intros ?%not_elem_of_nil|]. by intros (p & ? & _).
  - split; [by eapply listener_step_ok|by eapply listener_step_history].
Qed.

(** C28. The receiver under concurrency.  Whatever the interleaving of handler
    threads, connections, the wait and its timeout: the threads that have taken
    effect can be put in an order such that their answers and the parameters
    received are those of [serve], which handles one request after the other in
    that order; and what the main thread has read is what [serve] had received
    after some of them -- something, if the event woke it.  A thread that is done
    is one of them. *)
Theorem receiver_linearizable l :
  rtc listener_step started l →
  ∃ h : list (nat * (pystr * res answer)),
    NoDup h.*1 ∧
    (∀ i target a, (i, (target, a)) ∈ h → ∃ p, l_threads l !! i = Some (target, p) ∧ settled p = Some a) ∧
    (∀ i target a, l_threads l !! i = Some (target, HDone a) → (i, (target, a)) ∈ h) ∧
    serve None h.*2.*1 = (h.*2.*2, l_received l) ∧
    (∀ woken r, l_main l = MGot woken r →
       ∃ k, r = (serve None (take k h.*2.*1)).2 ∧ (woken = true → r ≠ None)).
Proof.
  intros [_ (h & (Hn & Hh & Hs) & Hr)]%reachable_history. exists h. split; [done|].
  split; [intros i t a; apply Hh|]. split; [intros i t a Hi; apply Hh; by eexists|]. split; [done|].
  intros woken r Hm. by rewrite Hm in Hr.
Qed.

(** *** Nothing is stuck *)

Definition weight (h : handler) : nat :=
  match h with
  | HStart => 7 | HLock _ => 6 | HTest _ => 5 | HWrite _ => 4 | HLeave _ => 3 | HSignal => 2
  | HAnswer _ => 1 | HDone _ => 0
  end.
Definition work (l : listener) : nat := sum_list_with (λ th, weight th.2) (l_threads l).
Definition handlers_step (l l' : listener) : Prop := ∃ i, handler_step i l = Some l'.
Definition drained (l : listener) : Prop := Forall (λ th, ∃ a, th.2 = HDone a) (l_threads l).

Lemma sum_insert (threads : list (pystr * handler)) i x y :
  threads !! i = Some x →
  (sum_list_with (λ th, weight th.2) (<[i := y]> threads) + weight x.2
   = sum_list_with (λ th, weight th.2) threads + weight y.2)%nat.
Proof.
  revert i. induction threads as [|z threads IH]; intros [|i] Hi; [done|done| |].
  - injection Hi as ->. cbn. lia.
  - cbn. rewrite <-!Nat.add_assoc. f_equal. exact (IH i Hi).
Qed.

(** Every step of a handler uses up work. *)
Lemma handler_step_work i l l' : handler_step i l = Some l' → (work l' < work l)%nat.
Proof.
  unfold handler_step. destruct (l_threads l !! i) as [[target h]|] eqn:Hi; [|done].
  assert (Hgo : ∀ h' l0, l_threads l0 = l_threads l → (weight h' < weight h)%nat →
    (work (goto i target h' l0) < work l)%nat).
  { intros h' l0 E Hw. unfold work. cbn [goto l_threads]. rewrite E.
    pose proof (sum_insert _ i _ (target, h') Hi) as Hsum. cbn [snd] in Hsum. lia. }
  destruct h; cbn [weight] in Hgo; try done.
  - intros [= <-]. apply Hgo; [done|]. destruct (urlsplit target); [destruct (negb _)|]; cbn; lia.
  - destruct (l_lock l); [done|]. intros [= <-]. apply Hgo; [done|cbn; lia].
  - intros [= <-]. apply Hgo; [done|]. destruct (l_received l); cbn; lia.
  - intros [= <-]. apply Hgo; [done|cbn; lia].
  - intros [= <-]. apply Hgo; [done|]. destruct accepted; cbn; lia.
  - intros [= <-]. apply Hgo; [done|cbn; lia].
  - intros [= <-]. apply Hgo; [done|cbn; lia].
Qed.

(** A thread that is not done can move, or the one that holds the lock can. *)
Lemma handlers_progress l : listener_ok l → drained l ∨ ∃ l', handlers_step l l'.
Proof.
  intros Hok. assert (Hd : ∀ th : pystr * handler, Decision (∃ a, th.2 = HDone a)).
  { intros [t h]. destruct h; try (right; by intros [? [=]]). left. by eexists. }
  destruct (decide (drained l)) as [|Hn]; [by left|right].
  apply not_Forall_Exists in Hn; [|exact _]. apply Exists_exists in Hn as ([target h] & Hin & Hh).
  apply list_elem_of_lookup in Hin as [i Hi].
  destruct (l_lock l) as [k|] eqn:Hk.
  - apply (ok_lock _ Hok) in Hk as (t & hk & Hik & Hc).
    enough (is_Some (handler_step k l)) as [l' Hl'] by by exists l', k.
    unfold handler_step. rewrite Hik. by destruct hk.
  - enough (is_Some (handler_step i l)) as [l' Hl'] by by exists l', i.
    unfold handler_step. rewrite Hi, Hk. destruct h; try done. exfalso. apply Hh. by eexists.
Qed.

Lemma handlers_steps_ok l l' : listener_ok l → rtc handlers_step l l' → listener_ok l'.
Proof.
  intros Hok H. induction H as [|l1 l2 l3 [i Hi] _ IH]; [done|]. by apply IH, (handler_step_ok i l1).
Qed.

(** C37. The handlers always finish.  From every state that any interleaving
    reaches, whatever the handlers do next: they can go on to a state in which
    every request is answered or has failed on its own, and they do so within
    seven steps for every request -- no deadlock on the lock, no thread that waits
    for the main thread. *)
Theorem receiver_drains l n l' :
  rtc listener_step started l → nsteps handlers_step n l l' →
  (n <= 7 * length (l_threads l))%nat ∧ ∃ l'', rtc handlers_step l' l'' ∧ drained l''.
Proof.
  intros [Hok _]%reachable_history Hn. split.
  - assert (Hw : (work l <= 7 * length (l_threads l))%nat).
    { unfold work. induction (l_threads l) as [|[t h] threads IH]; [done|]. cbn. destruct h; cbn; lia. }
    assert (H : (n + work l' <= work l)%nat); [|lia]. clear Hok Hw.
    induction Hn as [|n l1 l2 l3 [i Hi] _ IH]; [done|]. apply handler_step_work in Hi. lia.
  - apply rtc_nsteps_2 in Hn. pose proof (handlers_steps_ok _ _ Hok Hn) as Hok'. clear Hok Hn.
    remember (work l') as w eqn:Ew. revert l' Hok' Ew. induction (lt_wf w) as [w _ IH]. intros l' Hok' ->.
    destruct (handlers_progress l' Hok') as [Hd|[l2 [i H2]]]; [by exists l'|].
    destruct (IH (work l2) (handler_step_work _ _ _ H2) l2) as (l'' & Hr & Hd);
      [by eapply handler_step_ok|done|]. exists l''. split; [|done]. eapply rtc_l; [by exists i|done].
Qed.

(** ** Schedules *)

(** A step by name, so that an interleaving can be run. *)
Inductive action := AConnect (target : pystr) | AHandler (i : nat) | AWait | AWoken | ATimeout | ARead | AClose.

Definition act (a : action) (l : listener) : option listener :=
  match a, l_main l with
  | AConnect _, MClosed => None
  | AConnect target, _ => Some (connect target l)
  | AHandler i, _ => handler_step i l
  | AWait, MBusy => Some (set_main MWait l)
  | AWoken, MWait => if l_done l then Some (set_main (MRead true) l) else None
  | ATimeout, MWait => Some (set_main (MRead false) l)
  | ARead, MRead woken => Some (set_main (MGot woken (l_received l)) l)
  | AClose, _ => Some (set_main MClosed l)
  | _, _ => None
  end.
Fixpoint schedule (actions : list action) (l : listener) : option listener :=
  match actions with [] => Some l | a :: rest => l' ← act a l; schedule rest l' end.

Lemma act_step a l l' : act a l = Some l' → listener_step l l'.
Proof.
  unfold act. destruct a, (l_main l) eqn:Hm; try done; try (by intros [= <-]; constructor; rewrite Hm);
    try (by intros H; eapply step_handler); try (intros [= <-]; by constructor).
  destruct (l_done l) eqn:Hd; [|done]. intros [= <-]. by constructor.
Qed.

Lemma schedule_reachable actions l l' : schedule actions l = Some l' → rtc listener_step l l'.
Proof.
  revert l. induction actions as [|a actions IH]; intros l; cbn [schedule]; [by intros [= <-]|].
  destruct (act a l) as [l1|] eqn:Ha; [|done]. intros H. eapply rtc_l; [by eapply act_step|]. by apply IH.
Qed.

Module ReceiverExamples.
Definition first : pystr := u "/callback?code=c1&state=s".
Definition second : pystr := u "/callback?code=c2".
Definition icon : pystr := u "/favicon.ico".

Definition statuses (l : listener) : list (option Z) :=
  (λ th, match th.2 with HDone (Ok a) => Some (an_status a) | _ => None end) <$> l_threads l.

(** The request that came second takes the lock first. *)
Definition race : list action :=
  [AWait; AConnect first; AConnect icon; AConnect second; AHandler 0; AHandler 2; AHandler 2; AHandler 1;
   AHandler 2; AHandler 2; AHandler 2; AHandler 0; AHandler 1; AHandler 0; AHandler 2; AWoken; AHandler 0;
   ARead; AHandler 0; AHandler 2].
(** Blocked on the lock: no step. *)
Example lock_excludes :
  schedule [AConnect first; AConnect second; AHandler 0; AHandler 1; AHandler 0; AHandler 1] started = None.
Proof. vm_compute. reflexivity. Qed.
Example race_ends :
  (λ l, (statuses l, l_received l, l_main l)) <$> schedule race started
  = Some ([Some 409; Some 404; Some 200], Some [(u "code", u "c2")], MGot true (Some [(u "code", u "c2")])).
Proof. vm_compute. reflexivity. Qed.

(** A redirect that arrives as the wait gives up: the browser reads that the
    sign-in was received, the command that none arrived. *)
Example late_redirect :
  (λ l, (statuses l, l_received l, l_main l)) <$>
    schedule ([AWait; AConnect first; ATimeout; ARead] ++ replicate 7 (AHandler 0)) started
  = Some ([Some 200], Some [(u "code", u "c1"); (u "state", u "s")], MGot false None).
Proof. vm_compute. reflexivity. Qed.

Lemma receiver_linearizable_witness :
  ∃ l h, schedule race started = Some l ∧ serve None h.*2.*1 = (h.*2.*2, l_received l) ∧
    (2%nat, (second, received_answer)) ∈ h ∧ ∃ k, Some [(u "code", u "c2")] = (serve None (take k h.*2.*1)).2.
Proof.
  destruct (schedule race started) as [l|] eqn:E; [|by vm_compute in E].
  destruct (receiver_linearizable l (schedule_reachable _ _ _ E)) as (h & _ & _ & Hd & Hs & Hm).
  assert (Hl : (λ l, (l_threads l !! 2%nat, l_main l)) <$> schedule race started
    = Some (Some (second, HDone received_answer), MGot true (Some [(u "code", u "c2")]))) by (vm_compute; reflexivity).
  rewrite E in Hl. cbn [fmap option_fmap option_map] in Hl. apply (inj Some), pair_eq in Hl as [H2 Hmain].
  exists l, h. split; [reflexivity|]. split; [exact Hs|]. split; [exact (Hd 2%nat _ _ H2)|].
  destruct (Hm _ _ Hmain) as (k & Hk & _). by exists k.
Defined.

Lemma receiver_drains_witness :
  ∃ l l'', schedule [AConnect first; AConnect second; AHandler 1; AHandler 1] started = Some l ∧
    rtc handlers_step l l'' ∧ drained l''.
Proof.
  destruct (schedule [AConnect first; AConnect second; AHandler 1; AHandler 1] started) as [l|] eqn:E; [|by vm_compute in E].
  destruct (receiver_drains l 0 l (schedule_reachable _ _ _ E) (nsteps_O _ _)) as [_ (l'' & Hr & Hd)].
  exists l, l''. split; [reflexivity|]. by split.
Defined.
End ReceiverExamples.
