(* ===== verification/CliFlow.v ===== *)
(** * The command line and the proxy together

    What [pat_cli.py] sends is what the endpoints of the proxy accept, and what
    the proxy sends back is what the command line accepts:
    [cli_registration_admitted], [cli_redirect_any_port],
    [callback_reaches_cli].  [CliExamples] runs a whole [pat-create]. *)

From S2P Require Import Prelude PyStr Codec Digest Json World Errors IpAddr UrlLib.
From S2P Require Import QueryString Pkce RedirectUri Envelope Assertion Config Register Callback.
From S2P Require Import Cli CliSpec.

(** ** The listener's redirect URI *)

Definition port_text (port : Z) : pystr := u "127.0.0.1:" ++ dec (Z.to_N port).

Lemma loopback_uri_text port :
  0 <= port → loopback_uri port = u "http://" ++ port_text port ++ CALLBACK_PATH.
Proof.
  intros Hp. unfold loopback_uri, port_text, str_of_Z. replace (port <? 0) with false by lia. done.
Qed.

Definition netloc_char (c : N) : bool := is_ascii_digit c || (c =? 46)%N || (c =? 58)%N.

Lemma port_text_chars port : forallb netloc_char (port_text port) = true.
Proof.
  unfold port_text. rewrite forallb_app. apply andb_true_iff. split; [done|].
  rewrite forallb_forall. intros c Hc%list_elem_of_In. pose proof (dec_all (Z.to_N port)) as H.
  rewrite Forall_forall in H. unfold netloc_char. by rewrite (H c Hc).
Qed.

Lemma port_text_notin c port : netloc_char c = false → c ∉ port_text port.
Proof. intros Hc. eapply forallb_notin; [exact Hc|apply port_text_chars]. Qed.

Lemma urlsplit_loopback port :
  0 <= port →
  urlsplit (loopback_uri port) = Ok {| scheme := u "http"; netloc := port_text port;
                                       path := CALLBACK_PATH; query := []; fragment := [] |}.
Proof.
  intros Hp. rewrite loopback_uri_text by done. unfold urlsplit. rewrite clean_url_plain.
  2: { rewrite !forallb_app. apply andb_true_iff; split; [done|]. apply andb_true_iff; split; [|done].
       eapply forallb_impl; [|apply port_text_chars]. intros c Hc.
       unfold netloc_char, is_ascii_digit in Hc. simpl. lia. }
  change (split_scheme (u "http://" ++ ?x)) with (u "http", u "//" ++ x). cbv iota beta.
  unfold split_netloc. rewrite startswith_app. change (drop 2 (u "//" ++ ?x)) with x.
  rewrite span_not_app.
  2: { eapply forallb_impl; [|apply port_text_chars]. intros c Hc.
       unfold netloc_char, is_ascii_digit in Hc. unfold is_netloc_end. simpl. lia. }
  2: { by intros c [= <-]. }
  rewrite (proj2 (has_char_false 91 _)), (proj2 (has_char_false 93 _)) by by apply port_text_notin.
  cbn [xorb mbind res_bind].
  change (partition 35 CALLBACK_PATH) with (CALLBACK_PATH, false, @nil N). cbv iota beta.
  change (partition 63 CALLBACK_PATH) with (CALLBACK_PATH, false, @nil N). cbv iota beta.
  unfold check_netloc. replace (existsb _ (port_text port)) with false; [done|].
  symmetry. apply not_true_iff_false. intros (c & Hin & Hc)%existsb_exists.
  apply existsb_exists in Hc as (d & Hd & Heq%N.eqb_eq). subst d.
  pose proof (port_text_chars port) as Ha. rewrite forallb_forall in Ha. apply Ha in Hin.
  assert (H : forallb (λ c, negb (netloc_char c)) nfkc_delimiters = true) by reflexivity.
  rewrite forallb_forall in H. apply H in Hd. by rewrite Hin in Hd.
Qed.

Lemma hostname_loopback port s :
  netloc s = port_text port → hostname s = Some (u "127.0.0.1") ∧ 64%N ∉ netloc s.
Proof.
  intros E. split; [|rewrite E; by apply port_text_notin]. unfold hostname, hostinfo. rewrite E.
  rewrite rpartition_notin, partition_notin by by apply port_text_notin.
  change (port_text port) with (u "127.0.0.1" ++ 58%N :: dec (Z.to_N port)).
  rewrite partition_app by by apply (bool_decide_unpack (_ ∉ _)). reflexivity.
Qed.

Lemma loopback_policy_uri port :
  0 <= port → ∃ s, urlsplit (loopback_uri port) = Ok s ∧ policy s ∧
    scheme s = u "http" ∧ hostname s = Some (u "127.0.0.1") ∧
    path s = CALLBACK_PATH ∧ query s = [].
Proof.
  intros Hp. eexists. split; [by apply urlsplit_loopback|].
  match goal with |- policy ?s ∧ _ => destruct (hostname_loopback port s eq_refl) as [Hh Ha] end.
  repeat split; try done. exists (u "127.0.0.1"). split; [done|]. by right.
Qed.

Lemma loopback_accepted port : 0 <= port → accept_registered (loopback_uri port) = Ok tt.
Proof.
  intros (s & Hs & Hpol & _)%loopback_policy_uri. apply accept_registered_iff. eauto.
Qed.

(** What the command line registers is admitted: whatever port its listener
    got, POST [/register] accepts the body it sends, with that one redirect URI,
    no client authentication and the name of the command line. *)
Theorem cli_registration_admitted port :
  0 <= port →
  admitted (inr (registration_body (loopback_uri port))) =
    Ok ([loopback_uri port], u "none", CLIENT_NAME).
Proof.
  intros Hp. unfold admitted, registration_body. cbn [_read_json mbind res_bind].
  apply validate_iff. split; [done|]. split; [done|]. split; [done|].
  split; [|split; [|done]].
  - intros H%list_elem_of_singleton. by rewrite loopback_uri_text in H.
  - apply Forall_singleton. by apply loopback_accepted.
Qed.

Lemma cli_registration_admitted_witness :
  admitted (inr (registration_body (loopback_uri 51004))) =
    Ok ([loopback_uri 51004], u "none", CLIENT_NAME).
Proof. apply (cli_registration_admitted 51004). lia. Defined.

(** The port is not part of the client's identity: two runs of the command
    line, with different ports, match one registration. *)
Lemma cli_redirect_any_port p q :
  0 <= p → 0 <= q → uri_matches_registration (loopback_uri p) (loopback_uri q) = Ok true.
Proof.
  intros (r & Hr & (Hfr & Har & _) & Esr & Hhr & Hpr & Hqr)%loopback_policy_uri.
  intros (s & Hs & (Hfs & Has & _) & Ess & Hhs & Hps & Hqs)%loopback_policy_uri.
  unfold uri_matches_registration. case_decide; [done|].
  rewrite Hr, Hs. cbn [mbind res_bind]. unfold _is_loopback_http.
  apply has_char_false in Har, Has.
  by rewrite Esr, Ess, Hhr, Hhs, Hfr, Hfs, Har, Has, Hpr, Hps, Hqr, Hqs.
Qed.

(** ** The way back *)

Definition redirect_target (query : pystr) : pystr := CALLBACK_PATH ++ 63%N :: query.

Definition written_char (c : N) : bool := is_query_char c || (c =? 61)%N || (c =? 38)%N.

Lemma urlsplit_target q :
  forallb written_char q = true →
  urlsplit (redirect_target q) = Ok {| scheme := []; netloc := []; path := CALLBACK_PATH;
                                       query := q; fragment := [] |}.
Proof.
  intros Hq. assert (Hni : ∀ c, written_char c = false → c ∉ CALLBACK_PATH → (c =? 63)%N = false →
    c ∉ redirect_target q).
  { intros c Hc Hp H63 [?|[->|Hin]%elem_of_cons]%elem_of_app; [done|done|].
    eapply forallb_notin; [exact Hc|exact Hq|exact Hin]. }
  unfold urlsplit. rewrite clean_url_plain.
  2: { unfold redirect_target. rewrite forallb_app. apply andb_true_iff; split; [done|].
       cbn [forallb]. apply andb_true_iff; split; [done|]. eapply forallb_impl; [|exact Hq].
       intros c Hc. unfold written_char, is_query_char, is_always_safe, is_ascii_alpha,
         is_ascii_upper, is_ascii_lower, is_ascii_digit in Hc. simpl. lia. }
  unfold split_scheme. rewrite (partition_notin 58) by (apply Hni; [done|by apply (bool_decide_unpack (_ ∉ _))|done]).
  change (match redirect_target q with [] | _ => ([], redirect_target q) end)
    with (@nil N, redirect_target q). cbv beta iota.
  change (split_netloc (redirect_target q)) with (Ok (@nil N, redirect_target q)).
  cbn [mbind res_bind]. rewrite (partition_notin 35) by (apply Hni; [done|by apply (bool_decide_unpack (_ ∉ _))|done]).
  unfold redirect_target. rewrite partition_app by by apply (bool_decide_unpack (_ ∉ _)). reflexivity.
Qed.

Lemma first_values_get q k : dict_get (first_values q) k = first_value (parse_qs q) k ∨
  dict_get (parse_qs q) k = Some [].
Proof.
  unfold first_values, first_value. induction (parse_qs q) as [|[k' vs] d IH]; [by left|].
  cbn [fmap list_fmap dict_get]. case_decide; [|exact IH]. destruct vs; [by right|by left].
Qed.

(** No key is without a value. *)
Lemma parse_qs_nonempty q k : dict_get (parse_qs q) k ≠ Some [].
Proof.
  unfold parse_qs. generalize (parse_qsl q) as l.
  assert (H : ∀ l (d : dict (list pystr)), (∀ k, dict_get d k ≠ Some []) →
    ∀ k, dict_get (foldl add_value d l) k ≠ Some []).
  { induction l as [|kv l IH]; intros d Hd; [exact Hd|]. cbn [foldl]. apply IH. intros k'.
    unfold add_value. destruct (decide (kv.1 = k')) as [<-|Hne].
    - rewrite dict_get_set_eq. intros [= E]. by apply app_nil in E as [_ ?].
    - by rewrite dict_get_set_ne. }
  intros l. by apply H.
Qed.

(** What the receiver makes of a query that [urlencode] wrote. *)
Lemma received_fields params q k :
  NoDup params.*1 → urlencode params = Ok q →
  dict_get (first_values q) k =
    match dict_get params k with Some v => if truthy v then Some v else None | None => None end.
Proof.
  intros Hnd Hq. destruct (first_values_get q k) as [->|H]; [|by apply parse_qs_nonempty in H].
  rewrite parse_qs_first, (parse_qsl_urlencode _ _ Hq). by apply dict_get_nonblank.
Qed.

Lemma do_GET_first q :
  forallb written_char q = true →
  ∃ a, do_GET None (redirect_target q) = (Ok a, Some (first_values q)) ∧ an_status a = 200.
Proof.
  intros Hq. unfold do_GET. rewrite urlsplit_target by done. cbn [path query].
  rewrite bool_decide_true by done. cbn [negb _accept].
  eexists. split; [reflexivity|reflexivity].
Qed.

Lemma set_truthy_NoDup (d : dict pystr) k v : NoDup d.*1 → NoDup (set_truthy d k v).*1.
Proof. intros H. unfold set_truthy. destruct (truthy v); [by apply dict_set_wf|done]. Qed.

Section WayBack.
Context `{O : Outside, !ClockLaws O, R : Rsa, F : Fernet, !FernetLaws F, FR : FloatRepr} {X : Type}.
Implicit Types (config : ProxyConfig) (key : fkey) (s : state X).

(** A redirect of [/callback] to the listener, as the listener receives it. *)
Lemma back_to_listener env params port url :
  0 <= port → az_redirect_uri env = loopback_uri port → NoDup params.*1 →
  back_to_client env params = Ok (Redirect url) →
  ∃ target received a, url = u "http://" ++ port_text port ++ target ∧
    do_GET None target = (Ok a, Some received) ∧ an_status a = 200 ∧
    ∀ k, dict_get received k =
      match dict_get params k with Some v => if truthy v then Some v else None | None => None end.
Proof.
  intros Hp Huri Hnd (q & Hq & H)%bind_Ok. apply Ok_inj in H. injection H as <-.
  assert (Hc : forallb written_char q = true) by by eapply urlencode_chars.
  destruct (do_GET_first q Hc) as (a & Ha & H200).
  exists (redirect_target q), (first_values q), a. split; [|split; [done|split; [done|]]].
  - rewrite Huri, loopback_uri_text by done. unfold redirect_target.
    change (u "?") with [63%N]. by rewrite <-!app_assoc.
  - intros k. by apply received_fields.
Qed.

Lemma default_lookup (received params : dict pystr) k :
  dict_get received k =
    match dict_get params k with Some v => if truthy v then Some v else None | None => None end →
  dict_get_default received k [] = dict_get_default params k [].
Proof. unfold dict_get_default. intros ->. by destruct (dict_get params k) as [[|c v]|]. Qed.

Lemma code_params_fields config env tok :
  truthy (az_state env) = true →
  let params := code_params config env tok in
  NoDup params.*1 ∧ dict_get params (u "state") = Some (az_state env) ∧
  dict_get params (u "iss") = Some (public_url config) ∧ dict_get params (u "error") = None ∧
  dict_get params (u "code") = Some tok.
Proof.
  intros Hs. unfold code_params. split.
  - apply set_truthy_NoDup. by apply (bool_decide_unpack (NoDup [u "code"; u "iss"])).
  - unfold set_truthy. rewrite Hs. done.
Qed.

Lemma error_params_fields config env err description :
  truthy (az_state env) = true →
  let params := error_params config env err description in
  NoDup params.*1 ∧ dict_get params (u "state") = Some (az_state env) ∧
  dict_get params (u "iss") = Some (public_url config) ∧ dict_get params (u "error") = Some err ∧
  dict_get params (u "code") = None.
Proof.
  intros Hs. unfold error_params. split.
  - apply dict_set_wf. do 2 apply set_truthy_NoDup. apply NoDup_singleton.
  - unfold set_truthy. rewrite Hs. by destruct (truthy (default [] description)).
Qed.

(** The check of a redirect that carries this state and this issuer. *)
Lemma check_received config env received params :
  isascii (az_state env) = true →
  (∀ k, dict_get received k =
     match dict_get params k with Some v => if truthy v then Some v else None | None => None end) →
  dict_get params (u "iss") = Some (public_url config) →
  dict_get params (u "state") = Some (az_state env) →
  match dict_get params (u "code") with
  | Some code =>
      dict_get params (u "error") = None → code ≠ [] →
      check_redirect received (az_state env) (rstrip_slash (public_url config)) = Ok code
  | None => ∃ m,
      check_redirect received (az_state env) (rstrip_slash (public_url config)) = Raise (CliError m)
  end.
Proof.
  intros Hascii Hr Hi Hs. unfold check_redirect.
  rewrite (default_lookup received params (u "state")), (default_lookup received params (u "iss")) by done.
  assert (dict_get_default params (u "state") [] = az_state env) as ->
    by (unfold dict_get_default; by rewrite Hs).
  assert (dict_get_default params (u "iss") [] = public_url config) as ->
    by (unfold dict_get_default; by rewrite Hi).
  unfold compare_digest. rewrite Hascii. cbn [andb mbind res_bind].
  rewrite !bool_decide_true by done. cbn [negb]. rewrite !Hr.
  destruct (dict_get params (u "code")) as [code|].
  - intros -> ?. by destruct code.
  - destruct (dict_get params (u "error")) as [[|c e]|]; by eexists.
Qed.

(** C16. What [/callback] sends to the listener is what the command line
    expects.  For a sign-in with the listener's redirect URI and an ASCII state:
    the redirect leads to the listener's address; the request is answered 200
    and received; an upstream error or a missing code ends the command with a
    [CliError]; and a code that was sealed is returned as it was sealed, and
    opens at the proxy to the upstream code. *)
Theorem callback_reaches_cli config key code st error description env port s s1 url s' :
  open_authorize key st s = (Ok env, s1) →
  env_ok (Authorize env) → (∀ c, code = Some c → str_ok c = true) →
  0 <= port → az_redirect_uri env = loopback_uri port →
  truthy (az_state env) = true → isascii (az_state env) = true →
  callback config key code (Some st) error description s = (Ok (Redirect url), s') →
  ∃ target received a, url = u "http://" ++ port_text port ++ target ∧
    do_GET None target = (Ok a, Some received) ∧ an_status a = 200 ∧
    let checked := check_redirect received (az_state env) (rstrip_slash (public_url config)) in
    match error with
    | Some _ => ∃ m, checked = Raise (CliError m)
    | None => ∃ c tok now, code = Some c ∧ (tok ≠ [] → checked = Ok tok) ∧
        ∀ s2 : state X, open_code key tok s2 = (Ok (code_envelope env c now), s2)
    end.
Proof.
  intros Ho Henv Hcode Hp Huri Hst Hascii H. rewrite (callback_run _ _ _ _ _ _ _ _ _ Ho) in H.
  cbv zeta in H.
  destruct error as [err|].
  - apply pair_eq in H as [H _].
    destruct (error_params_fields config env err description Hst) as (Hnd & Hs & Hi & _ & Hc).
    destruct (back_to_listener _ _ _ _ Hp Huri Hnd H) as (target & received & a & -> & Hg & H200 & Hr).
    exists target, received, a. split; [done|]. split; [done|]. split; [done|]. cbv zeta.
    pose proof (check_received config env received _ Hascii Hr Hi Hs) as H'. by rewrite Hc in H'.
  - destruct code as [c|]; [|by apply pair_eq in H as [? _]].
    unfold pack_code in H. apply run_bind_Ok in H as (tok & s2 & Hpk & H).
    assert (Hok : env_ok (Code (code_envelope env c (o_time (EvBind (az_correlation_id env) :: s1.2))))).
    { apply code_envelope_ok; [done|by apply Hcode|apply o_time_machine]. }
    rewrite pack_run in Hpk by done. apply pair_eq in Hpk as [Htok%Ok_inj <-].
    apply run_bind_Ok in H as ([] & s3 & _ & H). apply pair_eq in H as [H _].
    destruct (code_params_fields config env tok Hst) as (Hnd & Hs & Hi & He & Hc).
    destruct (back_to_listener _ _ _ _ Hp Huri Hnd H) as (target & received & a & -> & Hg & H200 & Hr).
    exists target, received, a. split; [done|]. split; [done|]. split; [done|]. cbv zeta.
    exists c, tok. eexists. split; [done|]. split.
    + pose proof (check_received config env received _ Hascii Hr Hi Hs) as H'. rewrite Hc in H'.
      by apply H'.
    + intros s4. subst tok. unfold open_code. io_run.
      rewrite open_token_none, decide_True by done. by rewrite code_of_read.
Qed.
End WayBack.

(** ** A whole run *)
Module CliExamples.
#[local] Existing Instance ToyFernet.fernet.
#[local] Existing Instance ToyFernet.fernet_laws.
#[local] Existing Instance AssertionExamples.toy_rsa.
#[local] Instance no_floats : FloatRepr := id.

Definition proxy_url : pystr := u "https://proxy.example".
Definition metadata : json := JObj [
  (u "issuer", JStr proxy_url);
  (u "authorization_endpoint", JStr (proxy_url ++ u "/authorize"));
  (u "token_endpoint", JStr (proxy_url ++ u "/token"));
  (u "registration_endpoint", JStr (proxy_url ++ u "/register"));
  (u "code_challenge_methods_supported", JArr [JStr (u "S256")])].
Definition created : json := JObj [
  (u "id", JStr (u "5")); (u "name", JStr (u "laptop")); (u "tenant", JStr (u "acme"));
  (u "resources", JArr [JStr (u "https://r0.example")]); (u "scopes", JArr []);
  (u "expires_at", JStr (u "2026-12-31T00:00:00+00:00")); (u "token", JStr (u "kpat_1"))].

(** A proxy that answers as it should. *)
Definition answers (r : http_request) : (pystr * pystr) + http_response :=
  inr match r with
      | Get _ _ => {| rsp_status := 200; rsp_json := Some metadata |}
      | PostForm _ _ _ _ =>
          {| rsp_status := 200; rsp_json := Some (JObj [(u "access_token", JStr (u "at"))]) |}
      | PostJson url _ _ =>
          {| rsp_status := 201;
             rsp_json := Some (if decide (url = proxy_url ++ u "/register")
                               then JObj [(u "client_id", JStr (u "cli"))] else created) |}
      | _ => {| rsp_status := 204; rsp_json := None |}
      end.
#[local] Instance world : Outside :=
  sample_world 1000 (λ _, GaiError) answers (λ _, inl (u "ConnectError", u "")).
#[local] Instance world_laws : OutsideLaws world := sample_world_laws _ _ _ _.

(** The state of the sign-in: the source of bytes is constant. *)
Definition nonce : pystr := b64url (replicate 32 7%N).
Definition came_back : list pystr :=
  [u "/favicon.ico"; u "/callback?code=c1&iss=https%3A%2F%2Fproxy.example%2F&state=" ++ nonce;
   u "/callback?code=c2&iss=https%3A%2F%2Fproxy.example&state=" ++ nonce].
#[local] Instance terminal : Terminal := {| t_port _ := 51004; t_redirects _ := came_back |}.

Definition args : Namespace := {|
  ns_resource := Some [u "https://r0.example/"]; ns_proxy := Some (u "https://proxy.example/");
  ns_login_scope := u "openid"; ns_timeout := u "300"; ns_no_browser := true |}.
Definition create_options : CreateNamespace := {|
  cn_common := args; cn_name := u "laptop"; cn_sets := []; cn_expires_in_days := None;
  cn_allow_long_lifetime := false; cn_organization := None |}.
Definition start : state unit := (tt, []).

Lemma no_browser_ok : browser_ok (X := unit) None.
Proof. done. Qed.

(** The first redirect is received; the favicon and the second are not. *)
Lemma serve_receives_once_witness :
  ∃ a1 a2 a3, serve None came_back = ([Ok a1; Ok a2; Ok a3],
      Some [(u "code", u "c1"); (u "iss", u "https://proxy.example/"); (u "state", nonce)]) ∧
    an_status a1 = 404 ∧ an_status a2 = 200 ∧ an_status a3 = 409 ∧
    length [Ok a1; Ok a2; Ok a3] = length came_back.
Proof.
  eexists _, _, _. split; [vm_compute; reflexivity|]. split; [reflexivity|]. split; [reflexivity|].
  split; [reflexivity|].
  refine (proj1 (serve_receives_once came_back _ (Some [(u "code", u "c1");
    (u "iss", u "https://proxy.example/"); (u "state", nonce)]) _)). vm_compute. reflexivity.
Defined.

Definition received : dict pystr :=
  [(u "code", u "c1"); (u "iss", u "https://proxy.example/"); (u "state", nonce)].

Lemma check_redirect_spec_witness :
  check_redirect received nonce proxy_url = Ok (u "c1") ∧
  dict_get_default received (u "state") [] = nonce.
Proof.
  assert (H : check_redirect received nonce proxy_url = Ok (u "c1")) by (vm_compute; reflexivity).
  split; [exact H|].
  refine (proj1 (proj1 (proj1 (check_redirect_spec received nonce proxy_url _) (u "c1")) H)).
  vm_compute. reflexivity.
Defined.

(** Another sign-in's redirect is refused; one with a state that is not ASCII
    escapes as the [TypeError] of the comparison. *)
Example foreign_redirects :
  check_redirect [(u "state", u "x")] nonce proxy_url =
    Raise (CliError (u "the sign-in came back with a foreign state; nothing was created")) ∧
  (∃ e, check_redirect (first_values (u "state=%C3%A9")) nonce proxy_url = Raise (TypeError e)).
Proof. split; [vm_compute; reflexivity|]. eexists. vm_compute. reflexivity. Qed.

Lemma endpoints_are_secure_witness :
  ∃ e s', read_endpoints (u "https://proxy.example/") start = (Ok e, s') ∧
    ep_token e = u "https://proxy.example/token" ∧ secure (ep_token e).
Proof.
  eexists _, _. split; [vm_compute; reflexivity|]. split; [reflexivity|].
  edestruct (endpoints_are_secure (u "https://proxy.example/") start) as ((_ & _ & H & _) & _);
    [vm_compute; reflexivity|]. exact H.
Defined.

Definition endpoints : Endpoints := {|
  ep_issuer := proxy_url; ep_authorization := proxy_url ++ u "/authorize";
  ep_token := proxy_url ++ u "/token"; ep_registration := proxy_url ++ u "/register" |}.

Lemma sign_in_spec_witness :
  ∃ s', sign_in endpoints (u "https://r0.example") (u "openid") (u "300") _print_only start =
      (Ok {| si_endpoints := endpoints; si_access_token := u "at" |}, s') ∧
    signed_in endpoints (u "https://r0.example") (u "openid") _print_only
      {| si_endpoints := endpoints; si_access_token := u "at" |} start s'.
Proof.
  eexists. split; [vm_compute; reflexivity|].
  eapply (sign_in_spec endpoints _ _ (u "300")); [apply print_only_keeps|].
  vm_compute. reflexivity.
Defined.

(** The events of a [pat-create] that goes right: what was printed. *)
Definition is_printed (e : event) : bool := match e with EvStdout _ => true | _ => false end.

Lemma create_prints_once_witness :
  ∃ s', create_main [] create_options None start = (Ok 0, s') ∧
    List.filter is_printed s'.2 = [EvStdout (u "kpat_1" ++ newline)] ∧
    created_and_printed [] create_options None start s'.
Proof.
  eexists. split; [vm_compute; reflexivity|]. split; [vm_compute; reflexivity|].
  edestruct (create_prints_once [] create_options None start (Ok 0)) as [[_ H]|[? _]];
    [apply no_browser_ok|vm_compute; reflexivity|exact H|discriminate].
Defined.

Lemma bearer_only_to_proxy_witness :
  ∃ r s' printed token t, command [] None (Revocation args (u "5")) start = (r, s') ∧
    s' = (tt, printed ++ EvHttp (Delete (u "https://proxy.example/pat/tokens/5")
                       [(u "Authorization", u "Bearer " ++ token)]) :: t) ∧
    Forall printing printed ∧ token = u "at".
Proof.
  destruct (bearer_only_to_proxy (X := unit) [] None (Revocation args (u "5")) no_browser_ok)
    as (afterwards & Hprints & H).
  destruct (command [] None (Revocation args (u "5")) start) as [r s'] eqn:E.
  destruct (H start r s' E) as [(e & t & printed & Hs & _)|(session & resources & t & form & Hs & _ & _ & _ & Ha)].
  { vm_compute in Hs. discriminate Hs. }
  destruct (Hprints (o_http (EvHttp (PostForm (ep_token (si_endpoints session)) form
    [(u "Accept", u "application/json")] None) :: t ++ start.2)
    (management_request (Revocation args (u "5")) (ep_issuer (si_endpoints session)) (si_access_token session) resources)))
    as (r2 & printed & Hp & Hrun).
  cbv zeta in Ha. rewrite Hrun in Ha. apply pair_eq in Ha as [_ ->].
  apply (f_equal (λ x, match x.1 with Ok (session, _) => Some session | _ => None end)) in Hs.
  cbn [fst] in Hs. vm_compute in Hs. injection Hs as <-.
  eexists r, _, printed, (u "at"), _. split; [reflexivity|]. split; [reflexivity|]. split; [exact Hp|reflexivity].
Defined.

(** The code branch of [/callback], for a listener on port 51004. *)
Lemma callback_reaches_cli_witness :
  ∃ url s' target received a,
    callback (O := silent_world 1000) CallbackExamples.config CallbackExamples.key
      (Some (u "upstream-code")) (Some (CallbackExamples.state_for (loopback_uri 51004))) None None
      start = (Ok (Redirect url), s') ∧
    url = u "http://127.0.0.1:51004" ++ target ∧ do_GET None target = (Ok a, Some received) ∧
    an_status a = 200.
Proof.
  edestruct (callback_reaches_cli (O := silent_world 1000) CallbackExamples.config
    CallbackExamples.key (Some (u "upstream-code")) (CallbackExamples.state_for (loopback_uri 51004))
    None None (CallbackExamples.env_for (loopback_uri 51004)) 51004 start)
    as (target & received & a & Hu & Hg & H200 & _); cycle 8.
  - eexists _, _, target, received, a. split; [vm_compute; reflexivity|].
    split; [exact Hu|]. split; [exact Hg|exact H200].
  - vm_compute. reflexivity.
  - apply json_okb_ok. vm_compute. reflexivity.
  - intros c E. injection E as <-. vm_compute. reflexivity.
  - lia.
  - reflexivity.
  - reflexivity.
  - vm_compute. reflexivity.
  - vm_compute. reflexivity.
Defined.

(** How the commands print. *)
Example printed_lines :
  _table [JObj [(u "id", JStr (u "5")); (u "name", JStr (u "laptop")); (u "tenant", JStr (u "acme"));
                (u "scopes", JArr [JStr (u "a"); JStr (u "b")]); (u "expires_at", JStr (u "2026"));
                (u "last_used_at", JNull)]] =
    Ok (u "ID  NAME    ORGANIZATION  SETS  EXPIRES  LAST USED  STATE " ++ newline
        ++ u "5   laptop  acme          a,b   2026     -          active") ∧
  describe [(u "name", JStr (u "laptop")); (u "id", JStr (u "5")); (u "tenant", JStr (u "acme"));
            (u "resources", JArr [JStr (u "https://r")])] =
    Ok (u "created personal access token 'laptop' (id 5) for organization acme: permission sets (none); resources https://r; expires None").
Proof. vm_compute. done. Qed.

(** An endpoint that is a number is neither used nor reported: it escapes. *)
Example number_for_an_endpoint :
  (∃ m, endpoints_of proxy_url [(u "authorization_endpoint", JInt 1)] = Raise (AttributeError m)) ∧
  endpoints_of proxy_url [] =
    Raise (CliError (u "the metadata of https://proxy.example lacks an endpoint: 'authorization_endpoint'")) ∧
  _require_secure (u "https://[") (u "the proxy URL") = Raise invalid_url ∧
  is_Ok (_require_secure (u "http://localhost:8080/") (u "the proxy URL")) = true ∧
  is_Ok (_require_secure (u "http://proxy.example") (u "the proxy URL")) = false.
Proof. split; [eexists; vm_compute; reflexivity|]. vm_compute. done. Qed.
End CliExamples.
