(* ===== verification/ArgParse.v ===== *)
(** * The module [argparse], as far as the command lines use it

    A parser is its table of option strings, at most one positional and its
    defaults; [parse_args] goes from the argument vector to the namespace, with
    abbreviated option strings, [--option=value], the separator [--] and values
    that start with a dash.  Of an error, of [--help] and of what they print only
    this much is modelled: the process exits ([SystemExit]) before anything else
    happens.  [float] and how a number prints are a parameter.

    [parse_joined], [parse_flag]: what one option does; [parse_spelling]: the two
    ways to write an option's value agree. *)

From S2P Require Import Prelude PyStr.

(** ** Parsers *)

Inductive value :=
  | VNone
  | VStr (s : pystr)
  | VList (l : list pystr)
  | VBool (b : bool)
  | VInt (z : Z)
  | VFloat (g : pystr).

(** What an action takes and does. *)
Inductive kind := Help | StoreTrue | Store | StoreInt | StoreFloat | Append.

Record Action := { a_dest : pystr; a_kind : kind; a_required : bool }.

Record Parser := {
  p_prog : pystr;
  p_options : dict Action;            (* _option_string_actions *)
  p_positional : option pystr;        (* the destination *)
  p_defaults : dict value
}.

#[export] Instance kind_eq_dec : EqDecision kind.
Proof. solve_decision. Defined.
#[export] Instance Action_eq_dec : EqDecision Action.
Proof. solve_decision. Defined.

Definition dash : N := 45%N.
Definition equals : N := 61%N.
Definition separator : pystr := u "--".

(** ** What an argument is *)

(** [^-\d+$|^-\d*\.\d+$]; [$] also matches before a last line break. *)
Fixpoint drop_last_newline (s : pystr) : pystr :=
  match s with
  | [] => []
  | [c] => if (c =? 10)%N then [] else [c]
  | c :: s' => c :: drop_last_newline s'
  end.
Definition is_decimal (c : N) : bool := match decimal_value c with Some _ => true | None => false end.
Definition all_digits (s : pystr) : bool := truthy s && forallb is_decimal s.
Definition negative_number_like (s : pystr) : bool :=
  match drop_last_newline s with
  | c :: body => (c =? dash)%N &&
      (all_digits body ||
       (let '(whole, dot, decimals) := partition 46 body in
        dot && forallb is_decimal whole && all_digits decimals))
  | [] => false
  end.

(** [_get_option_tuples]: the actions a prefix may stand for, each with its
    explicit argument. *)
Definition option_tuples (p : Parser) (arg : pystr) : list (Action * option pystr) :=
  if startswith arg separator then
    let '(prefix, sep, explicit) := partition equals arg in
    (λ o, (o.2, if sep : bool then Some explicit else None)) <$>
      List.filter (λ o, startswith o.1 prefix) (p_options p)
  else
    omap (λ o, if bool_decide (o.1 = take 2 arg) then Some (o.2, Some (drop 2 arg))
               else if startswith o.1 arg then Some (o.2, None) else None) (p_options p).

(** [_parse_optional]: a plain argument, an option that the parser does not
    have, or the actions that the argument may stand for. *)
Inductive arg_class :=
  | TArg
  | TUnknown
  | TOption (candidates : list (Action * option pystr)).

Definition _parse_optional (p : Parser) (arg : pystr) : arg_class :=
  match arg with
  | [] => TArg
  | c :: rest =>
      if negb (c =? dash)%N then TArg
      else match dict_get (p_options p) arg with
      | Some action => TOption [(action, None)]
      | None =>
          if negb (truthy rest) then TArg
          else
            let '(option_string, sep, explicit) := partition equals arg in
            match (if sep : bool then dict_get (p_options p) option_string else None) with
            | Some action => TOption [(action, Some explicit)]
            | None =>
                match option_tuples p arg with
                | [] => if negative_number_like arg then TArg
                        else if has_char 32 arg then TArg else TUnknown
                | candidates => TOption candidates
                end
            end
      end
  end.

(** ** Parsing *)

Definition exits : exn := SystemExit [].

Section Parse.
(** [float(s)], and how the number prints with [:g]. *)
Context (float : pystr → option pystr).

(** [_get_values] and the action of an option with one argument. *)
Definition take_action (a : Action) (arg : pystr) (ns : dict value) : res (dict value) :=
  match a_kind a with
  | Store => Ok (dict_set ns (a_dest a) (VStr arg))
  | StoreInt =>
      try_except (z ← py_int arg; Ok (dict_set ns (a_dest a) (VInt z))) is_ValueError (λ _, Raise exits)
  | StoreFloat =>
      match float arg with
      | Some g => Ok (dict_set ns (a_dest a) (VFloat g))
      | None => Raise exits
      end
  | Append =>
      let items := match dict_get ns (a_dest a) with Some (VList l) => l | _ => [] end in
      Ok (dict_set ns (a_dest a) (VList (items ++ [arg])))
  | StoreTrue | Help => Raise exits
  end.

Record progress := {
  g_namespace : dict value;
  g_seen : list pystr;
  g_positional : option pystr         (* still to come *)
}.

Definition took (a : Action) (ns : dict value) (g : progress) : progress :=
  {| g_namespace := ns; g_seen := a_dest a :: g_seen g; g_positional := g_positional g |}.
Definition took_positional (d arg : pystr) (g : progress) : progress :=
  {| g_namespace := dict_set (g_namespace g) d (VStr arg); g_seen := g_seen g; g_positional := None |}.

(** The positional, a single argument; what else is left over is an error. *)
Definition consume_positional (arg : pystr) (g : progress) : res progress :=
  match g_positional g with
  | Some d => Ok (took_positional d arg g)
  | None => Raise exits
  end.

Definition consume_value (a : Action) (arg : pystr) (g : progress) : res progress :=
  ns ← take_action a arg (g_namespace g);
  Ok (took a ns g).

(** [consume_optional] and [consume_positionals], along the vector.  After
    [--] everything is an argument; a separator right behind the positional is
    taken with it. *)
Fixpoint consume (p : Parser) (args : list pystr) (g : progress) {struct args} : res progress :=
  match args with
  | [] => Ok g
  | arg :: rest =>
      if bool_decide (arg = separator) then
        match rest with [x] => consume_positional x g | _ => Raise exits end
      else match _parse_optional p arg with
      | TUnknown => Raise exits
      | TArg =>
          g' ← consume_positional arg g;
          match rest with
          | [x] => if bool_decide (x = separator) then Ok g' else consume p rest g'
          | _ => consume p rest g'
          end
      | TOption [(a, explicit)] =>
          match a_kind a, explicit with
          | Help, _ => Raise exits
          | StoreTrue, Some _ => Raise exits
          | StoreTrue, None => consume p rest (took a (dict_set (g_namespace g) (a_dest a) (VBool true)) g)
          | _, Some arg => g' ← consume_value a arg g; consume p rest g'
          | _, None =>
              match rest with
              | arg :: rest' =>
                  if bool_decide (arg = separator) then Raise exits
                  else match _parse_optional p arg with
                  | TArg => g' ← consume_value a arg g; consume p rest' g'
                  | _ => Raise exits
                  end
              | [] => Raise exits
              end
          end
      | TOption _ => Raise exits
      end
  end.

Definition missing (p : Parser) (g : progress) : bool :=
  match g_positional g with
  | Some _ => true
  | None => existsb (λ o, a_required o.2 && negb (bool_decide (a_dest o.2 ∈ g_seen g))) (p_options p)
  end.

Definition parse_args (p : Parser) (argv : list pystr) : res (dict value) :=
  g ← consume p argv {| g_namespace := p_defaults p; g_seen := []; g_positional := p_positional p |};
  if missing p g then Raise exits else Ok (g_namespace g).
End Parse.

(** ** Options in any spelling *)

(** Option strings start with a dash and hold no equals sign; the separator is
    not one of them. *)
Definition parser_wf (p : Parser) : bool :=
  forallb (λ o, startswith o.1 [dash] && negb (has_char equals o.1) && negb (bool_decide (o.1 = separator)))
    (p_options p).

Definition takes_value (a : Action) : bool :=
  match a_kind a with Help | StoreTrue => false | _ => true end.

(** [--option=value] *)
Definition joined (o v : pystr) : pystr := o ++ equals :: v.

Section ParseLemmas.
Context (float : pystr → option pystr) (p : Parser) (Hwf : parser_wf p = true).
Implicit Types (g : progress) (a : Action) (o v : pystr).

Lemma option_shape o a :
  dict_get (p_options p) o = Some a → ∃ r, o = dash :: r ∧ equals ∉ o ∧ o ≠ separator.
Proof using Hwf.
  intros H%dict_get_Some_elem%list_elem_of_In. unfold parser_wf in Hwf. rewrite forallb_forall in Hwf.
  specialize (Hwf _ H). bool_hyps. cbn [fst] in *.
  match goal with H : startswith _ _ = true |- _ => apply startswith_spec in H as [r ->] end.
  exists r. split; [done|]. split; [by apply has_char_false|done].
Qed.

Lemma parse_exact o a : dict_get (p_options p) o = Some a → _parse_optional p o = TOption [(a, None)].
Proof using Hwf.
  intros H. destruct (option_shape _ _ H) as (r & -> & _). unfold _parse_optional.
  change (dash =? dash)%N with true. cbn [negb]. by rewrite H.
Qed.

Lemma joined_not_option o v : dict_get (p_options p) (joined o v) = None.
Proof using Hwf.
  destruct (dict_get _ _) as [a|] eqn:E; [|done]. destruct (option_shape _ _ E) as (_ & _ & H & _).
  exfalso. apply H. unfold joined. apply elem_of_app. right. left.
Qed.

Lemma parse_joined o a v :
  dict_get (p_options p) o = Some a → _parse_optional p (joined o v) = TOption [(a, Some v)].
Proof using Hwf.
  intros H. pose proof (joined_not_option o v) as Hn.
  destruct (option_shape _ _ H) as (r & Ho & Heq & _).
  unfold _parse_optional, joined in *. rewrite partition_app by done. rewrite H, Ho in *.
  cbn [app]. change (dash =? dash)%N with true. cbn [negb]. cbn [app] in Hn. rewrite Hn.
  destruct r; reflexivity.
Qed.

Lemma joined_not_separator o v : joined o v ≠ separator.
Proof. intros H. assert (equals ∈ separator) as Hs
    by (rewrite <-H; unfold joined; apply elem_of_app; right; left).
  by apply (bool_decide_unpack (_ ∉ _)) in Hs. Qed.

(** An option that takes a value, in one argument. *)
Lemma consume_joined o a v rest g :
  dict_get (p_options p) o = Some a → takes_value a = true →
  consume float p (joined o v :: rest) g = (g' ← consume_value float a v g; consume float p rest g').
Proof using Hwf.
  intros H Ht. cbn [consume]. rewrite bool_decide_false by apply joined_not_separator.
  rewrite (parse_joined _ _ _ H). unfold takes_value in Ht. by destruct (a_kind a).
Qed.

(** A switch. *)
Lemma consume_switch o a rest g :
  dict_get (p_options p) o = Some a → a_kind a = StoreTrue →
  consume float p (o :: rest) g
  = consume float p rest (took a (dict_set (g_namespace g) (a_dest a) (VBool true)) g).
Proof using Hwf.
  intros H Hk. cbn [consume]. destruct (option_shape _ _ H) as (_ & _ & _ & Hs).
  rewrite bool_decide_false by done. by rewrite (parse_exact _ _ H), Hk.
Qed.

(** What may stand behind an option as its value. *)
Definition plain (v : pystr) : Prop := v ≠ separator ∧ _parse_optional p v = TArg.

Lemma plain_no_dash v : head v ≠ Some dash → plain v.
Proof.
  intros H. split; [by intros ->|]. destruct v as [|c v]; [done|]. unfold _parse_optional.
  destruct (N.eqb_spec c dash) as [->|]; [done|reflexivity].
Qed.

Lemma consume_separate o a v rest g :
  dict_get (p_options p) o = Some a → takes_value a = true → plain v →
  consume float p (o :: v :: rest) g = consume float p (joined o v :: rest) g.
Proof using Hwf.
  intros H Ht [Hs Hv]. rewrite (consume_joined _ _ _ _ _ H Ht). cbn [consume].
  destruct (option_shape _ _ H) as (_ & _ & _ & Ho). rewrite !bool_decide_false by done.
  rewrite (parse_exact _ _ H), Hv. unfold takes_value in Ht. by destruct (a_kind a).
Qed.
(** The two spellings agree wherever the option stands. *)
Lemma consume_spelling o a v pre post g :
  dict_get (p_options p) o = Some a → takes_value a = true → plain v → separator ∉ pre →
  consume float p (pre ++ o :: v :: post) g = consume float p (pre ++ joined o v :: post) g.
Proof using Hwf.
  intros H Ht Hv. pose proof (consume_separate o a v) as Hsep. pose proof (parse_exact _ _ H) as Hpo.
  pose proof (parse_joined _ _ v H) as Hpj. pose proof (joined_not_separator o v) as Hj.
  destruct (option_shape _ _ H) as (_ & _ & _ & Ho).
  remember (length pre) as n eqn:Hn. revert pre g Hn.
  induction n as [n IH] using lt_wf_ind. intros pre g -> Hpre.
  destruct pre as [|x pre]; [by apply Hsep|].
  apply not_elem_of_cons in Hpre as [Hx Hpre]. cbn [app consume]. rewrite !bool_decide_false by done.
  assert (Hrec : ∀ g', consume float p (pre ++ o :: v :: post) g' = consume float p (pre ++ joined o v :: post) g').
  { intros g'. eapply IH; [|reflexivity|exact Hpre]. simpl. lia. }
  destruct (_parse_optional p x) as [| |[|[b [e|]] [|]]]; try done.
  - destruct (consume_positional x g) as [g'|]; [|done]. cbn [mbind res_bind].
    destruct pre as [|y [|z pre]]; cbn [app] in *.
    + destruct post; rewrite ?bool_decide_false by done; apply Hrec.
    + apply not_elem_of_cons in Hpre as [Hy _]. apply Hrec.
    + apply Hrec.
  - destruct (a_kind b); try done; destruct (consume_value float b e g) as [g'|]; try done; apply Hrec.
  - destruct pre as [|y pre]; cbn [app] in *.
    + rewrite !bool_decide_false by done. rewrite Hpo, Hpj. destruct (a_kind b); first [done|apply Hrec].
    + apply not_elem_of_cons in Hpre as [Hy Hpre]. rewrite !bool_decide_false by done.
      assert (Hrec' : ∀ g', consume float p (pre ++ o :: v :: post) g' = consume float p (pre ++ joined o v :: post) g').
      { intros g'. eapply IH; [|reflexivity|exact Hpre]. simpl. lia. }
      destruct (a_kind b); try done; try apply Hrec; destruct (_parse_optional p y); try done;
        destruct (consume_value float b y g) as [g'|]; try done; apply Hrec'.
Qed.
End ParseLemmas.

(** ** Groups of options *)

(** What repeating an appending option leaves; an option given or not. *)
Definition items (ns : dict value) (d : pystr) : list pystr :=
  match dict_get ns d with Some (VList l) => l | _ => [] end.
Definition append_all (d : pystr) (vs : list pystr) (ns : dict value) : dict value :=
  match vs with [] => ns | _ => dict_set ns d (VList (items ns d ++ vs)) end.
Definition set_opt (d : pystr) (v : option value) (ns : dict value) : dict value :=
  match v with Some v => dict_set ns d v | None => ns end.

Lemma dict_set_twice {A} (d : dict A) k v w : dict_set (dict_set d k v) k w = dict_set d k w.
Proof.
  induction d as [|[k' v'] d IH]; cbn [dict_set]; [by rewrite decide_True|].
  destruct (decide (k = k')) as [->|Hk]; cbn [dict_set]; [by rewrite decide_True|].
  by rewrite decide_False, IH.
Qed.

Lemma items_set ns d l : items (dict_set ns d (VList l)) d = l.
Proof. unfold items. by rewrite dict_get_set_eq. Qed.

Lemma get_append_all d vs ns k :
  dict_get (append_all d vs ns) k =
  if decide (k = d) then match vs with [] => dict_get ns d | _ => Some (VList (items ns d ++ vs)) end
  else dict_get ns k.
Proof.
  unfold append_all. case_decide; subst; destruct vs; try done; [apply dict_get_set_eq|].
  by apply dict_get_set_ne.
Qed.

Lemma get_set_opt d v ns k :
  dict_get (set_opt d v ns) k = if decide (k = d) then (match v with Some v => Some v | None => dict_get ns d end)
                                else dict_get ns k.
Proof.
  unfold set_opt. case_decide; subst; destruct v; try done; [apply dict_get_set_eq|].
  by apply dict_get_set_ne.
Qed.

Section Groups.
Context (float : pystr → option pystr) (p : Parser) (Hwf : parser_wf p = true).
Implicit Types (g : progress).

Definition with_ns (seen : list pystr) (ns : dict value) (g : progress) : progress :=
  {| g_namespace := ns; g_seen := seen; g_positional := g_positional g |}.

(** A vector that is read as a step on the namespace, whatever follows it. *)
Definition reads (args : list pystr) (f : dict value → dict value) (ds : list pystr) : Prop :=
  ∀ rest g, ∃ seen, g_seen g ⊆ seen ∧ ds ⊆ seen ∧
    consume float p (args ++ rest) g = consume float p rest (with_ns seen (f (g_namespace g)) g).

Lemma reads_app args args' f f' ds ds' :
  reads args f ds → reads args' f' ds' → reads (args ++ args') (λ ns, f' (f ns)) (ds ++ ds').
Proof using Type.
  clear Hwf. intros H H' rest g. destruct (H (args' ++ rest) g) as (seen & Hs & Hd & E).
  destruct (H' rest (with_ns seen (f (g_namespace g)) g)) as (seen' & Hs' & Hd' & E').
  exists seen'. cbn [with_ns g_seen] in Hs'. split; [set_solver|]. split; [set_solver|].
  rewrite <-app_assoc, E, E'. reflexivity.
Qed.

Lemma reads_nil : reads [] (λ ns, ns) [].
Proof using Type. clear Hwf. intros rest g. exists (g_seen g). split; [done|]. split; [set_solver|]. by destruct g. Qed.

Lemma reads_value o a v w :
  dict_get (p_options p) o = Some a → takes_value a = true →
  (∀ ns, take_action float a v ns = Ok (dict_set ns (a_dest a) w)) →
  reads [joined o v] (λ ns, dict_set ns (a_dest a) w) [a_dest a].
Proof using Hwf.
  intros H Ht Hv rest g. exists (a_dest a :: g_seen g). split; [set_solver|]. split; [set_solver|].
  cbn [app]. rewrite (consume_joined float p Hwf o a v rest g H Ht). unfold consume_value. by rewrite Hv.
Qed.

Lemma reads_opt o a (v : option pystr) (w : pystr → value) :
  dict_get (p_options p) o = Some a → takes_value a = true →
  (∀ x ns, v = Some x → take_action float a x ns = Ok (dict_set ns (a_dest a) (w x))) →
  reads (from_option (λ x, [joined o x]) [] v) (set_opt (a_dest a) (w <$> v)) [].
Proof using Hwf.
  intros H Ht Hv. destruct v as [x|]; [|apply reads_nil]. intros rest g.
  destruct (reads_value o a x (w x) H Ht (λ ns, Hv x ns eq_refl) rest g) as (seen & Hs & _ & E).
  exists seen. split; [done|]. split; [set_solver|]. exact E.
Qed.

Lemma reads_all o a (vs : list pystr) :
  dict_get (p_options p) o = Some a → a_kind a = Append →
  reads (joined o <$> vs) (append_all (a_dest a) vs) [].
Proof using Hwf.
  intros H Hk. assert (Ht : takes_value a = true) by (unfold takes_value; by rewrite Hk).
  induction vs as [|v vs IH]; [apply reads_nil|]. intros rest g. cbn [fmap list_fmap app].
  rewrite (consume_joined float p Hwf o a v _ g H Ht). unfold consume_value, take_action. rewrite Hk.
  cbn [mbind res_bind]. fold (items (g_namespace g) (a_dest a)).
  destruct (IH rest (took a (dict_set (g_namespace g) (a_dest a) (VList (items (g_namespace g) (a_dest a) ++ [v]))) g))
    as (seen & Hs & _ & E).
  exists seen. split; [cbn in Hs; set_solver|]. split; [set_solver|]. rewrite E. f_equal.
  unfold with_ns, took, append_all. cbn [g_namespace g_positional]. f_equal.
  destruct vs as [|v' vs]; [done|]. rewrite items_set, dict_set_twice.
  by rewrite <-app_assoc.
Qed.

Lemma reads_switch o a (b : bool) :
  dict_get (p_options p) o = Some a → a_kind a = StoreTrue →
  reads (if b then [o] else []) (set_opt (a_dest a) (if b then Some (VBool true) else None)) [].
Proof using Hwf.
  intros H Hk. destruct b; [|apply reads_nil]. intros rest g. exists (a_dest a :: g_seen g).
  split; [set_solver|]. split; [set_solver|]. cbn [app].
  by rewrite (consume_switch float p Hwf o a rest g H Hk).
Qed.

(** A vector read to its end. *)
Lemma parse_reads args f ds :
  reads args f ds → p_positional p = None →
  existsb (λ o, a_required o.2 && negb (bool_decide (a_dest o.2 ∈ ds))) (p_options p) = false →
  parse_args float p args = Ok (f (p_defaults p)).
Proof using Type.
  clear Hwf. intros H Hpos Hreq. unfold parse_args. rewrite <-(app_nil_r args).
  destruct (H [] {| g_namespace := p_defaults p; g_seen := []; g_positional := p_positional p |}) as (seen & _ & Hd & ->).
  cbn [consume mbind res_bind]. unfold missing, with_ns. cbn [g_positional g_seen g_namespace]. rewrite Hpos.
  replace (existsb _ (p_options p)) with false; [done|]. symmetry. apply not_true_iff_false.
  intros (o & Hin & Ho)%existsb_exists. apply not_true_iff_false in Hreq. apply Hreq, existsb_exists.
  exists o. split; [done|]. bool_hyps. rewrite H0. cbn [andb]. apply negb_true_iff, bool_decide_false. set_solver.
Qed.
End Groups.
