(* ===== verification/CliArgs.v ===== *)
(** * From the argument vector to the command ([pat_cli.py], command lines)

    The parsers of [pat-create], [pat-list] and [pat-revoke], the namespaces they
    yield and the console scripts that start from [sys.argv].

    [create_line_roundtrip]: every set of options can be written on a command
    line, whatever characters its values have, and is read back from it;
    [revoke_line_roundtrip]: so is every token id. *)

From S2P Require Import Prelude PyStr Json World Errors ArgParse Cli.

Definition DEFAULT_TIMEOUT_SECONDS : Z := 300.

Definition action (dest : string) (kind : kind) : Action :=
  {| a_dest := u dest; a_kind := kind; a_required := false |}.

(** ** The parsers *)

Definition _common (environ : dict pystr) (prog : string) : Parser := {|
  p_prog := u prog;
  p_options :=
    [(u "-h", action "help" Help); (u "--help", action "help" Help);
     (u "--resource", action "resource" Append);
     (u "--proxy", action "proxy" Store);
     (u "--login-scope", action "login_scope" Store);
     (u "--timeout", action "timeout" StoreFloat);
     (u "--no-browser", action "no_browser" StoreTrue)];
  p_positional := None;
  p_defaults :=
    [(u "resource", VNone);
     (u "proxy", from_option VStr VNone (default_proxy environ));
     (u "login_scope", VStr DEFAULT_LOGIN_SCOPE);
     (u "timeout", VInt DEFAULT_TIMEOUT_SECONDS);
     (u "no_browser", VBool false)]
|}.

Definition _create_parser (environ : dict pystr) : Parser :=
  let parser := _common environ "pat-create" in {|
  p_prog := p_prog parser;
  p_options := p_options parser ++
    [(u "--name", {| a_dest := u "name"; a_kind := Store; a_required := true |});
     (u "--set", action "sets" Append);
     (u "--expires-in-days", action "expires_in_days" StoreInt);
     (u "--allow-long-lifetime", action "allow_long_lifetime" StoreTrue);
     (u "--organization", action "organization" Store)];
  p_positional := None;
  p_defaults := p_defaults parser ++
    [(u "name", VNone); (u "sets", VList []); (u "expires_in_days", VNone);
     (u "allow_long_lifetime", VBool false); (u "organization", VNone)]
|}.

Definition _list_parser (environ : dict pystr) : Parser := _common environ "pat-list".

Definition _revoke_parser (environ : dict pystr) : Parser :=
  let parser := _common environ "pat-revoke" in {|
  p_prog := p_prog parser;
  p_options := p_options parser;
  p_positional := Some (u "id");
  p_defaults := p_defaults parser ++ [(u "id", VNone)]
|}.

(** ** Reading a namespace: [args.name] *)

Definition attr_str (ns : dict value) (d : string) : option pystr :=
  match dict_get ns (u d) with Some (VStr s) => Some s | _ => None end.
Definition attr_list (ns : dict value) (d : string) : option (list pystr) :=
  match dict_get ns (u d) with Some (VList l) => Some l | _ => None end.
Definition attr_bool (ns : dict value) (d : string) : bool :=
  match dict_get ns (u d) with Some (VBool b) => b | _ => false end.
Definition attr_int (ns : dict value) (d : string) : option Z :=
  match dict_get ns (u d) with Some (VInt z) => Some z | _ => None end.
(** A number of seconds, as it prints with [:g]. *)
Definition attr_seconds (ns : dict value) (d : string) : pystr :=
  match dict_get ns (u d) with Some (VFloat g) => g | Some (VInt z) => str_of_Z z | _ => [] end.

Definition namespace (ns : dict value) : Namespace := {|
  ns_resource := attr_list ns "resource";
  ns_proxy := attr_str ns "proxy";
  ns_login_scope := default [] (attr_str ns "login_scope");
  ns_timeout := attr_seconds ns "timeout";
  ns_no_browser := attr_bool ns "no_browser"
|}.
Definition create_namespace (ns : dict value) : CreateNamespace := {|
  cn_common := namespace ns;
  cn_name := default [] (attr_str ns "name");
  cn_sets := default [] (attr_list ns "sets");
  cn_expires_in_days := attr_int ns "expires_in_days";
  cn_allow_long_lifetime := attr_bool ns "allow_long_lifetime";
  cn_organization := attr_str ns "organization"
|}.

Section Scripts.
Context (float : pystr → option pystr).

Definition create_args (environ : dict pystr) (argv : list pystr) : res CreateNamespace :=
  create_namespace <$> parse_args float (_create_parser environ) argv.
Definition list_args (environ : dict pystr) (argv : list pystr) : res Namespace :=
  namespace <$> parse_args float (_list_parser environ) argv.
Definition revoke_args (environ : dict pystr) (argv : list pystr) : res (Namespace * pystr) :=
  (λ ns, (namespace ns, default [] (attr_str ns "id"))) <$> parse_args float (_revoke_parser environ) argv.

(** ** The console scripts: the exit code, or [SystemExit] of the parser *)
Context `{O : Outside, T : Terminal, FR : FloatRepr} {X : Type}.

(** [create_main(argv)] with the parser in front, on the real browser; the
    same for the others. *)
Definition run_create (environ : dict pystr) (argv : list pystr) : io X Z :=
  args ← lift (create_args environ argv); create_main environ args None.
Definition run_list (environ : dict pystr) (argv : list pystr) : io X Z :=
  args ← lift (list_args environ argv); list_main environ args None.
Definition run_revoke (environ : dict pystr) (argv : list pystr) : io X Z :=
  '(args, id) ← lift (revoke_args environ argv); revoke_main environ args id None.

(** [python -m cimd_proxy.pat_cli create|list|revoke]; the list is [sys.argv]. *)
Definition pat_cli (environ : dict pystr) (argv : list pystr) : io X Z :=
  let usage := raise (SystemExit (u "usage: " ++ default [] (head argv) ++ u " create|list|revoke [options]")) in
  match argv with
  | _ :: command :: rest =>
      if bool_decide (command = u "create") then run_create environ rest
      else if bool_decide (command = u "list") then run_list environ rest
      else if bool_decide (command = u "revoke") then run_revoke environ rest
      else usage
  | _ => usage
  end.
End Scripts.

(** ** Writing a command line *)

(** The options as arguments [--option=value]; [t] is the text of the timeout. *)
Definition common_line (t : pystr) (args : Namespace) : list pystr :=
  (joined (u "--resource") <$> default [] (ns_resource args))
  ++ from_option (λ x, [joined (u "--proxy") x]) [] (ns_proxy args)
  ++ [joined (u "--login-scope") (ns_login_scope args)]
  ++ [joined (u "--timeout") t]
  ++ (if ns_no_browser args then [u "--no-browser"] else []).

Definition create_line (t : pystr) (args : CreateNamespace) : list pystr :=
  common_line t (cn_common args)
  ++ [joined (u "--name") (cn_name args)]
  ++ (joined (u "--set") <$> cn_sets args)
  ++ from_option (λ x, [joined (u "--expires-in-days") x]) [] (str_of_Z <$> cn_expires_in_days args)
  ++ (if cn_allow_long_lifetime args then [u "--allow-long-lifetime"] else [])
  ++ from_option (λ x, [joined (u "--organization") x]) [] (cn_organization args).

(** What a command line can say of the common options, given the environment. *)
Definition sayable (environ : dict pystr) (args : Namespace) : Prop :=
  ns_resource args ≠ Some [] ∧ (ns_proxy args = None → default_proxy environ = None).

Definition common_effect (args : Namespace) (ns : dict value) : dict value :=
  set_opt (u "no_browser") (if ns_no_browser args then Some (VBool true) else None)
    (dict_set (dict_set (set_opt (u "proxy") (VStr <$> ns_proxy args)
      (append_all (u "resource") (default [] (ns_resource args)) ns))
      (u "login_scope") (VStr (ns_login_scope args))) (u "timeout") (VFloat (ns_timeout args))).

Definition create_effect (args : CreateNamespace) (ns : dict value) : dict value :=
  set_opt (u "organization") (VStr <$> cn_organization args)
    (set_opt (u "allow_long_lifetime") (if cn_allow_long_lifetime args then Some (VBool true) else None)
      (set_opt (u "expires_in_days") (VInt <$> cn_expires_in_days args)
        (append_all (u "sets") (cn_sets args)
          (dict_set (common_effect (cn_common args) ns) (u "name") (VStr (cn_name args)))))).

Section Lines.
Context (float : pystr → option pystr) (environ : dict pystr).

Lemma reads_common p t args :
  parser_wf p = true → (∃ more, p_options p = p_options (_common environ "pat-list") ++ more) →
  float t = Some (ns_timeout args) →
  ∃ ds, reads float p (common_line t args) (common_effect args) ds.
Proof.
  intros Hwf (more & Hp) Ht.
  assert (Hget : ∀ o a, dict_get (p_options (_common environ "pat-list")) o = Some a → dict_get (p_options p) o = Some a).
  { intros o a. rewrite Hp. generalize (p_options (_common environ "pat-list")). intros d. clear.
    induction d as [|[k b] d IH]; cbn [dict_get app]; [done|]. by case_decide. }
  eexists. unfold common_line, common_effect.
  eapply (reads_app float p _ _ (append_all _ _) (λ ns, set_opt _ _ (dict_set (dict_set (set_opt _ _ ns) _ _) _ _)));
    [apply (reads_all float p Hwf _ (action "resource" Append)); [by apply Hget|done]|].
  eapply (reads_app float p _ _ (set_opt _ _) (λ ns, set_opt _ _ (dict_set (dict_set ns _ _) _ _)));
    [apply (reads_opt float p Hwf _ (action "proxy" Store) _ VStr); [by apply Hget|done|done]|].
  eapply (reads_app float p _ _ (λ ns, dict_set ns _ _) (λ ns, set_opt _ _ (dict_set ns _ _)));
    [apply (reads_value float p Hwf _ (action "login_scope" Store)); [by apply Hget|done|done]|].
  eapply (reads_app float p _ _ (λ ns, dict_set ns _ _) (set_opt _ _));
    [apply (reads_value float p Hwf _ (action "timeout" StoreFloat)); [by apply Hget|done|]|].
  { intros ns. unfold take_action. cbn [a_kind action]. by rewrite Ht. }
  apply (reads_switch float p Hwf _ (action "no_browser" StoreTrue)); [by apply Hget|done].
Qed.
Lemma reads_create t args :
  float t = Some (ns_timeout (cn_common args)) → (∀ z, cn_expires_in_days args = Some z → short_int z) →
  ∃ ds, u "name" ∈ ds ∧ reads float (_create_parser environ) (create_line t args) (create_effect args) ds.
Proof.
  intros Ht Hz. set (p := _create_parser environ). assert (Hwf : parser_wf p = true) by reflexivity.
  destruct (reads_common p t (cn_common args) Hwf) as [ds Hds]; [by eexists|done|].
  eexists. split; cycle 1.
  { unfold create_line, create_effect.
    eapply (reads_app float p _ _ (common_effect _) (λ ns, set_opt _ _ (set_opt _ _ (set_opt _ _ (append_all _ _ (dict_set ns _ _))))));
      [exact Hds|].
    eapply (reads_app float p _ _ (λ ns, dict_set ns _ _) (λ ns, set_opt _ _ (set_opt _ _ (set_opt _ _ (append_all _ _ ns)))));
      [by apply (reads_value float p Hwf _ {| a_dest := u "name"; a_kind := Store; a_required := true |})|].
    eapply (reads_app float p _ _ (append_all _ _) (λ ns, set_opt _ _ (set_opt _ _ (set_opt _ _ ns))));
      [by apply (reads_all float p Hwf _ (action "sets" Append))|].
    eapply (reads_app float p _ _ (set_opt _ _) (λ ns, set_opt _ _ (set_opt _ _ ns)));
      [|eapply (reads_app float p _ _ (set_opt _ _) (set_opt _ _))].
    - replace (VInt <$> cn_expires_in_days args)
        with ((λ x, VInt (match py_int x with Ok z => z | _ => 0 end)) <$> (str_of_Z <$> cn_expires_in_days args)).
      + apply (reads_opt float p Hwf _ (action "expires_in_days" StoreInt)); [done|done|].
        intros x ns Hx. destruct (cn_expires_in_days args) as [z|] eqn:Ez; [|done]. injection Hx as <-.
        unfold take_action. cbn [a_kind action]. rewrite py_int_str by auto. reflexivity.
      + destruct (cn_expires_in_days args) as [z|] eqn:Ez; [|done]. cbn. by rewrite py_int_str by auto.
    - by apply (reads_switch float p Hwf _ (action "allow_long_lifetime" StoreTrue)).
    - by apply (reads_opt float p Hwf _ (action "organization" Store) _ VStr). }
  apply elem_of_app. right. apply elem_of_app. left. by left.
Qed.

(** Reading the common options back. *)
Lemma namespace_effect args ns :
  sayable environ args →
  (∀ k, k ∈ [u "resource"; u "proxy"; u "no_browser"] →
     dict_get ns k = dict_get (p_defaults (_common environ "pat-list")) k) →
  namespace (common_effect args ns) = args.
Proof.
  intros [Hr Hp] Hns. unfold namespace, attr_list, attr_str, attr_bool, attr_seconds, common_effect.
  repeat first [rewrite get_set_opt | rewrite get_append_all | rewrite dict_get_set_eq
    | rewrite dict_get_set_ne by discriminate
    | rewrite decide_True by reflexivity | rewrite decide_False by discriminate].
  unfold items. rewrite !Hns by set_solver.
  destruct args as [resource proxy login_scope timeout no_browser]; cbn in *.
  f_equal.
  - by destruct resource as [[|r rs]|].
  - destruct proxy as [x|]; cbn; [done|]. by rewrite Hp.
  - by destruct no_browser.
Qed.
Lemma defaults_common more k :
  k ∈ [u "resource"; u "proxy"; u "no_browser"] →
  dict_get (p_defaults (_common environ "pat-list") ++ more) k
  = dict_get (p_defaults (_common environ "pat-list")) k.
Proof. intros H. repeat (apply elem_of_cons in H as [->|H]; [reflexivity|]). by apply elem_of_nil in H. Qed.

Lemma create_namespace_effect args :
  sayable environ (cn_common args) →
  create_namespace (create_effect args (p_defaults (_create_parser environ))) = args.
Proof.
  intros Hs. unfold create_namespace, create_effect.
  set (ns := common_effect (cn_common args) (p_defaults (_create_parser environ))).
  assert (Hc : namespace (create_effect args (p_defaults (_create_parser environ))) = namespace ns).
  { unfold namespace, attr_list, attr_str, attr_bool, attr_seconds, create_effect. fold ns.
    repeat first [rewrite get_set_opt | rewrite get_append_all | rewrite dict_get_set_ne by discriminate
      | rewrite decide_False by discriminate]. reflexivity. }
  unfold create_effect in Hc. fold ns in Hc. rewrite Hc. unfold ns at 1.
  rewrite (namespace_effect _ _ Hs) by apply defaults_common.
  unfold attr_list, attr_str, attr_bool, attr_int.
  repeat first [rewrite get_set_opt | rewrite get_append_all | rewrite dict_get_set_eq
    | rewrite dict_get_set_ne by discriminate
    | rewrite decide_True by reflexivity | rewrite decide_False by discriminate].
  assert (Hd : ∀ k, k ∈ [u "sets"; u "expires_in_days"; u "allow_long_lifetime"; u "organization"] →
    dict_get ns k = dict_get (p_defaults (_create_parser environ)) k).
  { intros k Hk. unfold ns, common_effect.
    repeat (apply elem_of_cons in Hk as [->|Hk]; [|]); [..|by apply elem_of_nil in Hk];
    repeat first [rewrite get_set_opt | rewrite get_append_all | rewrite dict_get_set_ne by discriminate
      | rewrite decide_False by discriminate]; reflexivity. }
  unfold items. rewrite !dict_get_set_ne, !Hd by (discriminate || set_solver).
  destruct args as [common name sets expires long organization]; cbn. f_equal.
  - by destruct sets.
  - by destruct expires.
  - by destruct long.
  - by destruct organization.
Qed.

(** Whatever can be asked for can be written on the command line of
    [pat-create], and is read back from there: resources, proxy, name, permission
    sets and organization with any characters in them -- dashes in front, equals
    signs, spaces, nothing at all --, a lifetime of any number of days. *)
Theorem create_line_roundtrip t args :
  sayable environ (cn_common args) → float t = Some (ns_timeout (cn_common args)) →
  (∀ z, cn_expires_in_days args = Some z → short_int z) →
  create_args float environ (create_line t args) = Ok args.
Proof.
  intros Hs Ht Hz. destruct (reads_create t args Ht Hz) as (ds & Hname & Hds). unfold create_args.
  rewrite (parse_reads float (_create_parser environ) _ _ _ Hds).
  - cbn [fmap res_fmap]. by rewrite create_namespace_effect.
  - reflexivity.
  - apply not_true_iff_false. intros (o & Hin & Ho)%existsb_exists. apply list_elem_of_In in Hin.
    bool_hyps. repeat (apply elem_of_cons in Hin as [->|Hin]; [done|]). by apply elem_of_nil in Hin.
Qed.

(** Every token id can be named to [pat-revoke], also one that looks like
    an option: behind the separator [--] it is taken as it is, with the common
    options in front. *)
Theorem revoke_line_roundtrip t args id :
  sayable environ args → float t = Some (ns_timeout args) →
  revoke_args float environ (common_line t args ++ [separator; id]) = Ok (args, id).
Proof.
  intros Hs Ht. set (p := _revoke_parser environ). assert (Hwf : parser_wf p = true) by reflexivity.
  destruct (reads_common p t args Hwf) as [ds Hds]; [by exists []|done|].
  unfold revoke_args, parse_args. fold p.
  destruct (Hds [separator; id] {| g_namespace := p_defaults p; g_seen := []; g_positional := p_positional p |})
    as (seen & _ & _ & ->).
  cbn [consume]. rewrite bool_decide_true by done. unfold consume_positional.
  cbn [with_ns g_positional p_positional p _revoke_parser mbind res_bind].
  unfold missing. cbn [took_positional g_positional g_seen g_namespace fmap res_fmap].
  replace (existsb _ (p_options p)) with false by reflexivity. cbn [fmap res_fmap g_namespace]. f_equal. f_equal.
  - rewrite <-(namespace_effect args (p_defaults p)) at 2; [|done|apply defaults_common].
    unfold namespace, attr_list, attr_str, attr_bool, attr_seconds. by rewrite !dict_get_set_ne by discriminate.
  - unfold attr_str. by rewrite dict_get_set_eq.
Qed.
(** The two ways to give an option its value agree, wherever on the line it
    stands: [--option value] is [--option=value], when the value can be told from
    an option -- in particular when it does not start with a dash. *)
Theorem create_line_spelling o a v pre post :
  dict_get (p_options (_create_parser environ)) o = Some a → takes_value a = true →
  plain (_create_parser environ) v → separator ∉ pre →
  create_args float environ (pre ++ o :: v :: post) = create_args float environ (pre ++ joined o v :: post).
Proof.
  intros Ho Ha Hv Hpre. unfold create_args, parse_args.
  by rewrite (consume_spelling float (_create_parser environ) eq_refl o a v pre post _ Ho Ha Hv Hpre).
Qed.
End Lines.

Module CliArgsExamples.

Definition environ : dict pystr := [(ENV_PROXY, u "https://proxy.example")].
(** Whole seconds only. *)
Definition seconds (s : pystr) : option pystr :=
  match py_int s with Ok z => Some (str_of_Z z) | Raise _ => None end.

Definition sample : CreateNamespace := {|
  cn_common := {| ns_resource := Some [u "https://mcp.example/x"; u "--set"]; ns_proxy := Some [];
                  ns_login_scope := u "openid profile"; ns_timeout := u "60"; ns_no_browser := true |};
  cn_name := u "-h"; cn_sets := [u "a=b"; []]; cn_expires_in_days := Some (-5);
  cn_allow_long_lifetime := false; cn_organization := Some (u "--") |}.

Lemma create_line_roundtrip_witness :
  create_args seconds environ (create_line (u "60") sample) = Ok sample.
Proof.
  apply (create_line_roundtrip seconds environ (u "60") sample).
  - split; discriminate.
  - reflexivity.
  - intros z [= <-]. reflexivity.
Defined.

Lemma revoke_line_roundtrip_witness :
  revoke_args seconds environ (common_line (u "60") (cn_common sample) ++ [separator; u "--help"])
  = Ok (cn_common sample, u "--help").
Proof.
  apply (revoke_line_roundtrip seconds environ (u "60") (cn_common sample)).
  - split; discriminate.
  - reflexivity.
Defined.

Lemma create_line_spelling_witness :
  create_args seconds environ [u "--no-browser"; u "--name"; u "agent"]
  = create_args seconds environ [u "--no-browser"; u "--name=agent"].
Proof.
  apply (create_line_spelling seconds environ (u "--name")
           {| a_dest := u "name"; a_kind := Store; a_required := true |} (u "agent") [u "--no-browser"] []).
  - reflexivity.
  - reflexivity.
  - by apply plain_no_dash.
  - by apply (bool_decide_unpack (_ ∉ _)).
Defined.

(** Abbreviations, ambiguity, arguments that look like options or numbers, the
    separator. *)
Example lines_read :
  (λ argv, is_Ok (create_args seconds environ (u <$> argv))) <$>
    [["--name"; "x"]; ["--nam=x"]; ["--n=x"]; ["--name=x"; "--re"; "y"]; ["--name"; "-5"]; ["--name"; "-x"];
     ["--name"; "-x y"]; ["--name"; "-h x"]; []; ["--name=x"; "y"]; ["--name=x"; "--"]; ["--name=x"; "--no-browser=1"];
     ["--name=x"; "--expires-in-days"; "soon"]; ["--name=x"; "-h"]]%string
  = [true; true; false; true; true; false; true; false; false; false; false; false; false; false].
Proof. vm_compute. reflexivity. Qed.

Example ids_read :
  (λ argv, match revoke_args seconds environ (u <$> argv) with Ok (_, id) => Some id | Raise _ => None end) <$>
    [["a"]; ["a"; "--"]; ["--"; "-a"]; ["--"; "--"]; ["a"; "b"]; ["a"; "--no-browser"; "--"]; []; [""];
     ["--no-browser"; "a"]; ["-"]]%string
  = [Some (u "a"); Some (u "a"); Some (u "-a"); Some (u "--"); None; None; None; Some []; Some (u "a"); Some (u "-")].
Proof. vm_compute. reflexivity. Qed.
End CliArgsExamples.
