(* ===== verification/RedRuns.v ===== *)
(** * The red runs ([measurements/pat-red-runs/red_runs.py])

    The script that removes one guard at a time from the sources, runs the test
    of that guard and restores the source.  Its mutations are here as the script
    has them.  The state is the working tree, a map from paths to bytes; what
    [pytest] does -- to its output and to the tree -- is a parameter.

    [run_restores]: however a run ends, the mutated file has its bytes back, and
    the test saw the tree with exactly one place of one file changed.
    [main_verdict]: exit code 0 means that every mutation of the list was applied
    and its test went red. *)

From S2P Require Import Prelude PyStr Codec Text Json World Errors.

(** ** The mutations *)

(** A literal, with the backtick for the double quote; and lines of a file. *)
Definition q (s : string) : pystr := (λ c, if (c =? 96)%N then dquote else c) <$> u s.
Definition lines (l : list pystr) : pystr := l ≫= λ s, s ++ newline.

Record Mutation := {
  mu_name : pystr;
  mu_path : pystr;
  mu_old : pystr;
  mu_new : pystr;
  mu_test : pystr
}.

Definition PAT : pystr := u "src/cimd_proxy/pat.py".
Definition STORE : pystr := u "src/cimd_proxy/pat_store.py".
Definition MIGRATION : pystr := u "src/cimd_proxy/migrations/V1__personal_access_token.sql".
Definition ENTRYPOINT : pystr := u "docker/migrations-entrypoint.sh".
Definition RP8 : pystr := u "tests/red_probes/test_rp8_personal_access_tokens.py".
Definition DB : pystr := u "tests/integration/test_pat_store_db.py".
Definition IMG : pystr := u "tests/integration/test_migrations_image.py".
Definition KC : pystr := u "tests/integration/test_pat_keycloak.py".
Definition ORG_GUARD : pystr := lines [u "    if not caller.organizations:";
    u "        raise ManagementError(";
    u "            403,";
    q "            `organization_required`,";
    q "            `a personal access token is bound to an organization, and the owner belongs to none`,";
    u "        )"].
Definition ORG_FALLBACK : pystr := lines [q "    return caller.organizations[0] if caller.organizations else ``"].
Definition ORG_RETURN : pystr := lines [u "    return caller.organizations[0]"].
Definition MULTI_ORG : pystr := lines [u "    if len(caller.organizations) > 1:";
    u "        raise ManagementError(";
    u "            400,";
    q "            `invalid_request`,";
    q "            `the owner belongs to several organizations; name one in 'organization'`,";
    u "        )"].

Definition UNIT : list Mutation := [
  {| mu_name := u "revoked"; mu_path := PAT;
     mu_old := lines [u "        if record.revoked_at is not None:";
    q "            raise InvalidGrant(`the personal access token is revoked`)"];
     mu_new := [];
     mu_test := RP8 ++ u "::TestRP8RevokedAndExpired::test_guarded_refuses_revoked" |};
  {| mu_name := u "expired"; mu_path := PAT;
     mu_old := lines [u "        if record.expires_at <= now:";
    q "            raise InvalidGrant(`the personal access token is expired`)"];
     mu_new := [];
     mu_test := RP8 ++ u "::TestRP8RevokedAndExpired::test_guarded_refuses_expired" |};
  {| mu_name := u "checksum"; mu_path := PAT;
     mu_old := lines [u "        if not is_well_formed(subject_token):";
    q "            raise InvalidGrant(`subject_token is not a valid personal access token`)";
    []] ++ u "        record";
     mu_new := u "        record";
     mu_test := RP8 ++ u "::TestRP8ChecksumWithoutDatabase::test_guarded_refuses_bad_checksum_unasked" |};
  {| mu_name := u "resource"; mu_path := PAT;
     mu_old := u "        if entry is None or entry.url not in record.resources:";
     mu_new := u "        if entry is None:";
     mu_test := RP8 ++ u "::TestRP8ResourceBinding::test_guarded_token_for_x_gets_nothing_for_y" |};
  {| mu_name := u "tenant"; mu_path := PAT;
     mu_old := q "    return ` `.join([*scopes, f`organization:{tenant}`])";
     mu_new := q "    return ` `.join(scopes)";
     mu_test := RP8 ++ u "::TestRP8Tenant::test_guarded_tenant_token_requests_only_its_organization" |};
  {| mu_name := u "org-create"; mu_path := PAT;
     mu_old := ORG_GUARD ++ MULTI_ORG ++ ORG_RETURN;
     mu_new := MULTI_ORG ++ ORG_FALLBACK;
     mu_test := RP8 ++ u "::TestRP8Tenant::test_guarded_owner_without_an_organization_gets_no_token" |};
  {| mu_name := u "org-exch"; mu_path := PAT;
     mu_old := lines [u "        if not record.tenant:";
    q "            raise InvalidGrant(`the personal access token is not bound to an organization`)"];
     mu_new := [];
     mu_test := RP8 ++ u "::TestRP8Tenant::test_guarded_row_without_an_organization_is_never_exchanged" |};
  {| mu_name := u "realm"; mu_path := PAT;
     mu_old := lines [u "        if record.realm_issuer != self._pat.realm_issuer:";
    q "            raise InvalidGrant(`the personal access token belongs to another realm`)"];
     mu_new := [];
     mu_test := RP8 ++ u "::TestRP8Tenant::test_guarded_row_of_another_realm_is_refused" |};
  {| mu_name := u "refresh"; mu_path := PAT;
     mu_old := q "        dropped = payload.pop(`refresh_token`, None) is not None";
     mu_new := u "        dropped = False";
     mu_test := RP8 ++ u "::TestRP8NoRefreshToken::test_guarded_refresh_token_never_reaches_the_agent" |};
  {| mu_name := u "set"; mu_path := PAT;
     mu_old := lines [u "        if missing:"] ++ u "            raise ManagementError(";
     mu_new := lines [u "        if False:"] ++ u "            raise ManagementError(";
     mu_test := RP8 ++ u "::TestRP8SetBeyondOwner::test_guarded_set_the_owner_cannot_carry_is_refused" |};
  {| mu_name := u "secret"; mu_path := PAT;
     mu_old := q "`tenant`: tenant})";
     mu_new := q "`tenant`: tenant, `value`: token})";
     mu_test := RP8 ++ u "::TestRP8SecretNowhere::test_guarded_token_value_is_in_no_row_log_or_error" |}].

Definition INTEGRATION : list Mutation := [
  {| mu_name := u "db-owner"; mu_path := STORE;
     mu_old := q "`AND owner_sub = %s AND revoked_at IS NULL`";
     mu_new := q "`AND (owner_sub = %s OR true) AND revoked_at IS NULL`";
     mu_test := DB ++ u "::test_list_and_revoke_are_bound_to_realm_and_owner" |};
  {| mu_name := u "db-grant"; mu_path := MIGRATION;
     mu_old := lines [u "GRANT UPDATE (last_used_at, revoked_at)"] ++ u "    ON ${flyway:defaultSchema}";
     mu_new := lines [u "GRANT UPDATE"] ++ u "    ON ${flyway:defaultSchema}";
     mu_test := DB ++ u "::test_application_role_holds_exactly_the_migration_grants" |};
  {| mu_name := u "db-tenant"; mu_path := MIGRATION;
     mu_old := u "    tenant        text        NOT NULL CHECK (tenant <> ''),";
     mu_new := u "    tenant        text        NOT NULL,";
     mu_test := DB ++ u "::test_a_row_without_an_organization_cannot_exist" |};
  {| mu_name := u "img-bypass"; mu_path := MIGRATION;
     mu_old := lines [u "    IF is_super OR is_bypass THEN";
    u "        RAISE EXCEPTION"] ++ u "            'the runtime role";
     mu_new := lines [u "    IF false THEN";
    u "        RAISE EXCEPTION"] ++ u "            'the runtime role";
     mu_test := IMG ++ u "::test_a_runtime_role_with_bypassrls_is_refused" |};
  {| mu_name := u "img-super"; mu_path := MIGRATION;
     mu_old := lines [u "    IF is_super OR is_bypass THEN";
    u "        RAISE EXCEPTION"] ++ u "            'the migrating role";
     mu_new := lines [u "    IF false THEN";
    u "        RAISE EXCEPTION"] ++ u "            'the migrating role";
     mu_test := IMG ++ u "::test_a_superuser_migrator_is_refused" |};
  {| mu_name := u "img-off"; mu_path := ENTRYPOINT;
     mu_old := q "if [ -z `$user` ] && [ -z `$password` ]; then";
     mu_new := u "if false; then";
     mu_test := IMG ++ u "::test_empty_credentials_exit_zero_and_create_nothing" |};
  {| mu_name := u "img-rerun"; mu_path := ENTRYPOINT;
     mu_old := q "exec flyway `$@`";
     mu_new := q "flyway -cleanDisabled=false clean && exec flyway `$@`";
     mu_test := IMG ++ u "::test_cold_start_creates_schema_table_and_role_and_a_rerun_changes_nothing" |};
  {| mu_name := u "behind"; mu_path := STORE;
     mu_old := u "        if current < latest_version():";
     mu_new := u "        if False:";
     mu_test := IMG ++ u "::test_the_proxy_does_not_start_against_an_unmigrated_schema" |};
  {| mu_name := u "kc-set"; mu_path := PAT;
     mu_old := u "            scope=_scope_param(record.scopes, record.tenant),";
     mu_new := u "            scope=_scope_param(self._pat.scopes, record.tenant),";
     mu_test := KC ++ u "::test_set_without_dispatch_executor_yields_no_such_role" |};
  {| mu_name := u "kc-trial"; mu_path := PAT;
     mu_old := lines [u "        if missing:"] ++ u "            raise ManagementError(";
     mu_new := lines [u "        if False:"] ++ u "            raise ManagementError(";
     mu_test := KC ++ u "::test_set_beyond_the_owner_cannot_be_created" |};
  {| mu_name := u "kc-sid"; mu_path := PAT;
     mu_old := q "        if not claims.get(`sid`):";
     mu_new := u "        if False:";
     mu_test := KC ++ u "::test_token_from_a_pat_cannot_manage_pats" |};
  {| mu_name := u "kc-tenant"; mu_path := PAT;
     mu_old := q "    return ` `.join([*scopes, f`organization:{tenant}`])";
     mu_new := q "    return ` `.join(scopes)";
     mu_test := KC ++ u "::test_tenant_a_never_yields_tenant_b" |};
  {| mu_name := u "kc-org"; mu_path := PAT;
     mu_old := ORG_GUARD ++ MULTI_ORG ++ ORG_RETURN;
     mu_new := MULTI_ORG ++ ORG_FALLBACK;
     mu_test := KC ++ u "::test_owner_without_an_organization_gets_no_token" |}].

(** ** A run *)

(** The working tree. *)
Abbreviation tree := (gmap pystr bytes).

Section Runs.
(** [pytest] on one test: it may change the tree, and it ends with a return code
    and an output, or [subprocess.run] raises. *)
Context (pytest : tree → pystr → res (Z * pystr) * tree).

Definition no_such_file (path : pystr) : exn := FileNotFoundError path.

Definition read_text (path : pystr) : io tree pystr := λ s,
  (match s.1 !! path with Some bs => read_bytes bs | None => Raise (no_such_file path) end, s).
Definition write_text (path text : pystr) : io tree unit := λ s,
  match encode_utf8 text with
  | Ok bs => (Ok tt, (<[path := bs]> s.1, s.2))
  | Raise e => (Raise e, (<[path := []]> s.1, s.2))
  end.
Definition subprocess_run (test : pystr) : io tree (Z * pystr) := λ s,
  let '(r, files) := pytest s.1 test in (r, (files, s.2)).
Definition print (text : pystr) : io tree unit := emit (EvStdout (text ++ newline)).

(** The first line of the report that starts with [E]. *)
Definition assertion_of (stdout : pystr) : pystr :=
  default [] (strip <$> head (List.filter (λ ln, startswith ln (u "E ")) (splitlines stdout))).
Definition is_red (returncode : Z) (stdout : pystr) : bool :=
  (returncode =? 1) && contains stdout (u " failed").
Definition verdict (returncode : Z) (stdout : pystr) : pystr :=
  if is_red returncode stdout then u "RED"
  else u "NOT RED (rc=" ++ str_of_Z returncode ++ u ")".

Definition run (mutation : Mutation) : io tree bool :=
  source ← read_text (mu_path mutation);
  if negb (count (mu_old mutation) source =? 1)%nat then
    _ ← print (ljust 10 (mu_name mutation)
               ++ u " CANNOT APPLY: the guarded line is not found exactly once");
    mret false
  else
    _ ← write_text (mu_path mutation) (replace (mu_old mutation) (mu_new mutation) source);
    (* try ... finally *)
    result ← try_io (subprocess_run (mu_test mutation)) (λ _, true)
               (λ e, _ ← write_text (mu_path mutation) source; raise e);
    _ ← write_text (mu_path mutation) source;
    let '(returncode, stdout) := result : Z * pystr in
    _ ← print (ljust 10 (mu_name mutation) ++ u " " ++ ljust 16 (verdict returncode stdout)
               ++ u " " ++ take 150 (assertion_of stdout));
    mret (is_red returncode stdout).

(** [[run(m) for m in mutations]]: all of them, whatever the verdicts. *)
Fixpoint run_all (mutations : list Mutation) : io tree (list bool) :=
  match mutations with
  | [] => mret []
  | m :: rest => red ← run m; reds ← run_all rest; mret (red :: reds)
  end.

Definition main (integration : bool) : io tree Z :=
  reds ← run_all (if integration then INTEGRATION else UNIT);
  mret (if forallb id reds then 0 else 1).

(** ** Lemmas *)

Lemma encode_Ok s bs : encode_utf8 s = Ok bs → forallb is_scalar s = true ∧ bs = s ≫= utf8_encode_char.
Proof. unfold encode_utf8. destruct (forallb is_scalar s); [|done]. by intros <-%Ok_inj. Qed.

Lemma encode_intro s : forallb is_scalar s = true → encode_utf8 s = Ok (s ≫= utf8_encode_char).
Proof. unfold encode_utf8. by intros ->. Qed.

(** A mutation that was applied: the one place that changed, and what the test
    made of it. *)
Definition changes_one (m : Mutation) (files : tree) (bs mutated : bytes) : Prop :=
  ∃ a b, let source := a ++ mu_old m ++ b in
    count (mu_old m) source = 1%nat ∧ replace (mu_old m) (mu_new m) source = a ++ mu_new m ++ b ∧
    encode_utf8 source = Ok bs ∧ encode_utf8 (a ++ mu_new m ++ b) = Ok mutated ∧
    files !! mu_path m = Some bs.

Lemma run_run m s r s' bs :
  run m s = (r, s') → s.1 !! mu_path m = Some bs → (13%N : N) ∉ bs →
  mu_old m ≠ [] → forallb is_scalar (mu_new m) = true →
  s'.1 = s.1 ∧ r ≠ Ok true ∧ (∀ source, read_bytes bs = Ok source → count (mu_old m) source ≠ 1%nat) ∨
  ∃ mutated o files, changes_one m s.1 bs mutated ∧
    pytest (<[mu_path m := mutated]> s.1) (mu_test m) = (o, files) ∧
    s'.1 = <[mu_path m := bs]> files ∧
    r = match o with Ok (rc, out) => Ok (is_red rc out) | Raise e => Raise e end.
Proof.
  intros H Hbs Hcr Hold Hnew. unfold run, read_text in H.
  apply run_bind_cases in H as [(e & H & ->)|(source & s1 & H1 & H)].
  { apply pair_eq in H as [H <-]. rewrite Hbs in H. left. split; [done|]. split; [done|].
    intros source E. by rewrite E in H. }
  apply pair_eq in H1 as [Hread <-]. rewrite Hbs in Hread.
  pose proof (text_roundtrip _ _ Hcr Hread) as Hsrc.
  destruct (Nat.eqb_spec (count (mu_old m) source) 1) as [Hc|Hc]; cbn [negb] in H.
  2: { revert H. unfold print. io_run. intros [<- <-]%pair_eq. left. split; [done|]. split; [done|].
       intros source' E. rewrite Hread in E. by apply Ok_inj in E as <-. }
  right. destruct (count_one (mu_old m) (mu_new m) source Hold Hc) as (a & b & -> & Hrep).
  rewrite Hrep in H. apply encode_Ok in Hsrc as [Hsc ->].
  rewrite !forallb_app in Hsc. apply andb_true_iff in Hsc as [Hsa [Hso Hsb]%andb_true_iff].
  assert (Hmut : encode_utf8 (a ++ mu_new m ++ b) = Ok ((a ++ mu_new m ++ b) ≫= utf8_encode_char)).
  { apply encode_intro. by rewrite !forallb_app, Hsa, Hnew, Hsb. }
  assert (Hback : encode_utf8 (a ++ mu_old m ++ b) = Ok ((a ++ mu_old m ++ b) ≫= utf8_encode_char)).
  { apply encode_intro. by rewrite !forallb_app, Hsa, Hso, Hsb. }
  revert H. unfold write_text, subprocess_run, print. rewrite Hmut, Hback. io_run.
  destruct (pytest _ (mu_test m)) as [o files] eqn:Ep. io_run.
  set (mutated := (a ++ mu_new m ++ b) ≫= utf8_encode_char) in *.
  assert (Ha : changes_one m s.1 ((a ++ mu_old m ++ b) ≫= utf8_encode_char) mutated) by by exists a, b; split_and!.
  destruct o as [[rc out]|e]; intros [<- <-]%pair_eq; by eexists mutated, _, files.
Qed.

(** A run leaves the source as it was.  For a file that is UTF-8 without
    carriage returns, however the run ends -- with a verdict, or with an exception
    of the test run --, afterwards the mutated file has its bytes back.  Either
    the mutation did not apply: the tree is untouched and the verdict is not red.
    Or the test saw the tree with exactly one place of that one file changed, and
    the run ends as the test did: red exactly for return code 1 with a failure
    reported. *)
Theorem run_restores m s r s' bs :
  run m s = (r, s') → s.1 !! mu_path m = Some bs → (13%N : N) ∉ bs →
  mu_old m ≠ [] → forallb is_scalar (mu_new m) = true →
  s'.1 !! mu_path m = Some bs ∧
  (s'.1 = s.1 ∧ r ≠ Ok true ∧ (∀ source, read_bytes bs = Ok source → count (mu_old m) source ≠ 1%nat) ∨
   ∃ mutated o files, changes_one m s.1 bs mutated ∧
     pytest (<[mu_path m := mutated]> s.1) (mu_test m) = (o, files) ∧
     s'.1 = <[mu_path m := bs]> files ∧
     r = match o with Ok (rc, out) => Ok (is_red rc out) | Raise e => Raise e end).
Proof.
  intros H Hbs Hcr Hold Hnew. pose proof (run_run _ _ _ _ _ H Hbs Hcr Hold Hnew) as Hr.
  split; [|exact Hr]. destruct Hr as [(-> & _)|(? & ? & ? & _ & _ & -> & _)]; [done|].
  apply lookup_insert_eq.
Qed.

(** *** The whole list *)

Lemma changes_one_fun m files bs mutated bs' mutated' :
  changes_one m files bs mutated → changes_one m files bs' mutated' → bs' = bs ∧ mutated' = mutated.
Proof.
  intros (a & b & _ & Hr & He & Hm & Hf) (a' & b' & _ & Hr' & He' & Hm' & Hf').
  rewrite Hf in Hf'. injection Hf' as <-. split; [done|].
  apply decode_encode_utf8 in He, He'. rewrite He in He'. apply Ok_inj in He'.
  rewrite He' in Hr. rewrite Hr in Hr'. rewrite <-Hr', Hm in Hm'. by apply Ok_inj in Hm'.
Qed.

(** Every mutation of the script takes something out, and puts plain text in. *)
Lemma mutations_check (integration : bool) m :
  m ∈ (if integration then INTEGRATION else UNIT) → mu_old m ≠ [] ∧ forallb is_scalar (mu_new m) = true.
Proof.
  assert (H : forallb (λ m, truthy (mu_old m) && forallb is_scalar (mu_new m)) (UNIT ++ INTEGRATION) = true)
    by (vm_compute; reflexivity).
  rewrite forallb_app, andb_true_iff in H. destruct H as [H1 H2]. rewrite forallb_forall in H1, H2.
  intros Hm%list_elem_of_In. assert (Hb : truthy (mu_old m) && forallb is_scalar (mu_new m) = true)
    by (destruct integration; auto).
  apply andb_true_iff in Hb as [Ht Hs]. split; [|exact Hs]. intros E. rewrite E in Ht. discriminate Ht.
Qed.

(** What a list of mutations needs of the tree. *)
Definition runnable (files : tree) (m : Mutation) : Prop :=
  mu_old m ≠ [] ∧ forallb is_scalar (mu_new m) = true ∧
  ∃ bs, files !! mu_path m = Some bs ∧ (13%N : N) ∉ bs.

(** Applied, and its test went red. *)
Definition went_red (files : tree) (m : Mutation) : Prop :=
  ∃ bs mutated rc out, changes_one m files bs mutated ∧
    (pytest (<[mu_path m := mutated]> files) (mu_test m)).1 = Ok (rc, out) ∧ is_red rc out = true.

Context (Hpytest : ∀ files test, (pytest files test).2 = files).

Lemma run_quiet m s r s' :
  run m s = (r, s') → runnable s.1 m → s'.1 = s.1 ∧ (r = Ok true ↔ went_red s.1 m).
Proof using Hpytest.
  intros H (Hold & Hnew & bs & Hbs & Hcr).
  destruct (run_run _ _ _ _ _ H Hbs Hcr Hold Hnew) as [(E & Hr & Hno)|(mutated & o & files & Ha & Ep & E & ->)].
  - split; [done|]. split; [done|]. intros (bs' & mutated & rc & out & (a & b & Hc & _ & He & _ & Hf) & _).
    exfalso. rewrite Hbs in Hf. injection Hf as <-. by apply (Hno _ (read_encoded _ _ He Hcr)).
  - pose proof (Hpytest (<[mu_path m := mutated]> s.1) (mu_test m)) as Hf. rewrite Ep in Hf. cbn [snd] in Hf.
    subst files. split; [rewrite E, insert_insert_eq; by apply insert_id|]. split.
    + destruct o as [[rc out]|e]; [|done]. intros Hred%Ok_inj. exists bs, mutated, rc, out. by rewrite Ep.
    + intros (bs' & mutated' & rc & out & Ha' & Ep' & Hred).
      destruct (changes_one_fun _ _ _ _ _ _ Ha Ha') as [-> ->]. rewrite Ep in Ep'. cbn [fst] in Ep'. subst o.
      by rewrite Hred.
Qed.

Lemma run_all_quiet ms s r s' :
  run_all ms s = (r, s') → Forall (runnable s.1) ms →
  s'.1 = s.1 ∧ ∀ reds, r = Ok reds → forallb id reds = true ↔ Forall (went_red s.1) ms.
Proof using Hpytest.
  revert s r s'. induction ms as [|m ms IH]; intros s r s' H Hms; cbn [run_all] in H.
  { apply pair_eq in H as [<- <-]. split; [done|]. by intros reds <-%Ok_inj. }
  apply Forall_cons in Hms as [Hm Hms].
  apply run_bind_cases in H as [(e & H & ->)|(red & s1 & H1 & H)].
  { by apply run_quiet in H as [-> _]. }
  apply run_quiet in H1 as [E1 Hr]; [|done]. rewrite <-E1 in Hms.
  apply run_bind_cases in H as [(e & H & ->)|(reds & s2 & H2 & H)].
  { apply IH in H as [-> _]; [|done]. by split. }
  apply IH in H2 as [E2 Hrs]; [|done]. apply pair_eq in H as [<- <-]. split; [congruence|].
  intros reds' <-%Ok_inj. cbn [forallb id]. rewrite andb_true_iff, Forall_cons.
  rewrite (Hrs reds eq_refl), E1. rewrite <-Hr. unfold id. clear. destruct red; split; intros [? ?]; try discriminate; by split.
Qed.

(** What the exit code says.  When the tests leave the tree as they find it
    and every file the chosen list names is there, UTF-8 and without carriage
    returns: the script leaves the tree as it was, and if it ends, its exit code
    is 0 or 1, and it is 0 exactly if every mutation of the list applied and its
    test went red -- none is skipped because another one failed. *)
Theorem main_verdict (integration : bool) s r s' :
  let mutations := if integration then INTEGRATION else UNIT in
  Forall (λ m, ∃ bs, s.1 !! mu_path m = Some bs ∧ (13%N : N) ∉ bs) mutations →
  main integration s = (r, s') →
  s'.1 = s.1 ∧ ∀ code, r = Ok code →
    (code = 0 ∨ code = 1) ∧ (code = 0 ↔ Forall (went_red s.1) mutations).
Proof using Hpytest.
  intros mutations Hms H.
  assert (Hrun : Forall (runnable s.1) mutations).
  { apply Forall_forall. intros m Hm. rewrite Forall_forall in Hms. split; [|split; [|by apply Hms]];
      destruct (mutations_check integration m Hm) as [Ho Hs]; [exact Ho|exact Hs]. }
  unfold main in H. apply run_bind_cases in H as [(e & H & ->)|(reds & s1 & H1 & H)].
  { apply run_all_quiet in H as [-> _]; [|done]. by split. }
  apply run_all_quiet in H1 as [E Hr]; [|done]. apply pair_eq in H as [<- <-]. split; [done|].
  intros code <-%Ok_inj. specialize (Hr reds eq_refl).
  destruct (forallb id reds); split; try (by auto); split; intros; try done; [by apply Hr|].
  exfalso. by apply Hr in H.
Qed.
End Runs.

(** ** Examples *)
Module RedRunsExamples.

(** A test that notices any change of the file. *)
Definition guarded (original : bytes) : tree → pystr → res (Z * pystr) * tree := λ files _,
  (if decide (files !! PAT = Some original) then Ok (0, u "1 passed")
   else Ok (1, lines [u "E   AssertionError: "; u "1 failed in 0.1s"]), files).

(** The sentence of [pat.py] that mutation [tenant] changes. *)
Definition scope_line : bytes := u "def f():" ++ newline ++ q "    return ` `.join([*scopes, f`organization:{tenant}`])".
Definition files : tree := {[ PAT := scope_line ]}.
Definition tenant : Mutation := {|
  mu_name := u "tenant"; mu_path := PAT;
  mu_old := q "    return ` `.join([*scopes, f`organization:{tenant}`])";
  mu_new := q "    return ` `.join(scopes)";
  mu_test := RP8 ++ u "::TestRP8Tenant::test_guarded_tenant_token_requests_only_its_organization" |}.

Example tenant_listed : nth_error UNIT 4 = Some tenant.
Proof. reflexivity. Qed.

Example tenant_red : (run (guarded scope_line) tenant (files, [])).1 = Ok true.
Proof. vm_compute. reflexivity. Qed.

Example unit_not_red : (main (guarded scope_line) false (files, [])).1 = Ok 1.
Proof. vm_compute. reflexivity. Qed.

Lemma no_return : (13%N : N) ∉ scope_line.
Proof. apply (bool_decide_unpack _). vm_compute. exact I. Qed.

Lemma run_restores_witness :
  ∃ s', run (guarded scope_line) tenant (files, []) = (Ok true, s') ∧
    s'.1 !! mu_path tenant = Some scope_line ∧
    ∃ mutated, changes_one tenant files scope_line mutated ∧
      guarded scope_line (<[mu_path tenant := mutated]> files) (mu_test tenant) ≠ guarded scope_line files (mu_test tenant).
Proof.
  destruct (run (guarded scope_line) tenant (files, [])) as [r s'] eqn:E.
  assert (Hr : r = Ok true) by (change r with (r, s').1; rewrite <-E; exact tenant_red).
  destruct (run_restores _ tenant _ r s' scope_line E) as [Hs Hcases];
    [reflexivity|exact no_return|discriminate|reflexivity|].
  exists s'. split; [by rewrite Hr|]. split; [exact Hs|].
  destruct Hcases as [(_ & Hn & _)|(mutated & o & fs & Ha & Hp & _ & Ho)]; [by destruct Hn|].
  exists mutated. split; [exact Ha|]. intros Heq. cbn [fst] in Hp. rewrite Hp in Heq.
  assert (Ho' : o = (guarded scope_line files (mu_test tenant)).1) by (by rewrite <-Heq).
  rewrite Ho, Ho' in Hr. vm_compute in Hr. discriminate Hr.
Defined.

(** Only the mutated file is needed for a list that names one file. *)
Lemma main_verdict_witness :
  ∃ s', main (guarded scope_line) false (files, []) = (Ok 1, s') ∧ s'.1 = files ∧
    ¬ Forall (went_red (guarded scope_line) files) UNIT.
Proof.
  destruct (main (guarded scope_line) false (files, [])) as [r s'] eqn:E.
  assert (Hr : r = Ok 1) by (change r with (r, s').1; rewrite <-E; exact unit_not_red).
  destruct (main_verdict (guarded scope_line) (λ _ _, eq_refl) false (files, []) r s') as [Hs Hc]; [|exact E|].
  - unfold UNIT. repeat (apply Forall_cons_2; [exists scope_line; split; [reflexivity|exact no_return]|]). apply Forall_nil_2.
  - exists s'. split; [by rewrite Hr|]. split; [exact Hs|].
    destruct (Hc 1 Hr) as [_ [_ Hred]]. intros H. by specialize (Hred H).
Defined.

(** The guard of [pat.py] that the mutations [set] and [kc-trial] remove stands
    two blocks deeper by now, so both find nothing to change. *)
Definition missing_guard : pystr := lines [
  u "                missing = [s for s in request.scopes if s not in granted]";
  u "                if missing:";
  u "                    raise ManagementError(";
  u "                        403,"].

Example stale_mutations :
  (λ m, (mu_name m, count (mu_old m) missing_guard)) <$>
    List.filter (λ m, contains (mu_old m) (u "missing")) (UNIT ++ INTEGRATION)
  = [(u "set", 0%nat); (u "kc-trial", 0%nat)].
Proof. vm_compute. reflexivity. Qed.
End RedRunsExamples.
