(* ===== verification/Jwt.v ===== *)
(** * Reading a JWT: [base64.urlsafe_b64decode] and [json.loads] on bytes

    The lenient decoder of the standard library -- it skips what is not in the
    alphabet and stops at a complete padding -- and the detection of the encoding
    of a JSON text.

    [b64decode_b64url]: padded as the script does it, the decoder is the inverse
    of the encoder.  [loads_bytes_ascii]: an ASCII text is read as itself. *)

From S2P Require Import Prelude PyStr Codec Json.

Local Open Scope N_scope.

(** ** base64 *)

(** The value of a character, in the standard or in the URL-safe alphabet. *)
Definition b64_value (c : N) : option N :=
  if between 65 c 90 then Some (c - 65)
  else if between 97 c 122 then Some (c - 71)
  else if between 48 c 57 then Some (c + 4)
  else if (c =? 43) || (c =? 45) then Some 62
  else if (c =? 47) || (c =? 95) then Some 63
  else None.

Definition binascii_error (m : pystr) : exn := ValueError m.

(** [binascii.a2b_base64]: [quad] characters of the current four were read, [left]
    are the bits that are left of them, [pads] the padding so far. *)
Fixpoint a2b (quad left pads : N) (s : pystr) : res bytes :=
  match s with
  | [] =>
      if quad =? 0 then Ok []
      else if quad =? 1 then Raise (binascii_error (u "Invalid base64-encoded string"))
      else Raise (binascii_error (u "Incorrect padding"))
  | c :: s' =>
      if c =? 61 then
        if 2 <=? quad then
          if 4 <=? quad + (pads + 1) then Ok [] else a2b quad left (pads + 1) s'
        else a2b quad left pads s'
      else
        match b64_value c with
        | None => a2b quad left pads s'
        | Some v =>
            if quad =? 0 then a2b 1 v 0 s'
            else if quad =? 1 then cons (left * 4 + v / 16) <$> a2b 2 (v mod 16) 0 s'
            else if quad =? 2 then cons (left * 16 + v / 4) <$> a2b 3 (v mod 4) 0 s'
            else cons (left * 64 + v) <$> a2b 0 0 0 s'
        end
  end.

(** [base64.urlsafe_b64decode(s)] of a [str]. *)
Definition urlsafe_b64decode (s : pystr) : res bytes :=
  if isascii s then a2b 0 0 0 s
  else Raise (ValueError (u "string argument should contain only ASCII characters")).

(** [s + "=" * (-len(s) % 4)] *)
Definition padded (s : pystr) : pystr := s ++ replicate ((4 - length s mod 4) mod 4) 61.

(** ** The encoding of a JSON text *)

(** Strict UTF-8 but for lone surrogates, which pass ([surrogatepass]). *)
Fixpoint utf8_pass (bs : bytes) : option pystr :=
  match bs with
  | [] => Some []
  | b0 :: r0 =>
      if b0 <? 0x80 then cons b0 <$> utf8_pass r0
      else if between 0xC2 b0 0xDF then
        match r0 with
        | b1 :: r1 =>
            if is_cont b1 then cons ((b0 - 0xC0) * 64 + (b1 - 0x80)) <$> utf8_pass r1 else None
        | [] => None
        end
      else if between 0xE0 b0 0xEF then
        match r0 with
        | b1 :: b2 :: r2 =>
            let c := (b0 - 0xE0) * 4096 + (b1 - 0x80) * 64 + (b2 - 0x80) in
            if is_cont b1 && is_cont b2 && (0x800 <=? c) then cons c <$> utf8_pass r2 else None
        | _ => None
        end
      else if between 0xF0 b0 0xF4 then
        match r0 with
        | b1 :: b2 :: b3 :: r3 =>
            let c := (b0 - 0xF0) * 262144 + (b1 - 0x80) * 4096 + (b2 - 0x80) * 64 + (b3 - 0x80) in
            if is_cont b1 && is_cont b2 && is_cont b3 && (0x10000 <=? c) && (c <=? 0x10FFFF)
            then cons c <$> utf8_pass r3 else None
        | _ => None
        end
      else None
  end.

Fixpoint words16 (little : bool) (bs : bytes) : option (list N) :=
  match bs with
  | [] => Some []
  | a :: b :: bs' => cons (if little then b * 256 + a else a * 256 + b) <$> words16 little bs'
  | [_] => None
  end.
(** Pairs of surrogates are one character; a lone one passes. *)
Fixpoint join_words (ws : list N) : pystr :=
  match ws with
  | h :: ((l :: ws'') as ws') =>
      if is_high h && is_low l then join_surrogates h l :: join_words ws'' else h :: join_words ws'
  | _ => ws
  end.
Definition utf16_pass (little : bool) (bs : bytes) : option pystr := join_words <$> words16 little bs.

Fixpoint utf32_pass (little : bool) (bs : bytes) : option pystr :=
  match bs with
  | [] => Some []
  | a :: b :: c :: d :: bs' =>
      let n := from_bytes_be (if little then [d; c; b; a] else [a; b; c; d]) in
      if n <=? 0x10FFFF then cons n <$> utf32_pass little bs' else None
  | _ => None
  end.

(** [json.detect_encoding], and the codec it names. *)
Inductive encoding := Utf8 | Utf8Sig | Utf16Bom | Utf16 (little : bool) | Utf32Bom | Utf32 (little : bool).

Definition detect_encoding (b : bytes) : encoding :=
  if startswith b [0; 0; 0xFE; 0xFF] || startswith b [0xFF; 0xFE; 0; 0] then Utf32Bom
  else if startswith b [0xFE; 0xFF] || startswith b [0xFF; 0xFE] then Utf16Bom
  else if startswith b [0xEF; 0xBB; 0xBF] then Utf8Sig
  else match b with
  | b0 :: b1 :: b2 :: b3 :: _ =>
      if b0 =? 0 then if b1 =? 0 then Utf32 false else Utf16 false
      else if b1 =? 0 then if (b2 =? 0) && (b3 =? 0) then Utf32 true else Utf16 true
      else Utf8
  | [b0; b1] => if b0 =? 0 then Utf16 false else if b1 =? 0 then Utf16 true else Utf8
  | _ => Utf8
  end.

Definition decode_as (e : encoding) (b : bytes) : option pystr :=
  match e with
  | Utf8 => utf8_pass b
  | Utf8Sig => utf8_pass (drop 3 b)
  | Utf16Bom => utf16_pass (startswith b [0xFF; 0xFE]) (drop 2 b)
  | Utf16 little => utf16_pass little b
  | Utf32Bom => utf32_pass (startswith b [0xFF; 0xFE]) (drop 4 b)
  | Utf32 little => utf32_pass little b
  end.

(** [json.loads(b)]. *)
Definition loads_bytes (b : bytes) : res json :=
  match decode_as (detect_encoding b) b with
  | Some s => loads s
  | None => Raise (UnicodeError (u "codec can't decode bytes"))
  end.

(** ** The decoder is the inverse of the encoder *)

Lemma b64_value_char i : i < 64 → b64_value (b64_char i) = Some i.
Proof.
  intros Hi. assert (H : forallb (λ i, bool_decide (b64_value (b64_char i) = Some i)) (N.of_nat <$> seq 0 64) = true)
    by (vm_compute; reflexivity).
  rewrite forallb_forall in H. by apply (bool_decide_eq_true_1 _), (H i), elem_of_range.
Qed.

Lemma b64_char_not_pad i : i < 64 → (b64_char i =? 61) = false.
Proof.
  intros Hi. apply N.eqb_neq. intros E. pose proof (b64_value_char i Hi) as H. rewrite E in H. discriminate H.
Qed.

(** One character of the alphabet. *)
Lemma a2b_char quad left pads i s :
  i < 64 →
  a2b quad left pads (b64_char i :: s) =
  if quad =? 0 then a2b 1 i 0 s
  else if quad =? 1 then cons (left * 4 + i / 16) <$> a2b 2 (i mod 16) 0 s
  else if quad =? 2 then cons (left * 16 + i / 4) <$> a2b 3 (i mod 4) 0 s
  else cons (left * 64 + i) <$> a2b 0 0 0 s.
Proof. intros Hi. cbn [a2b]. by rewrite b64_char_not_pad, b64_value_char. Qed.

Lemma padded_four a b c d s : padded (a :: b :: c :: d :: s) = a :: b :: c :: d :: padded s.
Proof.
  unfold padded. cbn [app length]. do 4 f_equal. f_equal. f_equal. 
  replace (S (S (S (S (length s))))) with (length s + 1 * 4)%nat by lia. by rewrite Nat.Div0.mod_add.
Qed.

Lemma a2b_b64url bs : bytes_ok bs → a2b 0 0 0 (padded (b64url bs)) = Ok bs.
Proof.
  unfold bytes_ok. induction bs as [|a|a b|a b c l IH] using list_ind3;
    rewrite ?Forall_cons; intros H; destruct_and?; cbn [b64url]; [done|..].
  - change (padded [?x; ?y]) with [x; y; 61; 61].
    rewrite a2b_char by byte_bound. cbn [N.eqb]. rewrite a2b_char by byte_bound. cbn [N.eqb Pos.eqb].
    change (a2b 2 _ 0 [61; 61]) with (Ok (A := bytes) []). unfold fmap, res_fmap. do 2 f_equal. byte_bound.
  - change (padded [?x; ?y; ?z]) with [x; y; z; 61].
    do 3 (rewrite a2b_char by byte_bound; cbn [N.eqb Pos.eqb]).
    change (a2b 3 _ 0 [61]) with (Ok (A := bytes) []). unfold fmap, res_fmap. do 2 f_equal; [|f_equal]; byte_bound.
  - rewrite padded_four. do 4 (rewrite a2b_char by byte_bound; cbn [N.eqb Pos.eqb]).
    rewrite IH by done. unfold fmap, res_fmap. do 2 f_equal; [|f_equal; [|f_equal]]; byte_bound.
Qed.

Lemma b64decode_b64url bs : bytes_ok bs → urlsafe_b64decode (padded (b64url bs)) = Ok bs.
Proof.
  intros Hb. unfold urlsafe_b64decode. assert (Ha : isascii (padded (b64url bs)) = true).
  { unfold padded. rewrite isascii_app, b64url_ascii by done. apply isascii_spec, Forall_replicate. done. }
  rewrite Ha. by apply a2b_b64url.
Qed.

(** ** ASCII texts *)

Lemma utf8_pass_ascii bs : isascii bs = true → utf8_pass bs = Some bs.
Proof.
  induction bs as [|b bs IH]; [done|]. cbn [isascii forallb utf8_pass].
  intros [-> H]%andb_true_iff. by rewrite IH.
Qed.

Lemma detect_ascii b : isascii b = true → 0 ∉ b → detect_encoding b = Utf8.
Proof.
  intros Ha H0. rewrite isascii_spec in Ha. unfold detect_encoding.
  assert (Hz : ∀ x, x ∈ b → (x =? 0) = false ∧ (0 =? x) = false ∧ (254 =? x) = false ∧ (255 =? x) = false ∧ (239 =? x) = false).
  { rewrite Forall_forall in Ha. intros x Hx. specialize (Ha x Hx).
    assert (x ≠ 0) by (by intros ->). split_and!; apply N.eqb_neq; lia. }
  destruct b as [|b0 [|b1 [|b2 [|b3 b]]]]; cbn [startswith]; [done|..];
    (destruct (Hz b0) as (E0 & -> & -> & -> & ->); [set_solver|]); [done|..];
    (destruct (Hz b1) as (E1 & _); [set_solver|]); cbn [andb orb]; by rewrite ?E0, ?E1.
Qed.

(** An ASCII text without NUL characters is read as itself. *)
Lemma loads_bytes_ascii b : isascii b = true → 0 ∉ b → loads_bytes b = loads b.
Proof.
  intros Ha H0. unfold loads_bytes. rewrite detect_ascii by done. cbn [decode_as].
  by rewrite utf8_pass_ascii.
Qed.

Example detect_utf16 : loads_bytes [0xFF; 0xFE; 34; 0; 0x34; 0xD8; 0x1E; 0xDD; 34; 0] = Ok (JStr [0x1D11E]).
Proof. vm_compute. reflexivity. Qed.
Example decode_lenient : urlsafe_b64decode (u "YW!Jj") = Ok (u "abc").
Proof. vm_compute. reflexivity. Qed.
Example decode_short : urlsafe_b64decode (u "YWJjZ===") = Raise (ValueError (u "Invalid base64-encoded string")).
Proof. vm_compute. reflexivity. Qed.

(** What [json.dumps] printed is read back. *)
Lemma loads_bytes_spaced j : json_ok j → loads_bytes (dumps_spaced j) = Ok j.
Proof.
  intros Hj. pose proof (gap_printable [32] j eq_refl Hj) as Hp. rewrite loads_bytes_ascii.
  - by apply loads_spaced.
  - by apply spaced_ascii.
  - rewrite printable_spec, Forall_forall in Hp. intros H0. apply Hp in H0. lia.
Qed.
