(* ===== verification/Probe.v ===== *)
(** * The measurement script, its calls ([measurements/jwt-authorization-grant/probe.py])

    The keys and assertions of the script, the server for its JWKS, the class
    [Probe] with its calls to a Keycloak under test, and the summaries of what
    Keycloak granted.  [ProbeRun] has the run itself.

    The state is that of the JWKS server and the outcomes recorded so far.  While
    the main thread waits -- for a reply or in [time.sleep] -- the server answers
    the fetches that arrive.

    [sign_claims], [assertion_read_back]: what an assertion says when it is read
    back the way the script reads tokens. *)

From S2P Require Import Prelude PyStr Codec Json Text World Errors UrlLib Uuid Assertion Keycloak Jwt.

Definition ISSUER : pystr := u "https://proxy.example.test".
Definition REALM : pystr := u "jag".

(** What the script takes from outside: RSA key generation, the texts httpx
    makes, the realm file, a port that cannot be bound, the fetches that arrive
    during a wait, and floating-point numbers. *)
Class Script `{R : Rsa} := {
  generate_private_key : trace → rsa_private;
  rsp_text : http_response → pystr;             (* response.text *)
  status_message : http_response → pystr;       (* of HTTPStatusError *)
  realm_json : res pystr;                       (* (HERE / "realm.json").read_text() *)
  bind_error : trace → Z → option exn;          (* ThreadingHTTPServer *)
  fetches : trace → nat;
  tenths : Z → pystr;                           (* f"{seconds:.1f}", of microseconds *)
  float_lt : json → json → bool;
  float_eq : json → json → bool;
  float_minus : json → json → pystr
}.

(** ** Keys *)

Definition b64u (data : bytes) : pystr := b64url data.
Definition b64u_decode (data : pystr) : res bytes := urlsafe_b64decode (padded data).

Section Keys.
Context `{SC : Script}.

Record Key := { k_kid : pystr; k_private : rsa_private }.

Definition new_key {X} (kid : pystr) : io X Key :=
  private ← ask generate_private_key EvKeygen;
  mret {| k_kid := kid; k_private := private |}.

(** [n.to_bytes(3, "big")] *)
Definition three_bytes (n : N) : res bytes :=
  if (n <? 2 ^ 24)%N then Ok (to_bytes_be 3 n) else Raise (OverflowError (u "int too big to convert")).

Definition jwk (k : Key) : res json :=
  e ← three_bytes (rsa_e (k_private k));
  Ok (JObj [(u "kty", JStr (u "RSA")); (u "use", JStr (u "sig")); (u "alg", JStr (u "RS256"));
            (u "kid", JStr (k_kid k)); (u "n", JStr (b64u_uint (rsa_n (k_private k))));
            (u "e", JStr (b64u e))]).

(** [json.dumps(v).encode()] *)
Definition dumps_encoded (j : json) : res bytes := encode_utf8 (dumps_spaced j).

Definition sign (k : Key) (claims : dict json) (kid : option pystr) : res pystr :=
  let header := JObj [(u "alg", JStr (u "RS256")); (u "typ", JStr (u "JWT"));
                      (u "kid", JStr (or_str kid (k_kid k)))] in
  h ← dumps_encoded header;
  c ← dumps_encoded (JObj claims);
  let signing_input := b64u h ++ [46%N] ++ b64u c in
  bs ← encode_utf8 signing_input;
  Ok (signing_input ++ [46%N] ++ b64u (rsa_sign (k_private k) bs)).

(** [json.loads(b64u_decode(token.split(".")[1]))]; the token is a value of a
    JSON reply. *)
Definition jwt_claims (token : json) : res json :=
  match token with
  | JStr t =>
      match split_char 46 t with
      | _ :: part :: _ => bs ← b64u_decode part; loads_bytes bs
      | _ => Raise (IndexError (u "list index out of range"))
      end
  | _ => Raise (AttributeError (u "object has no attribute 'split'"))
  end.
End Keys.

(** ** Values of replies *)

Section Values.
Context `{SC : Script}.

(** [j[k]], [j[0]], [j[k] = v], [j.get(k)] *)
Definition getitem (j : json) (k : pystr) : res json :=
  match j with
  | JObj d => match dict_get d k with Some v => Ok v | None => Raise (KeyError k) end
  | _ => Raise not_subscriptable
  end.
Definition first_item (j : json) : res json :=
  match j with
  | JArr (x :: _) => Ok x
  | JStr (c :: _) => Ok (JStr [c])
  | JArr [] | JStr [] => Raise (IndexError (u "list index out of range"))
  | JObj _ => Raise (KeyError (u "0"))
  | _ => Raise not_subscriptable
  end.
Definition setitem (j : json) (k : pystr) (v : json) : res json :=
  match j with
  | JObj d => Ok (JObj (dict_set d k v))
  | _ => Raise (TypeError (u "object does not support item assignment"))
  end.
Definition py_get (j : json) (k : pystr) : res (option json) :=
  match j with JObj d => Ok (dict_get d k) | _ => Raise no_get end.

(** [next(s["id"] for s in l if s["name"] == name)] *)
Fixpoint next_id (name : pystr) (l : list json) : res json :=
  match l with
  | [] => Raise StopIteration
  | s :: l' =>
      n ← getitem s (u "name");
      if is_text (Some n) name then getitem s (u "id") else next_id name l'
  end.

(** [realm["identityProviders"][0]["config"]["jwksUrl"] = url] *)
Definition set_jwks_url (realm : json) (url : pystr) : res json :=
  providers ← getitem realm (u "identityProviders");
  provider ← first_item providers;
  config ← getitem provider (u "config");
  config ← setitem config (u "jwksUrl") (JStr url);
  provider ← setitem provider (u "config") config;
  setitem realm (u "identityProviders")
    (match providers with JArr (_ :: rest) => JArr (provider :: rest) | _ => providers end).

(** [rep.setdefault("attributes", {})[key] = value] *)
Definition set_attribute (rep : json) (key value : pystr) : res json :=
  match rep with
  | JObj d =>
      attributes ← setitem (default (JObj []) (dict_get d (u "attributes"))) key (JStr value);
      Ok (JObj (dict_set d (u "attributes") attributes))
  | _ => Raise (AttributeError (u "object has no attribute 'setdefault'"))
  end.

(** *** Numbers and order *)

Definition int_of (j : json) : option Z :=
  match j with JInt z => Some z | JBool b => Some (if b then 1 else 0) | _ => None end.
Definition is_number (j : json) : bool :=
  match j with JInt _ | JBool _ | JFloat _ => true | _ => false end.

(** [f"{a - b}"] *)
Definition minus (a b : json) : res pystr :=
  match int_of a, int_of b with
  | Some x, Some y => Ok (str_of_Z (x - y))
  | _, _ => if is_number a && is_number b then Ok (float_minus a b)
            else Raise (TypeError (u "unsupported operand type(s) for -"))
  end.

(** [a == b] *)
Fixpoint py_eq (a b : json) : bool :=
  match a, b with
  | JNull, JNull => true
  | JStr s, JStr t => bool_decide (s = t)
  | JArr l, JArr m =>
      (fix go l m := match l, m with
                     | [], [] => true
                     | x :: l', y :: m' => py_eq x y && go l' m'
                     | _, _ => false
                     end) l m
  | JObj d, JObj e =>
      (length d =? length e)%nat &&
      forallb (λ '(k, v), match dict_get e k with Some w => py_eq v w | None => false end) d
  | _, _ =>
      match int_of a, int_of b with
      | Some x, Some y => x =? y
      | _, _ => is_number a && is_number b && float_eq a b
      end
  end.

(** [a < b] *)
Fixpoint py_lt (a b : json) : res bool :=
  match a, b with
  | JStr s, JStr t => Ok (negb (pystr_leb t s))
  | JArr l, JArr m =>
      (fix go l m := match l, m with
                     | _, [] => Ok false
                     | [], _ :: _ => Ok true
                     | x :: l', y :: m' => if py_eq x y then go l' m' else py_lt x y
                     end) l m
  | _, _ =>
      match int_of a, int_of b with
      | Some x, Some y => Ok (x <? y)
      | _, _ => if is_number a && is_number b then Ok (float_lt a b)
                else Raise (TypeError (u "'<' not supported between instances"))
      end
  end.

(** [sorted(v)] *)
Fixpoint insert_sorted (x : json) (l : list json) : res (list json) :=
  match l with
  | [] => Ok [x]
  | y :: l' => less ← py_lt y x; if less : bool then cons y <$> insert_sorted x l' else Ok (x :: l)
  end.
Fixpoint sort_values (l : list json) : res (list json) :=
  match l with [] => Ok [] | x :: l' => sorted ← sort_values l'; insert_sorted x sorted end.
Definition py_sorted (v : json) : res (list json) := l ← py_iter v; sort_values l.

(** *** What was granted *)

Context `{FR : FloatRepr}.

Definition refused (status : Z) (body : json) : res pystr :=
  error ← py_get body (u "error");
  description ← py_get body (u "error_description");
  Ok (str_of_Z status ++ u " " ++ format_get error ++ u " " ++ repr_get description).

(** ['k' in d] for a value that was read by key. *)
Definition present (j : json) (k : pystr) : pystr :=
  match j with
  | JObj d => if dict_mem d k then u "present" else u "absent"
  | _ => u "absent"
  end.

Definition summarise (status : Z) (body : json) : res pystr :=
  if negb (status =? 200) then refused status body
  else
    token ← getitem body (u "access_token");
    c ← jwt_claims token;
    access ← py_get c (u "realm_access");
    roles ← py_get (default (JObj []) access) (u "roles");
    roles ← py_sorted (default (JArr []) roles);
    sub ← py_get c (u "sub");
    azp ← py_get c (u "azp");
    aud ← py_get c (u "aud");
    scope ← py_get c (u "scope");
    exp ← getitem c (u "exp");
    iat ← getitem c (u "iat");
    lifetime ← minus exp iat;
    Ok (u "200 sub=" ++ format_get sub ++ u " azp=" ++ format_get azp ++ u " aud=" ++ format_get aud
        ++ u " roles=" ++ py_repr (JArr roles) ++ u " scope=" ++ repr_get scope
        ++ u " exp-iat=" ++ lifetime ++ u " refresh_token=" ++ present body (u "refresh_token")).

Definition claims_line (status : Z) (body : json) : res pystr :=
  if negb (status =? 200) then refused status body
  else
    token ← getitem body (u "access_token");
    c ← jwt_claims token;
    organization ← py_get c (u "organization");
    typ ← py_get c (u "typ");
    names ← py_sorted c;
    Ok (u "200 organization=" ++ format_get organization ++ u " sid=" ++ present c (u "sid")
        ++ u " typ=" ++ format_get typ ++ u " claims=" ++ py_repr (JArr names)).
End Values.

(** ** The JWKS server *)

Section Calls.
Context `{SC : Script, O : Outside, FR : FloatRepr}.

Record ProbeState := {
  jwks_keys : list Key;
  jwks_hits : Z;
  jwks_started : Z;
  results : dict (list pystr)
}.
Implicit Types (st : ProbeState).

Definition set_keys (keys : list Key) : io ProbeState unit :=
  st ← get_state;
  put_state {| jwks_keys := keys; jwks_hits := jwks_hits st; jwks_started := jwks_started st;
               results := results st |}.
Definition add_hit : io ProbeState unit :=
  st ← get_state;
  put_state {| jwks_keys := jwks_keys st; jwks_hits := jwks_hits st + 1; jwks_started := jwks_started st;
               results := results st |}.
Definition set_result (name : pystr) (outcomes : list pystr) : io ProbeState unit :=
  st ← get_state;
  put_state {| jwks_keys := jwks_keys st; jwks_hits := jwks_hits st; jwks_started := jwks_started st;
               results := dict_set (results st) name outcomes |}.

Definition print (text : pystr) : io ProbeState unit := emit (EvStdout (text ++ newline)).

(** The constructor: the clock, then the port. *)
Definition new_server (port : Z) : io ProbeState unit :=
  started ← monotonic;
  put_state {| jwks_keys := []; jwks_hits := 0; jwks_started := started; results := [] |};;
  error ← ask (λ t, bind_error t port) EvListen;
  match error with Some e => raise e | None => mret tt end.

(** [Handler.do_GET]: status, headers and body of the answer. *)
Definition do_GET : io ProbeState (Z * dict pystr * bytes) :=
  add_hit;;
  now ← monotonic;
  st ← get_state;
  print (u "    [jwks fetch #" ++ str_of_Z (jwks_hits st) ++ u " at +" ++ tenths (now - jwks_started st)
         ++ u "s, serving " ++ repr_list (k_kid <$> jwks_keys st) ++ u "]");;
  keys ← lift (map_res jwk (jwks_keys st));
  body ← lift (dumps_encoded (JObj [(u "keys", JArr keys)]));
  mret (200, [(u "Content-Type", u "application/json");
              (u "Content-Length", str_of_Z (Z.of_nat (length body)))], body).

(** A fetch in a thread of its own; what it raises ends in that thread. *)
Definition fetch : io ProbeState unit :=
  try_io (do_GET;; mret tt) (λ _, true) (λ _, mret tt).
Fixpoint fetch_times (n : nat) : io ProbeState unit :=
  match n with 0%nat => mret tt | S n' => fetch;; fetch_times n' end.
Definition waiting : io ProbeState unit := λ s, fetch_times (fetches s.2) s.

Definition request (r : http_request) : io ProbeState http_response := waiting;; send r.
Definition sleep (seconds : Z) : io ProbeState unit :=
  if seconds <? 0 then raise (ValueError (u "sleep length must be non-negative"))
  else waiting;; emit (EvSleep seconds).

(** ** [class Probe] *)

Record Probe := { p_kc : pystr; p_jwks_url : pystr; realm_issuer : pystr; token_endpoint : pystr }.

Definition new_probe (kc jwks_url : pystr) : Probe :=
  let kc := rstrip_slash kc in
  let issuer := kc ++ u "/realms/" ++ REALM in
  {| p_kc := kc; p_jwks_url := jwks_url; realm_issuer := issuer;
     token_endpoint := issuer ++ u "/protocol/openid-connect/token" |}.

Definition raise_for_status (r : http_response) : io ProbeState unit :=
  if (200 <=? rsp_status r) && (rsp_status r <=? 299) then mret tt
  else raise (HTTPError (u "HTTPStatusError") (status_message r)).

Definition json_of (r : http_response) : io ProbeState json := lift (response_json r).

(** [r.json()["access_token"]] of a login that succeeded. *)
Definition login (url : pystr) (form : dict json) : io ProbeState json :=
  r ← request (PostForm url form [] None);
  raise_for_status r;;
  body ← json_of r;
  lift (getitem body (u "access_token")).

Section Methods.
Context (p : Probe).

Definition admin_token : io ProbeState json :=
  login (p_kc p ++ u "/realms/master/protocol/openid-connect/token")
    [(u "client_id", JStr (u "admin-cli")); (u "username", JStr (u "admin"));
     (u "password", JStr (u "admin")); (u "grant_type", JStr (u "password"))].

(** [token or self.admin_token()] *)
Definition or_admin (token : option json) : io ProbeState json :=
  match token with
  | Some t => if py_truthy t then mret t else admin_token
  | None => admin_token
  end.

Definition admin (method path : pystr) (token : option json) (params : dict pystr) (body : option json)
    : io ProbeState http_response :=
  t ← or_admin token;
  request (Request method (p_kc p ++ u "/admin/realms" ++ path) params
             [(u "Authorization", u "Bearer " ++ py_str t)] body).

(** The calls as the methods use them: [f"/{REALM}..."], [.json()], [.raise_for_status()]. *)
Definition realm_path (path : pystr) : pystr := u "/" ++ REALM ++ path.
Definition admin_get (path : pystr) (params : dict pystr) : io ProbeState json :=
  r ← admin (u "GET") (realm_path path) None params None; json_of r.
Definition admin_send (method path : pystr) (body : option json) : io ProbeState unit :=
  r ← admin method (realm_path path) None [] body; raise_for_status r.

Definition client_uuid (client_id : pystr) : io ProbeState json :=
  clients ← admin_get (u "/clients") [(u "clientId", client_id)];
  client ← lift (first_item clients);
  lift (getitem client (u "id")).

Definition user_id (username : pystr) : io ProbeState json :=
  users ← admin_get (u "/users") [(u "username", username); (u "exact", u "true")];
  user ← lift (first_item users);
  lift (getitem user (u "id")).

Definition scope_id (name : pystr) : io ProbeState json :=
  scopes ← admin_get (u "/client-scopes") [];
  items ← lift (py_iter scopes);
  lift (next_id name items).

Definition offer_scope (sid : json) (client : pystr) : io ProbeState unit :=
  cid ← client_uuid client;
  admin_send (u "PUT") (u "/clients/" ++ py_str cid ++ u "/optional-client-scopes/" ++ py_str sid) None.

Definition setup_scope (scope_role : pystr * pystr) : io ProbeState unit :=
  let '(scope, role) := scope_role in
  admin_send (u "POST") (u "/client-scopes") (Some (JObj [
    (u "name", JStr scope); (u "protocol", JStr (u "openid-connect"));
    (u "attributes", JObj [(u "include.in.token.scope", JStr (u "true"));
                           (u "display.on.consent.screen", JStr (u "false"))])]));;
  sid ← scope_id scope;
  role_rep ← admin_get (u "/roles/" ++ role) [];
  admin_send (u "POST") (u "/client-scopes/" ++ py_str sid ++ u "/scope-mappings/realm")
    (Some (JArr [role_rep]));;
  for_io (offer_scope sid) [u "up-x"; u "up-y"].

Definition setup_realm : io ProbeState unit :=
  admin (u "DELETE") (realm_path []) None [] None;;
  text ← lift realm_json;
  realm ← lift (loads text);
  realm ← lift (set_jwks_url realm (p_jwks_url p));
  r ← admin (u "POST") [] None [] (Some realm);
  if negb (rsp_status r =? 201)
  then raise (SystemExit (u "realm import failed: " ++ str_of_Z (rsp_status r) ++ u " " ++ rsp_text r))
  else for_io setup_scope [(u "set-memory", u "r-memory"); (u "set-dispatch", u "dispatch-executor")].

Definition add_org_member (org member : pystr) : io ProbeState unit :=
  orgs ← admin_get (u "/organizations") [(u "search", org)];
  first ← lift (first_item orgs);
  oid ← lift (getitem first (u "id"));
  uid ← user_id member;
  admin_send (u "POST") (u "/organizations/" ++ py_str oid ++ u "/members") (Some uid).

Definition setup_organization (org_member : pystr * pystr) : io ProbeState unit :=
  let '(org, member) := org_member in
  admin_send (u "POST") (u "/organizations") (Some (JObj [
    (u "name", JStr org); (u "alias", JStr org); (u "enabled", JBool true);
    (u "domains", JArr [JObj [(u "name", JStr (org ++ u ".example.test"))]])]));;
  add_org_member org member.

Definition setup_organizations : io ProbeState unit :=
  rep ← admin_get [] [];
  rep ← lift (setitem rep (u "organizationsEnabled") (JBool true));
  admin_send (u "PUT") [] (Some rep);;
  for_io setup_organization [(u "tenant-a", u "alice"); (u "tenant-b", u "bob")];;
  sid ← scope_id (u "organization");
  cid ← client_uuid (u "up-x");
  admin_send (u "PUT") (u "/clients/" ++ py_str cid ++ u "/default-client-scopes/" ++ py_str sid) None.

Definition clear_keys_cache : io ProbeState unit := admin_send (u "POST") (u "/clear-keys-cache") None.

Definition set_user_enabled (username : pystr) (enabled : bool) : io ProbeState unit :=
  uid ← user_id username;
  rep ← admin_get (u "/users/" ++ py_str uid) [];
  rep ← lift (setitem rep (u "enabled") (JBool enabled));
  admin_send (u "PUT") (u "/users/" ++ py_str uid) (Some rep).

Definition set_client_attr (client_id key value : pystr) : io ProbeState unit :=
  cid ← client_uuid client_id;
  rep ← admin_get (u "/clients/" ++ py_str cid) [];
  rep ← lift (set_attribute rep key value);
  admin_send (u "PUT") (u "/clients/" ++ py_str cid) (Some rep).

Definition grant_proxy_admin_role (role : pystr) : io ProbeState unit :=
  proxy_admin ← client_uuid (u "proxy-admin");
  sa_user ← admin_get (u "/clients/" ++ py_str proxy_admin ++ u "/service-account-user") [];
  rm ← client_uuid (u "realm-management");
  role_rep ← admin_get (u "/clients/" ++ py_str rm ++ u "/roles/" ++ role) [];
  sa_id ← lift (getitem sa_user (u "id"));
  admin_send (u "POST") (u "/users/" ++ py_str sa_id ++ u "/role-mappings/clients/" ++ py_str rm)
    (Some (JArr [role_rep])).

Definition proxy_admin_token : io ProbeState json :=
  login (token_endpoint p)
    [(u "grant_type", JStr (u "client_credentials")); (u "client_id", JStr (u "proxy-admin"));
     (u "client_secret", JStr (u "measurement-only-proxy-admin"))].

Definition federated_path (uid : json) : pystr :=
  u "/users/" ++ py_str uid ++ u "/federated-identity/pat-issuer".

Definition link (username : pystr) (token : json) (external_id : option pystr) : io ProbeState Z :=
  uid ← user_id username;
  r ← admin (u "POST") (realm_path (federated_path uid)) (Some token) [] (Some (JObj [
    (u "identityProvider", JStr (u "pat-issuer"));
    (u "userId", match external_id with Some e => if truthy e then JStr e else uid | None => uid end);
    (u "userName", JStr username)]));
  mret (rsp_status r).

Definition unlink (username : pystr) : io ProbeState unit :=
  uid ← user_id username;
  admin (u "DELETE") (realm_path (federated_path uid)) None [] None;;
  mret tt.

(** *** The grant *)

Definition assertion_claims (iss : pystr) (sub : json) (aud : pystr) (now exp_in : Z) (jti : pystr) : dict json :=
  [(u "iss", JStr iss); (u "sub", sub); (u "aud", JStr aud); (u "iat", JInt now);
   (u "exp", JInt (now + exp_in)); (u "jti", JStr jti)].

Definition assertion (key : Key) (sub : json) (exp_in : Z) (kid aud jti : option pystr) (iss : pystr)
    : io ProbeState pystr :=
  now ← time;
  jti ← match jti with
        | Some j => if truthy j then mret j else str_uuid <$> uuid4
        | None => str_uuid <$> uuid4
        end;
  lift (sign key (assertion_claims iss sub (or_str aud (realm_issuer p)) now exp_in jti) kid).

Definition grant_form (assertion client : pystr) (scope : option pystr) : dict json :=
  let form := [
    (u "grant_type", JStr (u "urn:ietf:params:oauth:grant-type:jwt-bearer"));
    (u "assertion", JStr assertion);
    (u "client_id", JStr client);
    (u "client_secret", JStr (u "measurement-only-" ++ client))] in
  match scope with Some s => dict_set form (u "scope") (JStr s) | None => form end.

Definition grant (assertion client : pystr) (scope : option pystr) : io ProbeState (Z * json) :=
  r ← request (PostForm (token_endpoint p) (grant_form assertion client scope) [] None);
  body ← json_of r;
  mret (rsp_status r, body).
End Methods.
End Calls.

(** ** What an assertion says *)

Section Says.
Context `{SC : Script, O : Outside, !RsaLaws R}.

Definition header_of (kid : pystr) : json := JObj
  [(u "alg", JStr (u "RS256")); (u "typ", JStr (u "JWT")); (u "kid", JStr kid)].

(** A signed token: header and claims as given, the signature over both; and the
    script reads the claims back. *)
Definition signs (k : Key) (kid : pystr) (claims : dict json) (tok : pystr) : Prop :=
  ∃ h c, let signed := b64url h ++ [46%N] ++ b64url c in
    split_char 46 tok = [b64url h; b64url c; b64url (rsa_sign (k_private k) signed)] ∧
    loads_bytes h = Ok (header_of kid) ∧ loads_bytes c = Ok (JObj claims) ∧
    jwt_claims (JStr tok) = Ok (JObj claims).

Lemma encode_b64 bs : bytes_ok bs → encode_utf8 (b64url bs) = Ok (b64url bs).
Proof using Type. intros Hb. by apply encode_utf8_ascii, b64url_ascii. Qed.

Lemma sign_claims k claims kid :
  json_ok (JObj claims) → str_ok (or_str kid (k_kid k)) = true →
  ∃ tok, sign k claims kid = Ok tok ∧ signs k (or_str kid (k_kid k)) claims tok.
Proof using RsaLaws0.
  intros Hc Hk. set (id := or_str kid (k_kid k)) in *.
  assert (Hh : json_ok (header_of id)).
  { split; [by apply (bool_decide_unpack (NoDup _))|]. by repeat split. }
  assert (Bh := ascii_bytes_ok _ (spaced_ascii _ Hh)). assert (Bc := ascii_bytes_ok _ (spaced_ascii _ Hc)).
  set (h := dumps_spaced (header_of id)) in *. set (c := dumps_spaced (JObj claims)) in *.
  assert (E : sign k claims kid = Ok ((b64url h ++ [46%N] ++ b64url c) ++ [46%N]
    ++ b64url (rsa_sign (k_private k) (b64url h ++ [46%N] ++ b64url c)))).
  { unfold sign, dumps_encoded. fold id. fold (header_of id). fold h c.
    rewrite !encode_utf8_ascii by by apply spaced_ascii. cbn [mbind res_bind]. unfold b64u.
    rewrite encode_utf8_ascii; [done|]. by rewrite !isascii_app, !b64url_ascii. }
  eexists. split; [exact E|]. clearbody id.
  assert (Es : split_char 46 ((b64url h ++ [46%N] ++ b64url c) ++ [46%N]
    ++ b64url (rsa_sign (k_private k) (b64url h ++ [46%N] ++ b64url c)))
    = [b64url h; b64url c; b64url (rsa_sign (k_private k) (b64url h ++ [46%N] ++ b64url c))]).
  { rewrite <-!app_assoc. cbn [app]. rewrite split_char_app by by apply b64url_no_dot.
    rewrite split_char_app by by apply b64url_no_dot.
    rewrite split_char_notin by apply b64url_no_dot, rsa_sign_ok. done. }
  exists h, c. split; [exact Es|]. split; [by apply loads_bytes_spaced|].
  split; [by apply loads_bytes_spaced|].
  unfold jwt_claims. rewrite Es. unfold b64u_decode. rewrite b64decode_b64url by done.
  by apply loads_bytes_spaced.
Qed.

(** An assertion of the script, read back the way the script reads the
    tokens it is granted: exactly the issuer, subject and audience asked for --
    the realm's issuer when none was named --, issued now, expiring after
    [exp_in] seconds, which may be in the past, and with a fresh identifier
    unless one was given; signed with the given key over header and claims, under
    the key's own identifier or the one to pretend. *)
Theorem assertion_read_back p k sub exp_in kid aud jti iss s r s' :
  json_ok sub → str_ok iss = true → str_ok (or_str aud (realm_issuer p)) = true →
  str_ok (or_str kid (k_kid k)) = true → from_option str_ok true jti = true →
  Z.abs (o_time s.2) < 2 ^ 63 → Z.abs exp_in < 2 ^ 63 →
  assertion p k sub exp_in kid aud jti iss s = (r, s') →
  ∃ tok id, r = Ok tok ∧
    signs k (or_str kid (k_kid k))
      (assertion_claims iss sub (or_str aud (realm_issuer p)) (o_time s.2) exp_in id) tok ∧
    s'.1 = s.1 ∧
    (jti = Some id ∧ s'.2 = EvTime :: s.2 ∨
     id = str_uuid (set_version4 (from_bytes_be (o_random (EvTime :: s.2) 16))) ∧
     s'.2 = EvRandom 16 :: EvTime :: s.2).
Proof using RsaLaws0.
  intros Hsub Hiss Haud Hkid Hjti Ht He H. unfold assertion in H.
  assert (Hok : ∀ id, str_ok id = true → json_ok (JObj
    (assertion_claims iss sub (or_str aud (realm_issuer p)) (o_time s.2) exp_in id))).
  { intros id Hid. split; [by apply (bool_decide_unpack (NoDup _))|]. cbn [foldr fst snd json_ok].
    repeat split; try done; apply (small_int_ok); lia. }
  assert (Hsign : ∀ id, str_ok id = true → ∃ tok, sign k (assertion_claims iss sub
      (or_str aud (realm_issuer p)) (o_time s.2) exp_in id) kid = Ok tok ∧
    signs k (or_str kid (k_kid k))
      (assertion_claims iss sub (or_str aud (realm_issuer p)) (o_time s.2) exp_in id) tok)
    by (intros id Hid; by apply sign_claims; [apply Hok|]).
  assert (Hnew : ∃ id, id = str_uuid (set_version4 (from_bytes_be (o_random (EvTime :: s.2) 16))) ∧
    str_ok id = true) by (eexists; split; [reflexivity|]; apply ascii_str_ok, str_uuid_ascii).
  destruct Hnew as (new & Enew & Hnew). revert H. unfold uuid4. io_run.
  destruct jti as [[|c j]|]; cbn [truthy]; io_run; rewrite <-?Enew.
  - destruct (Hsign new Hnew) as (tok & -> & Htok).
    intros [<- <-]%pair_eq. exists tok, new. eauto 10.
  - destruct (Hsign (c :: j) Hjti) as (tok & -> & Htok).
    intros [<- <-]%pair_eq. exists tok, (c :: j). eauto 10.
  - destruct (Hsign new Hnew) as (tok & -> & Htok).
    intros [<- <-]%pair_eq. exists tok, new. eauto 10.
Qed.
End Says.

(** ** An example *)
Module ProbeExamples.
Import AssertionExamples.
#[local] Existing Instances toy_rsa toy_rsa_laws.

(** A Keycloak-free script: nothing is fetched, no port is taken. *)
#[local] Instance toy_script : Script := {|
  generate_private_key t := (2 ^ 2047 + N.of_nat (length t))%N;
  rsp_text _ := []; status_message _ := [];
  realm_json := Raise (FileNotFoundError (u "realm.json"));
  bind_error _ _ := None; fetches _ := 0%nat; tenths _ := u "0.0";
  float_lt _ _ := false; float_eq _ _ := false; float_minus _ _ := []
|}.

Definition key_a : Key := {| k_kid := u "proxy-2026-a"; k_private := (2 ^ 2047)%N |}.
Definition local_probe : Probe := new_probe (u "http://localhost:18080/") (u "http://host.docker.internal:18099/jwks").
Definition start : ProbeState := {| jwks_keys := [key_a]; jwks_hits := 0; jwks_started := 0; results := [] |}.

Example issuer_of_realm : realm_issuer local_probe = u "http://localhost:18080/realms/jag".
Proof. reflexivity. Qed.

Lemma assertion_read_back_witness :
  let O := silent_world 1000 in
  ∃ tok id s', assertion (O := O) local_probe key_a (JStr (u "alice")) (-5) None None None ISSUER (start, []) = (Ok tok, s') ∧
    jwt_claims (JStr tok) = Ok (JObj (assertion_claims ISSUER (JStr (u "alice")) (realm_issuer local_probe) 1000 (-5) id)).
Proof.
  intros O.
  destruct (assertion (O := O) local_probe key_a (JStr (u "alice")) (-5) None None None ISSUER (start, [])) as [r s'] eqn:E.
  destruct (assertion_read_back local_probe key_a (JStr (u "alice")) (-5) None None None ISSUER (start, []) r s')
    as (tok & id & -> & (h & c & _ & _ & _ & Hc) & _);
    [reflexivity|reflexivity|reflexivity|reflexivity|reflexivity|simpl; lia|simpl; lia|exact E|].
  exists tok, id, s'. split; [reflexivity|exact Hc].
Defined.

(** What a refusal and a grant look like. *)
#[local] Instance plain_floats : FloatRepr := λ s, s.
Example refusal_line :
  summarise 400 (JObj [(u "error", JStr (u "invalid_grant")); (u "error_description", JStr (u "User not found"))])
  = Ok (u "400 invalid_grant 'User not found'").
Proof. reflexivity. Qed.

Definition granted_claims : dict json := [
  (u "exp", JInt 1300); (u "iat", JInt 1000); (u "sub", JStr (u "329e")); (u "azp", JStr (u "up-x"));
  (u "aud", JStr (u "https://res-x.example.test"));
  (u "realm_access", JObj [(u "roles", JArr [JStr (u "r-memory"); JStr (u "dispatch-executor")])]);
  (u "scope", JStr (u "set-memory profile"))].
Example grant_line :
  (tok ← sign key_a granted_claims None; summarise 200 (JObj [(u "access_token", JStr tok)]))
  = Ok (u "200 sub=329e azp=up-x aud=https://res-x.example.test roles=['dispatch-executor', 'r-memory'] "
        ++ u "scope='set-memory profile' exp-iat=300 refresh_token=absent").
Proof. vm_compute. reflexivity. Qed.
Example grant_claims_line :
  (tok ← sign key_a granted_claims None; claims_line 200 (JObj [(u "access_token", JStr tok)]))
  = Ok (u "200 organization=None sid=absent typ=None "
        ++ u "claims=['aud', 'azp', 'exp', 'iat', 'realm_access', 'scope', 'sub']").
Proof. vm_compute. reflexivity. Qed.
End ProbeExamples.
