(* ===== verification/ProbeRun.v ===== *)
(** * The measurement script, its run ([measurements/jwt-authorization-grant/probe.py])

    The sequence of probes against a fresh realm, and the exit code.

    [run_verdict]: a run that ends has recorded every probe of the list once,
    with as many outcomes as asked for, and its exit code is 0 exactly if the
    outcomes of each probe agree.  [run_destinations]: it talks to the Keycloak
    it was given and to nobody else.  [disabled_restores]: the probe that disables
    a user ends with the request that enables it again. *)

From S2P Require Import Prelude PyStr Codec Json Text World Errors Uuid Assertion Keycloak ArgParse Jwt Probe.

(** [argparse.Namespace] of [main]. *)
Record Args := {
  a_kc : pystr;
  a_jwks_host : pystr;
  a_jwks_port : Z;
  a_runs : Z;
  a_rotation_wait : Z
}.

Section Run.
Context `{SC : Script, O : Outside, FR : FloatRepr}.

(** ** [record] *)

(** [[fn() for _ in range(n)]] *)
Fixpoint repeat_io (n : nat) (fn : io ProbeState pystr) : io ProbeState (list pystr) :=
  match n with
  | 0%nat => mret []
  | S n' => outcome ← fn; outcomes ← repeat_io n' fn; mret (outcome :: outcomes)
  end.

(** [len(set(outcomes)) == 1] *)
Definition agree (outcomes : list pystr) : bool := (length (remove_dups outcomes) =? 1)%nat.

Definition print_outcome (numbered : nat * pystr) : io ProbeState unit :=
  print (u "    run " ++ str_of_Z (Z.of_nat numbered.1) ++ u ": " ++ numbered.2).

Definition record (args : Args) (name : pystr) (fn : io ProbeState pystr) : io ProbeState unit :=
  outcomes ← repeat_io (Z.to_nat (a_runs args)) fn;
  set_result name outcomes;;
  print (u "[" ++ (if agree outcomes then u "agree" else u "DISAGREE") ++ u "] " ++ name);;
  for_io print_outcome (zip (seq 1 (length outcomes)) outcomes).

(** ** The probes *)

Section Probes.
Context (args : Args) (p : Probe).

(** [line( *p.grant(p.assertion(key, sub, ...), client=client, scope=scope))] *)
Definition granted (line : Z → json → res pystr) (assertion : io ProbeState pystr) (client : pystr)
    (scope : option pystr) : io ProbeState pystr :=
  a ← assertion;
  g ← grant p a client scope;
  lift (line g.1 g.2).
Definition plain (key : Key) (sub : json) : io ProbeState pystr :=
  assertion p key sub 60 None None None ISSUER.
Definition summary (key : Key) (sub : json) (scope : option pystr) : io ProbeState pystr :=
  granted summarise (plain key sub) (u "up-x") scope.
Definition claims (key : Key) (sub : json) (scope : option pystr) : io ProbeState pystr :=
  granted claims_line (plain key sub) (u "up-x") scope.

Definition link_now (user : pystr) : io ProbeState Z :=
  token ← proxy_admin_token p;
  link p user token None.
Definition link_line (user : pystr) : io ProbeState pystr :=
  code ← link_now user;
  mret (u "HTTP " ++ str_of_Z code).
Definition link_then_unlink (user : pystr) : io ProbeState pystr :=
  code ← link_now user;
  unlink p user;;
  mret (u "HTTP " ++ str_of_Z code).

Definition assert_linked (user : pystr) : io ProbeState unit :=
  code ← link_now user;
  if code =? 204 then mret tt else raise AssertionError.

Definition probe_links : io ProbeState unit :=
  record args (u "3a link alice with no realm-management role") (link_line (u "alice"));;
  grant_proxy_admin_role p (u "view-users");;
  record args (u "3b link alice with view-users") (link_line (u "alice"));;
  grant_proxy_admin_role p (u "manage-users");;
  record args (u "3c link carol with manage-users (then unlinked again)") (link_then_unlink (u "carol"));;
  assert_linked (u "alice");;
  assert_linked (u "bob").

Definition probe_users (key_a : Key) (alice carol : json) : io ProbeState unit :=
  record args (u "2 alice, key A, no scope") (summary key_a alice None);;
  record args (u "3d carol unlinked, sub = her Keycloak id") (summary key_a carol None);;
  record args (u "3e sub = username 'alice' (link carries the Keycloak id)")
    (summary key_a (JStr (u "alice")) None).

Definition scope_name (scope : pystr) : pystr := u "4 alice scope=" ++ repr scope.
Definition probe_scopes (key_a : Key) (alice bob : json) : io ProbeState unit :=
  for_io (λ scope, record args (scope_name scope) (summary key_a alice (Some scope)))
    [u "set-memory"; u "set-dispatch"; u "set-memory set-dispatch"];;
  record args (u "4 bob scope='set-memory set-dispatch' (bob holds no dispatch-executor)")
    (summary key_a bob (Some (u "set-memory set-dispatch")));;
  record args (u "4 alice scope='offline_access' (offline scope on the jwt grant)")
    (summary key_a alice (Some (u "offline_access")));;
  record args (u "4 alice scope='set-unknown'") (summary key_a alice (Some (u "set-unknown")));;
  record args (u "4 client up-y (grant not enabled there)")
    (granted summarise (plain key_a alice) (u "up-y") None).

(** [try: ... finally: p.set_user_enabled("alice", True)] *)
Definition disabled (key_a : Key) (alice : json) : io ProbeState pystr :=
  set_user_enabled p (u "alice") false;;
  outcome ← try_io (summary key_a alice None) (λ _, true)
              (λ e, set_user_enabled p (u "alice") true;; raise e);
  set_user_enabled p (u "alice") true;;
  mret outcome.

(** [s.split()[0]] *)
Definition first_word (s : pystr) : res pystr :=
  match split_words s with
  | w :: _ => Ok w
  | [] => Raise (IndexError (u "list index out of range"))
  end.
Definition reuse (key_a : Key) (alice : json) : io ProbeState pystr :=
  a ← plain key_a alice;
  line ← granted summarise (mret a) (u "up-x") None;
  first ← lift (first_word line);
  second ← granted summarise (mret a) (u "up-x") None;
  mret (u "first=" ++ first ++ u " second=" ++ second).

Definition probe_refusals (key_a key_b : Key) (alice : json) : io ProbeState unit :=
  record args (u "5a alice disabled") (disabled key_a alice);;
  record args (u "5a' alice re-enabled") (summary key_a alice None);;
  record args (u "5b foreign key, own kid") (summary key_b alice None);;
  record args (u "5b' foreign key, spoofed kid of key A")
    (granted summarise (assertion p key_b alice 60 (Some (k_kid key_a)) None None ISSUER) (u "up-x") None);;
  record args (u "5c expired assertion (exp = now - 5)")
    (granted summarise (assertion p key_a alice (-5) None None None ISSUER) (u "up-x") None);;
  record args (u "5d assertion lifetime above the IdP maximum (exp = now + 3600)")
    (granted summarise (assertion p key_a alice 3600 None None None ISSUER) (u "up-x") None);;
  record args (u "5e same assertion twice") (reuse key_a alice);;
  record args (u "5f wrong issuer")
    (granted summarise (assertion p key_a alice 60 None None None (u "https://evil.test")) (u "up-x") None).

Definition lifespan_name (lifespan : pystr) : pystr := u "6 access.token.lifespan=" ++ lifespan.
Definition probe_lifespan (key_a : Key) (alice : json) (lifespan : pystr) : io ProbeState unit :=
  set_client_attr p (u "up-x") (u "access.token.lifespan") lifespan;;
  record args (lifespan_name lifespan) (summary key_a alice (Some (u "set-memory"))).

Definition wait_text : pystr := str_of_Z (a_rotation_wait args) ++ u "s".

Definition probe_rotation (key_a key_a2 : Key) (alice : json) : io ProbeState unit :=
  set_keys [key_a; key_a2];;
  record args (u "7a JWKS {A, A2} at once: new key A2") (summary key_a2 alice None);;
  print (u "    (waiting " ++ wait_text ++ u ")");;
  sleep (a_rotation_wait args);;
  record args (u "7b JWKS {A, A2} after " ++ wait_text ++ u ": new key A2") (summary key_a2 alice None);;
  record args (u "7c JWKS {A, A2}: old key A") (summary key_a alice None);;
  set_keys [key_a2];;
  print (u "    (A removed from the JWKS; waiting " ++ wait_text ++ u ")");;
  sleep (a_rotation_wait args);;
  record args (u "7d JWKS {A2} after " ++ wait_text ++ u ": removed key A") (summary key_a alice None);;
  clear_keys_cache p;;
  record args (u "7e JWKS {A2} after clear-keys-cache: removed key A") (summary key_a alice None);;
  record args (u "7f JWKS {A2} after clear-keys-cache: key A2") (summary key_a2 alice None).

Definition probe_tenants (key_a2 : Key) (alice bob : json) : io ProbeState unit :=
  setup_organizations p;;
  record args (u "8a alice (member of tenant-a), no scope") (claims key_a2 alice None);;
  record args (u "8b alice, scope='organization:tenant-b' (not a member)")
    (claims key_a2 alice (Some (u "organization:tenant-b")));;
  record args (u "8c bob (member of tenant-b), no scope") (claims key_a2 bob None);;
  add_org_member p (u "tenant-b") (u "alice");;
  record args (u "8d alice member of tenant-a and tenant-b, no scope") (claims key_a2 alice None);;
  record args (u "8e alice member of both, scope='organization:tenant-a'")
    (claims key_a2 alice (Some (u "organization:tenant-a")));;
  set_client_attr p (u "up-y") (u "oauth2.jwt.authorization.grant.enabled") (u "true");;
  set_client_attr p (u "up-y") (u "oauth2.jwt.authorization.grant.idp") (u "pat-issuer");;
  record args (u "8f client up-y without the organization scope, scope='organization:tenant-a'")
    (granted claims_line (plain key_a2 alice) (u "up-y") (Some (u "organization:tenant-a"))).

(** From the realm to the last probe. *)
Definition all_probes (key_a key_b key_a2 : Key) : io ProbeState unit :=
  setup_realm p;;
  alice ← user_id p (u "alice");
  bob ← user_id p (u "bob");
  carol ← user_id p (u "carol");
  probe_links;;
  probe_users key_a alice carol;;
  probe_scopes key_a alice bob;;
  probe_refusals key_a key_b alice;;
  for_io (probe_lifespan key_a alice) [u "60"; u "300"];;
  probe_rotation key_a key_a2 alice;;
  probe_tenants key_a2 alice bob.
End Probes.

(** ** [run] *)

Definition disagreements (found : dict (list pystr)) : list pystr :=
  (List.filter (λ kv, negb (agree kv.2)) found).*1.

Definition verdict : io ProbeState Z :=
  st ← get_state;
  print (u "JWKS fetches by Keycloak: " ++ str_of_Z (jwks_hits st));;
  match disagreements (results st) with
  | [] => mret 0
  | names => print (u "DISAGREEING PROBES: " ++ repr_list names);; mret 1
  end.

Definition jwks_url (args : Args) : pystr :=
  u "http://" ++ a_jwks_host args ++ u ":" ++ str_of_Z (a_jwks_port args) ++ u "/jwks".

Definition run (args : Args) : io ProbeState Z :=
  new_server (a_jwks_port args);;
  key_a ← new_key (u "proxy-2026-a");
  key_b ← new_key (u "foreign");
  key_a2 ← new_key (u "proxy-2026-b");
  set_keys [key_a];;
  all_probes args (new_probe (a_kc args) (jwks_url args)) key_a key_b key_a2;;
  verdict.

(** ** [main] *)

Definition optional (dest : string) (kind : kind) : Action :=
  {| a_dest := u dest; a_kind := kind; a_required := false |}.
Definition parser : Parser := {|
  p_prog := u "probe.py";
  p_options :=
    [(u "-h", optional "help" Help); (u "--help", optional "help" Help);
     (u "--kc", optional "kc" Store);
     (u "--jwks-host", optional "jwks_host" Store);
     (u "--jwks-port", optional "jwks_port" StoreInt);
     (u "--runs", optional "runs" StoreInt);
     (u "--rotation-wait", optional "rotation_wait" StoreInt)];
  p_positional := None;
  p_defaults :=
    [(u "kc", VStr (u "http://localhost:18080")); (u "jwks_host", VStr (u "host.docker.internal"));
     (u "jwks_port", VInt 18099); (u "runs", VInt 2); (u "rotation_wait", VInt 15)]
|}.

Definition text_of (ns : dict value) (k : pystr) : pystr :=
  match dict_get ns k with Some (VStr s) => s | _ => [] end.
Definition number_of (ns : dict value) (k : pystr) : Z :=
  match dict_get ns k with Some (VInt z) => z | _ => 0 end.
Definition namespace (ns : dict value) : Args := {|
  a_kc := text_of ns (u "kc");
  a_jwks_host := text_of ns (u "jwks_host");
  a_jwks_port := number_of ns (u "jwks_port");
  a_runs := number_of ns (u "runs");
  a_rotation_wait := number_of ns (u "rotation_wait")
|}.

Definition main (argv : list pystr) : io ProbeState Z :=
  ns ← lift (parse_args (λ _, None) parser argv);
  run (namespace ns).
End Run.

(** ** What a piece of the script records and sends *)

(** Requests go to paths below [kc], and no other peer is asked. *)
Definition sent_to (kc : pystr) (e : event) : Prop :=
  match e with
  | EvHttp (PostForm url _ _ _) | EvHttp (Request _ url _ _ _) => ∃ path, url = kc ++ u "/" ++ path
  | EvHttp _ | EvDns _ | EvStore _ | EvSchema => False
  | _ => True
  end.

Definition set_all (d recorded : dict (list pystr)) : dict (list pystr) :=
  foldl (λ a kv, dict_set a kv.1 kv.2) d recorded.

Create HintDb probes discriminated.

Section Judgement.
Context `{SC : Script, O : Outside, FR : FloatRepr} (kc : pystr) (n : nat).

(** [m] talks to [kc] only and records nothing, whatever becomes of it. *)
Definition unrecorded {A} (m : io ProbeState A) : Prop := ∀ s r s', m s = (r, s') →
  (∃ new, s'.2 = new ++ s.2 ∧ Forall (sent_to kc) new) ∧ results s'.1 = results s.1.

(** [m] talks to [kc] only, and if it returns it has recorded [n] outcomes for
    each of [ns], in this order. *)
Definition probes {A} (ns : list pystr) (m : io ProbeState A) : Prop := ∀ s r s', m s = (r, s') →
  (∃ new, s'.2 = new ++ s.2 ∧ Forall (sent_to kc) new) ∧
  ∀ a, r = Ok a → ∃ outs, length outs = length ns ∧ Forall (λ o, length o = n) outs ∧
    results s'.1 = set_all (results s.1) (zip ns outs).

Lemma trace_trans t1 t2 t3 :
  (∃ new, t2 = new ++ t1 ∧ Forall (sent_to kc) new) → (∃ new, t3 = new ++ t2 ∧ Forall (sent_to kc) new) →
  ∃ new, t3 = new ++ t1 ∧ Forall (sent_to kc) new.
Proof.
  intros (n1 & -> & F1) (n2 & -> & F2). exists (n2 ++ n1). rewrite app_assoc. split; [done|].
  by apply Forall_app.
Qed.

Lemma unrecorded_keeps {A} (m : io ProbeState A) : keeps (sent_to kc) m → unrecorded m.
Proof. intros H s r s' E. apply H in E as [-> Ht]. by split. Qed.

Lemma unrecorded_bind {A B} (m : io ProbeState A) (f : A → io ProbeState B) :
  unrecorded m → (∀ a, unrecorded (f a)) → unrecorded (m ≫= f).
Proof.
  intros Hm Hf s r s' H. apply run_bind_cases in H as [(e & H & ->)|(a & s1 & H1 & H)]; [by eapply Hm|].
  apply Hm in H1 as [T1 R1]. apply Hf in H as [T2 R2]. split; [by eapply trace_trans|congruence].
Qed.
Lemma unrecorded_try {A} (m : io ProbeState A) caught h :
  unrecorded m → (∀ e, unrecorded (h e)) → unrecorded (try_io m caught h).
Proof.
  intros Hm Hh s r s'. unfold try_io. destruct (m s) as [[a|e] s1] eqn:E.
  - intros [<- <-]%pair_eq. by eapply Hm.
  - destruct (caught e); [|intros [<- <-]%pair_eq; by eapply Hm].
    intros H. apply Hm in E as [T1 R1]. apply Hh in H as [T2 R2]. split; [by eapply trace_trans|congruence].
Qed.
Lemma unrecorded_for {A} (f : A → io ProbeState unit) l : (∀ x, unrecorded (f x)) → unrecorded (for_io f l).
Proof.
  intros Hf. induction l; [by apply unrecorded_keeps, keeps_ret|]. cbn [for_io]. by apply unrecorded_bind.
Qed.
(** Changes of the server's keys and of its counter. *)
Lemma unrecorded_update (f : ProbeState → ProbeState) :
  (∀ st, results (f st) = results st) → unrecorded (st ← get_state; put_state (f st)).
Proof.
  intros Hf s r s'. io_run. intros [_ <-]%pair_eq. cbn [fst snd]. split; [by exists []|apply Hf].
Qed.

(** *** Sequences of probes *)

Lemma probes_unrecorded {A} (m : io ProbeState A) : unrecorded m → probes [] m.
Proof.
  intros H s r s' E. destruct (H s r s' E) as [Ht Hr]. split; [exact Ht|].
  intros a _. exists []. split; [done|]. split; [by apply Forall_nil_2|exact Hr].
Qed.

Lemma probes_bind {A B} ns1 ns2 (m : io ProbeState A) (f : A → io ProbeState B) :
  probes ns1 m → (∀ a, probes ns2 (f a)) → probes (ns1 ++ ns2) (m ≫= f).
Proof.
  intros Hm Hf s r s' H. apply run_bind_cases in H as [(e & H & ->)|(a & s1 & H1 & H)].
  { apply Hm in H as [Ht _]. by split. }
  apply Hm in H1 as [T1 H1]. apply Hf in H as [T2 H2]. split; [by eapply trace_trans|].
  intros b ->. destruct (H1 a eq_refl) as (o1 & L1 & O1 & E1). destruct (H2 b eq_refl) as (o2 & L2 & O2 & E2).
  exists (o1 ++ o2). split; [by rewrite !length_app, L1, L2|]. split; [by apply Forall_app|].
  rewrite E2, E1. unfold set_all. by rewrite zip_with_app, foldl_app by done.
Qed.
(** What records nothing, and what records one probe. *)
Lemma probes_between {A B} ns (m : io ProbeState A) (f : A → io ProbeState B) :
  unrecorded m → (∀ a, probes ns (f a)) → probes ns (m ≫= f).
Proof. intros Hm. apply (probes_bind [] ns). by apply probes_unrecorded. Qed.
Lemma probes_step {A B} name ns (m : io ProbeState A) (f : A → io ProbeState B) :
  probes [name] m → (∀ a, probes ns (f a)) → probes (name :: ns) (m ≫= f).
Proof. apply (probes_bind [name] ns). Qed.

Lemma probes_for {A} (g : A → pystr) (f : A → io ProbeState unit) l :
  (∀ x, probes [g x] (f x)) → probes (g <$> l) (for_io f l).
Proof.
  intros Hf. induction l as [|x l IH]; [by apply probes_unrecorded, unrecorded_keeps, keeps_ret|].
  cbn [for_io fmap list_fmap]. apply probes_step; [apply Hf|intros _; exact IH].
Qed.
End Judgement.

Ltac unrecorded_step :=
  match goal with
  | |- unrecorded _ (_ ≫= _) => apply unrecorded_bind
  | |- unrecorded _ (mret _) => apply unrecorded_keeps, keeps_ret
  | |- unrecorded _ (lift _) => apply unrecorded_keeps, keeps_lift
  | |- unrecorded _ (raise _) => apply unrecorded_keeps, keeps_raise
  | |- unrecorded _ (emit _) => apply unrecorded_keeps, keeps_emit
  | |- unrecorded _ (ask _ _) => apply unrecorded_keeps, keeps_ask
  | |- unrecorded _ time => apply unrecorded_keeps, keeps_ask
  | |- unrecorded _ monotonic => apply unrecorded_keeps, keeps_ask
  | |- unrecorded _ (random _) => apply unrecorded_keeps, keeps_ask
  | |- unrecorded _ (_ <$> _) => apply unrecorded_keeps, keeps_fmap
  | |- unrecorded _ (try_io _ _ _) => apply unrecorded_try
  | |- unrecorded _ (for_io _ _) => apply unrecorded_for
  | |- unrecorded _ (match ?x with _ => _ end) => destruct x eqn:?
  end.
Ltac unrecorded_tac :=
  repeat first [ progress intros | unrecorded_step | solve [eauto 3 with probes] | exact I ].

Section Calls.
Context `{SC : Script, O : Outside, FR : FloatRepr} (p : Probe).
Context (Htoken : ∃ path, token_endpoint p = p_kc p ++ u "/" ++ path).
Local Abbreviation unrecorded := (unrecorded (p_kc p)).

Lemma print_unrecorded text : unrecorded (print text).
Proof using Type. by apply unrecorded_keeps, keeps_emit. Qed.
Lemma set_keys_unrecorded keys : unrecorded (set_keys keys).
Proof using Type. by apply unrecorded_update. Qed.
Lemma add_hit_unrecorded : unrecorded add_hit.
Proof using Type. by apply unrecorded_update. Qed.
Hint Resolve print_unrecorded set_keys_unrecorded add_hit_unrecorded : probes.

Lemma fetch_unrecorded : unrecorded fetch.
Proof using Type.
  unfold fetch, do_GET. unrecorded_tac. by apply unrecorded_keeps; intros s r s' [<- <-]%pair_eq; split; [|exists []].
Qed.
Lemma waiting_unrecorded : unrecorded waiting.
Proof using Type.
  intros s r s'. unfold waiting. generalize (fetches s.2). intros k. revert s r s'.
  change (unrecorded (fetch_times k)). induction k as [|k IH]; cbn [fetch_times]; unrecorded_tac.
  apply fetch_unrecorded.
Qed.
Lemma request_unrecorded r : sent_to (p_kc p) (EvHttp r) → unrecorded (request r).
Proof using Type.
  intros Hr. unfold request, send. apply unrecorded_bind; [apply waiting_unrecorded|intros _].
  apply unrecorded_bind; [by apply unrecorded_keeps, keeps_ask|]. unrecorded_tac.
Qed.
Lemma sleep_unrecorded seconds : unrecorded (sleep seconds).
Proof using Type. unfold sleep. unrecorded_tac. apply waiting_unrecorded. Qed.
Hint Resolve sleep_unrecorded : probes.

Lemma raise_for_status_unrecorded r : unrecorded (raise_for_status r).
Proof using Type. unfold raise_for_status. unrecorded_tac. Qed.
Lemma json_of_unrecorded r : unrecorded (json_of r).
Proof using Type. unfold json_of. unrecorded_tac. Qed.
Hint Resolve raise_for_status_unrecorded json_of_unrecorded : probes.

Lemma login_unrecorded url form : (∃ path, url = p_kc p ++ u "/" ++ path) → unrecorded (login url form).
Proof using Type. intros H. unfold login. apply unrecorded_bind; [by apply request_unrecorded|]. unrecorded_tac. Qed.

Lemma admin_unrecorded method path token params body : unrecorded (admin p method path token params body).
Proof using Type.
  unfold admin, or_admin, admin_token. apply unrecorded_bind.
  - unrecorded_tac; apply login_unrecorded; by eexists.
  - intros t. apply request_unrecorded. by eexists.
Qed.
Hint Resolve admin_unrecorded : probes.

Lemma admin_get_unrecorded path params : unrecorded (admin_get p path params).
Proof using Type. unfold admin_get. unrecorded_tac. Qed.
Lemma admin_send_unrecorded method path body : unrecorded (admin_send p method path body).
Proof using Type. unfold admin_send. unrecorded_tac. Qed.
Hint Resolve admin_get_unrecorded admin_send_unrecorded : probes.

Lemma client_uuid_unrecorded client_id : unrecorded (client_uuid p client_id).
Proof using Type. unfold client_uuid. unrecorded_tac. Qed.
Lemma user_id_unrecorded username : unrecorded (user_id p username).
Proof using Type. unfold user_id. unrecorded_tac. Qed.
Lemma scope_id_unrecorded name : unrecorded (scope_id p name).
Proof using Type. unfold scope_id. unrecorded_tac. Qed.
Hint Resolve client_uuid_unrecorded user_id_unrecorded scope_id_unrecorded : probes.

Lemma setup_realm_unrecorded : unrecorded (setup_realm p).
Proof using Type. unfold setup_realm, setup_scope, offer_scope. unrecorded_tac. Qed.
Lemma add_org_member_unrecorded org member : unrecorded (add_org_member p org member).
Proof using Type. unfold add_org_member. unrecorded_tac. Qed.
Hint Resolve setup_realm_unrecorded add_org_member_unrecorded : probes.
Lemma setup_organizations_unrecorded : unrecorded (setup_organizations p).
Proof using Type. unfold setup_organizations, setup_organization. unrecorded_tac. Qed.
Lemma set_user_enabled_unrecorded username enabled : unrecorded (set_user_enabled p username enabled).
Proof using Type. unfold set_user_enabled. unrecorded_tac. Qed.
Lemma set_client_attr_unrecorded client_id key value : unrecorded (set_client_attr p client_id key value).
Proof using Type. unfold set_client_attr. unrecorded_tac. Qed.
Lemma grant_role_unrecorded role : unrecorded (grant_proxy_admin_role p role).
Proof using Type. unfold grant_proxy_admin_role. unrecorded_tac. Qed.
Lemma clear_keys_cache_unrecorded : unrecorded (clear_keys_cache p).
Proof using Type. unfold clear_keys_cache. unrecorded_tac. Qed.
Hint Resolve setup_organizations_unrecorded set_user_enabled_unrecorded set_client_attr_unrecorded
  grant_role_unrecorded clear_keys_cache_unrecorded : probes.

Lemma link_now_unrecorded user : unrecorded (link_now p user).
Proof using Htoken.
  unfold link_now, link, proxy_admin_token. apply unrecorded_bind; [by apply login_unrecorded|]. unrecorded_tac.
Qed.
Lemma unlink_unrecorded user : unrecorded (unlink p user).
Proof using Type. unfold unlink. unrecorded_tac. Qed.

Lemma assertion_unrecorded k sub exp_in kid aud jti iss : unrecorded (assertion p k sub exp_in kid aud jti iss).
Proof using Type.
  unfold assertion. assert (H : keeps (sent_to (p_kc p)) (uuid4 (X := ProbeState))).
  { unfold uuid4. apply keeps_bind; [by apply keeps_ask|intros; apply keeps_ret]. }
  unrecorded_tac; exact H.
Qed.
Lemma grant_unrecorded a client scope : unrecorded (grant p a client scope).
Proof using Htoken.
  unfold grant. apply unrecorded_bind; [by apply request_unrecorded|]. unrecorded_tac.
Qed.
Hint Resolve link_now_unrecorded unlink_unrecorded assertion_unrecorded grant_unrecorded : probes.

Lemma granted_unrecorded line a client scope : unrecorded a → unrecorded (granted p line a client scope).
Proof using Htoken. intros Ha. unfold granted. apply unrecorded_bind; [exact Ha|]. unrecorded_tac. Qed.
Lemma plain_unrecorded k sub : unrecorded (plain p k sub).
Proof using Type. apply assertion_unrecorded. Qed.
Hint Resolve granted_unrecorded plain_unrecorded : probes.
Lemma summary_unrecorded k sub scope : unrecorded (summary p k sub scope).
Proof using Htoken. apply granted_unrecorded, plain_unrecorded. Qed.
Lemma claims_unrecorded k sub scope : unrecorded (claims p k sub scope).
Proof using Htoken. apply granted_unrecorded, plain_unrecorded. Qed.
Hint Resolve summary_unrecorded claims_unrecorded : probes.

Lemma link_line_unrecorded user : unrecorded (link_line p user).
Proof using Htoken. unfold link_line. unrecorded_tac. Qed.
Lemma link_then_unlink_unrecorded user : unrecorded (link_then_unlink p user).
Proof using Htoken. unfold link_then_unlink. unrecorded_tac. Qed.
Lemma assert_linked_unrecorded user : unrecorded (assert_linked p user).
Proof using Htoken. unfold assert_linked. unrecorded_tac. Qed.
Lemma disabled_unrecorded k sub : unrecorded (disabled p k sub).
Proof using Htoken. unfold disabled. unrecorded_tac. Qed.
Lemma reuse_unrecorded k sub : unrecorded (reuse p k sub).
Proof using Htoken.
  unfold reuse. unrecorded_tac; apply granted_unrecorded; unrecorded_tac.
Qed.
Hint Resolve link_line_unrecorded link_then_unlink_unrecorded assert_linked_unrecorded disabled_unrecorded
  reuse_unrecorded : probes.

(** *** The list of probes *)

Context (args : Args).
Local Abbreviation probes := (probes (p_kc p) (Z.to_nat (a_runs args))).

Lemma record_probes name fn : unrecorded fn → probes [name] (record args name fn).
Proof using Type.
  intros Hfn. unfold record. set (n := Z.to_nat (a_runs args)).
  assert (Hrep : ∀ k, unrecorded (repeat_io k fn) ∧ ∀ s a s', repeat_io k fn s = (Ok a, s') → length a = k).
  { intros k. induction k as [|k [IH Hl]]; cbn [repeat_io].
    - split; [unrecorded_tac|]. by intros s a s' [[= <-] _]%pair_eq.
    - split; [unrecorded_tac|]. intros s a s' H.
      apply run_bind_Ok in H as (o & s1 & _ & H). apply run_bind_Ok in H as (os & s2 & H2 & H).
      apply pair_eq in H as [<-%Ok_inj _]. cbn. f_equal. by eapply Hl. }
  destruct (Hrep n) as [Hq Hlen]. intros s r s' H.
  apply run_bind_cases in H as [(e & H & ->)|(outs & s1 & H1 & H)].
  { apply Hq in H as [Ht _]. by split. }
  pose proof (Hlen _ _ _ H1) as Hl. apply Hq in H1 as [T1 R1].
  apply run_bind_cases in H as [(e & [=] & _)|([] & s2 & H2 & H)].
  assert (E2 : s2.2 = s1.2 ∧ results s2.1 = dict_set (results s1.1) name outs).
  { revert H2. unfold set_result. io_run. by intros [_ <-]%pair_eq. }
  destruct E2 as [E2 R2]. rewrite <-E2 in T1.
  assert (Hrest : unrecorded (print (u "[" ++ (if agree outs then u "agree" else u "DISAGREE") ++ u "] " ++ name);;
    for_io print_outcome (zip (seq 1 (length outs)) outs))) by (unfold print_outcome; unrecorded_tac).
  apply Hrest in H as [T3 R3]. split; [by eapply trace_trans|].
  intros a _. exists [outs]. split; [done|]. split; [by apply Forall_singleton|].
  rewrite R3, R2, R1. done.
Qed.
Hint Resolve record_probes : probes.

(** Follow a sequence of probes. *)
Ltac probes_tac :=
  repeat first
    [ progress intros
    | solve [eauto 3 with probes]
    | match goal with
      | |- context [_ ≫= _] => apply probes_between; [solve [eauto 2 with probes]|]
      | |- context [_ ≫= _] => apply probes_step; [solve [eauto 3 with probes]|]
      | |- _ => apply probes_unrecorded; solve [eauto 2 with probes]
      end ].

(** The names, in the order of the run. *)
Definition link_names : list pystr :=
  [u "3a link alice with no realm-management role"; u "3b link alice with view-users";
   u "3c link carol with manage-users (then unlinked again)"].
Definition user_names : list pystr :=
  [u "2 alice, key A, no scope"; u "3d carol unlinked, sub = her Keycloak id";
   u "3e sub = username 'alice' (link carries the Keycloak id)"].
Definition scope_names : list pystr :=
  (scope_name <$> [u "set-memory"; u "set-dispatch"; u "set-memory set-dispatch"]) ++
  [u "4 bob scope='set-memory set-dispatch' (bob holds no dispatch-executor)";
   u "4 alice scope='offline_access' (offline scope on the jwt grant)";
   u "4 alice scope='set-unknown'"; u "4 client up-y (grant not enabled there)"].
Definition refusal_names : list pystr :=
  [u "5a alice disabled"; u "5a' alice re-enabled"; u "5b foreign key, own kid";
   u "5b' foreign key, spoofed kid of key A"; u "5c expired assertion (exp = now - 5)";
   u "5d assertion lifetime above the IdP maximum (exp = now + 3600)"; u "5e same assertion twice";
   u "5f wrong issuer"].
Definition rotation_names : list pystr :=
  [u "7a JWKS {A, A2} at once: new key A2"; u "7b JWKS {A, A2} after " ++ wait_text args ++ u ": new key A2";
   u "7c JWKS {A, A2}: old key A"; u "7d JWKS {A2} after " ++ wait_text args ++ u ": removed key A";
   u "7e JWKS {A2} after clear-keys-cache: removed key A"; u "7f JWKS {A2} after clear-keys-cache: key A2"].
Definition tenant_names : list pystr :=
  [u "8a alice (member of tenant-a), no scope"; u "8b alice, scope='organization:tenant-b' (not a member)";
   u "8c bob (member of tenant-b), no scope"; u "8d alice member of tenant-a and tenant-b, no scope";
   u "8e alice member of both, scope='organization:tenant-a'";
   u "8f client up-y without the organization scope, scope='organization:tenant-a'"].
Definition probe_names : list pystr :=
  link_names ++ user_names ++ scope_names ++ refusal_names ++ (lifespan_name <$> [u "60"; u "300"]) ++
  rotation_names ++ tenant_names.

Lemma links_probes : probes link_names (probe_links args p).
Proof using Htoken. unfold probe_links, link_names. probes_tac. Qed.
Lemma users_probes k alice carol : probes user_names (probe_users args p k alice carol).
Proof using Htoken. unfold probe_users, user_names. probes_tac. Qed.
Lemma scopes_probes k alice bob : probes scope_names (probe_scopes args p k alice bob).
Proof using Htoken.
  unfold probe_scopes, scope_names. apply probes_bind; [apply probes_for|]; probes_tac.
Qed.
Lemma refusals_probes ka kb alice : probes refusal_names (probe_refusals args p ka kb alice).
Proof using Htoken. unfold probe_refusals, refusal_names. probes_tac. Qed.
Lemma rotation_probes ka ka2 alice : probes rotation_names (probe_rotation args p ka ka2 alice).
Proof using Htoken. unfold probe_rotation, rotation_names. probes_tac. Qed.
Lemma tenants_probes k alice bob : probes tenant_names (probe_tenants args p k alice bob).
Proof using Htoken. unfold probe_tenants, tenant_names. probes_tac. Qed.

Lemma all_probes_probes ka kb ka2 : probes probe_names (all_probes args p ka kb ka2).
Proof using Htoken.
  unfold all_probes, probe_names. do 4 (apply probes_between; [solve [eauto 2 with probes]|intros ?]).
  apply probes_bind; [apply links_probes|intros _]. apply probes_bind; [apply users_probes|intros _].
  apply probes_bind; [apply scopes_probes|intros _]. apply probes_bind; [apply refusals_probes|intros _].
  apply probes_bind; [|intros _; apply probes_bind; [apply rotation_probes|intros _; apply tenants_probes]].
  apply probes_for. intros x. unfold probe_lifespan. probes_tac.
Qed.

(** No name is used twice: the two that contain the waiting time start
    differently. *)
Lemma probe_names_nodup : NoDup probe_names.
Proof using Type.
  set (cut := λ name, if startswith name (u "7") then take 12 name else name).
  apply (NoDup_fmap_1 cut). apply (bool_decide_unpack _). vm_compute. exact I.
Qed.
End Calls.

(** ** The run *)

Section Verdict.
Context `{SC : Script, O : Outside, FR : FloatRepr}.

Lemma set_all_names ns (outs : list (list pystr)) :
  NoDup ns → length outs = length ns → set_all [] (zip ns outs) = zip ns outs ∧ (zip ns outs).*1 = ns.
Proof using Type.
  intros Hnd Hl. assert (Hz : (zip ns outs).*1 = ns) by (apply fst_zip; lia). split; [|exact Hz].
  unfold set_all. rewrite foldl_dict_set; [done|]. cbn [app]. by rewrite Hz.
Qed.

Lemma agree_spec outcomes :
  agree outcomes = true ↔ outcomes ≠ [] ∧ ∀ a b, a ∈ outcomes → b ∈ outcomes → a = b.
Proof using Type.
  unfold agree. rewrite Nat.eqb_eq.
  assert (Hin : ∀ x, x ∈ remove_dups outcomes ↔ x ∈ outcomes) by (intros; apply elem_of_remove_dups).
  pose proof (NoDup_remove_dups outcomes) as Hnd.
  destruct (remove_dups outcomes) as [|a [|b l]] eqn:E; cbn [length].
  - split; [done|]. intros [Hne _]. destruct outcomes as [|x l]; [done|].
    exfalso. apply (not_elem_of_nil x), Hin. by left.
  - split; [|done]. intros _. split; [intros ->; discriminate E|].
    intros x y Hx%Hin%list_elem_of_singleton Hy%Hin%list_elem_of_singleton. congruence.
  - split; [done|]. intros [_ Heq]. exfalso. apply NoDup_cons in Hnd as [Hn _].
    apply Hn. rewrite (Heq a b); [by left|apply Hin; by left|apply Hin; right; by left].
Qed.

Lemma disagreements_nil found :
  disagreements found = [] ↔ Forall (λ kv, agree kv.2 = true) found.
Proof using Type.
  unfold disagreements. induction found as [|[k v] found IH]; [by rewrite Forall_nil|].
  cbn [List.filter snd]. rewrite Forall_cons. cbn [snd]. destruct (agree v); cbn [negb]; [rewrite IH; tauto|].
  split; [done|]. by intros [? _].
Qed.

(** The verdict changes nothing and says whether all agree. *)
Lemma verdict_run kc s r s' :
  verdict s = (r, s') →
  (∃ new, s'.2 = new ++ s.2 ∧ Forall (sent_to kc) new) ∧ s'.1 = s.1 ∧
  r = Ok (if bool_decide (disagreements (results s.1) = []) then 0 else 1).
Proof using Type.
  unfold verdict, print. io_run. destruct (disagreements (results s.1)); io_run; intros [<- <-]%pair_eq.
  - split; [by eexists [_]; repeat constructor|by rewrite bool_decide_true].
  - split; [by eexists [_; _]; repeat constructor|by rewrite bool_decide_false].
Qed.

(** Before the first probe: the keys, and nothing recorded. *)
Definition prepare (args : Args) : io ProbeState (Key * Key * Key) :=
  new_server (a_jwks_port args);;
  key_a ← new_key (u "proxy-2026-a");
  key_b ← new_key (u "foreign");
  key_a2 ← new_key (u "proxy-2026-b");
  set_keys [key_a];;
  mret (key_a, key_b, key_a2).

Lemma prepare_run kc args s r s' :
  prepare args s = (r, s') →
  (∃ new, s'.2 = new ++ s.2 ∧ Forall (sent_to kc) new) ∧ results s'.1 = [].
Proof using Type.
  unfold prepare, new_server, new_key, set_keys. io_run.
  destruct (bind_error _ _); io_run; intros [_ <-]%pair_eq; cbn [fst snd]; (split; [|done]).
  - by eexists [_; _]; repeat constructor.
  - by eexists [_; _; _; _; _]; repeat constructor.
Qed.

Lemma run_split args s :
  run args s = (keys ← prepare args;
    let '(key_a, key_b, key_a2) := keys in
    all_probes args (new_probe (a_kc args) (jwks_url args)) key_a key_b key_a2;; verdict) s.
Proof using Type.
  unfold run, prepare, new_server, new_key, set_keys. io_run. by destruct (bind_error _ _).
Qed.

Lemma run_spec args s r s' :
  run args s = (r, s') →
  (∃ new, s'.2 = new ++ s.2 ∧ Forall (sent_to (rstrip_slash (a_kc args))) new) ∧
  ∀ code, r = Ok code →
    (results s'.1).*1 = probe_names args ∧
    Forall (λ kv, length kv.2 = Z.to_nat (a_runs args)) (results s'.1) ∧
    code = (if bool_decide (disagreements (results s'.1) = []) then 0 else 1).
Proof using Type.
  rewrite run_split. intros H. set (p := new_probe (a_kc args) (jwks_url args)) in *.
  change (rstrip_slash (a_kc args)) with (p_kc p).
  assert (Htok : ∃ path, token_endpoint p = p_kc p ++ u "/" ++ path).
  { eexists. subst p. unfold new_probe. cbn [token_endpoint p_kc]. rewrite <-app_assoc. reflexivity. }
  apply run_bind_cases in H as [(e & H & ->)|([[ka kb] ka2] & s1 & H1 & H)].
  { apply (prepare_run (p_kc p)) in H as [Ht _]. by split. }
  apply (prepare_run (p_kc p)) in H1 as [T1 R1]. pose proof (all_probes_probes p Htok args ka kb ka2) as Hall.
  apply run_bind_cases in H as [(e & H & ->)|([] & s2 & H2 & H)].
  { apply Hall in H as [Ht _]. split; [by eapply trace_trans|done]. }
  apply Hall in H2 as [T2 H2]. destruct (H2 tt eq_refl) as (outs & Hl & Ho & R2).
  destruct (verdict_run (p_kc p) _ _ _ H) as (T3 & E3 & ->).
  split; [eapply trace_trans; [exact T1|]; by eapply trace_trans|].
  intros code <-%Ok_inj. rewrite R1 in R2.
  destruct (set_all_names (probe_names args) outs (probe_names_nodup args) Hl) as [Ez Hz].
  rewrite E3. rewrite R2, Ez. split; [exact Hz|]. split; [|done].
  apply Forall_forall. intros kv Hkv. rewrite Forall_forall in Ho. apply Ho.
  destruct kv as [k v]. by apply elem_of_zip_r in Hkv.
Qed.

(** The verdict of the measurement.  A run that ends has recorded each of
    its 35 probes exactly once -- no later probe overwrites an earlier one --,
    every one with the number of outcomes asked for.  Its exit code is 0 or 1,
    and it is 0 exactly if every probe ran at least once and all of its outcomes
    are the same text; so with no runs asked for the script never reports
    success. *)
Theorem run_verdict args s code s' :
  run args s = (Ok code, s') →
  (results s'.1).*1 = probe_names args ∧ NoDup (probe_names args) ∧ length (probe_names args) = 35%nat ∧
  Forall (λ kv, length kv.2 = Z.to_nat (a_runs args)) (results s'.1) ∧
  (code = 0 ∨ code = 1) ∧
  (code = 0 ↔ 0 < a_runs args ∧
    ∀ name outcomes a b, (name, outcomes) ∈ results s'.1 → a ∈ outcomes → b ∈ outcomes → a = b).
Proof using Type.
  intros H. destruct (run_spec _ _ _ _ H) as [_ Hrun]. destruct (Hrun code eq_refl) as (Hn & Hl & Hcode).
  split; [exact Hn|]. split; [apply probe_names_nodup|]. split; [reflexivity|]. split; [exact Hl|].
  split; [subst code; case_bool_decide; auto|].
  assert (Hc : code = 0 ↔ Forall (λ kv, agree kv.2 = true) (results s'.1)).
  { rewrite <-disagreements_nil. subst code. case_bool_decide; naive_solver. }
  rewrite Hc. clear Hc Hcode Hrun H. rewrite Forall_forall in Hl |- *. setoid_rewrite agree_spec. split.
  - intros Ha. split.
    + assert (Hx : ∃ kv, kv ∈ results s'.1).
      { destruct (results s'.1) as [|kv l]; [discriminate Hn|]. exists kv. by left. }
      destruct Hx as [kv Hkv]. destruct (Ha kv Hkv) as [Hne _]. specialize (Hl kv Hkv).
      destruct kv.2; [done|]. cbn in Hl. lia.
    + intros name outcomes a b Hkv. by apply (Ha _ Hkv).
  - intros [Hr Heq] [k v] Hkv. specialize (Hl _ Hkv). cbn [snd] in *. split; [|by eauto].
    intros ->. cbn in Hl. lia.
Qed.

(** Whatever Keycloak answers, the script sends every request -- with the
    administrator's password, the client secrets, the assertions -- to paths
    below the base URL it was given, and to nobody else. *)
Theorem run_destinations args s r s' :
  run args s = (r, s') →
  ∃ new, s'.2 = new ++ s.2 ∧ Forall (sent_to (rstrip_slash (a_kc args))) new.
Proof using Type. intros H. by destruct (run_spec _ _ _ _ H) as [Ht _]. Qed.

(** ** The disabled user *)

Definition enables (value : bool) (e : event) : Prop :=
  ∃ url headers d, e = EvHttp (Request (u "PUT") url [] headers (Some (JObj d))) ∧
    dict_get d (u "enabled") = Some (JBool value).

Lemma request_last r s y s' : request r s = (Ok y, s') → ∃ rest, s'.2 = EvHttp r :: rest.
Proof using Type.
  unfold request, send. intros ([] & s1 & _ & H)%run_bind_Ok. apply run_bind_Ok in H as (x & s2 & H2 & H).
  apply pair_eq in H2 as [_ <-]. destruct x as [[n m]|y']; apply pair_eq in H as [H <-]; [discriminate H|by eexists].
Qed.

Lemma set_user_enabled_last p username value s s' :
  set_user_enabled p username value s = (Ok tt, s') → ∃ e rest, s'.2 = e :: rest ∧ enables value e.
Proof using Type.
  unfold set_user_enabled. intros (uid & s1 & _ & H)%run_bind_Ok.
  apply run_bind_Ok in H as (rep & s2 & _ & H). apply run_bind_Ok in H as (rep' & s3 & H3 & H).
  apply pair_eq in H3 as [H3 _]. unfold setitem in H3. destruct rep as [| | | | | |d]; try discriminate H3.
  apply Ok_inj in H3 as <-. unfold admin_send, admin in H.
  apply run_bind_Ok in H as (y & s4 & H4 & H). apply run_bind_Ok in H4 as (t & s5 & _ & H4).
  apply request_last in H4 as [rest Hrest].
  assert (E : s' = s4).
  { unfold raise_for_status in H. destruct (_ && _) in H; apply pair_eq in H as [H <-]; [done|discriminate H]. }
  subst s'. eexists _, rest. split; [exact Hrest|]. eexists _, _, _. split; [reflexivity|]. apply dict_get_set_eq.
Qed.

(** The probe that disables alice.  Once the disabling call returned, the call
    that enables her runs, whether the grant in between returned or raised.  If
    that call returns, the last event is the request that puts [enabled] to true,
    and the probe ends as the grant did; if it raises, the probe raises that. *)
Theorem disabled_restores p key_a alice s r s' :
  disabled p key_a alice s = (r, s') →
  (∃ e, set_user_enabled p (u "alice") false s = (Raise e, s') ∧ r = Raise e) ∨
  ∃ s1 s2 outcome, set_user_enabled p (u "alice") false s = (Ok tt, s1) ∧
    summary p key_a alice None s1 = (outcome, s2) ∧
    ((∃ e, set_user_enabled p (u "alice") true s2 = (Raise e, s') ∧ r = Raise e) ∨
     (r = outcome ∧ ∃ e rest, s'.2 = e :: rest ∧ enables true e)).
Proof using Type.
  unfold disabled. intros [(e & H & ->)|([] & s1 & H1 & H)]%run_bind_cases; [by left; exists e|]. right.
  destruct (summary p key_a alice None s1) as [outcome s2] eqn:E. exists s1, s2, outcome.
  split; [done|]. split; [done|].
  apply run_bind_cases in H as [(e & H & ->)|(line & s3 & H3 & H)].
  - unfold try_io in H. rewrite E in H. destruct outcome as [l|e0]; [by apply pair_eq in H as [H _]|].
    apply run_bind_cases in H as [(e1 & H & [= ->])|([] & s3 & H3 & H)]; [by left; exists e1|].
    right. apply pair_eq in H as [[= ->] <-]. split; [done|]. by apply set_user_enabled_last in H3.
  - assert (Ho : outcome = Ok line ∧ s3 = s2).
    { unfold try_io in H3. rewrite E in H3. destruct outcome as [l|e0].
      - apply pair_eq in H3 as [[= ->] <-]. done.
      - apply run_bind_Ok in H3 as (? & ? & _ & H3). by apply pair_eq in H3 as [H3 _]. }
    destruct Ho as [-> ->].
    apply run_bind_cases in H as [(e1 & H & ->)|([] & s4 & H4 & H)]; [by left; exists e1|].
    right. apply pair_eq in H as [<- <-]. split; [done|]. by apply set_user_enabled_last in H4.
Qed.
End Verdict.

(** ** An example *)
Module ProbeRunExamples.
Import AssertionExamples.
#[local] Existing Instances toy_rsa toy_rsa_laws.
#[local] Instance plain_floats : FloatRepr := λ s, s.

(** One fetch of the JWKS per request, a small realm file, keys by their number. *)
#[local] Instance toy_script : Script := {|
  generate_private_key t := (2 ^ 16 + N.of_nat (length t))%N;
  rsp_text _ := []; status_message _ := [];
  realm_json := Ok (dumps (JObj [(u "identityProviders", JArr [JObj [(u "config", JObj [])]])]));
  bind_error _ _ := None; fetches _ := 1%nat; tenths _ := u "0.0";
  float_lt _ _ := false; float_eq _ _ := false; float_minus _ _ := []
|}.

(** A Keycloak that knows one user, one client and the scopes, and refuses every
    assertion with [refusal] of the number of events so far. *)
Definition named (name : string) : json := JObj [(u "name", JStr (u name)); (u "id", JStr (u "id-1"))].
Definition keycloak (refusal : nat → pystr) (t : trace) (r : http_request) : (pystr * pystr) + http_response :=
  match r with
  | PostForm _ form _ _ =>
      if dict_mem form (u "assertion")
      then inr {| rsp_status := 400; rsp_json := Some (JObj [(u "error", JStr (u "invalid_grant"));
             (u "error_description", JStr (refusal (length t)))]) |}
      else inr {| rsp_status := 200; rsp_json := Some (JObj [(u "access_token", JStr (u "t"))]) |}
  | Request method url params _ _ =>
      if bool_decide (method = u "GET") then
        inr {| rsp_status := 200; rsp_json := Some
          (if contains url (u "client-scopes") then JArr [named "set-memory"; named "set-dispatch"; named "organization"]
           else match params with [] => named "one" | _ => JArr [named "one"] end) |}
      else inr {| rsp_status := if contains url (u "/federated-identity/") then 204 else 201; rsp_json := None |}
  | _ => inl (u "ConnectError", u "refused")
  end.
Definition local_world (refusal : nat → pystr) : Outside := {|
  o_time _ := 1000; o_now _ := 1000000000; o_monotonic _ := 1000000000;
  o_random _ k := replicate k 7%N; o_dns _ _ := GaiError; o_http := keycloak refusal;
  o_stream _ _ := inl (u "ConnectError", u "refused"); o_db _ _ := DbRuns; o_schema _ := None;
  o_pool _ := None; o_db_now _ := 1000000000; o_db_zone _ := 0
|}.

Definition args : Args := {| a_kc := u "http://localhost:18080/"; a_jwks_host := u "host.docker.internal";
  a_jwks_port := 18099; a_runs := 2; a_rotation_wait := 15 |}.
Definition nothing : ProbeState := {| jwks_keys := []; jwks_hits := 0; jwks_started := 0; results := [] |}.

Example default_args : namespace <$> parse_args (λ _, None) parser [] = Ok {|
  a_kc := u "http://localhost:18080"; a_jwks_host := u "host.docker.internal";
  a_jwks_port := 18099; a_runs := 2; a_rotation_wait := 15 |}.
Proof. reflexivity. Qed.
Example some_args : a_runs <$> (namespace <$> parse_args (λ _, None) parser [u "--runs=7"; u "--kc"; u "http://kc"]) = Ok 7.
Proof. reflexivity. Qed.
Example no_args : parse_args (λ _, None) parser [u "--runs"; u "many"] = Raise exits.
Proof. reflexivity. Qed.

Definition same (_ : nat) : pystr := u "User not found".
Definition counted (k : nat) : pystr := str_of_Z (Z.of_nat k).

Example run_agrees : (run (O := local_world same) args (nothing, [])).1 = Ok 0.
Proof. vm_compute. reflexivity. Qed.
Example run_disagrees : (run (O := local_world counted) args (nothing, [])).1 = Ok 1.
Proof. vm_compute. reflexivity. Qed.

(** Without a run nothing is measured, and the script says so. *)
Example no_runs : (run (O := local_world same) {| a_kc := a_kc args; a_jwks_host := a_jwks_host args;
  a_jwks_port := 18099; a_runs := 0; a_rotation_wait := 15 |} (nothing, [])).1 = Ok 1.
Proof. vm_compute. reflexivity. Qed.

Lemma run_verdict_witness :
  ∃ s', run (O := local_world same) args (nothing, []) = (Ok 0, s') ∧
    length (results s'.1) = 35%nat ∧
    ∀ name outcomes a b, (name, outcomes) ∈ results s'.1 → a ∈ outcomes → b ∈ outcomes → a = b.
Proof.
  destruct (run (O := local_world same) args (nothing, [])) as [r s'] eqn:E.
  assert (Hr : r = Ok 0) by (change r with (r, s').1; rewrite <-E; exact run_agrees). subst r.
  destruct (run_verdict (O := local_world same) args (nothing, []) 0 s' E) as (Hn & _ & Hl & _ & _ & Hc).
  exists s'. split; [reflexivity|]. split; [|exact (proj2 (proj1 Hc eq_refl))].
  rewrite <-Hl, <-Hn. symmetry. apply length_map.
Defined.

Lemma run_destinations_witness :
  ∃ new, (run (O := local_world same) args (nothing, [])).2.2 = new ++ [] ∧
    Forall (sent_to (u "http://localhost:18080")) new.
Proof.
  destruct (run (O := local_world same) args (nothing, [])) as [r s'] eqn:E.
  exact (run_destinations (O := local_world same) args (nothing, []) r s' E).
Defined.

Definition key_a : Key := {| k_kid := u "proxy-2026-a"; k_private := (2 ^ 16)%N |}.
Lemma disabled_restores_witness :
  ∃ s' e rest, disabled (O := local_world same) (new_probe (a_kc args) (jwks_url args)) key_a (JStr (u "id-1")) (nothing, [])
      = (Ok (u "400 invalid_grant 'User not found'"), s') ∧ s'.2 = e :: rest ∧ enables true e.
Proof.
  destruct (disabled (O := local_world same) (new_probe (a_kc args) (jwks_url args)) key_a (JStr (u "id-1")) (nothing, []))
    as [r s'] eqn:E.
  assert (Hr : r = Ok (u "400 invalid_grant 'User not found'")).
  { change r with (r, s').1. rewrite <-E. vm_compute. reflexivity. }
  destruct (disabled_restores (O := local_world same) _ key_a (JStr (u "id-1")) (nothing, []) r s' E)
    as [(e & _ & He)|(s1 & s2 & o & _ & _ & [(e & _ & He)|(_ & e & rest & Hs & He)])].
  - rewrite Hr in He. discriminate He.
  - rewrite Hr in He. discriminate He.
  - exists s', e, rest. split; [by rewrite Hr|]. split; [exact Hs|exact He].
Defined.
End ProbeRunExamples.
